(* ===== verification/_CoqProject ===== *)
-Q . S2P
Prelude.v
GoInt.v
GoFloat.v
GoStrings.v
GoParse.v
Json.v
Sha256.v
Pem.v
Apis.v
Samples.v
Probe.v
ProbeDocument.v
ProbeCache.v
Config.v
ConfigLoad.v
Measurement.v
Ping.v
Traceroute.v
Ntp.v
Dns.v
Http.v
Sslcert.v
Kinds.v
Fingerprints.v
Exporting.v
Helper.v
Lookups.v
ProbesForResults.v
RequestStrategy.v
StreamWorker.v
StreamStrategy.v
EndToEnd.v
Strategies.v
StreamSystem.v
StreamShutdown.v
Metrics.v
Query.v
ServeMux.v
Main.v
Exposition.v
Scrape.v
LiveScrape.v
RequestScrape.v
