(* ===== verification/Prelude.v ===== *)
(** * Verification of atlas_exporter

    atlas_exporter gets measurement results from RIPE Atlas and exposes them
    as Prometheus metrics.  A strategy (src/atlas) gets the results, either by
    a request per scrape or from a stream that is kept open; for each
    measurement an object (src/exporter) keeps the latest result of every
    probe; six packages (src/ping, traceroute, ntp, dns, http, sslcert) know
    how results of their type become samples; the probes' descriptions come
    from the Atlas API through a cache (src/probe); src/config reads the
    configuration, and the main package serves the metrics.

    ** The files

    - Prelude: outcomes of Go calls (a value or a panic), calls that return an
      error, a state monad in which what was written before a panic stays
      written, loops, tactics and hints.
    - GoInt, GoFloat, GoStrings, GoParse: what the sources use of Go and its
      standard library: 64- and 32-bit arithmetic with wrap-around, Itoa and
      Atoi; IEEE 754 binary64 with conversion, truncation and formatting with
      four digits; strings as byte strings (upper and lower case of ASCII
      letters, which is all that configuration names and hexadecimal text
      need), Split, Join and hexadecimal; ParseFloat.
    - Json (encoding/json): a parser for JSON text with strings in UTF-8, its
      fuel, and that it reads back what was written.  Sha256 (crypto/sha256),
      with the published test values.  Pem (encoding/pem, encoding/base64).
      Query (net/url): the query of a request.  ServeMux (net/http): patterns,
      which do not parse and which conflict.
    - Apis: the Atlas client and the Prometheus client as classes, with the
      documented laws of the latter in [PromLaws]; Samples: instances of both,
      for the witnesses.
    - Probe (probe.go, probe_request.go): the type, its accessors with their
      panics, the decoding of a document member by member, the request.
      ProbeDocument: theorems about documents.
    - ProbeCache (cache.go): modules [Cache], the code; [Spec], the log of
      additions; [Run], interleavings of additions, clock ticks and the two
      halves of CleanUp, which runs its scan without the lock.
    - Config (types.go, defaults.go, loader.go) and ConfigLoad (Load), where
      koanf, its providers, YAML and mapstructure are parameters.
    - Measurement (exporter/*.go): the object, with [World] for what an export
      touches outside it (the metric channel and certFingerprint), the
      interfaces as records and the class [LawfulExporter], what the other
      parts rely on.
    - Ping, Traceroute, Ntp, Dns, Http, Sslcert: the packages of those names;
      each discharges [LawfulExporter].
    - Kinds: theorems about single packages.  Exporting: theorems about
      measurements, for any lawful exporter, and the class [LawfulHistogram]
      with its four instances.  Fingerprints: the exports of overlapping
      scrapes, which share the variable certFingerprint.
    - Helper (helper.go, probe_cache.go): probeForID, measurementForType,
      InitCache and the cleanup goroutine, with additions during its scans;
      where probes come from, with the answers of the API as a relation.
      Lookups: calls of probeForID from several goroutines and the scan of
      CleanUp, step by step, and where the two race.  ProbesForResults: the producer,
      the workers and the caller of helper.go as a step relation over
      unbuffered channels.
    - RequestStrategy (request_strategy.go): one request on every path, and
      the goroutines of MeasurementResults as a step relation.
    - StreamWorker (stream_strategy_worker.go): delays, listening, and the
      workers as a step relation in which every access to the shared counter
      and gauge is a step.  StreamStrategy (stream_strategy.go): the map of
      measurements with the objects in a heap, the processor and its recovery
      from panics, lookups and health.
    - EndToEnd: what a collection exports after a list of additions.
    - StreamSystem: workers, the buffered result channel and the processor as
      one step relation, [istep] on the channel and [estep] with the outside.
      StreamShutdown: its steps from the end of the context on, until they
      end or main returns.
    - Strategies: the request strategy as a whole, and both strategies compared.
    - Metrics (metrics.go): the exporter's own metrics and SetBuildInfo.
    - Main (main.go, collector.go, helper.go): the handlers, the collector,
      the routes, the order of the start-up and the wait at its end.
    - Exposition: what a registry sees of a scrape as a whole, its samples and
      descriptions; class [IdentifyingExporter], discharged by each package.
    - Scrape: the handlers over the streaming strategy.  LiveScrape: a scrape
      during which the streams go on.  RequestScrape: the metrics handler over
      the request strategy, with the lookups of Lookups.

    ** What is shown

    - The data path.  In streaming mode a scrape exports exactly the fresh last
      accepted result of each probe among all that the workers received
      (Scrape), and a scrape by request does so for the answer of the API
      (RequestScrape), each with a document that the API gave for the probe;
      the two strategies make the same object of the same results.  Behind it:
      Add keeps the last accepted result per probe; Collect exports the fresh
      ones exactly once with their probe; histograms observe the positive
      times of accepted results; label values fit the descriptions in every
      package.
    - The exposition.  No two samples of a scrape agree in name and label
      values and the collection does not panic, for documents that carry their
      identifiers and have valid labels and coordinates; everything sent
      was described, and the descriptions are consistent, so that the registry
      refuses nothing, also while results keep coming; with an identifier
      listed twice it has to.  In streaming mode an object only grows, and its
      histograms never fall back.
    - Concurrency.  Nothing is lost, duplicated or reordered between workers
      and processor, they never block each other for good, with a cache nothing
      is thrown away, and when the context ends all workers return, unless
      main, which does not wait for them, returns first;
      probesForResults and MeasurementResults are correct under every schedule
      and terminate; the counter of connected workers is exact; the cache
      refines its log when nothing is added inside a clean-up; overlapping
      lookups return recent documents of their own probe, and race with the
      clean-up; overlapping scrapes can exchange fingerprints, but not make
      them up.
    - Texts.  The document of a probe is read back to the probe; the
      fingerprint of a certificate is the SHA-256 digest of its bytes; NSIDs
      and environment names are read back.
    - Configuration.  Validate, normalizeArrays, the environment names and the
      precedence of the sources.
    - Limits of the code: the theorems on overflow of the retry delay and the
      outages that end a worker, the
      fingerprint that outlives its certificate, error documents taken for
      probes, results lost around a panic, and configurations that pass
      Validate and panic later.

    ** Conventions and bounds

    Nil pointers are [None], maps are finite maps, and the order in which Go
    visits a map is an argument.  Clocks are arguments: nanoseconds for the
    cache, Unix seconds for results.  The loops of the code are recursion on
    lists, and goroutines are step relations whose runs are bounded by a
    measure.  Only the JSON and PEM parsers take fuel: twice the length of the
    text and one more, and the length of the text, which are enough
    ([Json.value_fuel], [Pem.pem_loop_fuel]).  Hypotheses on times (below 2^62)
    and on ages (below 2^34 seconds) keep the 64-bit sums exact; every time the
    code can meet is far below them.  A call to the HTTP client is taken to
    return.

    ** Not modelled

    The HTTP client and server, the stream's transport, the Atlas client's
    parsing of results, YAML, logging and the text of the exposition: input,
    output or third-party code.  The variables that the init functions assign
    are the definitions of what is assigned. *)

From stdpp Require Export prelude gmap strings pretty sorting.
From Stdlib Require Export Ascii ZArith Lia.

(** ** Hint database and tactics *)

Create HintDb atlas discriminated.

(** Case analysis on the scrutinee of the first [match] or [if] found. *)
Ltac case_all :=
  repeat (case_match; simplify_eq/=).

(** ** Outcomes of Go code

    A Go call returns a value or panics.  A call that returns a pair
    [(value, error)] returns a [GoResult] as its value. *)

Inductive Outcome (A : Type) : Type :=
| Ret (a : A)
| Panic (msg : string).
Arguments Ret {A} a.
Arguments Panic {A} msg.

Inductive GoResult (A : Type) : Type :=
| Ok (a : A)
| Err (e : string).
Arguments Ok {A} a.
Arguments Err {A} e.

#[export] Instance Outcome_ret : MRet Outcome := λ _ a, Ret a.
#[export] Instance Outcome_bind : MBind Outcome :=
  λ A B f o, match o with Ret a => f a | Panic m => Panic m end.

#[export] Instance Outcome_eq_dec `{EqDecision A} : EqDecision (Outcome A).
Proof. solve_decision. Defined.
#[export] Instance GoResult_eq_dec `{EqDecision A} : EqDecision (GoResult A).
Proof. solve_decision. Defined.

(** ** A state monad with panics

    [GoM S A] is the type of a Go function body that reads and writes a
    state of type [S].  The state written before a panic stays written. *)

Definition GoM (S A : Type) : Type := S → Outcome A * S.

#[export] Instance GoM_ret {S} : MRet (GoM S) := λ _ a s, (Ret a, s).
#[export] Instance GoM_bind {S} : MBind (GoM S) :=
  λ A B f m s,
    match m s with
    | (Ret a, s') => f a s'
    | (Panic e, s') => (Panic e, s')
    end.

Section gom.
Context {S : Type}.

Definition get : GoM S S := λ s, (Ret s, s).
Definition modify (f : S → S) : GoM S unit := λ s, (Ret tt, f s).
Definition lift {A} (o : Outcome A) : GoM S A := λ s, (o, s).

(** [for _, x := range l { f x }] *)
Fixpoint range_ {A} (l : list A) (f : A → GoM S unit) : GoM S unit :=
  match l with
  | [] => mret tt
  | x :: l' => f x ;; range_ l' f
  end.

Lemma bind_run {A B} (m : GoM S A) (f : A → GoM S B) s a s' :
  m s = (Ret a, s') → (m ≫= f) s = f a s'.
Proof. intros H. unfold mbind, GoM_bind. by rewrite H. Qed.

Lemma bind_assoc_run {A B C} (m : GoM S A) (f : A → GoM S B) (g : B → GoM S C) s :
  ((m ≫= f) ≫= g) s = (m ≫= λ x, f x ≫= g) s.
Proof. unfold mbind, GoM_bind. by destruct (m s) as [[a|e] s']. Qed.

(** A loop whose body always returns folds the bodies' effects. *)
Lemma range_run {A} (l : list A) (f : A → GoM S unit) (g : A → S → S) s :
  (∀ x s, x ∈ l → f x s = (Ret tt, g x s)) →
  range_ l f s = (Ret tt, foldl (λ s x, g x s) s l).
Proof.
  revert s; induction l as [|x l IH]; intros s H; [done|].
  simpl. erewrite bind_run by (apply H; left). apply IH.
  intros y t Hy. apply H. by right.
Qed.

(** Looping over an image. *)
Lemma range_fmap {A B} (g : A → B) (l : list A) (f : B → GoM S unit) s :
  range_ (g <$> l) f s = range_ l (λ x, f (g x)) s.
Proof.
  revert s. induction l as [|x l IH]; intros s; [done|]. simpl. unfold mbind, GoM_bind.
  by destruct (f (g x) s) as [[[]|e] s'].
Qed.

End gom.

(** ** Lists *)

Lemma elem_of_concat {A} (x : A) ls : x ∈ concat ls ↔ ∃ l, x ∈ l ∧ l ∈ ls.
Proof.
  rewrite list_elem_of_In, in_concat. setoid_rewrite list_elem_of_In. firstorder.
Qed.

Lemma filter_all {A} (P : A → Prop) `{∀ x, Decision (P x)} (l : list A) : Forall P l → filter P l = l.
Proof. induction 1; [done|]. rewrite filter_cons_True by done. by f_equal. Qed.

(** Lists whose elements carry the key of the list they are in, with the keys
    distinct, have no element in common. *)
Lemma NoDup_concat_tag {A B K} (key : A → K) (tag : B → K) (l : list A) (lss : list (list B)) :
  NoDup (key <$> l) → Forall2 (λ x ys, NoDup ys ∧ Forall (λ y, tag y = key x) ys) l lss →
  NoDup (concat lss).
Proof.
  intros Hk H. induction H as [|x ys l lss [Hn Ht] Hl IH]; [by apply NoDup_nil|].
  rewrite fmap_cons in Hk. apply NoDup_cons in Hk as [Hx Hk]. simpl.
  apply NoDup_app. split; [done|]. split; [|by apply IH].
  intros y Hy (ys' & Hy' & Hys')%elem_of_concat. destruct Hx.
  rewrite Forall_forall in Ht. rewrite <-(Ht y Hy).
  apply list_elem_of_lookup in Hys' as [i Hi].
  destruct (Forall2_lookup_r _ _ _ _ _ Hl Hi) as (x' & Hx' & _ & Ht').
  rewrite Forall_forall in Ht'. rewrite (Ht' y Hy').
  by apply list_elem_of_fmap_2, list_elem_of_lookup_2 with i.
Qed.

Lemma Forall_filter_self {A} (P : A → Prop) `{∀ x, Decision (P x)} (l : list A) : Forall P (filter P l).
Proof. apply Forall_forall. by intros x [? _]%list_elem_of_filter. Qed.

(** The elements for which a partial function has a value, with the values. *)
Lemma Forall2_omap {A B} (R : A → B → Prop) (f : A → option B) (l : list A) :
  (∀ x y, f x = Some y → R x y) → Forall2 R (filter (λ x, is_Some (f x)) l) (omap f l).
Proof.
  intros HR. induction l as [|x l IH]; [constructor|]. simpl. destruct (f x) as [y|] eqn:E.
  - rewrite filter_cons_True by (rewrite E; by eexists). constructor; [by apply HR|exact IH].
  - rewrite filter_cons_False; [exact IH|]. rewrite E. by intros [? [=]].
Qed.

Lemma lookup_concat_elem {A} (lss : list (list A)) i a x :
  lss !! i = Some a → x ∈ a → ∃ p, concat lss !! p = Some x.
Proof.
  intros Hi Hx. apply list_elem_of_lookup, elem_of_concat. exists a. split; [done|]. by eapply list_elem_of_lookup_2.
Qed.

(** What is in two of the lists is twice in all of them together. *)
Lemma concat_twice {A} (lss : list (list A)) i j a b x :
  i ≠ j → lss !! i = Some a → lss !! j = Some b → x ∈ a → x ∈ b →
  ∃ p q, p ≠ q ∧ concat lss !! p = Some x ∧ concat lss !! q = Some x.
Proof.
  revert i j a b. induction lss as [|l lss IH]; intros [|i] [|j] a b Hij Hi Hj Ha Hb; try done; simpl in *; simplify_eq.
  - apply list_elem_of_lookup in Ha as [p Hp]. destruct (lookup_concat_elem lss j b x Hj Hb) as [q Hq].
    pose proof (lookup_lt_Some _ _ _ Hp). exists p, (length a + q)%nat. split; [lia|].
    split; [by apply lookup_app_l_Some|]. rewrite lookup_app_r by lia. by replace (_ + q - _)%nat with q by lia.
  - apply list_elem_of_lookup in Hb as [p Hp]. destruct (lookup_concat_elem lss i a x Hi Ha) as [q Hq].
    pose proof (lookup_lt_Some _ _ _ Hp). exists p, (length b + q)%nat. split; [lia|].
    split; [by apply lookup_app_l_Some|]. rewrite lookup_app_r by lia. by replace (_ + q - _)%nat with q by lia.
  - destruct (IH i j a b) as (p & q & Hpq & Hp & Hq); [congruence|done..|].
    exists (length l + p)%nat, (length l + q)%nat. split; [lia|].
    rewrite !lookup_app_r by lia. by replace (_ + p - _)%nat with p by lia; replace (_ + q - _)%nat with q by lia.
Qed.
