(* ===== verification/GoInt.v ===== *)
(** * Machine integers, durations and decimal conversion

    The exporter runs on 64-bit Go: [int], [int64] and [time.Duration] are
    64-bit two's complement numbers, kept here as [Z] with the wrap-around
    written out.  [Itoa] and [Atoi] are the functions of package strconv
    that the exporter calls. *)

From S2P Require Import Prelude.
Open Scope Z_scope.

(** ** Two's complement *)

Definition two63 : Z := 9223372036854775808.
Definition two64 : Z := 18446744073709551616.
Definition two31 : Z := 2147483648.
Definition two32 : Z := 4294967296.

Definition wrap64 (z : Z) : Z := (z + two63) mod two64 - two63.
Definition wrap32 (z : Z) : Z := (z + two31) mod two32 - two31.

(** Conversion of an [int] to [uint]. *)
Definition to_uint (z : Z) : Z := z mod two64.

Definition int64_ok (z : Z) : Prop := - two63 <= z < two63.
#[export] Instance int64_ok_dec z : Decision (int64_ok z).
Proof. unfold int64_ok. apply _. Defined.

(** [x << n] on a signed 64-bit operand; a count of 64 or more gives 0. *)
Definition shl64 (x n : Z) : Z := if 64 <=? n then 0 else wrap64 (x * 2 ^ n).

Definition mul64 (x y : Z) : Z := wrap64 (x * y).
Definition add64 (x y : Z) : Z := wrap64 (x + y).
Definition sub64 (x y : Z) : Z := wrap64 (x - y).

(** Go's [/] truncates toward zero. *)
Definition quot64 (x y : Z) : Z := wrap64 (Z.quot x y).

Lemma wrap64_id z : int64_ok z → wrap64 z = z.
Proof. unfold int64_ok, wrap64, two63, two64. intros. rewrite Z.mod_small; lia. Qed.

Lemma wrap64_ok z : int64_ok (wrap64 z).
Proof.
  unfold int64_ok, wrap64, two63, two64.
  pose proof (Z.mod_pos_bound (z + 9223372036854775808) 18446744073709551616). lia.
Qed.

Lemma wrap32_id z : - two31 <= z < two31 → wrap32 z = z.
Proof. unfold wrap32, two31, two32. intros. rewrite Z.mod_small; lia. Qed.

#[export] Hint Resolve wrap64_ok : atlas.

(** ** Durations: nanoseconds *)

Definition Nanosecond : Z := 1.
Definition Second : Z := 1000000000.
Definition Minute : Z := 60 * Second.
Definition Hour : Z := 60 * Minute.

(** ** strconv.Itoa and strconv.Atoi *)

Definition Itoa (z : Z) : string := pretty z.

Definition digit_val (c : Ascii.ascii) : option Z :=
  let n := Z.of_N (Ascii.N_of_ascii c) in
  if (48 <=? n) && (n <=? 57) then Some (n - 48) else None.

Inductive NumError := ErrSyntax | ErrRange.

(** The loop of strconv.ParseUint for base 10 and 64 bits: the first digit
    that is not one stops it with ErrSyntax, the first that overflows with
    ErrRange. *)
Fixpoint ParseUint_go (s : string) (n : Z) : Z + NumError :=
  match s with
  | EmptyString => inl n
  | String c s' =>
      match digit_val c with
      | None => inr ErrSyntax
      | Some d =>
          let n1 := n * 10 + d in
          if two64 <=? n1 then inr ErrRange else ParseUint_go s' n1
      end
  end.

Definition ParseUint (s : string) : Z + NumError :=
  match s with
  | EmptyString => inr ErrSyntax
  | _ => ParseUint_go s 0
  end.

Definition Atoi (s : string) : Z + NumError :=
  let '(neg, ds) :=
    match s with
    | String "+"%char s' => (false, s')
    | String "-"%char s' => (true, s')
    | _ => (false, s)
    end in
  match ParseUint ds with
  | inr e => inr e
  | inl un =>
      if negb neg && (two63 <=? un) then inr ErrRange
      else if neg && (two63 <? un) then inr ErrRange
      else inl (if neg then - un else un)
  end.

#[export] Instance Itoa_inj : Inj (=) (=) Itoa.
Proof. apply pretty_Z_inj. Qed.

(** ** Atoi undoes Itoa *)

Lemma digit_val_pretty d :
  (d < 10)%N → digit_val (pretty_N_char d) = Some (Z.of_N d).
Proof.
  intros H.
  assert (d = 0 ∨ d = 1 ∨ d = 2 ∨ d = 3 ∨ d = 4 ∨ d = 5 ∨ d = 6 ∨ d = 7 ∨ d = 8 ∨ d = 9)%N
    as Hd by lia.
  by destruct_or! Hd; subst.
Qed.

(** Reading the digits of [x] from the value [0] and then the rest [s] is
    reading [s] from the value [x], as long as nothing overflows. *)
Lemma ParseUint_pretty_go (x : N) (s : string) :
  Z.of_N x < two64 →
  ParseUint_go (pretty_N_go x s) 0 = ParseUint_go s (Z.of_N x).
Proof.
  revert s. induction (N.lt_wf_0 x) as [x _ IH]; intros s Hx.
  assert (x = 0 ∨ 0 < x)%N as [->|Hpos] by lia; [done|].
  rewrite pretty_N_go_step by done.
  pose proof (N.div_mod' x 10) as Hdm.
  pose proof (N.div_lt x 10 Hpos eq_refl) as Hlt.
  rewrite IH by lia.
  simpl. rewrite digit_val_pretty by (by apply N.mod_lt).
  replace (Z.of_N (x `div` 10) * 10 + Z.of_N (x `mod` 10)) with (Z.of_N x) by lia.
  destruct (Z.leb_spec two64 (Z.of_N x)); [lia|done].
Qed.

Lemma pretty_pos_first (p : positive) :
  ∃ c s, pretty p = String c s ∧ c ≠ "+"%char ∧ c ≠ "-"%char.
Proof.
  unfold pretty, pretty_positive, pretty, pretty_N.
  rewrite decide_False by done.
  assert (∀ x s, (0 < x)%N →
    ∃ c s', pretty_N_go x s = String c s' ∧ c ≠ "+"%char ∧ c ≠ "-"%char) as Hgo;
    [|by apply Hgo].
  intros x. induction (N.lt_wf_0 x) as [x _ IH]; intros s Hx.
  rewrite pretty_N_go_step by done.
  destruct (decide (x `div` 10 = 0)%N) as [->|Hq].
  - rewrite pretty_N_go_0. do 2 eexists. split; [done|].
    unfold pretty_N_char. split; by repeat case_match.
  - apply IH; [by apply N.div_lt|by apply N.neq_0_lt_0].
Qed.

Lemma ParseUint_pretty_pos (p : positive) :
  Z.pos p < two64 → ParseUint (pretty p) = inl (Z.pos p).
Proof.
  intros Hp. destruct (pretty_pos_first p) as (c & s & E & _ & _).
  unfold ParseUint. rewrite E, <-E.
  unfold pretty, pretty_positive, pretty, pretty_N.
  rewrite decide_False by done.
  rewrite ParseUint_pretty_go by done. done.
Qed.

Lemma Atoi_nosign c s :
  c ≠ "+"%char → c ≠ "-"%char →
  Atoi (String c s) =
    match ParseUint (String c s) with
    | inr e => inr e
    | inl un => if two63 <=? un then inr ErrRange else inl un
    end.
Proof. intros. unfold Atoi. by destruct c as [[][][][][][][][]]. Qed.

Lemma Atoi_Itoa z : int64_ok z → Atoi (Itoa z) = inl z.
Proof.
  unfold int64_ok, Itoa. intros Hz.
  assert (∀ p, Z.pos p <= two63 → ParseUint (pretty p) = inl (Z.pos p)) as HP.
  { intros p ?. apply ParseUint_pretty_pos. unfold two63, two64 in *; lia. }
  destruct z as [|p|p]; [done| |].
  - destruct (pretty_pos_first p) as (c & s & E & Hc1 & Hc2).
    change (pretty (Z.pos p)) with (pretty p). rewrite E, Atoi_nosign, <-E by done.
    rewrite HP by lia. by destruct (Z.leb_spec two63 (Z.pos p)); [lia|].
  - change (pretty (Z.neg p)) with (String "-"%char (pretty p)).
    unfold Atoi. rewrite HP by lia. simpl.
    by destruct (Z.ltb_spec two63 (Z.pos p)); [lia|].
Qed.

(** Whatever [Atoi] accepts is a 64-bit number. *)
Lemma ParseUint_go_bound s n v :
  0 <= n < two64 → ParseUint_go s n = inl v → 0 <= v < two64.
Proof.
  revert n. induction s as [|c s IH]; simpl; intros n Hn H; [by simplify_eq|].
  case_match eqn:Ed; [|done].
  destruct (Z.leb_spec two64 (n * 10 + z)); [done|].
  eapply IH; [|done]. unfold digit_val in Ed. case_match; simplify_eq.
  destruct_and?. lia.
Qed.

Lemma Atoi_ok s z : Atoi s = inl z → int64_ok z.
Proof.
  unfold Atoi. intros H. case_match. case_match eqn:E; [|done].
  assert (0 <= z0 < two64) as Hb.
  { unfold ParseUint in E. destruct s0; [done|].
    eapply ParseUint_go_bound; [|done]. unfold two64; lia. }
  unfold int64_ok, two63, two64 in *.
  destruct b; simpl in *;
    repeat match goal with
    | H : context [Z.leb ?a ?b] |- _ => destruct (Z.leb_spec a b)
    | H : context [Z.ltb ?a ?b] |- _ => destruct (Z.ltb_spec a b)
    end; simplify_eq; lia.
Qed.

#[export] Hint Resolve Atoi_Itoa : atlas.
