(* ===== verification/GoFloat.v ===== *)
(** * IEEE 754 binary64 numbers

    A Go [float64] is a [spec_float] of the Standard Library's executable
    specification of floating-point arithmetic, with 53 bits of precision
    and 1024 as largest exponent.  NaN, the infinities and the two zeros are
    values of it, and a comparison with NaN is false as in Go.  The file
    also holds [time.Duration.Seconds], the conversion of a float to an
    integer and [strconv.FormatFloat (x, 'f', 4, 64)]. *)

From S2P Require Import Prelude GoInt.
From Stdlib Require Export SpecFloat.
Open Scope Z_scope.

Abbreviation float64 := spec_float.

#[export] Instance float64_eq_dec : EqDecision float64.
Proof. solve_decision. Defined.

Definition f64_zero : float64 := S754_zero false.
Definition f64_lt (x y : float64) : bool := SFltb x y.
Definition f64_add : float64 → float64 → float64 := SFadd 53 1024.
Definition f64_div : float64 → float64 → float64 := SFdiv 53 1024.

(** [float64(z)]: the nearest binary64 number. *)
Definition f64_of_int (z : Z) : float64 := binary_normalize 53 1024 z 0 false.

(** [x <= y] *)
Definition f64_le (x y : float64) : bool := SFleb x y.

(** [x > 0] *)
Definition f64_pos (x : float64) : bool := f64_lt f64_zero x.

(** [int64(x)] for a float in range: truncation toward zero. *)
Definition f64_trunc (x : float64) : Z :=
  match x with
  | S754_finite s m e =>
      let a := if 0 <=? e then Z.pos m * 2 ^ e else Z.pos m / 2 ^ (- e) in
      if s then - a else a
  | _ => 0
  end.

(** time.Duration.Seconds: whole seconds and nanoseconds are converted apart. *)
Definition Seconds (d : Z) : float64 :=
  f64_add (f64_of_int (Z.quot d Second))
          (f64_div (f64_of_int (Z.rem d Second)) (f64_of_int Second)).

(** ** Positive floats *)

Lemma f64_pos_spec x :
  f64_pos x = true ↔ (∃ m e, x = S754_finite false m e) ∨ x = S754_infinity false.
Proof.
  unfold f64_pos, f64_lt, f64_zero, SFltb.
  split.
  - destruct x as [[]|[]| |[] m e]; intros; try discriminate; eauto.
  - by intros [(m & e & ->)| ->].
Qed.

(** ** Integers up to 53 bits convert exactly *)

Lemma digits2_pos_size p : digits2_pos p = Pos.size p.
Proof. induction p; simpl; congruence. Qed.

Lemma digits2_pos_iter m n : digits2_pos (Pos.iter xO m n) = (digits2_pos m + n)%positive.
Proof.
  revert m. induction n as [|n IH] using Pos.peano_ind; intros m.
  - simpl. lia.
  - rewrite Pos.iter_succ. simpl. rewrite IH. lia.
Qed.

Lemma iter_xO_value m n : Z.pos (Pos.iter xO m n) = Z.pos m * 2 ^ Z.pos n.
Proof.
  revert m. induction n as [|n IH] using Pos.peano_ind; intros m; [simpl; lia|].
  rewrite Pos.iter_succ, Pos2Z.inj_xO, IH, Pos2Z.inj_succ, Z.pow_succ_r; lia.
Qed.

(** Rounding a mantissa of exactly 53 bits changes nothing. *)
Lemma binary_round_aux_exact s m e :
  Z.pos (digits2_pos m) = 53 → -1074 <= e <= 971 →
  binary_round_aux 53 1024 s (Z.pos m) e loc_Exact = S754_finite s m e.
Proof.
  intros Hd He. unfold binary_round_aux.
  assert (shr_fexp 53 1024 (Z.pos m) e loc_Exact =
          ({| shr_m := Z.pos m; shr_r := false; shr_s := false |}, e)) as Hs.
  { unfold shr_fexp, fexp, emin. simpl Zdigits2. rewrite Hd.
    replace (_ - e) with 0 by lia. reflexivity. }
  rewrite Hs. simpl. rewrite Hs. simpl.
  by destruct (Z.leb_spec e (1024 - 53)); [|lia].
Qed.

Lemma f64_of_int_exact p :
  Z.pos p < 2 ^ 53 →
  ∃ m e, f64_of_int (Z.pos p) = S754_finite false m e ∧ -52 <= e <= 0 ∧
         Z.pos m = Z.pos p * 2 ^ (- e).
Proof.
  intros Hp.
  assert (Z.pos (digits2_pos p) <= 53) as Hd.
  { rewrite digits2_pos_size. pose proof (Pos.size_le p) as Hsz.
    apply Pos2Z.pos_le_pos in Hsz.
    rewrite Pos2Z.inj_pow, (Pos2Z.inj_xO p) in Hsz.
    assert (2 ^ Z.pos (Pos.size p) < 2 ^ 54) as Hlt by lia.
    apply Z.pow_lt_mono_r_iff in Hlt; lia. }
  unfold f64_of_int, binary_normalize, binary_round, shl_align, fexp, emin.
  replace (Z.max _ _ - 0) with (Z.pos (digits2_pos p) - 53) by lia.
  replace (Z.max (Z.pos (digits2_pos p) + 0 - 53) _) with (Z.pos (digits2_pos p) - 53) by lia.
  destruct (Z.pos (digits2_pos p) - 53) as [|n|n] eqn:E; [|lia|].
  - exists p, 0. rewrite binary_round_aux_exact by lia.
    split; [done|]. split; lia.
  - exists (Pos.iter xO p n), (Z.neg n).
    rewrite binary_round_aux_exact; [|rewrite digits2_pos_iter; lia|lia].
    split; [done|]. split; [lia|]. by rewrite iter_xO_value.
Qed.

Lemma f64_trunc_of_int k : 0 <= k < 2 ^ 53 → f64_trunc (f64_of_int k) = k.
Proof.
  intros Hk. destruct k as [|p|p]; [done| |lia].
  destruct (f64_of_int_exact p) as (m & e & -> & He & Hm); [lia|]. simpl.
  destruct (Z.leb_spec 0 e).
  - assert (e = 0) as -> by lia. rewrite Hm. simpl. lia.
  - rewrite Hm. apply Z.div_mul. apply Z.pow_nonzero; lia.
Qed.

(** A whole number of seconds converts without error. *)
Lemma Seconds_whole k :
  0 <= k < 2 ^ 53 → f64_trunc (Seconds (k * Second)) = k.
Proof.
  intros Hk. unfold Seconds.
  rewrite Z.quot_mul, Z.rem_mul by done.
  change (f64_div (f64_of_int 0) (f64_of_int Second)) with f64_zero.
  replace (f64_add (f64_of_int k) f64_zero) with (f64_of_int k); [by apply f64_trunc_of_int|].
  destruct k as [|p|p]; [done| |lia].
  by destruct (f64_of_int_exact p) as (m & e & -> & _ & _); [lia|].
Qed.

(** ** strconv.FormatFloat (x, 'f', 4, 64) *)

(** The quotient [n / d] rounded to the nearest integer, ties to even. *)
Definition round_half_even (n d : Z) : Z :=
  let q := n / d in
  let r := n mod d in
  match 2 * r ?= d with
  | Lt => q
  | Gt => q + 1
  | Eq => if Z.even q then q else q + 1
  end.

(** Four decimal digits, with leading zeros. *)
Definition pad4 (z : Z) : string :=
  let d k := String (pretty_N_char (Z.to_N ((z / 10 ^ k) mod 10))) in
  d 3 (d 2 (d 1 (d 0 EmptyString))).

(** The decimal number [q / 10^4], [q >= 0]. *)
Definition fixed4 (q : Z) : string :=
  Itoa (q / 10000) +:+ String "."%char (pad4 (q mod 10000)).

(** The magnitude of a finite float as a fraction, scaled by [10^4]. *)
Definition scaled4 (m : positive) (e : Z) : Z * Z :=
  if 0 <=? e then (Z.pos m * 2 ^ e * 10000, 1) else (Z.pos m * 10000, 2 ^ (- e)).

Definition FormatFloat_f4 (x : float64) : string :=
  let sign (s : bool) (t : string) := if s then String "-"%char t else t in
  match x with
  | S754_nan => "NaN"
  | S754_infinity s => if s then "-Inf" else "+Inf"
  | S754_zero s => sign s "0.0000"
  | S754_finite s m e =>
      let '(n, d) := scaled4 m e in sign s (fixed4 (round_half_even n d))
  end.

Lemma round_half_even_error n d :
  0 < d → 2 * Z.abs (n - round_half_even n d * d) <= d.
Proof.
  intros Hd. unfold round_half_even.
  pose proof (Z.div_mod n d) as Hdm. pose proof (Z.mod_pos_bound n d Hd) as Hb.
  destruct (Z.compare_spec (2 * (n mod d)) d); [destruct (Z.even (n / d))| |]; nia.
Qed.

Example FormatFloat_ex1 :
  FormatFloat_f4 (f64_div (f64_of_int 523676) (f64_of_int 10000)) = "52.3676".
Proof. reflexivity. Qed.
Example FormatFloat_ex2 :
  FormatFloat_f4 (f64_div (f64_of_int (-1)) (f64_of_int 100000)) = "-0.0000".
Proof. reflexivity. Qed.
Example FormatFloat_ex3 :
  FormatFloat_f4 (f64_div (f64_of_int (-48999)) (f64_of_int 10000)) = "-4.8999".
Proof. reflexivity. Qed.
