(* ===== verification/GoStrings.v ===== *)
(** * Byte strings: packages strings and encoding/hex

    A Go string is a sequence of bytes, here [string].  The case mappings
    are the ones [strings.ToUpper] and [strings.ToLower] apply to ASCII
    text; a byte above 127 is left alone. *)

From S2P Require Import Prelude GoInt.
Open Scope Z_scope.

Definition code (c : ascii) : Z := Z.of_N (N_of_ascii c).
Definition chr (z : Z) : ascii := ascii_of_N (Z.to_N z).

Lemma code_chr z : 0 <= z < 256 → code (chr z) = z.
Proof. intros Hz. unfold code, chr. rewrite N_ascii_embedding by lia. lia. Qed.

Definition str_len (s : string) : Z := Z.of_nat (String.length s).

Fixpoint str_map (f : ascii → ascii) (s : string) : string :=
  match s with
  | EmptyString => EmptyString
  | String c s' => String (f c) (str_map f s')
  end.

Fixpoint str_forallb (p : ascii → bool) (s : string) : bool :=
  match s with
  | EmptyString => true
  | String c s' => p c && str_forallb p s'
  end.

Definition to_upper (c : ascii) : ascii :=
  if (97 <=? code c) && (code c <=? 122) then chr (code c - 32) else c.
Definition to_lower (c : ascii) : ascii :=
  if (65 <=? code c) && (code c <=? 90) then chr (code c + 32) else c.
Definition ToUpper : string → string := str_map to_upper.
Definition ToLower : string → string := str_map to_lower.

(** [strip_prefix p s] is [Some r] when [s = p ++ r]. *)
Fixpoint strip_prefix (p s : string) : option string :=
  match p, s with
  | EmptyString, _ => Some s
  | String a p', String b s' =>
      if decide (a = b) then strip_prefix p' s' else None
  | String _ _, EmptyString => None
  end.

Definition HasPrefix (s p : string) : bool := bool_decide (is_Some (strip_prefix p s)).
Definition TrimPrefix (s p : string) : string := default s (strip_prefix p s).

(** [strings.Split(s, sep)] for a separator that is not empty: [skip] counts
    the bytes of a separator just found that are still to be dropped, [cur]
    is the field read so far. *)
Fixpoint Split_go (sep : string) (skip : nat) (cur s : string) : list string :=
  match s with
  | EmptyString => [cur]
  | String c s' =>
      match skip with
      | S k => Split_go sep k cur s'
      | O =>
          if HasPrefix s sep
          then cur :: Split_go sep (Nat.pred (String.length sep)) EmptyString s'
          else Split_go sep 0 (cur +:+ String c EmptyString) s'
      end
  end.
Definition Split (s sep : string) : list string := Split_go sep 0 EmptyString s.

Definition Join (elems : list string) (sep : string) : string := String.concat sep elems.

(** ** Append *)

Lemma app_empty_r s : s +:+ "" = s.
Proof. induction s as [|c s IH]; [done|]. unfold String.append in *. simpl. by f_equal. Qed.
Lemma app_empty_l s : "" +:+ s = s.
Proof. done. Qed.
Lemma app_assoc_str s t u : (s +:+ t) +:+ u = s +:+ (t +:+ u).
Proof. induction s as [|c s IH]; [done|]. unfold String.append in *. simpl. by f_equal. Qed.
Lemma app_cons c s t : String c s +:+ t = String c (s +:+ t).
Proof. done. Qed.
Lemma str_forallb_app p s t :
  str_forallb p (s +:+ t) = str_forallb p s && str_forallb p t.
Proof. induction s as [|c s IH]; [done|]. rewrite app_cons. simpl. rewrite IH. by destruct (p c). Qed.
Lemma str_map_app f s t : str_map f (s +:+ t) = str_map f s +:+ str_map f t.
Proof. induction s as [|c s IH]; [done|]. rewrite !app_cons. simpl. by rewrite IH, app_cons. Qed.
Lemma str_map_compose f g s : str_map f (str_map g s) = str_map (λ c, f (g c)) s.
Proof. induction s as [|c s IH]; simpl; congruence. Qed.
Lemma str_map_id_on f p s :
  (∀ c, p c = true → f c = c) → str_forallb p s = true → str_map f s = s.
Proof.
  intros Hf. induction s as [|c s IH]; simpl; [done|].
  intros [Hc Hs]%andb_true_iff. rewrite Hf, IH; done.
Qed.
Lemma str_forallb_impl (p q : ascii → bool) s :
  (∀ c, p c = true → q c = true) → str_forallb p s = true → str_forallb q s = true.
Proof.
  intros Hpq. induction s as [|c s IH]; simpl; [done|].
  intros [Hc Hs]%andb_true_iff. rewrite Hpq, IH; done.
Qed.

Create Rewrite HintDb strs.
#[export] Hint Rewrite app_empty_l app_empty_r app_assoc_str app_cons str_forallb_app str_map_app : strs.

Lemma strip_prefix_spec p s r : strip_prefix p s = Some r ↔ s = p +:+ r.
Proof.
  revert s. induction p as [|a p IH]; intros s; simpl.
  - unfold String.append. simpl. split; congruence.
  - destruct s as [|b s]; [by split|]. rewrite app_cons.
    case_decide as Hab; [subst|by split; [|intros [=]]].
    rewrite IH. split; [by intros ->|by intros [=]].
Qed.

Lemma HasPrefix_spec s p : HasPrefix s p = true ↔ ∃ r, s = p +:+ r.
Proof.
  unfold HasPrefix. rewrite bool_decide_eq_true. unfold is_Some.
  by setoid_rewrite strip_prefix_spec.
Qed.

Lemma TrimPrefix_app p r : TrimPrefix (p +:+ r) p = r.
Proof.
  unfold TrimPrefix. by rewrite (proj2 (strip_prefix_spec p (p +:+ r) r) eq_refl).
Qed.

(** ** Characters by enumeration

    A decidable statement about every byte is settled by computing it on the
    256 of them. *)

Definition all_ascii (p : ascii → bool) : bool :=
  forallb (λ n, p (ascii_of_nat n)) (List.seq 0 256).

Lemma all_ascii_spec p c : all_ascii p = true → p c = true.
Proof.
  unfold all_ascii. intros H. rewrite forallb_forall in H.
  rewrite <-(ascii_nat_embedding c). apply H. apply in_seq.
  pose proof (nat_ascii_bounded c). lia.
Qed.

Definition is_lower (c : ascii) : bool := negb ((65 <=? code c) && (code c <=? 90)).

Ltac by_ascii p c H :=
  assert (p c = true) as H by (apply (all_ascii_spec p); vm_compute; reflexivity);
  unfold p in H; clear p.

Lemma lower_upper c : is_lower c = true → to_lower (to_upper c) = c.
Proof.
  intros Hl. set (p := λ c, implb (is_lower c) (Ascii.eqb (to_lower (to_upper c)) c)).
  by_ascii p c H. rewrite Hl in H. by apply Ascii.eqb_eq.
Qed.

Lemma upper_idemp c : to_upper (to_upper c) = to_upper c.
Proof.
  set (p := λ c, Ascii.eqb (to_upper (to_upper c)) (to_upper c)).
  by_ascii p c H. by apply Ascii.eqb_eq.
Qed.

Lemma ToLower_ToUpper s : str_forallb is_lower s = true → ToLower (ToUpper s) = s.
Proof.
  intros H. unfold ToLower, ToUpper. rewrite str_map_compose.
  eapply str_map_id_on; [|done]. apply lower_upper.
Qed.

Lemma ToUpper_ToUpper s : ToUpper (ToUpper s) = ToUpper s.
Proof.
  unfold ToUpper. rewrite str_map_compose. induction s; simpl; [done|].
  by rewrite upper_idemp, IHs.
Qed.

(** ** encoding/hex *)

Definition hex_digit (n : Z) : ascii := chr (if n <? 10 then n + 48 else n + 87).

Definition from_hex (c : ascii) : option Z :=
  let n := code c in
  if (48 <=? n) && (n <=? 57) then Some (n - 48)
  else if (97 <=? n) && (n <=? 102) then Some (n - 87)
  else if (65 <=? n) && (n <=? 70) then Some (n - 55)
  else None.

(** hex.EncodeToString *)
Fixpoint EncodeToString (src : string) : string :=
  match src with
  | EmptyString => EmptyString
  | String b src' =>
      String (hex_digit (code b / 16)) (String (hex_digit (code b mod 16)) (EncodeToString src'))
  end.

(** hex.DecodeString: [None] stands for the error of an odd length or of a
    byte that is not a hexadecimal digit. *)
Fixpoint DecodeString (s : string) : option string :=
  match s with
  | EmptyString => Some EmptyString
  | String a (String b s') =>
      match from_hex a, from_hex b, DecodeString s' with
      | Some x, Some y, Some r => Some (String (chr (16 * x + y)) r)
      | _, _, _ => None
      end
  | String _ EmptyString => None
  end.

Lemma from_hex_digits b :
  from_hex (hex_digit (code b / 16)) = Some (code b / 16) ∧
  from_hex (hex_digit (code b mod 16)) = Some (code b mod 16) ∧
  chr (16 * (code b / 16) + code b mod 16) = b.
Proof.
  set (p := λ b : ascii, bool_decide (from_hex (hex_digit (code b / 16)) = Some (code b / 16)) &&
    bool_decide (from_hex (hex_digit (code b mod 16)) = Some (code b mod 16)) &&
    bool_decide (chr (16 * (code b / 16) + code b mod 16) = b)).
  by_ascii p b H. rewrite !andb_true_iff, !bool_decide_eq_true in H. tauto.
Qed.

Lemma Decode_Encode s : DecodeString (EncodeToString s) = Some s.
Proof.
  induction s as [|b s IH]; [done|]. simpl.
  destruct (from_hex_digits b) as (-> & -> & Hb). by rewrite IH, Hb.
Qed.

Lemma from_hex_lower a x : from_hex a = Some x → 0 <= x < 16 ∧ hex_digit x = to_lower a.
Proof.
  set (p := λ a, match from_hex a with
    | Some x => (0 <=? x) && (x <? 16) && Ascii.eqb (hex_digit x) (to_lower a) | None => true end).
  by_ascii p a H. intros E. rewrite E in H. rewrite !andb_true_iff in H.
  destruct H as [[H1%Z.leb_le H2%Z.ltb_lt] H3%Ascii.eqb_eq]. done.
Qed.

(** Encoding what was decoded gives the text in lower case. *)
Lemma Encode_Decode s raw : DecodeString s = Some raw → EncodeToString raw = ToLower s.
Proof.
  revert raw. induction s as [s IH] using (induction_ltof1 _ String.length). unfold ltof in IH.
  intros raw H. destruct s as [|a [|b s]]; simpl in H; simplify_eq; [done|].
  destruct (from_hex a) as [x|] eqn:Ea, (from_hex b) as [y|] eqn:Eb,
    (DecodeString s) as [r|] eqn:Er; simplify_eq.
  apply from_hex_lower in Ea as [Hx Ha], Eb as [Hy Hb]. simpl.
  rewrite (IH s) by (simpl; lia || done). rewrite code_chr by lia.
  replace ((16 * x + y) / 16) with x by (apply Z.div_unique with y; lia).
  replace ((16 * x + y) mod 16) with y by (apply Z.mod_unique with x; lia).
  by rewrite Ha, Hb.
Qed.

(** ** Printable ASCII: bytes 32 to 126 *)

Definition printable (c : ascii) : bool := (32 <=? code c) && (code c <=? 126).

Lemma EncodeToString_printable s : str_forallb printable (EncodeToString s) = true.
Proof.
  induction s as [|b s IH]; [done|]. simpl. rewrite IH.
  set (p := λ b : ascii, printable (hex_digit (code b / 16)) && printable (hex_digit (code b mod 16))).
  by_ascii p b H. apply andb_true_iff in H as [-> ->]. done.
Qed.

Lemma pretty_N_char_printable d : printable (pretty_N_char d) = true.
Proof. unfold pretty_N_char. by repeat case_match. Qed.

Lemma Itoa_printable z : str_forallb printable (Itoa z) = true.
Proof.
  assert (∀ x s, str_forallb printable s = true →
    str_forallb printable (pretty_N_go x s) = true) as Hgo.
  { intros x. induction (N.lt_wf_0 x) as [x _ IH]; intros s Hs.
    destruct (decide (x = 0)%N) as [->|Hx]; [done|].
    rewrite pretty_N_go_step by lia. apply IH; [apply N.div_lt; lia|].
    simpl. by rewrite pretty_N_char_printable. }
  assert (∀ p : positive, str_forallb printable (pretty p) = true) as Hp.
  { intros p. unfold pretty, pretty_positive, pretty, pretty_N.
    rewrite decide_False by done. by apply Hgo. }
  destruct z as [|p|p]; [done|apply Hp|].
  change (Itoa (Z.neg p)) with (String "-"%char (pretty p)). simpl. by rewrite Hp.
Qed.

#[export] Hint Resolve EncodeToString_printable Itoa_printable : atlas.
