(* ===== verification/GoParse.v ===== *)
(** * strconv.ParseFloat

    [ParseFloat s] is [strconv.ParseFloat(s, 64)]: decimal and hexadecimal
    literals with optional sign, fraction, exponent and underscores, the
    words inf, infinity and nan in any case, and the nearest binary64 number
    as value.  The value comes with the error: 0 for a syntax error, an
    infinity for a literal out of range. *)

From S2P Require Import Prelude GoInt GoFloat GoStrings.
Open Scope Z_scope.

Definition lower (c : ascii) : ascii := chr (Z.lor (code c) 32).

(** The digit [c] in base 10 or 16. *)
Definition digit_of (hex : bool) (c : ascii) : option Z :=
  if (48 <=? code c) && (code c <=? 57) then Some (code c - 48)
  else if hex && (97 <=? code (lower c)) && (code (lower c) <=? 102)
  then Some (code (lower c) - 87) else None.

Record mantissa := { m_val : Z; m_frac : Z; m_dot : bool; m_any : bool }.

(** The digits, the point and the underscores of a mantissa: the value read
    without the point, the number of digits after it, and what is left. *)
Fixpoint read_mantissa (hex : bool) (s : string) (m : mantissa) : mantissa * string :=
  match s with
  | EmptyString => (m, s)
  | String c s' =>
      if Ascii.eqb c "_" then read_mantissa hex s' m
      else if Ascii.eqb c "." then
        if m_dot m then (m, s)
        else read_mantissa hex s'
               {| m_val := m_val m; m_frac := m_frac m; m_dot := true; m_any := m_any m |}
      else
        match digit_of hex c with
        | None => (m, s)
        | Some d =>
            read_mantissa hex s'
              {| m_val := m_val m * (if hex then 16 else 10) + d;
                 m_frac := if m_dot m then m_frac m + 1 else m_frac m;
                 m_dot := m_dot m; m_any := true |}
        end
  end.

(** The digits of an exponent; the value stops growing at 10000. *)
Fixpoint read_exp (s : string) (e : Z) : Z * string :=
  match s with
  | EmptyString => (e, s)
  | String c s' =>
      if Ascii.eqb c "_" then read_exp s' e
      else match digit_of false c with
           | None => (e, s)
           | Some d => read_exp s' (if e <? 10000 then e * 10 + d else e)
           end
  end.

(** Whether the underscores of a literal stand between digits or after a
    base prefix; [saw] is the last thing seen: the start, a digit or prefix,
    an underscore, or something else. *)
Inductive saw := SawStart | SawDigit | SawUnderscore | SawOther.

Fixpoint underscoreOK_go (hex : bool) (w : saw) (s : string) : bool :=
  match s with
  | EmptyString => match w with SawUnderscore => false | _ => true end
  | String c s' =>
      if bool_decide (is_Some (digit_of hex c)) then underscoreOK_go hex SawDigit s'
      else if Ascii.eqb c "_" then
        match w with SawDigit => underscoreOK_go hex SawUnderscore s' | _ => false end
      else
        match w with SawUnderscore => false | _ => underscoreOK_go hex SawOther s' end
  end.

Definition drop_sign (s : string) : bool * string :=
  match s with
  | String c s' =>
      if Ascii.eqb c "+" then (false, s')
      else if Ascii.eqb c "-" then (true, s') else (false, s)
  | EmptyString => (false, s)
  end.

Definition underscoreOK (s : string) : bool :=
  let t := (drop_sign s).2 in
  match t with
  | String z (String b r) =>
      if Ascii.eqb z "0" && (Ascii.eqb (lower b) "b" || Ascii.eqb (lower b) "o" || Ascii.eqb (lower b) "x")
      then underscoreOK_go (Ascii.eqb (lower b) "x") SawDigit r
      else underscoreOK_go false SawStart t
  | _ => underscoreOK_go false SawStart t
  end.

(** What a well-formed literal denotes: sign, integer, base-2 or base-10
    exponent. *)
Record literal := { l_neg : bool; l_hex : bool; l_man : Z; l_exp : Z }.

Definition readFloat (s : string) : option literal :=
  let '(neg, t) := drop_sign s in
  let '(hex, t) :=
    match t with
    | String z (String x r) =>
        if Ascii.eqb z "0" && Ascii.eqb (lower x) "x" && negb (bool_decide (r = EmptyString))
        then (true, r) else (false, t)
    | _ => (false, t)
    end in
  let '(m, t) :=
    read_mantissa hex t {| m_val := 0; m_frac := 0; m_dot := false; m_any := false |} in
  if negb (m_any m) then None
  else
    let scale := if hex then - 4 * m_frac m else - m_frac m in
    let finish (e : Z) (rest : string) :=
      if bool_decide (rest = EmptyString) && underscoreOK s
      then Some {| l_neg := neg; l_hex := hex; l_man := m_val m; l_exp := scale + e |}
      else None in
    match t with
    | String c r =>
        if Ascii.eqb (lower c) (if hex then "p" else "e")%char then
          let '(eneg, r) := drop_sign r in
          match r with
          | String d _ =>
              if bool_decide (is_Some (digit_of false d)) then
                let '(e, rest) := read_exp r 0 in
                finish (if eneg then - e else e) rest
              else None
          | EmptyString => None
          end
        else if hex then None else finish 0 t
    | EmptyString => if hex then None else finish 0 t
    end.

(** The binary64 number nearest to the literal's value. *)
Definition nearest (l : literal) : float64 :=
  match l_man l with
  | Z.pos m =>
      if l_hex l then binary_round 53 1024 (l_neg l) m (l_exp l)
      else if 0 <=? l_exp l then
        binary_normalize 53 1024 ((if l_neg l then -1 else 1) * (Z.pos m * 10 ^ l_exp l)) 0 false
      else
        let '(q, e, loc) := SFdiv_core_binary 53 1024 (Z.pos m) 0 (10 ^ (- l_exp l)) 0 in
        binary_round_aux 53 1024 (l_neg l) q e loc
  | _ => S754_zero (l_neg l)
  end.

Definition special (s : string) : option float64 :=
  let '(neg, t) := drop_sign s in
  let w := ToLower t in
  if bool_decide (w = "inf") || bool_decide (w = "infinity") then Some (S754_infinity neg)
  else if bool_decide (ToLower s = "nan") then Some S754_nan else None.

Definition ParseFloat (s : string) : float64 * option NumError :=
  match special s with
  | Some f => (f, None)
  | None =>
      match readFloat s with
      | None => (f64_zero, Some ErrSyntax)
      | Some l =>
          match nearest l with
          | S754_infinity n => (S754_infinity n, Some ErrRange)
          | f => (f, None)
          end
      end
  end.

Example ParseFloat_ex1 : ParseFloat "1.1" = (f64_div (f64_of_int 11) (f64_of_int 10), None).
Proof. vm_compute. reflexivity. Qed.
Example ParseFloat_ex2 : ParseFloat "1.x" = (f64_zero, Some ErrSyntax).
Proof. vm_compute. reflexivity. Qed.
Example ParseFloat_ex3 : ParseFloat "-2.5e1" = (f64_of_int (-25), None)%Z.
Proof. vm_compute. reflexivity. Qed.
Example ParseFloat_ex4 : ParseFloat "0x1p-2" = (f64_div (f64_of_int 1) (f64_of_int 4), None).
Proof. vm_compute. reflexivity. Qed.
Example ParseFloat_ex5 : ParseFloat "1e400" = (S754_infinity false, Some ErrRange).
Proof. vm_compute. reflexivity. Qed.
Example ParseFloat_ex6 : ParseFloat "" = (f64_zero, Some ErrSyntax).
Proof. vm_compute. reflexivity. Qed.
Example ParseFloat_ex7 : ParseFloat "0.1" =
  (S754_finite false 7205759403792794 (-56), None).
Proof. vm_compute. reflexivity. Qed.

(** A syntax error gives the value 0. *)
Lemma ParseFloat_syntax s f : ParseFloat s = (f, Some ErrSyntax) → f = f64_zero.
Proof. unfold ParseFloat. intros H. by case_all. Qed.
