(* ===== verification/Json.v ===== *)
(** * encoding/json: the recognition of JSON text

    [json_parse] is what [json.Unmarshal] accepts and the value it reads: the
    grammar of RFC 8259, at most 10000 levels of nesting, escapes and
    surrogate pairs in strings, and the replacement character for bytes that
    are not UTF-8.  Numbers stay literals: the target of a field decides how
    they are converted.  The text of a syntax error is not modelled.

    The parser takes fuel; [json_parse] gives it twice the length of the text
    and one more, which is always enough ([value_fuel]). *)

From S2P Require Import Prelude GoInt GoStrings.
Open Scope Z_scope.

#[warnings="-register-all"] Inductive JVal :=
| JNull
| JBool (b : bool)
| JNumber (lit : string)
| JString (s : string)
| JArray (l : list JVal)
| JObject (members : list (string * JVal)).

(** Outcome of a parser: a value and the text left, a syntax error, or not
    enough fuel. *)
Inductive PRes (A : Type) :=
| Done (a : A) (rest : string)
| Syntax
| NoFuel.
Arguments Done {A} a rest.
Arguments Syntax {A}.
Arguments NoFuel {A}.

Definition then_ {A B} (p : PRes A) (f : A → string → PRes B) : PRes B :=
  match p with Done a r => f a r | Syntax => Syntax | NoFuel => NoFuel end.

(** ** White space, literals and numbers *)

Definition is_space (c : ascii) : bool :=
  (code c =? 32) || (code c =? 9) || (code c =? 13) || (code c =? 10).

Fixpoint skip_ws (s : string) : string :=
  match s with
  | String c s' => if is_space c then skip_ws s' else s
  | EmptyString => s
  end.

Definition is_digit (c : ascii) : bool := (48 <=? code c) && (code c <=? 57).

(** The longest prefix of digits, and what follows it. *)
Fixpoint span_digits (s : string) : string * string :=
  match s with
  | String c s' => if is_digit c then let '(d, r) := span_digits s' in (String c d, r) else ("", s)
  | EmptyString => ("", s)
  end.

Definition opt_char (p : ascii → bool) (s : string) : string * string :=
  match s with
  | String c s' => if p c then (String c "", s') else ("", s)
  | EmptyString => ("", s)
  end.

Definition digits1 (s : string) : option (string * string) :=
  match span_digits s with
  | (EmptyString, _) => None
  | (d, r) => Some (d, r)
  end.

Definition is_e (c : ascii) : bool := Ascii.eqb c "e" || Ascii.eqb c "E".
Definition is_sign (c : ascii) : bool := Ascii.eqb c "+" || Ascii.eqb c "-".

Definition num_int (s : string) : option (string * string) :=
  match s with
  | String c s' => if Ascii.eqb c "0" then Some ("0", s') else digits1 s
  | EmptyString => None
  end.

Definition num_frac (s : string) : option (string * string) :=
  match opt_char (Ascii.eqb ".") s with
  | (EmptyString, _) => Some ("", s)
  | (dot, r) => '(d, r') ← digits1 r; Some (dot +:+ d, r')
  end.

Definition num_exp (s : string) : option (string * string) :=
  match opt_char is_e s with
  | (EmptyString, _) => Some ("", s)
  | (e, r) =>
      let '(sg, r1) := opt_char is_sign r in
      '(d, r2) ← digits1 r1; Some (e +:+ sg +:+ d, r2)
  end.

Definition number (s : string) : option (string * string) :=
  let '(sg, s1) := opt_char (Ascii.eqb "-") s in
  '(i, s2) ← num_int s1;
  '(f, s3) ← num_frac s2;
  '(e, s4) ← num_exp s3;
  Some (sg +:+ i +:+ f +:+ e, s4).

(** ** Strings *)

Definition dquote : ascii := chr 34.
Definition backslash : ascii := chr 92.

(** The bytes of a code point in UTF-8. *)
Definition utf8_encode (z : Z) : string :=
  if z <? 128 then String (chr z) ""
  else if z <? 2048 then String (chr (192 + z / 64)) (String (chr (128 + z mod 64)) "")
  else if z <? 65536 then
    String (chr (224 + z / 4096)) (String (chr (128 + z / 64 mod 64)) (String (chr (128 + z mod 64)) ""))
  else
    String (chr (240 + z / 262144)) (String (chr (128 + z / 4096 mod 64))
      (String (chr (128 + z / 64 mod 64)) (String (chr (128 + z mod 64)) ""))).

Definition replacement : string := utf8_encode 65533.

Definition between (lo hi : Z) (c : ascii) : bool := (lo <=? code c) && (code c <=? hi).
Definition cont : ascii → bool := between 128 191.

(** The length of the UTF-8 sequence at the start of a text, 0 if there is
    none: no overlong form, no surrogate, nothing above U+10FFFF. *)
Definition utf8_len (s : string) : nat :=
  match s with
  | EmptyString => 0
  | String a r =>
      if code a <? 128 then 1
      else if between 194 223 a then
        match r with String b _ => if cont b then 2 else 0 | _ => 0 end
      else if between 224 239 a then
        match r with
        | String b (String c _) =>
            if between (if code a =? 224 then 160 else 128) (if code a =? 237 then 159 else 191) b && cont c
            then 3 else 0
        | _ => 0
        end
      else if between 240 244 a then
        match r with
        | String b (String c (String d _)) =>
            if between (if code a =? 240 then 144 else 128) (if code a =? 244 then 143 else 191) b
               && cont c && cont d
            then 4 else 0
        | _ => 0
        end
      else 0
  end.

Fixpoint split_at (n : nat) (s : string) : string * string :=
  match n, s with
  | S n', String c s' => let '(t, r) := split_at n' s' in (String c t, r)
  | _, _ => ("", s)
  end.

(** What utf8.DecodeRune and EncodeRune make of the start of a text. *)
Definition rune (s : string) : string * string :=
  match utf8_len s with
  | O => (replacement, (split_at 1 s).2)
  | n => split_at n s
  end.

Definition hex4 (s : string) : option (Z * string) :=
  match s with
  | String a (String b (String c (String d r))) =>
      a ← from_hex a; b ← from_hex b; c ← from_hex c; d ← from_hex d;
      Some (4096 * a + 256 * b + 16 * c + d, r)
  | _ => None
  end.

(** getu4: an escape with four hexadecimal digits. *)
Definition getu4 (s : string) : option (Z * string) :=
  match s with
  | String b (String u r) => if Ascii.eqb b backslash && Ascii.eqb u "u" then hex4 r else None
  | _ => None
  end.

Definition is_surrogate (z : Z) : bool := (55296 <=? z) && (z <? 57344).
Definition surrogate_pair (r1 r2 : Z) : option Z :=
  if (55296 <=? r1) && (r1 <? 56320) && (56320 <=? r2) && (r2 <? 57344)
  then Some ((r1 - 55296) * 1024 + (r2 - 56320) + 65536) else None.

Definition simple_escape (e : ascii) : option ascii :=
  if Ascii.eqb e "b" then Some (chr 8)
  else if Ascii.eqb e "f" then Some (chr 12)
  else if Ascii.eqb e "n" then Some (chr 10)
  else if Ascii.eqb e "r" then Some (chr 13)
  else if Ascii.eqb e "t" then Some (chr 9)
  else if Ascii.eqb e backslash || Ascii.eqb e "/" || Ascii.eqb e dquote then Some e
  else None.

(** What follows a backslash: the text it stands for, and the rest.  A lone
    surrogate is replaced; what follows it is read on its own. *)
Definition escape (s : string) : option (string * string) :=
  match s with
  | EmptyString => None
  | String e r =>
      if Ascii.eqb e "u" then
        '(u, r1) ← hex4 r;
        if is_surrogate u then
          match getu4 r1 with
          | Some (u2, r2) =>
              match surrogate_pair u u2 with
              | Some z => Some (utf8_encode z, r2)
              | None => Some (replacement, r1)
              end
          | None => Some (replacement, r1)
          end
        else Some (utf8_encode u, r1)
      else c ← simple_escape e; Some (String c "", r)
  end.

(** The rest of a string after its opening quote. *)
Fixpoint string_body (fuel : nat) (s : string) : PRes string :=
  match fuel with
  | O => NoFuel
  | S n =>
      match s with
      | EmptyString => Syntax
      | String c r =>
          if Ascii.eqb c dquote then Done "" r
          else if Ascii.eqb c backslash then
            match escape r with
            | None => Syntax
            | Some (t, r') => then_ (string_body n r') (λ u r'', Done (t +:+ u) r'')
            end
          else if code c <? 32 then Syntax
          else let '(t, r') := rune s in then_ (string_body n r') (λ u r'', Done (t +:+ u) r'')
      end
  end.

Definition jstring (s : string) : PRes string := string_body (S (String.length s)) s.

(** ** Values *)

Definition maxNestingDepth : Z := 10000.

Definition scalar (s : string) : PRes JVal :=
  match strip_prefix "null" s, strip_prefix "true" s, strip_prefix "false" s with
  | Some r, _, _ => Done JNull r
  | _, Some r, _ => Done (JBool true) r
  | _, _, Some r => Done (JBool false) r
  | _, _, _ => match number s with Some (lit, r) => Done (JNumber lit) r | None => Syntax end
  end.

(** After an element: a comma and [more], or the closing bracket and [stop]. *)
Definition after {A} (close : ascii) (s : string) (more stop : string → PRes A) : PRes A :=
  match skip_ws s with
  | String c r =>
      if Ascii.eqb c "," then more r else if Ascii.eqb c close then stop r else Syntax
  | EmptyString => Syntax
  end.

Fixpoint value (fuel : nat) (depth : Z) (s : string) : PRes JVal :=
  match fuel with
  | O => NoFuel
  | S n =>
      match skip_ws s with
      | EmptyString => Syntax
      | String c r =>
          if Ascii.eqb c dquote then then_ (jstring r) (λ t r', Done (JString t) r')
          else if Ascii.eqb c "[" then
            if maxNestingDepth <=? depth then Syntax
            else match skip_ws r with
                 | String c' r' =>
                     if Ascii.eqb c' "]" then Done (JArray []) r'
                     else then_ (elements n (depth + 1) r) (λ l r'', Done (JArray l) r'')
                 | EmptyString => Syntax
                 end
          else if Ascii.eqb c "{" then
            if maxNestingDepth <=? depth then Syntax
            else match skip_ws r with
                 | String c' r' =>
                     if Ascii.eqb c' "}" then Done (JObject []) r'
                     else then_ (members n (depth + 1) r) (λ l r'', Done (JObject l) r'')
                 | EmptyString => Syntax
                 end
          else scalar (String c r)
      end
  end
with elements (fuel : nat) (depth : Z) (s : string) : PRes (list JVal) :=
  match fuel with
  | O => NoFuel
  | S n =>
      then_ (value n depth s) (λ v r,
        after "]" r
          (λ r', then_ (elements n depth r') (λ l r'', Done (v :: l) r''))
          (λ r', Done [v] r'))
  end
with members (fuel : nat) (depth : Z) (s : string) : PRes (list (string * JVal)) :=
  match fuel with
  | O => NoFuel
  | S n =>
      match skip_ws s with
      | String c r =>
          if Ascii.eqb c dquote then
            then_ (jstring r) (λ k r1,
              match skip_ws r1 with
              | String c1 r2 =>
                  if Ascii.eqb c1 ":" then
                    then_ (value n depth r2) (λ v r3,
                      after "}" r3
                        (λ r', then_ (members n depth r') (λ l r'', Done ((k, v) :: l) r''))
                        (λ r', Done [(k, v)] r'))
                  else Syntax
              | EmptyString => Syntax
              end)
          else Syntax
      | EmptyString => Syntax
      end
  end.

Definition syntax_error : string := "json: syntax error".

Definition json_parse (s : string) : GoResult JVal :=
  match value (2 * String.length s + 1) 0 s with
  | Done v r => match skip_ws r with EmptyString => Ok v | _ => Err syntax_error end
  | _ => Err syntax_error
  end.

(** ** Enough fuel *)

Abbreviation len := String.length.

Lemma len_app s t : len (s +:+ t) = (len s + len t)%nat.
Proof. induction s as [|c s IH]; [done|]. rewrite app_cons. simpl. by rewrite IH. Qed.

Lemma skip_ws_len s : (len (skip_ws s) <= len s)%nat.
Proof. induction s as [|c s IH]; simpl; [done|]. case_match; simpl; lia. Qed.

Lemma span_digits_app s d r : span_digits s = (d, r) → s = d +:+ r.
Proof.
  revert d r. induction s as [|c s IH]; intros d r; simpl; [by intros [= <- <-]|].
  case_match; [|by intros [= <- <-]]. destruct (span_digits s) as [d' r'].
  intros [= <- <-]. rewrite app_cons. f_equal. by apply IH.
Qed.

Lemma opt_char_app p s t r : opt_char p s = (t, r) → s = t +:+ r.
Proof. unfold opt_char. destruct s; [|case_match]; by intros [= <- <-]. Qed.

Lemma digits1_app s d r : digits1 s = Some (d, r) → s = d +:+ r ∧ d ≠ "".
Proof.
  unfold digits1. destruct (span_digits s) as [[|c d'] r'] eqn:E; intros; simplify_eq.
  by apply span_digits_app in E.
Qed.

Lemma num_int_app s t r : num_int s = Some (t, r) → s = t +:+ r ∧ t ≠ "".
Proof.
  unfold num_int. destruct s as [|c s]; [done|]. destruct (Ascii.eqb_spec c "0"); [|apply digits1_app].
  intros [= <- <-]. by subst.
Qed.

Lemma num_frac_app s t r : num_frac s = Some (t, r) → s = t +:+ r.
Proof.
  unfold num_frac. destruct (opt_char _ s) as [[|c d] r0] eqn:E; [by intros [= <- <-]|].
  apply opt_char_app in E. destruct (digits1 r0) as [[d' r']|] eqn:Ed; simpl; [|done].
  intros [= <- <-]. apply digits1_app in Ed as [-> _]. rewrite E. by autorewrite with strs.
Qed.

Lemma num_exp_app s t r : num_exp s = Some (t, r) → s = t +:+ r.
Proof.
  unfold num_exp. destruct (opt_char is_e s) as [[|c d] r0] eqn:E; [by intros [= <- <-]|].
  apply opt_char_app in E. destruct (opt_char is_sign r0) as [sg r1] eqn:E1.
  apply opt_char_app in E1. destruct (digits1 r1) as [[d' r']|] eqn:Ed; simpl; [|done].
  intros [= <- <-]. apply digits1_app in Ed as [-> _]. rewrite E, E1. by autorewrite with strs.
Qed.

(** The literal of a number is the text read, and not empty. *)
Lemma number_app s t r : number s = Some (t, r) → s = t +:+ r ∧ t ≠ "".
Proof.
  unfold number. destruct (opt_char _ s) as [sg s1] eqn:E. apply opt_char_app in E as ->.
  destruct (num_int s1) as [[i s2]|] eqn:Ei; simpl; [|done].
  destruct (num_frac s2) as [[f s3]|] eqn:Ef; simpl; [|done].
  destruct (num_exp s3) as [[e s4]|] eqn:Ee; simpl; [|done]. intros [= <- <-].
  apply num_int_app in Ei as [-> Hi]. apply num_frac_app in Ef as ->. apply num_exp_app in Ee as ->.
  split; [by autorewrite with strs|]. by destruct sg, i.
Qed.

Lemma scalar_len s v r : scalar s = Done v r → (len r < len s)%nat.
Proof.
  unfold scalar.
  destruct (strip_prefix "null" s) eqn:E1; [apply strip_prefix_spec in E1 as ->; intros [= <- <-]; rewrite len_app; simpl; lia|].
  destruct (strip_prefix "true" s) eqn:E2; [apply strip_prefix_spec in E2 as ->; intros [= <- <-]; rewrite len_app; simpl; lia|].
  destruct (strip_prefix "false" s) eqn:E3; [apply strip_prefix_spec in E3 as ->; intros [= <- <-]; rewrite len_app; simpl; lia|].
  destruct (number s) as [[t r']|] eqn:E; [|done]. intros [= <- <-].
  apply number_app in E as [-> Ht]. rewrite len_app. destruct t; [done|simpl; lia].
Qed.

Lemma split_at_len n s : (len (split_at n s).2 <= len s)%nat ∧
  (n ≠ 0%nat → s ≠ "" → len (split_at n s).2 < len s)%nat.
Proof.
  revert n. induction s as [|c s IH]; intros [|n]; simpl; try (split; [lia|done]).
  destruct (IH n) as [IH1 _]. destruct (split_at n s). simpl in *. split; lia.
Qed.

Lemma rune_len c s : (len (rune (String c s)).2 < S (len s))%nat.
Proof.
  unfold rune. destruct (utf8_len (String c s)) as [|n].
  - simpl. lia.
  - apply (split_at_len (S n) (String c s)); done.
Qed.

Lemma hex4_len s u r : hex4 s = Some (u, r) → (len r < len s)%nat.
Proof.
  unfold hex4. destruct s as [|a [|b [|c [|d s]]]]; try done.
  destruct (from_hex a), (from_hex b), (from_hex c), (from_hex d); simpl; intros; simplify_eq. lia.
Qed.

Lemma escape_len s t r : escape s = Some (t, r) → (len r < len s)%nat.
Proof.
  unfold escape. destruct s as [|e s]; [done|]. case_match.
  - destruct (hex4 s) as [[u r1]|] eqn:E; simpl; [|done]. apply hex4_len in E.
    case_match; [|intros [= <- <-]; simpl; lia]. destruct (getu4 r1) as [[u2 r2]|] eqn:E2.
    + unfold getu4 in E2. destruct r1 as [|b [|u' r1]]; try done. case_match; [|done].
      apply hex4_len in E2. simpl in *. case_match; intros [= <- <-]; simpl; lia.
    + intros [= <- <-]. simpl. lia.
  - destruct (simple_escape e); simpl; [|done]. intros [= <- <-]. simpl. lia.
Qed.

Lemma then_done {A B} (p : PRes A) (f : A → string → PRes B) b r :
  then_ p f = Done b r → ∃ a r', p = Done a r' ∧ f a r' = Done b r.
Proof. destruct p; [|done..]. by eauto. Qed.

Lemma string_body_len n s t r : string_body n s = Done t r → (len r < len s)%nat.
Proof.
  revert s t r. induction n as [|n IH]; intros s t r; [done|]. simpl. destruct s as [|c s]; [done|].
  case_match; [intros [= <- <-]; simpl; lia|]. case_match.
  - destruct (escape s) as [[t' r']|] eqn:E; [|done]. apply escape_len in E.
    intros (u & r'' & Hb%IH & [= _ <-])%then_done. simpl. lia.
  - case_match; [done|]. pose proof (rune_len c s) as Hr. destruct (rune _) as [t' r']. simpl in Hr.
    intros (u & r'' & Hb%IH & [= _ <-])%then_done. simpl. lia.
Qed.

Lemma string_body_fuel n s : (len s < n)%nat → string_body n s ≠ NoFuel.
Proof.
  revert s. induction n as [|n IH]; intros s Hs; [lia|]. simpl. destruct s as [|c s]; [done|].
  simpl in Hs. assert (∀ t r', (len r' < n)%nat →
    then_ (string_body n r') (λ u r'', Done (t +:+ u) r'') ≠ NoFuel) as Hrec.
  { intros t r' Hr. specialize (IH r' Hr). by destruct (string_body n r'). }
  case_match; [done|]. case_match.
  - destruct (escape s) as [[t r']|] eqn:E; [|done]. apply escape_len in E. apply Hrec. lia.
  - case_match; [done|]. pose proof (rune_len c s) as Hr. destruct (rune _) as [t r'].
    simpl in Hr. apply Hrec. lia.
Qed.

Lemma jstring_fuel s : jstring s ≠ NoFuel.
Proof. apply string_body_fuel. lia. Qed.

Lemma after_done {A} c s (more stop : string → PRes A) a r :
  after c s more stop = Done a r →
  ∃ r', (len r' < len s)%nat ∧ (more r' = Done a r ∨ stop r' = Done a r).
Proof.
  unfold after. pose proof (skip_ws_len s) as Hs. destruct (skip_ws s) as [|c' r']; [done|].
  simpl in Hs. intros H. exists r'. split; [lia|]. repeat case_match; by eauto.
Qed.

(** Every parser leaves less text than it was given. *)
Lemma value_len n :
  (∀ d s v r, value n d s = Done v r → (len r < len s)%nat) ∧
  (∀ d s l r, elements n d s = Done l r → (len r < len s)%nat) ∧
  (∀ d s l r, members n d s = Done l r → (len r < len s)%nat).
Proof.
  induction n as [|n (IHv & IHe & IHm)]; [by split_and!|]. split_and!; intros d s v r H; simpl in H.
  - pose proof (skip_ws_len s) as Hw. destruct (skip_ws s) as [|c s1]; [done|]. simpl in Hw.
    pose proof (skip_ws_len s1) as Hw1.
    destruct (Ascii.eqb c dquote).
    { apply then_done in H as (t & r' & Ht%string_body_len & [= _ <-]). lia. }
    destruct (Ascii.eqb c "["); [|destruct (Ascii.eqb c "{")].
    3: { apply scalar_len in H. simpl in H. lia. }
    all: case_match; [done|]; destruct (skip_ws s1) as [|c' s2]; [done|]; simpl in Hw1;
      case_match; [simplify_eq; lia|]; apply then_done in H as (l & r' & Hl & [= _ <-]).
    + apply IHe in Hl. lia.
    + apply IHm in Hl. lia.
  - apply then_done in H as (x & r1 & Hx%IHv & Ha).
    apply after_done in Ha as (r2 & Hr2 & [Hm|Hm]); [|simplify_eq; lia].
    apply then_done in Hm as (l & r3 & Hl%IHe & [= _ <-]). lia.
  - pose proof (skip_ws_len s) as Hw. destruct (skip_ws s) as [|c s1]; [done|]. simpl in Hw.
    case_match; [|done]. apply then_done in H as (k & r1 & Hk%string_body_len & H).
    pose proof (skip_ws_len r1) as Hw1. destruct (skip_ws r1) as [|c1 r2]; [done|]. simpl in Hw1.
    case_match; [|done]. apply then_done in H as (x & r3 & Hx%IHv & Ha).
    apply after_done in Ha as (r4 & Hr4 & [Hm|Hm]); [|simplify_eq; lia].
    apply then_done in Hm as (l & r5 & Hl%IHm & [= _ <-]). lia.
Qed.

Lemma then_fuel {A B} (p : PRes A) (f : A → string → PRes B) :
  p ≠ NoFuel → (∀ a r, p = Done a r → f a r ≠ NoFuel) → then_ p f ≠ NoFuel.
Proof. destruct p; simpl; naive_solver. Qed.

Lemma after_fuel {A} c s (more stop : string → PRes A) :
  (∀ r, (len r < len s)%nat → more r ≠ NoFuel ∧ stop r ≠ NoFuel) → after c s more stop ≠ NoFuel.
Proof.
  intros H. unfold after. pose proof (skip_ws_len s) as Hs. destruct (skip_ws s) as [|c' r']; [done|].
  simpl in Hs. destruct (H r'); [lia|]. by repeat case_match.
Qed.

Lemma scalar_fuel s : scalar s ≠ NoFuel.
Proof. unfold scalar. by repeat case_match. Qed.

Lemma parsers_fuel n :
  (∀ d s, (2 * len s + 1 <= n)%nat → value n d s ≠ NoFuel) ∧
  (∀ d s, (2 * len s + 2 <= n)%nat → elements n d s ≠ NoFuel) ∧
  (∀ d s, (2 * len s + 2 <= n)%nat → members n d s ≠ NoFuel).
Proof.
  induction n as [|n (IHv & IHe & IHm)]; [split_and!; intros; lia|].
  destruct (value_len n) as (Lv & Le & Lm). split_and!; intros d s Hs; simpl.
  - pose proof (skip_ws_len s) as Hw. destruct (skip_ws s) as [|c s1]; [done|]. simpl in Hw.
    destruct (Ascii.eqb c dquote); [apply then_fuel; [apply jstring_fuel|done]|].
    destruct (Ascii.eqb c "["); [|destruct (Ascii.eqb c "{"); [|apply scalar_fuel]].
    all: case_match; [done|]; destruct (skip_ws s1); [done|]; case_match; [done|];
      apply then_fuel; [|done].
    + apply IHe. lia.
    + apply IHm. lia.
  - apply then_fuel; [apply IHv; lia|]. intros v r Hv%Lv. apply after_fuel. intros r' Hr'.
    split; [|done]. apply then_fuel; [apply IHe; lia|done].
  - pose proof (skip_ws_len s) as Hw. destruct (skip_ws s) as [|c s1]; [done|]. simpl in Hw.
    case_match; [|done]. apply then_fuel; [apply jstring_fuel|]. intros k r1 Hk%string_body_len.
    pose proof (skip_ws_len r1) as Hw1. destruct (skip_ws r1) as [|c1 r2]; [done|]. simpl in Hw1.
    case_match; [|done]. apply then_fuel; [apply IHv; lia|]. intros v r Hv%Lv. apply after_fuel.
    intros r' Hr'. split; [|done]. apply then_fuel; [apply IHm; lia|done].
Qed.

Lemma value_fuel d s : value (2 * len s + 1) d s ≠ NoFuel.
Proof. by apply (parsers_fuel (2 * len s + 1)). Qed.

(** ** Reading what was written

    [render w] writes a value with the white space [w] wherever JSON allows
    it; quotes, backslashes and control bytes in strings are escaped. *)

Definition esc_char (c : ascii) : string :=
  if Ascii.eqb c dquote || Ascii.eqb c backslash then String backslash (String c "")
  else if code c <? 32 then
    String backslash (String "u" (String "0" (String "0"
      (String (hex_digit (code c / 16)) (String (hex_digit (code c mod 16)) "")))))
  else String c "".

Fixpoint esc (s : string) : string :=
  match s with
  | EmptyString => EmptyString
  | String c s' => esc_char c +:+ esc s'
  end.

Definition quoted (s : string) : string := String dquote (esc s +:+ String dquote "").

Fixpoint render (w : string) (v : JVal) : string :=
  match v with
  | JNull => "null"
  | JBool b => if b then "true" else "false"
  | JNumber lit => lit
  | JString s => quoted s
  | JArray [] => "[" +:+ w +:+ "]"
  | JArray l => "[" +:+ Join ((λ v, w +:+ render w v +:+ w) <$> l) "," +:+ "]"
  | JObject [] => "{" +:+ w +:+ "}"
  | JObject l =>
      "{" +:+ Join ((λ '(k, v), w +:+ quoted k +:+ w +:+ ":" +:+ w +:+ render w v +:+ w) <$> l) "," +:+ "}"
  end.

Fixpoint utf8_valid (s : string) : bool :=
  match s with
  | EmptyString => true
  | String _ r =>
      match utf8_len s, r with
      | 1%nat, _ => utf8_valid r
      | 2%nat, String _ r => utf8_valid r
      | 3%nat, String _ (String _ r) => utf8_valid r
      | 4%nat, String _ (String _ (String _ r)) => utf8_valid r
      | _, _ => false
      end
  end.

Definition is_number (lit : string) : bool := bool_decide (number lit = Some (lit, "")).

(** Values that JSON text can denote at a depth: numbers are literals, strings
    are Unicode text, and the nesting is within the limit. *)
Fixpoint jwf (d : Z) (v : JVal) : bool :=
  match v with
  | JNull | JBool _ => true
  | JNumber lit => is_number lit
  | JString s => utf8_valid s
  | JArray l => (d <? maxNestingDepth) && forallb (jwf (d + 1)) l
  | JObject l => (d <? maxNestingDepth) && forallb (λ '(k, v), utf8_valid k && jwf (d + 1) v) l
  end.

Section jval_ind.
Context (P : JVal → Prop).
Hypothesis (Hnull : P JNull) (Hbool : ∀ b, P (JBool b)) (Hnum : ∀ l, P (JNumber l))
  (Hstr : ∀ s, P (JString s)) (Harr : ∀ l, Forall P l → P (JArray l))
  (Hobj : ∀ l, Forall (λ kv, P kv.2) l → P (JObject l)).

Fixpoint JVal_nested (v : JVal) : P v :=
  match v with
  | JNull => Hnull
  | JBool b => Hbool b
  | JNumber l => Hnum l
  | JString s => Hstr s
  | JArray l => Harr l ((fix go l : Forall P l :=
      match l with [] => Forall_nil_2 _ | v :: l => Forall_cons_2 _ _ _ (JVal_nested v) (go l) end) l)
  | JObject l => Hobj l ((fix go l : Forall (λ kv, P kv.2) l :=
      match l with [] => Forall_nil_2 _ | kv :: l => Forall_cons_2 _ _ _ (JVal_nested kv.2) (go l) end) l)
  end.
End jval_ind.

(** *** Numbers *)

Definition stops (s : string) : bool :=
  match s with
  | EmptyString => true
  | String c _ => negb (is_digit c || Ascii.eqb "." c || is_e c || is_sign c)
  end.

Lemma stops_spec c s : stops (String c s) = true →
  is_digit c = false ∧ Ascii.eqb "." c = false ∧ is_e c = false ∧ is_sign c = false.
Proof. simpl. rewrite negb_true_iff, !orb_false_iff. tauto. Qed.

Lemma span_digits_stop s d r t :
  stops t = true → span_digits s = (d, r) → span_digits (s +:+ t) = (d, r +:+ t).
Proof.
  intros Ht. revert d r. induction s as [|c s IH]; intros d r.
  - intros [= <- <-]. destruct t as [|c t]; [done|]. apply stops_spec in Ht as (Hd & _).
    change ("" +:+ String c t) with (String c t). simpl. by rewrite Hd.
  - rewrite app_cons. simpl. case_match; [|by intros [= <- <-]].
    destruct (span_digits s) as [d' r']. intros [= <- <-]. by rewrite (IH d' r').
Qed.

Lemma digits1_stop s d r t :
  stops t = true → digits1 s = Some (d, r) → digits1 (s +:+ t) = Some (d, r +:+ t).
Proof.
  intros Ht. unfold digits1. destruct (span_digits s) as [d' r'] eqn:E.
  rewrite (span_digits_stop s d' r' t) by done. destruct d'; [done|]. by intros [= <- <-].
Qed.

Lemma opt_char_stop p s u r t :
  (∀ c t', t = String c t' → p c = false) → opt_char p s = (u, r) →
  opt_char p (s +:+ t) = (u, r +:+ t).
Proof.
  intros Ht. destruct s as [|c s].
  - intros [= <- <-]. change ("" +:+ t) with t. destruct t as [|c t]; [done|]. simpl. by rewrite (Ht c t).
  - rewrite app_cons. simpl. by case_match; intros [= <- <-].
Qed.

Lemma num_frac_stop s u r t :
  stops t = true → num_frac s = Some (u, r) → num_frac (s +:+ t) = Some (u, r +:+ t).
Proof.
  intros Ht. unfold num_frac. destruct (opt_char _ s) as [o r0] eqn:E.
  rewrite (opt_char_stop _ s o r0 t); [|intros c t' ->; apply (stops_spec c t' Ht)|done].
  destruct o; [by intros [= <- <-]|]. destruct (digits1 r0) as [[d r']|] eqn:Ed; simpl; [|done].
  rewrite (digits1_stop r0 d r' t) by done. simpl. by intros [= <- <-].
Qed.

Lemma num_exp_stop s u r t :
  stops t = true → num_exp s = Some (u, r) → num_exp (s +:+ t) = Some (u, r +:+ t).
Proof.
  intros Ht. unfold num_exp. destruct (opt_char is_e s) as [o r0] eqn:E.
  rewrite (opt_char_stop _ s o r0 t); [|intros c t' ->; apply (stops_spec c t' Ht)|done].
  destruct o; [by intros [= <- <-]|]. destruct (opt_char is_sign r0) as [sg r1] eqn:Es.
  rewrite (opt_char_stop _ r0 sg r1 t); [|intros c t' ->; apply (stops_spec c t' Ht)|done].
  destruct (digits1 r1) as [[d r']|] eqn:Ed; simpl; [|done].
  rewrite (digits1_stop r1 d r' t) by done. simpl. by intros [= <- <-].
Qed.

Lemma num_int_stop s u r t :
  stops t = true → num_int s = Some (u, r) → num_int (s +:+ t) = Some (u, r +:+ t).
Proof.
  intros Ht. destruct s as [|c s]; [done|]. rewrite app_cons. unfold num_int.
  case_match; [by intros [= <- <-]|]. rewrite <-app_cons. by apply digits1_stop.
Qed.

Lemma number_stop s u r t :
  stops t = true → number s = Some (u, r) → number (s +:+ t) = Some (u, r +:+ t).
Proof.
  intros Ht. unfold number. destruct (opt_char _ s) as [sg s1] eqn:E.
  rewrite (opt_char_stop _ s sg s1 t); [|intros c t' ->|done].
  2: { apply stops_spec in Ht as (_ & _ & _ & Hs). unfold is_sign in Hs.
       apply orb_false_iff in Hs as [_ Hs]. by rewrite Ascii.eqb_sym. }
  destruct (num_int s1) as [[i s2]|] eqn:Ei; simpl; [|done].
  destruct (num_frac s2) as [[f s3]|] eqn:Ef; simpl; [|done].
  destruct (num_exp s3) as [[e s4]|] eqn:Ee; simpl; [|done].
  rewrite (num_int_stop s1 i s2 t) by done. simpl. rewrite (num_frac_stop s2 f s3 t) by done. simpl.
  rewrite (num_exp_stop s3 e s4 t) by done. simpl. by intros [= <- <-].
Qed.

(** A number starts with a minus sign or a digit. *)
Lemma number_first s t r :
  number s = Some (t, r) → ∃ c s', s = String c s' ∧ (Ascii.eqb "-" c || is_digit c) = true.
Proof.
  unfold number. destruct s as [|c s]; [done|]. intros H. exists c, s. split; [done|].
  cbn [opt_char] in H. destruct (Ascii.eqb "-" c); [done|]. cbn [orb].
  destruct (num_int (String c s)) as [[i s2]|] eqn:E; [|done]. unfold num_int, digits1 in E.
  destruct (Ascii.eqb_spec c "0") as [->|_]; [done|]. simpl in E. by destruct (is_digit c).
Qed.

(** *** Strings *)

Lemma eqb_code c d : Ascii.eqb c d = (code c =? code d).
Proof.
  destruct (Ascii.eqb_spec c d) as [->|H]; [by rewrite Z.eqb_refl|]. symmetry. apply Z.eqb_neq.
  intros E. apply H. unfold code in E. rewrite <-(ascii_N_embedding c), <-(ascii_N_embedding d).
  f_equal. lia.
Qed.

Lemma split_at_app t s : split_at (len t) (t +:+ s) = (t, s).
Proof. induction t as [|c t IH]; [by destruct s|]. rewrite app_cons. simpl. by rewrite IH. Qed.

(** One escaped or plain ASCII character. *)
Lemma esc_ascii n c s :
  code c < 128 →
  string_body (S n) (esc_char c +:+ s) = then_ (string_body n s) (λ u r, Done (String c u) r).
Proof.
  intros Hc.
  set (p := λ c : ascii, implb (code c <? 128)
    (if Ascii.eqb c dquote || Ascii.eqb c backslash
     then negb (Ascii.eqb c "u") && bool_decide (simple_escape c = Some c)
     else if code c <? 32 then
       bool_decide (from_hex (hex_digit (code c / 16)) = Some (code c / 16)) &&
       bool_decide (from_hex (hex_digit (code c mod 16)) = Some (code c mod 16)) &&
       negb (is_surrogate (16 * (code c / 16) + code c mod 16)) &&
       bool_decide (utf8_encode (16 * (code c / 16) + code c mod 16) = String c "")
     else true)).
  by_ascii p c H. rewrite (proj2 (Z.ltb_lt _ _) Hc) in H. cbn [implb] in H. unfold esc_char.
  destruct (Ascii.eqb c dquote || Ascii.eqb c backslash) eqn:Eq.
  - apply andb_true_iff in H as [Hu%negb_true_iff He%bool_decide_eq_true].
    rewrite !app_cons. cbn [string_body].
    change (Ascii.eqb backslash dquote) with false. change (Ascii.eqb backslash backslash) with true.
    cbv iota. unfold escape. by rewrite Hu, He.
  - destruct (code c <? 32) eqn:E32.
    + rewrite !andb_true_iff, !bool_decide_eq_true, negb_true_iff in H.
      destruct H as [[[H1 H2] H3] H4]. rewrite !app_cons. cbn [string_body].
      change (Ascii.eqb backslash dquote) with false. change (Ascii.eqb backslash backslash) with true.
      cbv iota. cbn [escape]. change (Ascii.eqb "u" "u") with true. cbv iota. cbn [hex4].
      change (from_hex "0") with (Some 0). rewrite H1, H2. cbn [mbind option_bind].
      rewrite Z.mul_0_r, Z.mul_0_r, Z.add_0_l, H3, H4. done.
    + apply orb_false_iff in Eq as [E1 E2]. rewrite app_cons. cbn [string_body]. rewrite E1, E2, E32.
      assert (rune (String c ("" +:+ s)) = (String c "", s)) as ->; [|done].
      unfold rune, utf8_len. by rewrite (proj2 (Z.ltb_lt _ _) Hc).
Qed.

Lemma esc_app s t : esc (s +:+ t) = esc s +:+ esc t.
Proof. induction s as [|c s IH]; [done|]. rewrite !app_cons. simpl. rewrite IH. by autorewrite with strs. Qed.

Definition high (c : ascii) : bool := 128 <=? code c.

Lemma esc_high t : str_forallb high t = true → esc t = t.
Proof.
  induction t as [|c t IH]; [done|]. simpl. intros [Hc Ht]%andb_true_iff. rewrite IH by done.
  unfold esc_char. unfold high in Hc. apply Z.leb_le in Hc. rewrite !eqb_code.
  change (code dquote) with 34. change (code backslash) with 92.
  by rewrite !(proj2 (Z.eqb_neq _ _)), (proj2 (Z.ltb_ge _ _)) by lia.
Qed.

(** A text is empty, starts with an ASCII character or with a longer UTF-8
    sequence that is read as it stands whatever follows. *)
Lemma utf8_valid_cases s :
  utf8_valid s = true →
  s = "" ∨ (∃ c r, s = String c r ∧ code c < 128 ∧ utf8_valid r = true) ∨
  ∃ c t r, s = String c t +:+ r ∧ str_forallb high (String c t) = true ∧ utf8_valid r = true ∧
    ∀ r', rune (String c t +:+ r') = (String c t, r').
Proof.
  destruct s as [|a r]; [by left|]. cbn [utf8_valid].
  assert (∀ c, cont c = true → high c = true) as Hcont.
  { unfold cont, between, high. intros c [? _]%andb_true_iff. done. }
  assert (∀ lo hi c, 128 <= lo → between lo hi c = true → high c = true) as Hbt.
  { unfold between, high. intros lo hi c Hlo [? _]%andb_true_iff. apply Z.leb_le. lia. }
  assert (∀ b : bool, 128 <= if b then 160 else 128) as H160 by (intros []; lia).
  assert (∀ b : bool, 128 <= if b then 144 else 128) as H144 by (intros []; lia).
  unfold utf8_len. destruct (Z.ltb_spec (code a) 128) as [Ha|Ha]; [intros H; right; left; by eauto|].
  intros H. right. right.
  destruct (between 194 223 a) eqn:B2.
  { destruct r as [|b r]; [done|]. destruct (cont b) eqn:Eb; [|done].
    exists a, (String b ""), r. split_and!; [done| |done|].
    - simpl. rewrite (Hbt 194 223) by done. by rewrite Hcont.
    - intros r'. rewrite !app_cons. unfold rune, utf8_len.
      by rewrite (proj2 (Z.ltb_ge _ _) Ha), B2, Eb. }
  destruct (between 224 239 a) eqn:B3.
  { destruct r as [|b [|c r]]; [done..|]. destruct (between _ _ b) eqn:Eb; [|done].
    destruct (cont c) eqn:Ec; [|done].
    exists a, (String b (String c "")), r. split_and!; [done| |done|].
    - simpl. rewrite (Hbt 224 239) by done. rewrite (Hbt _ _ b (H160 _) Eb). by rewrite Hcont.
    - intros r'. rewrite !app_cons. unfold rune, utf8_len.
      by rewrite (proj2 (Z.ltb_ge _ _) Ha), B2, B3, Eb, Ec. }
  destruct (between 240 244 a) eqn:B4; [|done].
  destruct r as [|b [|c [|d r]]]; [done..|]. destruct (between _ _ b) eqn:Eb; [|done].
  destruct (cont c) eqn:Ec; [|done]. destruct (cont d) eqn:Ed; [|done].
  exists a, (String b (String c (String d ""))), r. split_and!; [done| |done|].
  - simpl. rewrite (Hbt 240 244) by done. rewrite (Hbt _ _ b (H144 _) Eb). by rewrite !Hcont.
  - intros r'. rewrite !app_cons. unfold rune, utf8_len.
    by rewrite (proj2 (Z.ltb_ge _ _) Ha), B2, B3, B4, Eb, Ec, Ed.
Qed.

Lemma string_body_esc n s rest :
  utf8_valid s = true → (len s < n)%nat →
  string_body n (esc s +:+ String dquote rest) = Done s rest.
Proof.
  revert s. induction n as [|n IH]; intros s Hs Hn; [lia|].
  destruct (utf8_valid_cases s Hs) as [->|[(c & r & -> & Hc & Hr)|(c & t & r & -> & Hh & Hr & Hrune)]].
  - done.
  - simpl in Hn. cbn [esc]. rewrite app_assoc_str, esc_ascii by done. by rewrite IH by (done || lia).
  - rewrite len_app in Hn. simpl in Hn. rewrite esc_app, esc_high, app_assoc_str by done.
    rewrite app_cons at 1. cbn [string_body]. rewrite <-app_cons, Hrune, IH by (done || lia).
    simpl in Hh. apply andb_true_iff in Hh as [Hc _]. unfold high in Hc. apply Z.leb_le in Hc.
    rewrite !eqb_code. change (code dquote) with 34. change (code backslash) with 92.
    by rewrite !(proj2 (Z.eqb_neq _ _)), (proj2 (Z.ltb_ge _ _)) by lia.
Qed.

Lemma esc_len s : (len s <= len (esc s))%nat.
Proof.
  induction s as [|c s IH]; [done|]. simpl. rewrite len_app.
  assert (1 <= len (esc_char c))%nat by (unfold esc_char; repeat case_match; simpl; lia). lia.
Qed.

Lemma jstring_quoted s rest :
  utf8_valid s = true → jstring (esc s +:+ String dquote rest) = Done s rest.
Proof.
  intros Hs. apply string_body_esc; [done|]. rewrite len_app. pose proof (esc_len s). lia.
Qed.

(** *** Values *)

Abbreviation all_ws := (str_forallb is_space).

Lemma skip_ws_app w s : all_ws w = true → skip_ws (w +:+ s) = skip_ws s.
Proof.
  induction w as [|c w IH]; [done|]. rewrite app_cons. simpl. intros [-> Hw]%andb_true_iff. by apply IH.
Qed.

Lemma stops_ws w s : all_ws w = true → stops s = true → stops (w +:+ s) = true.
Proof.
  destruct w as [|c w]; [done|]. rewrite app_cons. cbn [str_forallb]. intros [Hc _]%andb_true_iff _.
  set (p := λ c : ascii, implb (is_space c) (negb (is_digit c || Ascii.eqb "." c || is_e c || is_sign c))).
  by_ascii p c H. by rewrite Hc in H.
Qed.

Lemma scalar_number lit rest :
  is_number lit = true → stops rest = true → scalar (lit +:+ rest) = Done (JNumber lit) rest.
Proof.
  intros Hn%bool_decide_eq_true Hr. destruct (number_first _ _ _ Hn) as (c & s & -> & Hc).
  unfold scalar. rewrite (number_stop _ _ _ rest Hr Hn).
  set (p := λ c : ascii, implb (Ascii.eqb "-" c || is_digit c)
    (bool_decide ("n"%char ≠ c) && bool_decide ("t"%char ≠ c) && bool_decide ("f"%char ≠ c))).
  by_ascii p c H. rewrite Hc in H. cbn [implb] in H.
  rewrite !andb_true_iff, !bool_decide_eq_true in H. destruct H as [[Hn1 Ht] Hf].
  rewrite app_cons. cbn [strip_prefix]. by rewrite !decide_False.
Qed.

(** The first character of a value: not a space, not a closing bracket, and
    for a number not one that starts anything else. *)
Definition starts_value (c : ascii) : bool :=
  negb (is_space c || Ascii.eqb c "]" || Ascii.eqb c "}").
Definition starts_number (c : ascii) : bool :=
  starts_value c && negb (Ascii.eqb c dquote || Ascii.eqb c "[" || Ascii.eqb c "{").

Lemma number_starts lit : is_number lit = true → ∃ c s, lit = String c s ∧ starts_number c = true.
Proof.
  intros Hn%bool_decide_eq_true. destruct (number_first _ _ _ Hn) as (c & s & -> & Hc).
  exists c, s. split; [done|]. set (p := λ c : ascii, implb (Ascii.eqb "-" c || is_digit c) (starts_number c)).
  by_ascii p c H. by rewrite Hc in H.
Qed.

Lemma render_starts w d v : jwf d v = true → ∃ c s, render w v = String c s ∧ starts_value c = true.
Proof.
  intros Hv. destruct v as [|[]|lit|s|[]|[]]; cbn [render]; try (do 2 eexists; split; [reflexivity|done]).
  destruct (number_starts lit Hv) as (c & s & -> & [Hc _]%andb_true_iff). by eauto.
Qed.

Fixpoint jfuel (v : JVal) : nat :=
  match v with
  | JArray l => S (list_sum ((λ v, S (jfuel v)) <$> l))
  | JObject l => S (list_sum ((λ '(_, v), S (jfuel v)) <$> l))
  | _ => 1
  end.

(** Reading a value back, whatever white space precedes it and follows. *)
Definition reads_back (w : string) (v : JVal) : Prop :=
  ∀ d n w0 rest, jwf d v = true → (jfuel v <= n)%nat → all_ws w0 = true → stops rest = true →
    value n d (w0 +:+ render w v +:+ rest) = Done v rest.

Lemma after_more {A} w close rest (more stop : string → PRes A) :
  all_ws w = true → after close (w +:+ String "," rest) more stop = more rest.
Proof. intros Hw. unfold after. by rewrite skip_ws_app. Qed.

Lemma after_stop {A} w close rest (more stop : string → PRes A) :
  all_ws w = true → is_space close = false → Ascii.eqb close "," = false →
  after close (w +:+ String close rest) more stop = stop rest.
Proof.
  intros Hw Hs Hc. unfold after. rewrite skip_ws_app by done. simpl. by rewrite Hs, Hc, Ascii.eqb_refl.
Qed.

Lemma elements_back w d l n v0 rest :
  all_ws w = true → Forall (reads_back w) (v0 :: l) → forallb (jwf d) (v0 :: l) = true →
  (list_sum ((λ v, S (jfuel v)) <$> v0 :: l) <= n)%nat →
  elements n d (Join ((λ v, w +:+ render w v +:+ w) <$> v0 :: l) "," +:+ String "]" rest) =
    Done (v0 :: l) rest.
Proof.
  intros Hw. revert v0 n. induction l as [|v1 l IH]; intros v0 n HF Hj Hn;
    apply Forall_cons in HF as [Hv HF]; cbn [forallb] in Hj; apply andb_true_iff in Hj as [Hj0 Hj];
    (destruct n as [|n]; [simpl in Hn; lia|]); cbn [elements].
  - unfold Join. cbn [fmap list_fmap String.concat]. autorewrite with strs.
    rewrite Hv; [|done|simpl in Hn; lia|done|by apply stops_ws]. cbn [then_]. by rewrite after_stop.
  - change (Join ((λ v, w +:+ render w v +:+ w) <$> v0 :: v1 :: l) ",") with
      ((w +:+ render w v0 +:+ w) +:+ "," +:+ Join ((λ v, w +:+ render w v +:+ w) <$> v1 :: l) ",").
    autorewrite with strs.
    rewrite Hv; [|done|simpl in Hn; lia|done|by apply stops_ws]. cbn [then_]. rewrite after_more by done.
    rewrite IH; [done|done|done|]. cbn [fmap list_fmap list_sum foldr] in Hn |- *. lia.
Qed.

Lemma members_back w d l n kv0 rest :
  all_ws w = true → Forall (λ kv, reads_back w kv.2) (kv0 :: l) →
  forallb (λ '(k, v), utf8_valid k && jwf d v) (kv0 :: l) = true →
  (list_sum ((λ '(_, v), S (jfuel v)) <$> kv0 :: l) <= n)%nat →
  members n d (Join ((λ '(k, v), w +:+ quoted k +:+ w +:+ ":" +:+ w +:+ render w v +:+ w) <$> kv0 :: l) ","
    +:+ String "}" rest) = Done (kv0 :: l) rest.
Proof.
  intros Hw. revert kv0 n.
  set (item := λ '(k, v), w +:+ quoted k +:+ w +:+ ":" +:+ w +:+ render w v +:+ w).
  assert (∀ n k v more, reads_back w v → utf8_valid k = true → jwf d v = true → (S (jfuel v) <= n)%nat →
    stops more = true →
    members n d (item (k, v) +:+ more) = after "}" (w +:+ more)
      (λ r', then_ (members (pred n) d r') (λ l r'', Done ((k, v) :: l) r'')) (λ r', Done [(k, v)] r')) as Hitem.
  { intros n k v more Hv Hk Hj Hn Hm. destruct n as [|n]; [lia|]. cbn [members item]. autorewrite with strs.
    rewrite skip_ws_app by done. unfold quoted. rewrite app_cons. cbn [skip_ws].
    change (is_space dquote) with false. cbv iota. change (Ascii.eqb dquote dquote) with true. cbv iota.
    autorewrite with strs. rewrite jstring_quoted by done. cbn [then_].
    rewrite skip_ws_app by done. cbn [skip_ws]. change (is_space ":") with false. cbv iota.
    change (Ascii.eqb ":" ":") with true. cbv iota.
    rewrite Hv; [done|done|lia|done|by apply stops_ws]. }
  induction l as [|kv1 l IH]; intros [k v] n HF Hj Hn;
    apply Forall_cons in HF as [Hv HF]; cbn [forallb] in Hj;
    apply andb_true_iff in Hj as [[Hk Hj0]%andb_true_iff Hj]; unfold Join.
  - cbn [fmap list_fmap String.concat]. rewrite Hitem; [|done..|simpl in Hn; lia|done]. by rewrite after_stop.
  - change (String.concat "," (item <$> (k, v) :: kv1 :: l)) with
      (item (k, v) +:+ "," +:+ Join (item <$> kv1 :: l) ",").
    autorewrite with strs. rewrite Hitem; [|done..|simpl in Hn; lia|done]. rewrite after_more by done.
    rewrite IH; [done|done|done|]. cbn [fmap list_fmap list_sum foldr] in Hn |- *. lia.
Qed.

(** The head of a list of items is neither a space nor a closing bracket. *)
Lemma items_start w (x : string) xs c t rest :
  all_ws w = true → x = String c t → starts_value c = true →
  ∃ s, skip_ws (Join ((w +:+ x) :: xs) "," +:+ rest) = String c s.
Proof.
  intros Hw -> Hc. unfold starts_value in Hc. rewrite negb_true_iff, !orb_false_iff in Hc.
  destruct Hc as [[Hs _] _].
  assert (∃ s, Join ((w +:+ String c t) :: xs) "," = w +:+ String c s) as [s ->].
  { unfold Join. cbn [String.concat]. destruct xs; [by eexists|]. rewrite app_assoc_str, app_cons. by eexists. }
  rewrite app_assoc_str, skip_ws_app, app_cons by done. simpl. rewrite Hs. by eexists.
Qed.

Lemma starts_value_not c : starts_value c = true → Ascii.eqb c "]" = false ∧ Ascii.eqb c "}" = false.
Proof. unfold starts_value. rewrite negb_true_iff, !orb_false_iff. tauto. Qed.

Lemma value_reads_back w v : all_ws w = true → reads_back w v.
Proof.
  intros Hw. induction v as [|b|lit|s|l IH|l IH] using JVal_nested; intros d n w0 rest Hv Hn H0 Hr;
    (destruct n as [|n]; [simpl in Hn; lia|]); cbn [value]; rewrite skip_ws_app by done.
  - done.
  - by destruct b.
  - destruct (number_starts lit Hv) as (c & s & E & Hc).
    unfold starts_number, starts_value in Hc. rewrite andb_true_iff, !negb_true_iff, !orb_false_iff in Hc.
    destruct Hc as [[[Hs _] _] [[H1 H2] H3]].
    cbn [render]. pose proof (scalar_number lit rest Hv Hr) as Hsc. rewrite E in Hsc |- *.
    rewrite app_cons in Hsc |- *. cbn [skip_ws]. by rewrite Hs, H1, H2, H3.
  - cbn [render]. unfold quoted. autorewrite with strs. cbn [skip_ws].
    change (is_space dquote) with false. change (Ascii.eqb dquote dquote) with true. cbv iota.
    by rewrite jstring_quoted.
  - cbn [jwf] in Hv. apply andb_true_iff in Hv as [Hd%Z.ltb_lt Hl].
    destruct l as [|v0 l]; cbn [render]; autorewrite with strs; cbn [skip_ws];
      change (is_space "[") with false; change (Ascii.eqb "[" dquote) with false;
      change (Ascii.eqb "[" "[") with true; cbv iota; rewrite (proj2 (Z.leb_gt _ _)) by done.
    { by rewrite skip_ws_app. }
    destruct (render_starts w (d + 1) v0) as (c & t & E & Hc); [by apply andb_true_iff in Hl as [? _]|].
    destruct (items_start w (render w v0 +:+ w) ((λ v, w +:+ render w v +:+ w) <$> l) c (t +:+ w)
      (String "]" rest) Hw) as [s Es]; [by rewrite E|done|].
    pose proof (elements_back w (d + 1) l n v0 rest Hw IH Hl) as HE. rewrite fmap_cons in HE |- *.
    rewrite Es. destruct (starts_value_not c Hc) as [-> _]. rewrite HE; [done|]. simpl in Hn |- *. lia.
  - cbn [jwf] in Hv. apply andb_true_iff in Hv as [Hd%Z.ltb_lt Hl].
    destruct l as [|[k v0] l]; cbn [render]; autorewrite with strs; cbn [skip_ws];
      change (is_space "{") with false; change (Ascii.eqb "{" dquote) with false;
      change (Ascii.eqb "{" "[") with false; change (Ascii.eqb "{" "{") with true; cbv iota;
      rewrite (proj2 (Z.leb_gt _ _)) by done.
    { by rewrite skip_ws_app. }
    edestruct (items_start w (quoted k +:+ w +:+ ":" +:+ w +:+ render w v0 +:+ w)
      ((λ '(k, v), w +:+ quoted k +:+ w +:+ ":" +:+ w +:+ render w v +:+ w) <$> l) dquote)
      as [s Es]; [done|reflexivity|done|].
    pose proof (members_back w (d + 1) l n (k, v0) rest Hw IH Hl) as HM. rewrite fmap_cons in HM |- *.
    rewrite Es. change (Ascii.eqb dquote "}") with false. cbv iota. rewrite HM; [done|]. simpl in Hn |- *. lia.
Qed.

Lemma Join_len (xs : list string) : (list_sum (len <$> xs) <= len (Join xs ","))%nat.
Proof.
  induction xs as [|x [|y xs] IH]; [done|simpl; lia|].
  change (Join (x :: y :: xs) ",") with (x +:+ "," +:+ Join (y :: xs) ",").
  rewrite !len_app. cbn [fmap list_fmap list_sum foldr] in IH |- *. lia.
Qed.

(** A value needs less fuel than twice the length of its text. *)
Lemma sum_fuel {X} (f g : X → nat) (l : list X) :
  Forall (λ x, f x < 2 * g x)%nat l →
  (list_sum ((λ x, S (f x)) <$> l) <= 2 * list_sum (g <$> l))%nat.
Proof. induction 1; [done|]. cbn [fmap list_fmap list_sum foldr] in *. unfold list_sum in *. lia. Qed.

Lemma jfuel_len w d v : jwf d v = true → (jfuel v < 2 * len (render w v))%nat.
Proof.
  revert d. induction v as [|b|lit|s|l IH|l IH] using JVal_nested; intros d Hv; try (simpl; lia).
  - destruct b; simpl; lia.
  - destruct (number_starts lit Hv) as (c & s & -> & _). simpl. lia.
  - cbn [jwf] in Hv. apply andb_true_iff in Hv as [_ Hl].
    assert (jfuel (JArray l) <= S (2 * len (Join ((λ v, w +:+ render w v +:+ w) <$> l) ",")))%nat as HJ.
    { pose proof (Join_len ((λ v, w +:+ render w v +:+ w) <$> l)) as HJ. rewrite <-list_fmap_compose in HJ.
      cbn [jfuel].
      enough (list_sum ((λ v, S (jfuel v)) <$> l) <= 2 * list_sum (len ∘ (λ v, w +:+ render w v +:+ w) <$> l))%nat by lia.
      apply (sum_fuel jfuel).
      rewrite forallb_forall in Hl. rewrite Forall_forall in IH |- *. intros v Hv.
      specialize (IH v Hv (d + 1) (Hl v (proj1 (list_elem_of_In _ _) Hv))). simpl. rewrite !len_app. lia. }
    destruct l as [|v0 l]; [simpl; lia|]. cbn [render]. rewrite !len_app. cbn [String.length]. lia.
  - cbn [jwf] in Hv. apply andb_true_iff in Hv as [_ Hl].
    set (item := λ '(k, v), w +:+ quoted k +:+ w +:+ ":" +:+ w +:+ render w v +:+ w).
    assert (jfuel (JObject l) <= S (2 * len (Join (item <$> l) ",")))%nat as HJ.
    { pose proof (Join_len (item <$> l)) as HJ. rewrite <-list_fmap_compose in HJ.
      cbn [jfuel]. replace ((λ '(_, v), S (jfuel v)) <$> l) with ((λ kv : string * JVal, S (jfuel kv.2)) <$> l)
        by (apply list_fmap_ext; by intros ? []).
      enough (list_sum ((λ kv : string * JVal, S (jfuel kv.2)) <$> l) <= 2 * list_sum (len ∘ item <$> l))%nat by lia.
      apply (sum_fuel (λ kv, jfuel kv.2)).
      rewrite forallb_forall in Hl. rewrite Forall_forall in IH |- *. intros [k v] Hv.
      specialize (Hl (k, v) (proj1 (list_elem_of_In _ _) Hv)). apply andb_true_iff in Hl as [_ Hl].
      specialize (IH (k, v) Hv (d + 1) Hl). simpl in *. rewrite !len_app. lia. }
    destruct l as [|kv0 l]; [simpl; lia|]. cbn [render]. fold item. rewrite !len_app. cbn [String.length]. lia.
Qed.

(** Reading a value that was written gives it back. *)
Lemma json_parse_render w v :
  all_ws w = true → jwf 0 v = true → json_parse (w +:+ render w v +:+ w) = Ok v.
Proof.
  intros Hw Hv. unfold json_parse. rewrite (value_reads_back w v Hw 0); [|done| |done|].
  - pose proof (skip_ws_app w "" Hw) as H. rewrite app_empty_r in H. by rewrite H.
  - pose proof (jfuel_len w 0 v Hv). rewrite !len_app. lia.
  - rewrite <-(app_empty_r w). by apply stops_ws.
Qed.

(** ** Examples

    [json_text] writes the quotes of a JSON text as apostrophes. *)

Definition json_text : string → string :=
  str_map (λ c, if Ascii.eqb c "'" then dquote else c).

Example json_ex1 : json_parse (json_text " {'id' : -1.5e3, 'a':[true,false,null , {} ,[] ]}") =
  Ok (JObject [("id", JNumber "-1.5e3"); ("a", JArray [JBool true; JBool false; JNull; JObject []; JArray []])]).
Proof. vm_compute. reflexivity. Qed.
Example json_ex2 : json_parse (json_text "['\u00e9\ud83d\ude00\ud800x\n']") =
  Ok (JArray [JString (utf8_encode 233 +:+ utf8_encode 128512 +:+ replacement +:+ "x" +:+ String (chr 10) "")]).
Proof. vm_compute. reflexivity. Qed.
Example json_ex3 :
  json_parse <$> ["01"; "1."; "+1"; "[1,]"; "{1:2}"; "nul"; ""; "1 2"; "[1"] = replicate 9 (Err syntax_error).
Proof. vm_compute. reflexivity. Qed.
Example json_ex4 : json_parse (String dquote (String (chr 255) (String dquote ""))) = Ok (JString replacement).
Proof. vm_compute. reflexivity. Qed.
