(* ===== verification/Sha256.v ===== *)
(** * crypto/sha256: Sum256

    The digest of FIPS 180-4.  A word is a number below 2^32, and a message
    and its digest are byte strings. *)

From S2P Require Import Prelude GoInt GoStrings.
Open Scope Z_scope.

Definition add32 (x y : Z) : Z := (x + y) mod two32.
Definition rotr (n x : Z) : Z :=
  Z.lor (Z.shiftr x n) (Z.shiftl x (32 - n) mod two32).
Definition not32 (x : Z) : Z := two32 - 1 - x.

Definition Ch (x y z : Z) : Z := Z.lxor (Z.land x y) (Z.land (not32 x) z).
Definition Maj (x y z : Z) : Z := Z.lxor (Z.lxor (Z.land x y) (Z.land x z)) (Z.land y z).
Definition Sigma0 (x : Z) : Z := Z.lxor (Z.lxor (rotr 2 x) (rotr 13 x)) (rotr 22 x).
Definition Sigma1 (x : Z) : Z := Z.lxor (Z.lxor (rotr 6 x) (rotr 11 x)) (rotr 25 x).
Definition sigma0 (x : Z) : Z := Z.lxor (Z.lxor (rotr 7 x) (rotr 18 x)) (Z.shiftr x 3).
Definition sigma1 (x : Z) : Z := Z.lxor (Z.lxor (rotr 17 x) (rotr 19 x)) (Z.shiftr x 10).

(** The constants of the standard are computed from its definition: the first
    32 bits of the fractional parts of the cube roots of the first 64 primes,
    and of the square roots of the first 8. *)
Definition primes : list Z :=
  filter (λ n, forallb (λ d, negb (n mod d =? 0)) (seqZ 2 (n - 2)) = true) (seqZ 2 310).

(** The cube root of [x], bit by bit from bit [n - 1] on, above [r]. *)
Fixpoint cube_root (n : nat) (x r : Z) : Z :=
  match n with
  | O => r
  | S n' =>
      let r' := r + 2 ^ Z.of_nat n' in
      cube_root n' x (if r' * r' * r' <=? x then r' else r)
  end.

Definition K : list Z := Eval vm_compute in
  (λ p, cube_root 35 (p * 2 ^ 96) 0 mod two32) <$> primes.

Definition square_roots : list Z := Eval vm_compute in
  (λ p, Z.sqrt (p * 2 ^ 64) mod two32) <$> take 8 primes.

(** The eight words of the hash state. *)
Record hash := mkHash { ha : Z; hb : Z; hc : Z; hd : Z; he : Z; hf : Z; hg : Z; hh : Z }.

Definition hash0 : hash :=
  match square_roots with
  | [a; b; c; d; e; f; g; h] => mkHash a b c d e f g h
  | _ => mkHash 0 0 0 0 0 0 0 0
  end.

(** [n] more words of the message schedule, the latest word first. *)
Fixpoint schedule (n : nat) (w : list Z) : list Z :=
  match n with
  | O => w
  | S n' =>
      let at_ i := default 0 (w !! i) in
      schedule n' (add32 (add32 (sigma1 (at_ 1%nat)) (at_ 6%nat))
                         (add32 (sigma0 (at_ 14%nat)) (at_ 15%nat)) :: w)
  end.

Definition round (s : hash) (kw : Z * Z) : hash :=
  let 'mkHash a b c d e f g h := s in
  let t1 := add32 (add32 (add32 h (Sigma1 e)) (Ch e f g)) (add32 kw.1 kw.2) in
  let t2 := add32 (Sigma0 a) (Maj a b c) in
  mkHash (add32 t1 t2) a b c (add32 d t1) e f g.

(** One block of sixteen words. *)
Definition compress (s : hash) (block : list Z) : hash :=
  let w := reverse (schedule 48 (reverse block)) in
  let r := foldl round s (zip K w) in
  mkHash (add32 (ha s) (ha r)) (add32 (hb s) (hb r)) (add32 (hc s) (hc r)) (add32 (hd s) (hd r))
         (add32 (he s) (he r)) (add32 (hf s) (hf r)) (add32 (hg s) (hg r)) (add32 (hh s) (hh r)).

(** The [n] bytes of a number, most significant first. *)
Fixpoint be_bytes (n : nat) (z : Z) : list Z :=
  match n with
  | O => []
  | S n' => (z / 256 ^ Z.of_nat n') mod 256 :: be_bytes n' z
  end.

(** The message as bytes, padded to a multiple of 64. *)
Definition pad (msg : list Z) : list Z :=
  let n := Z.of_nat (length msg) in
  msg ++ [128] ++ replicate (Z.to_nat ((55 - n) mod 64)) 0 ++ be_bytes 8 (8 * n mod two64).

Fixpoint words (l : list Z) : list Z :=
  match l with
  | a :: b :: c :: d :: l' => ((a * 256 + b) * 256 + c) * 256 + d :: words l'
  | _ => []
  end.

(** The blocks of a padded message, [n] of them. *)
Fixpoint absorb (n : nat) (s : hash) (ws : list Z) : hash :=
  match n with
  | O => s
  | S n' => absorb n' (compress s (take 16 ws)) (drop 16 ws)
  end.

Definition bytes_of (s : string) : list Z := code <$> String.list_ascii_of_string s.
Definition string_of (l : list Z) : string := String.string_of_list_ascii (chr <$> l).

Definition digest (s : hash) : list Z :=
  concat (be_bytes 4 <$> [ha s; hb s; hc s; hd s; he s; hf s; hg s; hh s]).

Definition Sum256 (msg : string) : string :=
  let ws := words (pad (bytes_of msg)) in
  string_of (digest (absorb (length ws / 16) hash0 ws)).

Arguments Sum256 msg : simpl never.

(** The published test values. *)
Example Sum256_empty : EncodeToString (Sum256 "") =
  "e3b0c44298fc1c149afbf4c8996fb92427ae41e4649b934ca495991b7852b855".
Proof. vm_compute. reflexivity. Qed.
Example Sum256_abc : EncodeToString (Sum256 "abc") =
  "ba7816bf8f01cfea414140de5dae2223b00361a396177a9cb410ff61f20015ad".
Proof. vm_compute. reflexivity. Qed.
Example Sum256_two_blocks :
  EncodeToString (Sum256 "abcdbcdecdefdefgefghfghighijhijkijkljklmklmnlmnomnopnopq") =
  "248d6a61d20638b8e5c026930c3e6039a33ce45964ff2167f6ecedd419db06c1".
Proof. vm_compute. reflexivity. Qed.

(** The padded message is a whole number of blocks, so every byte is absorbed. *)
Lemma be_bytes_length n z : length (be_bytes n z) = n.
Proof. induction n; simpl; lia. Qed.

Lemma pad_length msg : (Z.of_nat (length (pad msg))) mod 64 = 0.
Proof.
  unfold pad. rewrite !length_app, length_replicate, be_bytes_length. simpl.
  set (n := Z.of_nat (length msg)). pose proof (Z.mod_pos_bound (55 - n) 64 eq_refl) as Hb.
  replace (Z.of_nat _) with (n + 9 + (55 - n) mod 64) by lia.
  rewrite Zplus_mod_idemp_r. by replace (n + 9 + (55 - n)) with (64 * 1) by lia.
Qed.

Lemma Sum256_length msg : String.length (Sum256 msg) = 32%nat.
Proof.
  unfold Sum256, string_of, digest. generalize (absorb (length (words (pad (bytes_of msg))) / 16) hash0
    (words (pad (bytes_of msg)))). by intros [].
Qed.
