(* ===== verification/Pem.v ===== *)
(** * encoding/pem: Decode, with encoding/base64

    [pem_Decode] gives the bytes of the first block of a PEM text.  A block
    that is malformed is skipped, and the search goes on in the text after its
    first line or headers.  The loop takes fuel; every round makes the text
    shorter, so the length of the text is enough ([pem_loop_fuel]). *)

From S2P Require Import Prelude GoInt GoStrings Json.
Open Scope Z_scope.

(** ** base64.StdEncoding *)

Definition sextet (c : ascii) : option Z :=
  let n := code c in
  if (65 <=? n) && (n <=? 90) then Some (n - 65)
  else if (97 <=? n) && (n <=? 122) then Some (n - 71)
  else if (48 <=? n) && (n <=? 57) then Some (n + 4)
  else if n =? 43 then Some 62
  else if n =? 47 then Some 63
  else None.

Definition sextet_char (z : Z) : ascii :=
  chr (if z <? 26 then z + 65 else if z <? 52 then z + 71 else if z <? 62 then z - 4
       else if z =? 62 then 43 else 47).

Definition is_pad (c : ascii) : bool := Ascii.eqb c "=".

Fixpoint str_filter (p : ascii → bool) (s : string) : string :=
  match s with
  | EmptyString => EmptyString
  | String c s' => if p c then String c (str_filter p s') else str_filter p s'
  end.

Definition empty_str (s : string) : bool := match s with EmptyString => true | _ => false end.

(** Groups of four characters; padding may end the last one.  The bits of the
    last character that belong to no byte are ignored. *)
Fixpoint decode_groups (s : string) : option string :=
  match s with
  | EmptyString => Some EmptyString
  | String a (String b (String c (String d r))) =>
      match sextet a, sextet b, sextet c, sextet d with
      | Some x, Some y, Some z, Some t =>
          rest ← decode_groups r;
          Some (String (chr (4 * x + y / 16)) (String (chr (16 * (y mod 16) + z / 4))
                 (String (chr (64 * (z mod 4) + t)) rest)))
      | Some x, Some y, Some z, None =>
          if is_pad d && empty_str r
          then Some (String (chr (4 * x + y / 16)) (String (chr (16 * (y mod 16) + z / 4)) ""))
          else None
      | Some x, Some y, None, _ =>
          if is_pad c && is_pad d && empty_str r then Some (String (chr (4 * x + y / 16)) "") else None
      | _, _, _, _ => None
      end
  | _ => None
  end.

Definition newline : ascii := chr 10.
Definition carriage : ascii := chr 13.
Definition is_newline (c : ascii) : bool := Ascii.eqb c newline || Ascii.eqb c carriage.

Definition base64_Decode (s : string) : option string :=
  decode_groups (str_filter (λ c, negb (is_newline c)) s).

(** ** Lines *)

(** The text before and after the first occurrence of [sep]. *)
Fixpoint cut (sep s : string) : option (string * string) :=
  match strip_prefix sep s with
  | Some r => Some ("", r)
  | None =>
      match s with
      | EmptyString => None
      | String c s' => '(a, b) ← cut sep s'; Some (String c a, b)
      end
  end.

Definition is_blank (c : ascii) : bool := (code c =? 32) || (code c =? 9).

(** bytes.TrimRight(line, " \t") *)
Fixpoint trim_right (s : string) : string :=
  match s with
  | EmptyString => EmptyString
  | String c s' =>
      match trim_right s' with
      | EmptyString => if is_blank c then EmptyString else String c EmptyString
      | t => String c t
      end
  end.

(** One carriage return at the end of a line is dropped. *)
Fixpoint drop_cr (s : string) : string :=
  match s with
  | EmptyString => EmptyString
  | String c s' =>
      if Ascii.eqb c carriage && empty_str s' then EmptyString else String c (drop_cr s')
  end.

Definition getLine (s : string) : string * string :=
  match cut (String newline "") s with
  | Some (l, r) => (trim_right (drop_cr l), r)
  | None => (trim_right s, "")
  end.

(** The text without its suffix [suf], if it has it. *)
Fixpoint strip_suffix (suf s : string) : option string :=
  if bool_decide (s = suf) then Some "" else
  match s with
  | EmptyString => None
  | String c s' => r ← strip_suffix suf s'; Some (String c r)
  end.

(** ** Decode *)

Definition dashes : string := "-----".
Definition begin_ : string := "-----BEGIN ".
Definition end_ : string := "-----END ".
Definition pemStart : string := String newline begin_.
Definition pemEnd : string := String newline end_.

(** The text after the next start of a block. *)
Definition find_start (s : string) : option string :=
  match strip_prefix begin_ s with
  | Some r => Some r
  | None => snd <$> cut pemStart s
  end.

(** The lines with a colon: whether there was one, and the text after them;
    [None] at the end of the text. *)
Fixpoint headers (fuel : nat) (any : bool) (s : string) : option (bool * string) :=
  match fuel with
  | O => None
  | S n =>
      match s with
      | EmptyString => None
      | _ =>
          let '(line, next) := getLine s in
          match cut ":" line with
          | None => Some (any, s)
          | Some _ => headers n true next
          end
      end
  end.

(** The end line: the text before it, and after its marker.  Without headers
    it may follow at once. *)
Definition find_end (any : bool) (s : string) : option (string * string) :=
  match any, strip_prefix end_ s with
  | false, Some r => Some ("", r)
  | _, _ => cut pemEnd s
  end.

(** The rest of the end line: the type again, dashes, and nothing else. *)
Definition end_ok (ty r : string) : bool :=
  match strip_prefix (ty +:+ dashes) r with
  | Some r' => empty_str (getLine r').1
  | None => false
  end.

(** A block whose type line has been read: its bytes, or [None] when it is
    malformed, and the text where the search goes on; at the end of the text
    in the headers there is no block. *)
Definition block (ty s : string) : option (option string * string) :=
  '(any, r) ← headers (S (String.length s)) false s;
  match find_end any r with
  | None => Some (None, r)
  | Some (body, trailer) =>
      if end_ok ty trailer then
        Some (base64_Decode (str_filter (λ c, negb (is_blank c)) body), r)
      else Some (None, r)
  end.

Fixpoint pem_loop (fuel : nat) (s : string) : option string :=
  match fuel with
  | O => None
  | S n =>
      r ← find_start s;
      let '(typeLine, r) := getLine r in
      match strip_suffix dashes typeLine with
      | None => pem_loop n r
      | Some ty =>
          '(bytes, r') ← block ty r;
          match bytes with
          | Some b => Some b
          | None => pem_loop n r'
          end
      end
  end.

Definition pem_Decode (data : string) : option string := pem_loop (String.length data) data.
Arguments pem_Decode data : simpl never.

(** ** Enough fuel *)

Lemma cut_app sep s a b : cut sep s = Some (a, b) → s = a +:+ sep +:+ b.
Proof.
  revert a b. induction s as [|c s IH]; intros a b; cbn [cut].
  - destruct (strip_prefix sep "") eqn:E; [|done]. intros [= <- <-]. by apply strip_prefix_spec in E.
  - destruct (strip_prefix sep (String c s)) eqn:E.
    + intros [= <- <-]. by apply strip_prefix_spec in E.
    + destruct (cut sep s) as [[a' b']|]; [|done]. intros [= <- <-]. rewrite app_cons. f_equal. by apply IH.
Qed.

Lemma find_start_len s r : find_start s = Some r → (len r < len s)%nat.
Proof.
  unfold find_start. destruct (strip_prefix begin_ s) eqn:E.
  - intros [= <-]. apply strip_prefix_spec in E as ->. rewrite len_app. simpl. lia.
  - destruct (cut pemStart s) as [[a b]|] eqn:Ec; [|done]. intros [= <-].
    apply cut_app in Ec as ->. rewrite !len_app. simpl. lia.
Qed.

Lemma getLine_len s : (len (getLine s).2 <= len s)%nat ∧ (s ≠ "" → len (getLine s).2 < len s)%nat.
Proof.
  unfold getLine. destruct (cut _ s) as [[l r]|] eqn:E; simpl.
  - apply cut_app in E as ->. rewrite !len_app. simpl. lia.
  - split; [lia|]. destruct s; [done|simpl; lia].
Qed.

Lemma headers_len n any s any' r : headers n any s = Some (any', r) → (len r <= len s)%nat.
Proof.
  revert any s. induction n as [|n IH]; intros any s; [done|]. cbn [headers].
  destruct s as [|c s]; [done|]. pose proof (getLine_len (String c s)) as [Hl _].
  destruct (getLine (String c s)) as [line next]. destruct (cut ":" line); [|by intros [= _ <-]].
  intros H%IH. simpl in *. lia.
Qed.

Lemma headers_fuel n m any s : (len s < n)%nat → (len s < m)%nat → headers n any s = headers m any s.
Proof.
  revert m any s. induction n as [|n IH]; intros [|m] any s Hn Hm; try lia. cbn [headers].
  destruct s as [|c s]; [done|]. pose proof (getLine_len (String c s)) as [_ Hl].
  destruct (getLine (String c s)) as [line next]. simpl in Hl. specialize (Hl ltac:(done)).
  destruct (cut ":" line); [|done]. apply IH; simpl in *; lia.
Qed.

Lemma block_len ty s b r : block ty s = Some (b, r) → (len r <= len s)%nat.
Proof.
  unfold block. destruct (headers _ _ s) as [[any r']|] eqn:E; [|done]. apply headers_len in E.
  simpl. repeat case_match; intros [= <- <-]; done.
Qed.

(** Any fuel from the length of the text on gives the same answer. *)
Lemma pem_loop_fuel n m s : (len s <= n)%nat → (len s <= m)%nat → pem_loop n s = pem_loop m s.
Proof.
  assert (∀ k, pem_loop k "" = None) as Hempty by (by intros []).
  revert m s. induction n as [|n IH]; intros m s Hn Hm.
  { destruct s; [by rewrite !Hempty|simpl in *; lia]. }
  destruct m as [|m]; [destruct s; [by rewrite !Hempty|simpl in *; lia]|]. cbn [pem_loop].
  destruct (find_start s) as [r|] eqn:E; [simpl|done]. apply find_start_len in E.
  pose proof (getLine_len r) as [Hl _]. destruct (getLine r) as [line r1]. simpl in Hl.
  destruct (strip_suffix dashes line) as [ty|]; [|apply IH; lia].
  destruct (block ty r1) as [[[b|] r2]|] eqn:Eb; simpl; [done|apply block_len in Eb; apply IH; lia|done].
Qed.

(** ** base64: reading what was written *)

Fixpoint base64_Encode (s : string) : string :=
  match s with
  | EmptyString => EmptyString
  | String a EmptyString =>
      String (sextet_char (code a / 4)) (String (sextet_char (code a mod 4 * 16)) "==")
  | String a (String b EmptyString) =>
      String (sextet_char (code a / 4)) (String (sextet_char (code a mod 4 * 16 + code b / 16))
        (String (sextet_char (code b mod 16 * 4)) "="))
  | String a (String b (String c r)) =>
      String (sextet_char (code a / 4)) (String (sextet_char (code a mod 4 * 16 + code b / 16))
        (String (sextet_char (code b mod 16 * 4 + code c / 64)) (String (sextet_char (code c mod 64))
          (base64_Encode r))))
  end.

Lemma code_bound c : 0 <= code c < 256.
Proof. unfold code. pose proof (N_ascii_bounded c). lia. Qed.
Lemma chr_code c : chr (code c) = c.
Proof. unfold chr, code. rewrite N2Z.id. apply ascii_N_embedding. Qed.

Lemma sextet_of_char z : 0 <= z < 64 → sextet (sextet_char z) = Some z.
Proof.
  intros Hz. assert (z ∈ seqZ 0 64) as Hin by (apply elem_of_seqZ; lia).
  assert (forallb (λ z, bool_decide (sextet (sextet_char z) = Some z)) (seqZ 0 64) = true) as H
    by (vm_compute; reflexivity).
  rewrite forallb_forall in H. eapply bool_decide_eq_true, H. by apply list_elem_of_In.
Qed.

Lemma decode_groups_encode s : decode_groups (base64_Encode s) = Some s.
Proof.
  assert (∀ a b c : Z, 0 <= a < 256 → 0 <= b < 256 → 0 <= c < 256 →
    (0 <= a / 4 < 64 ∧ 0 <= a mod 4 * 16 + b / 16 < 64 ∧ 0 <= b mod 16 * 4 + c / 64 < 64 ∧ 0 <= c mod 64 < 64) ∧
    4 * (a / 4) + (a mod 4 * 16 + b / 16) / 16 = a ∧
    16 * ((a mod 4 * 16 + b / 16) mod 16) + (b mod 16 * 4 + c / 64) / 4 = b ∧
    64 * ((b mod 16 * 4 + c / 64) mod 4) + c mod 64 = c) as Harith.
  { intros a b c Ha Hb Hc. Z.to_euclidean_division_equations. lia. }
  induction s as [s IH] using (induction_ltof1 _ String.length). unfold ltof in IH.
  destruct s as [|a [|b [|c s]]]; [done|..]; cbn [base64_Encode decode_groups].
  - pose proof (code_bound a) as Ha. destruct (Harith (code a) 0 0) as ((R1 & R2 & _) & E1 & _); [lia..|].
    change (0 / 16) with 0 in *. rewrite Z.add_0_r in *. rewrite !sextet_of_char by done.
    cbn. by rewrite E1, chr_code.
  - pose proof (code_bound a) as Ha. pose proof (code_bound b) as Hb.
    destruct (Harith (code a) (code b) 0) as ((R1 & R2 & R3 & _) & E1 & E2 & _); [lia..|].
    change (0 / 64) with 0 in *. rewrite Z.add_0_r in R3, E2. rewrite !sextet_of_char by done.
    cbn. by rewrite E1, E2, !chr_code.
  - pose proof (code_bound a) as Ha. pose proof (code_bound b) as Hb. pose proof (code_bound c) as Hc.
    destruct (Harith (code a) (code b) (code c)) as ((R1 & R2 & R3 & R4) & E1 & E2 & E3); [lia..|].
    rewrite !sextet_of_char, IH by (done || simpl; lia). cbn. by rewrite E1, E2, E3, !chr_code.
Qed.

(** ** A PEM text *)

(** The body of a block: base64 characters, padding and line breaks. *)
Definition body_char (c : ascii) : bool :=
  bool_decide (is_Some (sextet c)) || is_pad c || is_newline c.

Definition pem_text (ty body : string) : string :=
  begin_ +:+ ty +:+ dashes +:+ String newline (body +:+ pemEnd +:+ ty +:+ dashes).

Lemma body_char_not c : body_char c = true → Ascii.eqb c "-" = false ∧ Ascii.eqb c ":" = false ∧ is_blank c = false.
Proof.
  intros Hc. set (p := λ c : ascii, implb (body_char c)
    (negb (Ascii.eqb c "-") && negb (Ascii.eqb c ":") && negb (is_blank c))).
  by_ascii p c H. rewrite Hc in H. cbn [implb] in H. rewrite !andb_true_iff, !negb_true_iff in H. tauto.
Qed.

(** The first line break is found behind text without one. *)
Lemma cut_newline s r :
  str_forallb (λ c, negb (Ascii.eqb c newline)) s = true →
  cut (String newline "") (s +:+ String newline r) = Some (s, r).
Proof.
  induction s as [|c s IH]; [done|]. cbn [str_forallb]. intros [Hc%negb_true_iff Hs]%andb_true_iff.
  rewrite app_cons. cbn [cut strip_prefix]. rewrite decide_False by (intros <-; by rewrite Ascii.eqb_refl in Hc).
  by rewrite IH.
Qed.

(** The end marker is found behind a body, which has no dash. *)
Lemma cut_pemEnd body r :
  str_forallb body_char body = true → cut pemEnd (body +:+ pemEnd +:+ r) = Some (body, r).
Proof.
  assert (∀ c s, Ascii.eqb c "-" = false → strip_prefix end_ (String c s) = None) as Hno.
  { intros c s Hc. unfold end_. cbn [strip_prefix]. rewrite decide_False; [done|].
    intros <-. by rewrite Ascii.eqb_refl in Hc. }
  induction body as [|c body IH]; cbn [str_forallb].
  - intros _. rewrite app_empty_l.
    assert (strip_prefix pemEnd (pemEnd +:+ r) = Some r) as E by (by apply strip_prefix_spec).
    destruct (pemEnd +:+ r); cbn [cut]; by rewrite E.
  - intros [Hc Hb]%andb_true_iff. rewrite app_cons. cbn [cut].
    assert (strip_prefix pemEnd (String c (body +:+ pemEnd +:+ r)) = None) as ->; [|by rewrite IH].
    unfold pemEnd at 1. cbn [strip_prefix]. case_decide; [|done].
    destruct body as [|c' body]; [by apply Hno|]. rewrite app_cons. apply Hno.
    cbn [str_forallb] in Hb. apply andb_true_iff in Hb as [Hb _]. by apply body_char_not in Hb as [? _].
Qed.

Lemma trim_right_dashes s : trim_right (s +:+ dashes) = s +:+ dashes.
Proof.
  induction s as [|c s IH]; [done|]. rewrite app_cons. cbn [trim_right]. rewrite IH. by destruct s.
Qed.

Lemma drop_cr_dashes s : drop_cr (s +:+ dashes) = s +:+ dashes.
Proof.
  induction s as [|c s IH]; [done|]. rewrite app_cons. cbn [drop_cr]. rewrite IH.
  assert (empty_str (s +:+ dashes) = false) as -> by (by destruct s). by rewrite andb_false_r.
Qed.

Lemma strip_suffix_app suf s : strip_suffix suf (s +:+ suf) = Some s.
Proof.
  induction s as [|c s IH].
  - rewrite app_empty_l. destruct suf; cbn [strip_suffix]; by rewrite bool_decide_eq_true_2.
  - rewrite app_cons. cbn [strip_suffix]. rewrite IH.
    rewrite bool_decide_eq_false_2; [done|]. intros E%(f_equal len). simpl in E. rewrite len_app in E. lia.
Qed.

Lemma str_filter_id p s : str_forallb p s = true → str_filter p s = s.
Proof. induction s as [|c s IH]; [done|]. simpl. intros [-> Hs]%andb_true_iff. by rewrite IH. Qed.

Lemma cut_absent c s : str_forallb (λ d, negb (Ascii.eqb d c)) s = true → cut (String c "") s = None.
Proof.
  induction s as [|d s IH]; [done|]. simpl. intros [Hd%negb_true_iff Hs]%andb_true_iff.
  rewrite decide_False by (intros <-; by rewrite Ascii.eqb_refl in Hd). by rewrite IH.
Qed.

Lemma cut_before sep s a b p : cut sep s = Some (a, b) → str_forallb p s = true → str_forallb p a = true.
Proof. intros ->%cut_app. rewrite str_forallb_app. by intros [? _]%andb_true_iff. Qed.

Lemma trim_right_forallb p s : str_forallb p s = true → str_forallb p (trim_right s) = true.
Proof.
  induction s as [|c s IH]; [done|]. simpl. intros [Hc Hs]%andb_true_iff. specialize (IH Hs).
  destruct (trim_right s); [case_match; simpl; by rewrite ?Hc|]. cbn [str_forallb] in *. by rewrite Hc, IH.
Qed.

Lemma drop_cr_forallb p s : str_forallb p s = true → str_forallb p (drop_cr s) = true.
Proof.
  induction s as [|c s IH]; [done|]. simpl. intros [Hc Hs]%andb_true_iff.
  case_match; [done|]. simpl. by rewrite Hc, IH.
Qed.

(** The line before the end marker's has no colon, so there are no headers. *)
Lemma headers_body n body r :
  str_forallb body_char body = true →
  headers (S n) false (body +:+ pemEnd +:+ r) = Some (false, body +:+ pemEnd +:+ r).
Proof.
  intros Hb. cbn [headers]. destruct (body +:+ pemEnd +:+ r) as [|c0 t] eqn:E0.
  { destruct body; done. }
  rewrite <-E0. clear c0 t E0. unfold getLine.
  assert (∃ l m, cut (String newline "") (body +:+ pemEnd +:+ r) = Some (l, m) ∧
    str_forallb (λ c, negb (Ascii.eqb c ":")) l = true) as (l & m & -> & Hl).
  { induction body as [|c body IH].
    - exists "", (end_ +:+ r). done.
    - cbn [str_forallb] in Hb. apply andb_true_iff in Hb as [Hc Hb]. rewrite app_cons. cbn [cut strip_prefix].
      case_decide; [by eexists "", _|]. destruct (IH Hb) as (l & m & -> & Hl). exists (String c l), m.
      split; [done|]. simpl. apply body_char_not in Hc as (_ & -> & _). done. }
  rewrite cut_absent; [done|]. by apply trim_right_forallb, drop_cr_forallb.
Qed.

(** Decoding the text of a block gives its bytes: whatever the type and
    wherever the lines of the body are broken. *)
Lemma pem_Decode_text ty body der :
  str_forallb (λ c, negb (Ascii.eqb c newline)) ty = true → str_forallb body_char body = true →
  str_filter (λ c, negb (is_newline c)) body = base64_Encode der →
  pem_Decode (pem_text ty body) = Some der.
Proof.
  intros Ht Hb He. unfold pem_Decode.
  destruct (len (pem_text ty body)) as [|n] eqn:En; [done|]. clear En. cbn [pem_loop].
  unfold find_start, pem_text at 1.
  assert (∀ r, strip_prefix begin_ (begin_ +:+ r) = Some r) as Hp by (intros; by apply strip_prefix_spec).
  rewrite Hp. cbn [mbind option_bind]. unfold getLine at 1.
  rewrite <-app_assoc_str, cut_newline; [|rewrite str_forallb_app; by rewrite Ht].
  rewrite drop_cr_dashes, trim_right_dashes, strip_suffix_app. unfold block.
  rewrite headers_body by done. cbn [mbind option_bind]. unfold find_end.
  assert (strip_prefix end_ (body +:+ pemEnd +:+ ty +:+ dashes) = None) as ->.
  { destruct body as [|c body]; [done|]. rewrite app_cons. unfold end_. cbn [strip_prefix].
    rewrite decide_False; [done|]. cbn [str_forallb] in Hb. apply andb_true_iff in Hb as [Hc _].
    apply body_char_not in Hc as [Hc _]. intros <-. by rewrite Ascii.eqb_refl in Hc. }
  rewrite cut_pemEnd by done. unfold end_ok.
  assert (strip_prefix (ty +:+ dashes) (ty +:+ dashes) = Some "") as ->
    by (apply strip_prefix_spec; by rewrite app_empty_r).
  change (empty_str (getLine "").1) with true. cbv iota. cbn [mbind option_bind].
  rewrite (str_filter_id _ body); [unfold base64_Decode; by rewrite He, decode_groups_encode|].
  revert Hb. apply str_forallb_impl. intros c Hc. by apply body_char_not in Hc as (_ & _ & ->).
Qed.

Example pem_ex1 : pem_Decode (pem_text "CERTIFICATE" "aGVsbG8=") = Some "hello".
Proof. vm_compute. reflexivity. Qed.
Example pem_ex2 : pem_Decode ("junk" +:+ String newline (pem_text "X" ("aGVs" +:+ String newline "bG8="))) = Some "hello".
Proof. vm_compute. reflexivity. Qed.
Example pem_ex3 : pem_Decode <$> [""; "CERT"; pem_text "X" "aGV"; pem_text "X" "====" ] = [None; None; None; None].
Proof. vm_compute. reflexivity. Qed.
Example pem_ex4 : pem_Decode (pem_text "X" "" +:+ "y" ) = None.
Proof. vm_compute. reflexivity. Qed.
