(* ===== verification/Apis.v ===== *)
(** * Interfaces of the third-party packages

    The exporter reads measurement results through the accessors of
    github.com/DNS-OARC/ripeatlas/measurement and writes metrics through
    github.com/prometheus/client_golang.  Neither package is part of the
    repository: both are classes, and every definition that calls them takes
    an instance.  What the theorems need of the Prometheus client is stated
    in the class [PromLaws], from its documentation. *)

From S2P Require Import Prelude GoInt GoFloat GoStrings.
Open Scope Z_scope.

(** ** ripeatlas/measurement: results and their accessors *)

Class AtlasAPI := {
  Result : Type;         (* measurement.Result *)
  PingReply : Type;      (* an element of Result.PingResults *)
  HttpReply : Type;      (* an element of Result.HttpResults *)
  Hop : Type;            (* an element of Result.TracerouteResults *)
  HopReply : Type;       (* an element of Hop.Replies *)
  DnsReply : Type;       (* dns.Result *)
  SslAlert : Type;       (* sslcert.Alert *)
  DnsMsg : Type;         (* miekg/dns Msg *)
  DnsOpt : Type;         (* miekg/dns OPT *)
  Edns0 : Type;          (* miekg/dns EDNS0, an interface *)

  ParseError : Result → option string;
  PrbId : Result → Z;
  MsmId : Result → Z;
  Af : Result → Z;
  Timestamp : Result → Z;
  MsmType : Result → string;   (* Result.Type *)
  DstAddr : Result → string;
  DstName : Result → string;
  Proto : Result → string;
  Uri : Result → string;
  Ver : Result → string;
  (* ping *)
  Min : Result → float64;
  Max : Result → float64;
  Avg : Result → float64;
  Sent : Result → Z;
  Rcvd : Result → Z;
  Dup : Result → Z;
  Ttl : Result → Z;
  Size : Result → Z;
  PingResults : Result → list PingReply;
  ping_Rtt : PingReply → float64;
  (* ntp *)
  Poll : Result → float64;
  Precision : Result → float64;
  RootDelay : Result → float64;
  RootDispersion : Result → float64;
  Version : Result → Z;
  (* traceroute *)
  TracerouteResults : Result → list Hop;
  Replies : Hop → list HopReply;
  From_ : HopReply → string;
  hop_Rtt : HopReply → float64;
  (* http *)
  HttpResults : Result → list HttpReply;
  http_DstAddr : HttpReply → string;
  http_Af : HttpReply → Z;
  http_Method : HttpReply → string;
  http_Dnserr : HttpReply → string;
  http_Ver : HttpReply → string;
  http_Res : HttpReply → Z;
  http_Bsize : HttpReply → Z;
  http_Hsize : HttpReply → Z;
  http_Rt : HttpReply → float64;
  (* sslcert *)
  Rt : Result → float64;
  Cert : Result → list string;
  SslcertAlert : Result → option SslAlert;
  alert_Level : SslAlert → Z;
  alert_Description : SslAlert → Z;
  (* dns; a nil pointer is [None] *)
  DnsResult : Result → option DnsReply;
  dns_Rt : DnsReply → float64;
  UnpackAbuf : DnsReply → GoResult (option DnsMsg);
  IsEdns0 : DnsMsg → option DnsOpt;
  opt_Option : DnsOpt → list Edns0;
  as_NSID : Edns0 → option string   (* o.( *mdns.EDNS0_NSID), its Nsid *)
}.

(** ** client_golang/prometheus *)

(** The arguments of [prometheus.NewDesc]. *)
Record Desc := NewDesc {
  fqName : string;
  help : string;
  variableLabels : list string;
  constLabels : list (string * string)
}.
#[export] Instance Desc_eq_dec : EqDecision Desc.
Proof. solve_decision. Defined.

Inductive ValueType := CounterValue | GaugeValue | UntypedValue.

Record HistogramOpts := {
  Namespace : string;
  Subsystem : string;
  Name : string;
  Buckets : list float64;
  Help : string;
  ConstLabels : list (string * string)
}.

(** Bucket bounds of which none is at least the next one. *)
Fixpoint increasing (bs : list float64) : bool :=
  match bs with
  | x :: ((y :: _) as bs') => negb (f64_le y x) && increasing bs'
  | _ => true
  end.

Class PromAPI := {
  Metric : Type;
  PromHist : Type;       (* prometheus.Histogram *)
  BuildFQName : string → string → string → string;
  MustNewConstMetric : Desc → ValueType → float64 → list string → Outcome Metric;
  metric_Desc : Metric → Desc;
  NewHistogram : HistogramOpts → Outcome PromHist;
  Observe : float64 → PromHist → PromHist;
  hist_Describe : PromHist → list Desc;
  hist_Collect : PromHist → list Metric;
  (* for specifications: the values of a metric's variable labels, a label
     value the client accepts, the metric that [MustNewConstMetric] builds,
     and the values a histogram has observed *)
  metric_values : Metric → list string;
  label_ok : string → bool;
  const_metric : Desc → ValueType → float64 → list string → Metric;
  observations : PromHist → list float64
}.

(** What the client documents:
    - [MustNewConstMetric] builds the metric when there is one valid label
      value per variable label of the description and panics otherwise;
    - label values are Unicode text, so printable ASCII is accepted;
    - [NewHistogram] panics if a bucket bound is greater than or equal to the
      next one, and a new histogram has observed nothing;
    - a histogram collects metrics under the description it announced;
    - [BuildFQName] joins its arguments with underscores;
    - a histogram collects itself: one metric without variable labels, under
      the name and the constant labels of its options. *)
Class PromLaws `{P : PromAPI} : Prop := {
  must_const_ok d vt v lvs :
    length lvs = length (variableLabels d) → forallb label_ok lvs = true →
    MustNewConstMetric d vt v lvs = Ret (const_metric d vt v lvs);
  must_const_bad d vt v lvs :
    length lvs ≠ length (variableLabels d) ∨ forallb label_ok lvs = false →
    ∃ msg, MustNewConstMetric d vt v lvs = Panic msg;
  metric_desc_const d vt v lvs : metric_Desc (const_metric d vt v lvs) = d;
  label_ok_printable s : str_forallb printable s = true → label_ok s = true;
  NewHistogram_ok o :
    increasing (Buckets o) = true → "le" ∉ (ConstLabels o).*1 →
    ∃ h, NewHistogram o = Ret h ∧ observations h = [];
  NewHistogram_bad o :
    increasing (Buckets o) = false → ∃ msg, NewHistogram o = Panic msg;
  observe_spec x h : observations (Observe x h) = observations h ++ [x];
  hist_collect_described h m : m ∈ hist_Collect h → metric_Desc m ∈ hist_Describe h;
  observe_describe x h : hist_Describe (Observe x h) = hist_Describe h;
  metric_values_const d vt v lvs : metric_values (const_metric d vt v lvs) = lvs;
  BuildFQName_join a b c :
    a ≠ "" → b ≠ "" → c ≠ "" → BuildFQName a b c = a +:+ "_" +:+ b +:+ "_" +:+ c;
  hist_collect_one h : ∃ m, hist_Collect h = [m] ∧ metric_values m = [];
  NewHistogram_describe o h :
    NewHistogram o = Ret h →
    hist_Describe h = [NewDesc (BuildFQName (Namespace o) (Subsystem o) (Name o)) (Help o) [] (ConstLabels o)]
}.
