(* ===== verification/Samples.v ===== *)
(** * Concrete instances of the third-party interfaces

    Records stand for the parsed results of the Atlas API, and a small
    Prometheus client satisfies [PromLaws].  They show that the hypotheses of
    the theorems can be met, and the witnesses evaluate on them. *)

From S2P Require Import Prelude GoInt GoFloat GoStrings Apis.
Open Scope Z_scope.

Record sDns := { sd_rt : float64; sd_nsid : list (option string) }.
Record sHttp := {
  sh_dst : string; sh_af : Z; sh_method : string; sh_dnserr : string; sh_ver : string;
  sh_res : Z; sh_bsize : Z; sh_hsize : Z; sh_rt : float64
}.

Record sResult := {
  s_err : option string; s_prb : Z; s_msm : Z; s_af : Z; s_time : Z; s_type : string;
  s_dst : string; s_dstname : string; s_proto : string; s_uri : string; s_ver : string;
  s_min : float64; s_max : float64; s_avg : float64;
  s_sent : Z; s_rcvd : Z; s_dup : Z; s_ttl : Z; s_size : Z;
  s_pings : list float64;
  s_poll : float64; s_prec : float64; s_delay : float64; s_disp : float64; s_version : Z;
  s_hops : list (list (string * float64));
  s_http : list sHttp;
  s_rt : float64; s_cert : list string; s_alert : option (Z * Z);
  s_dns : option sDns
}.

(** A DNS message is the list of its EDNS0 options, an option the text of its
    NSID if it is one. *)
Definition sAtlas : AtlasAPI := {|
  Result := sResult; PingReply := float64; HttpReply := sHttp;
  Hop := list (string * float64); HopReply := string * float64;
  DnsReply := sDns; SslAlert := Z * Z;
  DnsMsg := list (option string); DnsOpt := list (option string); Edns0 := option string;
  ParseError := s_err; PrbId := s_prb; MsmId := s_msm; Af := s_af; Timestamp := s_time;
  MsmType := s_type; DstAddr := s_dst; DstName := s_dstname; Proto := s_proto; Uri := s_uri;
  Ver := s_ver; Min := s_min; Max := s_max; Avg := s_avg; Sent := s_sent; Rcvd := s_rcvd;
  Dup := s_dup; Ttl := s_ttl; Size := s_size; PingResults := s_pings; ping_Rtt := λ x, x;
  Poll := s_poll; Precision := s_prec; RootDelay := s_delay; RootDispersion := s_disp;
  Version := s_version; TracerouteResults := s_hops; Replies := λ h, h; From_ := fst;
  hop_Rtt := snd; HttpResults := s_http; http_DstAddr := sh_dst; http_Af := sh_af;
  http_Method := sh_method; http_Dnserr := sh_dnserr; http_Ver := sh_ver; http_Res := sh_res;
  http_Bsize := sh_bsize; http_Hsize := sh_hsize; http_Rt := sh_rt; Rt := s_rt;
  Cert := s_cert; SslcertAlert := s_alert; alert_Level := fst; alert_Description := snd;
  DnsResult := s_dns; dns_Rt := sd_rt; UnpackAbuf := λ d, Ok (Some (sd_nsid d));
  IsEdns0 := λ m, Some m; opt_Option := λ o, o; as_NSID := λ e, e
|}.

(** A ping result of probe [prb] with the given round trip times. *)
Definition sPing (prb ts : Z) (rtts : list float64) : sResult := {|
  s_err := None; s_prb := prb; s_msm := 1001; s_af := 4; s_time := ts; s_type := "ping";
  s_dst := "8.8.8.8"; s_dstname := "8.8.8.8"; s_proto := "ICMP"; s_uri := ""; s_ver := "";
  s_min := default f64_zero (head rtts); s_max := default f64_zero (last rtts);
  s_avg := default f64_zero (head rtts);
  s_sent := 3; s_rcvd := Z.of_nat (length rtts); s_dup := 0; s_ttl := 55; s_size := 48;
  s_pings := rtts; s_poll := f64_zero; s_prec := f64_zero; s_delay := f64_zero;
  s_disp := f64_zero; s_version := 0; s_hops := []; s_http := []; s_rt := f64_zero;
  s_cert := []; s_alert := None; s_dns := None
|}.

(** The same result as another type of measurement. *)
Definition retype (t : string) (r : sResult) : sResult := {|
  s_err := s_err r; s_prb := s_prb r; s_msm := s_msm r; s_af := s_af r; s_time := s_time r;
  s_type := t; s_dst := s_dst r; s_dstname := s_dstname r; s_proto := s_proto r;
  s_uri := s_uri r; s_ver := s_ver r; s_min := s_min r; s_max := s_max r; s_avg := s_avg r;
  s_sent := s_sent r; s_rcvd := s_rcvd r; s_dup := s_dup r; s_ttl := s_ttl r;
  s_size := s_size r; s_pings := s_pings r; s_poll := s_poll r; s_prec := s_prec r;
  s_delay := s_delay r; s_disp := s_disp r; s_version := s_version r; s_hops := s_hops r;
  s_http := s_http r; s_rt := s_rt r; s_cert := s_cert r; s_alert := s_alert r; s_dns := s_dns r
|}.

(** ** A Prometheus client *)

Record sMetric := { sm_desc : Desc; sm_type : ValueType; sm_value : float64; sm_labels : list string }.
Record sHist := { hi_opts : HistogramOpts; hi_obs : list float64 }.

Definition sDescribe (h : sHist) : Desc :=
  NewDesc (Namespace (hi_opts h) +:+ "_" +:+ Subsystem (hi_opts h) +:+ "_" +:+ Name (hi_opts h))
    (Help (hi_opts h)) [] (ConstLabels (hi_opts h)).

Definition sProm : PromAPI := {|
  Metric := sMetric; PromHist := sHist;
  BuildFQName := λ a b c, a +:+ "_" +:+ b +:+ "_" +:+ c;
  MustNewConstMetric := λ d vt v lvs,
    if Nat.eqb (length lvs) (length (variableLabels d)) && forallb (str_forallb printable) lvs
    then Ret {| sm_desc := d; sm_type := vt; sm_value := v; sm_labels := lvs |}
    else Panic "inconsistent label cardinality or invalid label value";
  metric_Desc := sm_desc;
  NewHistogram := λ o,
    if increasing (Buckets o) && negb (existsb (λ l, bool_decide (l.1 = "le")) (ConstLabels o))
    then Ret {| hi_opts := o; hi_obs := [] |}
    else Panic "histogram buckets must be in increasing order";
  Observe := λ x h, {| hi_opts := hi_opts h; hi_obs := hi_obs h ++ [x] |};
  hist_Describe := λ h, [sDescribe h];
  hist_Collect := λ h,
    [{| sm_desc := sDescribe h; sm_type := UntypedValue;
        sm_value := f64_of_int (Z.of_nat (length (hi_obs h))); sm_labels := [] |}];
  metric_values := sm_labels;
  label_ok := str_forallb printable;
  const_metric := λ d vt v lvs, {| sm_desc := d; sm_type := vt; sm_value := v; sm_labels := lvs |};
  observations := hi_obs
|}.

Lemma sPromLaws : PromLaws (P := sProm).
Proof.
  split; try done.
  - intros d vt v lvs Hl Ho. simpl in *. by rewrite Hl, Nat.eqb_refl, Ho.
  - intros d vt v lvs H. simpl in *.
    destruct (Nat.eqb_spec (length lvs) (length (variableLabels d))) as [E|E]; [|by eexists].
    destruct H as [H|H]; [done|]. rewrite H. by eexists.
  - intros o Hi Hle. simpl. rewrite Hi.
    destruct (existsb _ _) eqn:E; [|by eexists].
    apply existsb_exists in E as (l & Hin%list_elem_of_In & Hb%bool_decide_eq_true).
    destruct Hle. apply list_elem_of_fmap. by exists l.
  - intros o Hi. simpl. rewrite Hi. by eexists.
  - intros h m Hm%list_elem_of_singleton. subst. simpl. left.
  - intros h. by eexists.
  - intros o h. simpl. case_match; [|done]. by intros [= <-].
Qed.
