(* ===== verification/Probe.v ===== *)
(** * Package probe: probe.go and probe_request.go

    A [*Probe] is an [option Probe], [None] for a nil pointer: a method that
    reads a field of a nil pointer panics.  [json.Unmarshal] is [json_parse]
    followed by the decoding of the value: which member sets which field, what
    is an error, and what a member that occurs twice does.  The HTTP client is
    a parameter. *)

From S2P Require Import Prelude GoInt GoFloat GoStrings GoParse Json.
Open Scope Z_scope.

Definition nil_deref : string := "runtime error: invalid memory address or nil pointer dereference".
Definition index_range : string := "runtime error: index out of range".

Definition deref {A} (p : option A) : Outcome A :=
  match p with Some a => Ret a | None => Panic nil_deref end.

(** ** The type and its accessors *)

Definition ipv6 : Z := 6.

Record Probe := mkProbe {
  ID : Z;
  Asn4 : Z;
  Asn6 : Z;
  CountryCode : string;
  Coordinates : list float64   (* Geometry.Coordinates *)
}.
#[export] Instance Probe_eq_dec : EqDecision Probe.
Proof. solve_decision. Defined.

Definition zeroProbe : Probe := mkProbe 0 0 0 "" [].

Definition ASNForIPVersion (p : option Probe) (v : Z) : Outcome Z :=
  if v =? ipv6 then p ← deref p; Ret (Asn6 p) else p ← deref p; Ret (Asn4 p).

Definition Longitude (p : option Probe) : Outcome string :=
  p ← deref p;
  match Coordinates p with
  | [] => Ret ""
  | c => match c !! 0%nat with
         | Some x => Ret (FormatFloat_f4 x)
         | None => Panic index_range
         end
  end.

Definition Latitude (p : option Probe) : Outcome string :=
  p ← deref p;
  match Coordinates p with
  | [] => Ret ""
  | c => match c !! 1%nat with
         | Some x => Ret (FormatFloat_f4 x)
         | None => Panic index_range
         end
  end.

(** ** FromJSON *)

(** The name of a member as json.Unmarshal compares it: without regard to
    case, by Unicode folding.  Two characters outside ASCII fold to ASCII
    letters, the long s and the Kelvin sign. *)
Fixpoint fold_name (s : string) : string :=
  match s with
  | EmptyString => EmptyString
  | String a r =>
      match strip_prefix (utf8_encode 383) s, strip_prefix (utf8_encode 8490) s, r with
      | Some _, _, String _ r' => String "s" (fold_name r')
      | _, Some _, String _ (String _ r') => String "k" (fold_name r')
      | _, _, _ => String (to_lower a) (fold_name r)
      end
  end.

Definition type_error : string := "json: cannot unmarshal value into Go struct field".

(** A value stored in an [int] field whose value is [old]. *)
Definition decode_int (old : Z) (v : JVal) : GoResult Z :=
  match v with
  | JNull => Ok old
  | JNumber lit => match Atoi lit with inl z => Ok z | inr _ => Err type_error end
  | _ => Err type_error
  end.

Definition decode_string (old : string) (v : JVal) : GoResult string :=
  match v with
  | JNull => Ok old
  | JString s => Ok s
  | _ => Err type_error
  end.

Definition decode_float (old : float64) (v : JVal) : GoResult float64 :=
  match v with
  | JNull => Ok old
  | JNumber lit =>
      match ParseFloat lit with (f, None) => Ok f | (_, Some _) => Err type_error end
  | _ => Err type_error
  end.

(** A slice while it is decoded: its elements, and what its array still holds
    beyond them.  Decoding an array writes over the old array from its start:
    a null leaves the number that is there. *)
Record slice := mkSlice { elems : list float64; spare : list float64 }.
Definition nil_slice : slice := mkSlice [] [].

Fixpoint decode_floats (old : list float64) (l : list JVal) : GoResult slice :=
  match l with
  | [] => Ok (mkSlice [] old)
  | v :: l' =>
      match decode_float (default f64_zero (head old)) v, decode_floats (tail old) l' with
      | Ok f, Ok fs => Ok (mkSlice (f :: elems fs) (spare fs))
      | _, _ => Err type_error
      end
  end.

Definition decode_coordinates (old : slice) (v : JVal) : GoResult slice :=
  match v with
  | JNull => Ok nil_slice
  | JArray [] => Ok nil_slice
  | JArray l => decode_floats (elems old ++ spare old) l
  | _ => Err type_error
  end.

(** The struct Geometry: of its members only coordinates is known. *)
Definition decode_geometry (old : slice) (v : JVal) : GoResult slice :=
  match v with
  | JNull => Ok old
  | JObject ms =>
      foldl (λ acc '(k, v),
        match acc with
        | Err e => Err e
        | Ok c => if bool_decide (fold_name k = "coordinates") then decode_coordinates c v else Ok c
        end) (Ok old) ms
  | _ => Err type_error
  end.

(** A probe while it is decoded: the fields before Geometry, and the slice. *)
Record partial := mkPartial { d_id : Z; d_asn4 : Z; d_asn6 : Z; d_cc : string; d_coords : slice }.

Definition zero_partial : partial := mkPartial 0 0 0 "" nil_slice.
Definition partial_probe (d : partial) : Probe :=
  mkProbe (d_id d) (d_asn4 d) (d_asn6 d) (d_cc d) (elems (d_coords d)).

Definition map_ok {X Y} (f : X → Y) (r : GoResult X) : GoResult Y :=
  match r with Ok x => Ok (f x) | Err e => Err e end.

(** The field that a member's name stands for. *)
Inductive field := FID | FAsn4 | FAsn6 | FCountryCode | FGeometry.
#[export] Instance field_eq_dec : EqDecision field.
Proof. solve_decision. Defined.

Definition field_of (k : string) : option field :=
  let k := fold_name k in
  if bool_decide (k = "id") then Some FID
  else if bool_decide (k = "asn_v4") then Some FAsn4
  else if bool_decide (k = "asn_v6") then Some FAsn6
  else if bool_decide (k = "country_code") then Some FCountryCode
  else if bool_decide (k = "geometry") then Some FGeometry
  else None.

Definition set_field (f : field) (v : JVal) (d : partial) : GoResult partial :=
  let 'mkPartial i a4 a6 cc co := d in
  match f with
  | FID => map_ok (λ i, mkPartial i a4 a6 cc co) (decode_int i v)
  | FAsn4 => map_ok (λ a4, mkPartial i a4 a6 cc co) (decode_int a4 v)
  | FAsn6 => map_ok (λ a6, mkPartial i a4 a6 cc co) (decode_int a6 v)
  | FCountryCode => map_ok (λ cc, mkPartial i a4 a6 cc co) (decode_string cc v)
  | FGeometry => map_ok (mkPartial i a4 a6 cc) (decode_geometry co v)
  end.

(** One member of the probe object; an unknown name is ignored. *)
Definition decode_member (k : string) (v : JVal) (d : partial) : GoResult partial :=
  match field_of k with Some f => set_field f v d | None => Ok d end.

Definition bind_ok {X Y} (f : X → GoResult Y) (r : GoResult X) : GoResult Y :=
  match r with Ok x => f x | Err e => Err e end.

Definition decode_members (d : partial) (ms : list (string * JVal)) : GoResult partial :=
  foldl (λ acc '(k, v), bind_ok (decode_member k v) acc) (Ok d) ms.

Definition decode_probe (v : JVal) : GoResult Probe :=
  match v with
  | JNull => Ok zeroProbe
  | JObject ms => map_ok partial_probe (decode_members zero_partial ms)
  | _ => Err type_error
  end.

Definition FromJSON (body : string) : GoResult Probe := bind_ok decode_probe (json_parse body).

(** ** Get

    The client maps a URL to the error of the request, or to the outcome of
    reading the body. *)

Definition HttpClient : Type := string → GoResult (GoResult string).

Definition url : string := "https://atlas.ripe.net/api/v2/probes/".

Definition Get (c : HttpClient) (id : Z) : GoResult Probe :=
  let u := url +:+ Itoa id in
  match c u with
  | Err e => Err e
  | Ok body => match body with Err e => Err e | Ok b => FromJSON b end
  end.

(** ** Lemmas *)

Definition known_key (k : string) : bool := bool_decide (is_Some (field_of k)).

Lemma decode_member_unknown d k v : known_key k = false → decode_member k v d = Ok d.
Proof.
  unfold known_key, decode_member. intros H%bool_decide_eq_false.
  destruct (field_of k); [|done]. by destruct H.
Qed.

Lemma decode_members_unknown d ms :
  forallb (λ kv, negb (known_key kv.1)) ms = true → decode_members d ms = Ok d.
Proof.
  unfold decode_members. revert d. induction ms as [|[k v] ms IH]; intros d; [done|].
  simpl. intros [Hk%negb_true_iff Hms]%andb_true_iff.
  rewrite decode_member_unknown by done. by apply IH.
Qed.

(** A coordinate is printed with four digits after the point, and the number
    printed is nearest to it. *)
Lemma FormatFloat_f4_finite s m e :
  let '(n, d) := scaled4 m e in
  ∃ q, FormatFloat_f4 (S754_finite s m e) = (if s then "-" else "") +:+ fixed4 q ∧
       0 < d ∧ 2 * Z.abs (n - q * d) <= d.
Proof.
  unfold FormatFloat_f4. destruct (scaled4 m e) as [n d] eqn:E.
  exists (round_half_even n d).
  assert (0 < d) as Hd.
  { unfold scaled4 in E. case_match; simplify_eq; [done|]. apply Z.pow_pos_nonneg; lia. }
  split; [by destruct s|]. split; [done|]. by apply round_half_even_error.
Qed.

Lemma fixed4_printable q : str_forallb printable (fixed4 q) = true.
Proof.
  unfold fixed4, pad4. autorewrite with strs. rewrite Itoa_printable. simpl.
  by rewrite !pretty_N_char_printable.
Qed.

Lemma FormatFloat_f4_printable x : str_forallb printable (FormatFloat_f4 x) = true.
Proof.
  destruct x as [[]|[]| |s m e]; try done. unfold FormatFloat_f4.
  destruct (scaled4 m e). destruct s; simpl; by rewrite fixed4_printable.
Qed.

(** The probe's pointer is good for the exporters: not nil, and with no
    position or a complete one. *)
Definition probe_ok (p : option Probe) : bool :=
  match p with
  | Some p => negb (Nat.eqb (length (Coordinates p)) 1)
  | None => false
  end.

Lemma Longitude_ret p : probe_ok p = true →
  ∃ s, Longitude p = Ret s ∧ str_forallb printable s = true.
Proof.
  destruct p as [[i a b c [|x cs]]|]; [|..|done]; unfold Longitude; simpl; intros _.
  - by eexists.
  - eexists. split; [done|]. apply FormatFloat_f4_printable.
Qed.

Lemma Latitude_ret p : probe_ok p = true →
  ∃ s, Latitude p = Ret s ∧ str_forallb printable s = true.
Proof.
  destruct p as [[i a b c [|x [|y cs]]]|]; [|done|..|done]; unfold Latitude; simpl; intros _.
  - by eexists.
  - eexists. split; [done|]. apply FormatFloat_f4_printable.
Qed.

Lemma ASN_ret p v : probe_ok p = true → ∃ a, ASNForIPVersion p v = Ret a.
Proof. destruct p; [|done]. unfold ASNForIPVersion. simpl. case_match; by eexists. Qed.

#[export] Hint Resolve Longitude_ret Latitude_ret ASN_ret FormatFloat_f4_printable : atlas.
