(* ===== verification/ProbeDocument.v ===== *)
(** * Package probe: from the API's answer to the probe

    What FromJSON and Get make of the text of a document. *)

From S2P Require Import Prelude GoInt GoFloat GoStrings GoParse Json Probe.
Open Scope Z_scope.

(** ** Integers are JSON numbers *)

Lemma digits_number c s :
  str_forallb is_digit (String c s) = true → Ascii.eqb c "0" = false →
  num_int (String c s) = Some (String c s, "").
Proof.
  intros Hd Hc. unfold num_int, digits1. rewrite Hc.
  assert (∀ s, str_forallb is_digit s = true → span_digits s = (s, "")) as Hspan.
  { clear. induction s as [|c s IH]; [done|]. simpl. intros [-> Hs]%andb_true_iff. by rewrite IH. }
  by rewrite Hspan.
Qed.

Lemma pretty_digits (p : positive) :
  ∃ c s, pretty p = String c s ∧ str_forallb is_digit (String c s) = true ∧ Ascii.eqb c "0" = false.
Proof.
  assert (∀ d, is_digit (pretty_N_char d) = true) as Hd by (intros d; unfold pretty_N_char; by repeat case_match).
  unfold pretty, pretty_positive, pretty, pretty_N. rewrite decide_False by done.
  assert (∀ x s, (0 < x)%N → str_forallb is_digit s = true →
    ∃ c s', pretty_N_go x s = String c s' ∧ str_forallb is_digit (String c s') = true ∧
      Ascii.eqb c "0" = false) as Hgo; [|by apply Hgo].
  intros x. induction (N.lt_wf_0 x) as [x _ IH]; intros s Hx Hs. rewrite pretty_N_go_step by done.
  destruct (decide (x `div` 10 = 0)%N) as [E|Hq].
  - rewrite E, pretty_N_go_0. do 2 eexists. split; [done|]. split; [simpl; by rewrite Hd|].
    apply N.div_small_iff in E; [|done]. rewrite N.mod_small by done. unfold pretty_N_char.
    repeat case_match; done || lia.
  - apply IH; [by apply N.div_lt|by apply N.neq_0_lt_0|]. simpl. by rewrite Hd.
Qed.

Lemma Itoa_number z : is_number (Itoa z) = true.
Proof.
  apply bool_decide_eq_true_2. destruct z as [|p|p]; [done|..].
  - change (Itoa (Z.pos p)) with (pretty p). destruct (pretty_digits p) as (c & s & -> & Hd & Hc).
    unfold number. cbn [opt_char].
    assert (Ascii.eqb "-" c = false) as ->.
    { simpl in Hd. apply andb_true_iff in Hd as [Hd _]. by destruct (Ascii.eqb_spec "-" c) as [<-|]. }
    rewrite digits_number by done. cbn [mbind option_bind]. simpl. by autorewrite with strs.
  - change (Itoa (Z.neg p)) with (String "-" (pretty p)). destruct (pretty_digits p) as (c & s & -> & Hd & Hc).
    unfold number. cbn [opt_char]. change (Ascii.eqb "-" "-") with true. cbv iota beta.
    rewrite digits_number by done. cbn [mbind option_bind]. simpl. by autorewrite with strs.
Qed.

(** ** The order of members *)

Lemma decode_int_err old v e : decode_int old v = Err e → e = type_error.
Proof. unfold decode_int. intros. by case_all. Qed.
Lemma decode_string_err old v e : decode_string old v = Err e → e = type_error.
Proof. unfold decode_string. intros. by case_all. Qed.
Lemma decode_coordinates_err old v e : decode_coordinates old v = Err e → e = type_error.
Proof.
  unfold decode_coordinates. destruct v as [| | | |[|v l]|]; try (by intros [= <-]).
  cbn [decode_floats]. intros. by case_all.
Qed.
Lemma decode_geometry_err old v e : decode_geometry old v = Err e → e = type_error.
Proof.
  unfold decode_geometry. destruct v as [| | | | |ms]; try (by intros [= <-]).
  assert (∀ r, r = Err type_error ∨ (∃ c, r = Ok c) →
    foldl (λ acc '(k, v), match acc with Err e => Err e | Ok c =>
      if bool_decide (fold_name k = "coordinates") then decode_coordinates c v else Ok c end) r ms = Err e →
    e = type_error) as H; [|apply H; by eauto].
  induction ms as [|[k v] ms IH]; intros r Hr.
  - simpl. destruct Hr as [->|[c ->]]; congruence.
  - simpl. apply IH. destruct Hr as [->|[c ->]]; [by left|]. case_match; [|by eauto].
    destruct (decode_coordinates c v) eqn:E; [by eauto|]. left. f_equal. by eapply decode_coordinates_err.
Qed.

Lemma set_field_err f v d e : set_field f v d = Err e → e = type_error.
Proof.
  destruct d as [i a4 a6 cc co], f; simpl.
  - destruct (decode_int i v) eqn:E; intros [= <-]. by eapply decode_int_err.
  - destruct (decode_int a4 v) eqn:E; intros [= <-]. by eapply decode_int_err.
  - destruct (decode_int a6 v) eqn:E; intros [= <-]. by eapply decode_int_err.
  - destruct (decode_string cc v) eqn:E; intros [= <-]. by eapply decode_string_err.
  - destruct (decode_geometry co v) eqn:E; intros [= <-]. by eapply decode_geometry_err.
Qed.

Lemma set_field_comm f v f' v' d :
  f ≠ f' → bind_ok (set_field f' v') (set_field f v d) = bind_ok (set_field f v) (set_field f' v' d).
Proof.
  intros Hf. pose proof (set_field_err f v d) as He. pose proof (set_field_err f' v' d) as He'.
  destruct d as [i a4 a6 cc co], f, f'; try done; cbn [set_field] in *;
    repeat match goal with
    | |- context [map_ok _ (?g ?o ?x)] => destruct (g o x) eqn:?; cbn [map_ok bind_ok set_field] in *
    end; simplify_eq; try done;
    repeat match goal with H : ?x = _ |- context [?x] => rewrite H end; cbn [map_ok]; try done;
    rewrite (He _ eq_refl), (He' _ eq_refl); done.
Qed.

(** The fields that the members of an object set. *)
Definition fields (ms : list (string * JVal)) : list field := omap (λ kv, field_of kv.1) ms.

Lemma decode_members_cons d k v ms :
  decode_members d ((k, v) :: ms) = bind_ok (λ d, decode_members d ms) (decode_member k v d).
Proof.
  unfold decode_members. simpl. destruct (decode_member k v d) as [d'|e]; [done|]. simpl.
  induction ms as [|[] ms IH]; [done|]. apply IH.
Qed.

(** The order of the members does not matter if no field is set twice. *)
Lemma decode_members_perm d ms ms' :
  NoDup (fields ms) → ms ≡ₚ ms' → decode_members d ms = decode_members d ms'.
Proof.
  intros Hn Hp. revert d Hn. induction Hp as [|[k v] ms ms' Hp IH|[k v] [k' v'] ms|ms1 ms2 ms3 Hp1 IH1 Hp2 IH2];
    intros d Hn; [done|..].
  - rewrite !decode_members_cons. destruct (decode_member k v d); [simpl|done]. apply IH.
    unfold fields in *. simpl in Hn. destruct (field_of k); [by apply NoDup_cons in Hn as [_ ?]|done].
  - rewrite !decode_members_cons.
    assert (bind_ok (decode_member k v) (decode_member k' v' d) =
            bind_ok (decode_member k' v') (decode_member k v d)) as Hc.
    { unfold decode_member. unfold fields in Hn. simpl in Hn. 
      destruct (field_of k) as [f|], (field_of k') as [f'|]; simpl; try done.
      - apply set_field_comm. intros ->. apply NoDup_cons in Hn as [Hn _]. apply Hn. left.
      - by destruct (set_field f v d).
      - by destruct (set_field f' v' d). }
    destruct (decode_member k' v' d) as [d1|e] eqn:E1, (decode_member k v d) as [d2|e'] eqn:E2;
      cbn [bind_ok] in *; rewrite ?decode_members_cons; simplify_eq; rewrite ?Hc; try done.
    + by rewrite <-Hc.
  - rewrite IH1 by done. apply IH2. unfold fields in *. by rewrite <-Hp1.
Qed.

(** ** Documents *)

(** The members that describe the probe [p], its coordinates written as the
    literals [lits]. *)
Definition probe_members (p : Probe) (lits : list string) : list (string * JVal) :=
  [("id", JNumber (Itoa (ID p))); ("asn_v4", JNumber (Itoa (Asn4 p))); ("asn_v6", JNumber (Itoa (Asn6 p)));
   ("country_code", JString (CountryCode p)); ("geometry", JObject [("coordinates", JArray (JNumber <$> lits))])].

Lemma decode_floats_lits old lits cs :
  ParseFloat <$> lits = (λ x, (x, None)) <$> cs →
  ∃ sp, decode_floats old (JNumber <$> lits) = Ok (mkSlice cs sp).
Proof.
  revert old cs. induction lits as [|l lits IH]; intros old [|c cs] H; try done; [by eexists|].
  injection H as Hc Hcs. destruct (IH (tail old) cs Hcs) as [sp E].
  exists sp. rewrite fmap_cons. cbn [decode_floats decode_float]. by rewrite Hc, E.
Qed.

Lemma decode_members_set d k v ms f d' :
  field_of k = Some f → set_field f v d = Ok d' →
  decode_members d ((k, v) :: ms) = decode_members d' ms.
Proof. intros Hf Hs. rewrite decode_members_cons. unfold decode_member. by rewrite Hf, Hs. Qed.

Lemma decode_probe_members p lits :
  int64_ok (ID p) → int64_ok (Asn4 p) → int64_ok (Asn6 p) →
  ParseFloat <$> lits = (λ x, (x, None)) <$> Coordinates p →
  map_ok partial_probe (decode_members zero_partial (probe_members p lits)) = Ok p.
Proof.
  intros H1 H2 H3 Hl. unfold probe_members, zero_partial.
  assert (∃ sp, decode_coordinates nil_slice (JArray (JNumber <$> lits)) = Ok (mkSlice (Coordinates p) sp))
    as [sp Hc].
  { destruct lits as [|l lits]; [|by apply decode_floats_lits].
    simpl in Hl. symmetry in Hl. apply fmap_nil_inv in Hl. rewrite Hl. by eexists. }
  assert (decode_geometry nil_slice (JObject [("coordinates", JArray (JNumber <$> lits))]) =
          Ok (mkSlice (Coordinates p) sp)) as Hg.
  { unfold decode_geometry. cbn [foldl]. rewrite bool_decide_eq_true_2 by reflexivity. exact Hc. }
  do 3 (erewrite decode_members_set;
    [|reflexivity|cbn [set_field decode_int]; rewrite Atoi_Itoa by done; reflexivity]).
  erewrite decode_members_set; [|reflexivity..].
  erewrite decode_members_set; [|reflexivity|cbn [set_field]; rewrite Hg; reflexivity].
  by destruct p.
Qed.

Lemma fields_unknown ms : forallb (λ kv, negb (known_key kv.1)) ms = true → fields ms = [].
Proof.
  induction ms as [|[k v] ms IH]; [done|]. simpl. intros [Hk%negb_true_iff Hms]%andb_true_iff.
  unfold known_key in Hk. apply bool_decide_eq_false in Hk. unfold fields in *. simpl.
  destruct (field_of k); [by destruct Hk|]. by apply IH.
Qed.

Lemma decode_members_app_unknown d ms extra :
  forallb (λ kv, negb (known_key kv.1)) extra = true →
  decode_members d (ms ++ extra) = decode_members d ms.
Proof.
  intros He. revert d. induction ms as [|[k v] ms IH]; intros d; [by apply decode_members_unknown|].
  change (((k, v) :: ms) ++ extra) with ((k, v) :: (ms ++ extra)). rewrite !decode_members_cons.
  by destruct (decode_member k v d); simpl.
Qed.

Lemma forallb_perm {X} (f : X → bool) l l' : l ≡ₚ l' → forallb f l = forallb f l'.
Proof. induction 1; simpl; [done|congruence|by rewrite !andb_assoc, (andb_comm (f y))|congruence]. Qed.

(** The values of the members are JSON values. *)
Lemma probe_members_jwf p lits :
  utf8_valid (CountryCode p) = true → forallb is_number lits = true →
  forallb (λ '(k, v), utf8_valid k && jwf 1 v) (probe_members p lits) = true.
Proof.
  intros Hcc Hl. assert (∀ d, forallb (jwf d) (JNumber <$> lits) = true) as Hj.
  { intros d. clear Hcc. induction lits as [|l lits IH]; [done|]. simpl in *. apply andb_true_iff in Hl as [-> Hl].
    by apply IH. }
  cbn [probe_members forallb jwf]. by rewrite !Itoa_number, Hcc, Hj.
Qed.

(** ** Properties *)

(** C15: reading back: a document of the API whose members are those of a probe
    and any others that are not read, in any order and with any white space,
    is decoded to that probe. *)
Theorem FromJSON_document w p lits extra ms :
  all_ws w = true → int64_ok (ID p) → int64_ok (Asn4 p) → int64_ok (Asn6 p) →
  utf8_valid (CountryCode p) = true → forallb is_number lits = true →
  ParseFloat <$> lits = (λ x, (x, None)) <$> Coordinates p →
  forallb (λ kv, negb (known_key kv.1)) extra = true → jwf 0 (JObject extra) = true →
  ms ≡ₚ probe_members p lits ++ extra →
  FromJSON (w +:+ render w (JObject ms) +:+ w) = Ok p.
Proof.
  intros Hw H1 H2 H3 Hcc Hlits Hl He Hj Hp. unfold FromJSON. rewrite json_parse_render; [|done|].
  - assert (NoDup (fields ms)) as Hn.
    { unfold fields. rewrite Hp, omap_app. pose proof (fields_unknown extra He) as Hu.
      unfold fields in Hu. rewrite Hu.
      by apply (bool_decide_unpack (NoDup [FID; FAsn4; FAsn6; FCountryCode; FGeometry])). }
    cbn [bind_ok decode_probe]. rewrite (decode_members_perm _ ms _ Hn Hp), decode_members_app_unknown by done.
    by apply decode_probe_members.
  - cbn [jwf] in Hj |- *. apply andb_true_iff in Hj as [_ Hj].
    rewrite (forallb_perm _ _ _ Hp), forallb_app, Hj. by rewrite probe_members_jwf.
Qed.

(** C39: the HTTP status of the API's answer is not looked at: an error
    document, that is an object without any of the names that are read, gives
    a probe with identifier 0 and no error. *)
Theorem Get_error_document (c : HttpClient) id body ms :
  c (url +:+ Itoa id) = Ok (Ok body) → json_parse body = Ok (JObject ms) →
  forallb (λ kv, negb (known_key kv.1)) ms = true →
  Get c id = Ok zeroProbe.
Proof.
  intros Hc Hj Hms. unfold Get, FromJSON. rewrite Hc, Hj. cbn [bind_ok decode_probe].
  by rewrite decode_members_unknown.
Qed.

(** ** Examples and witnesses *)

Module DocumentW.

Definition answer_w : string := json_text "{ 'id': 6031, 'asn_v4':1101, 'ASN_V6': null, 'country_code' : 'NL',
  'geometry': {'type': 'Point', 'coordinates': [4.9275, 52.3475]}, 'status': {'id': 1}}".

Example FromJSON_ex1 : FromJSON answer_w =
  Ok (mkProbe 6031 1101 0 "NL" [(ParseFloat "4.9275").1; (ParseFloat "52.3475").1]).
Proof. vm_compute. reflexivity. Qed.

(** A second array is written over the first, and a null leaves what is there. *)
Example FromJSON_ex2 : FromJSON (json_text "{'geometry':{'coordinates':[1,2,3]},'geometry':{'coordinates':[4,null]}}") =
  Ok (mkProbe 0 0 0 "" [f64_of_int 4; f64_of_int 2]).
Proof. vm_compute. reflexivity. Qed.

Example FromJSON_ex3 : FromJSON <$> [json_text "{'id':1.0}"; json_text "{'id':'1'}"; json_text "[]"; "<html>"] =
  [Err type_error; Err type_error; Err type_error; Err syntax_error].
Proof. vm_compute. reflexivity. Qed.

Definition prb_w : Probe := mkProbe 6031 1101 0 "NL" [(ParseFloat "4.9275").1; (ParseFloat "52.3475").1].
Definition extra_w : list (string * JVal) := [("status", JObject [("id", JNumber "1")])].
Definition members_w : list (string * JVal) := extra_w ++ probe_members prb_w ["4.9275"; "52.3475"].

Lemma FromJSON_document_witness : FromJSON (" " +:+ render " " (JObject members_w) +:+ " ") = Ok prb_w.
Proof.
  apply (FromJSON_document " " prb_w ["4.9275"; "52.3475"] extra_w members_w); try done.
  apply Permutation_app_comm.
Defined.

Definition error_w : string := json_text "{'error':{'status':404,'title':'Not Found'}}".

Lemma Get_error_document_witness : Get (λ _, Ok (Ok error_w)) 99999 = Ok zeroProbe.
Proof.
  by apply (Get_error_document (λ _, Ok (Ok error_w)) 99999 error_w
              [("error", JObject [("status", JNumber "404"); ("title", JString "Not Found")])]).
Defined.

End DocumentW.
