(* ===== verification/ProbeCache.v ===== *)
(** * The probe cache: probe/cache.go

    Times are readings of the process clock in nanoseconds.  [Get] and [Add]
    run under the cache's lock and are atomic.  [CleanUp] is not: it collects
    the expired keys first and takes the lock only to delete them, so the two
    halves are two steps and other calls can run in between.  Module [Spec]
    is the abstract cache, a log of what was added when. *)

From S2P Require Import Prelude GoInt GoFloat Probe.
Open Scope Z_scope.

Module Cache.

Record cacheItem := mkItem { expires : Z; value : option Probe }.
Record Cache := mkCache { items : gmap Z cacheItem; ttl : Z }.

Definition NewCache (ttl : Z) : Cache := mkCache ∅ ttl.

(** The value and whether it was found; a miss returns a nil probe. *)
Definition Get (c : Cache) (now : Z) (id : Z) : option Probe * bool :=
  match items c !! id with
  | Some p => if now <? expires p then (value p, true) else (None, false)
  | None => (None, false)
  end.

Definition Add (c : Cache) (now : Z) (id : Z) (p : option Probe) : Cache :=
  mkCache (<[id := mkItem (now + ttl c) p]> (items c)) (ttl c).

(** The first loop of CleanUp: [clock k] is the time read when the loop
    reaches the key [k].  Go visits the keys in no particular order. *)
Definition CleanUp_scan (c : Cache) (clock : Z → Z) : list Z :=
  (filter (λ kv : Z * cacheItem, expires kv.2 < clock kv.1) (map_to_list (items c))).*1.

(** The second loop. *)
Definition CleanUp_delete (c : Cache) (expired : list Z) : Cache :=
  mkCache (foldr delete (items c) expired) (ttl c).

Definition CleanUp (c : Cache) (clock : Z → Z) : Cache * Z :=
  let expired := CleanUp_scan c clock in
  (CleanUp_delete c expired, Z.of_nat (length expired)).

(** ** Lemmas *)

Lemma elem_of_scan c clock k :
  k ∈ CleanUp_scan c clock ↔ ∃ i, items c !! k = Some i ∧ expires i < clock k.
Proof.
  unfold CleanUp_scan. rewrite list_elem_of_fmap. split.
  - intros ([k' i] & -> & [He Hi]%list_elem_of_filter).
    exists i. by apply elem_of_map_to_list in Hi.
  - intros (i & Hi & He). exists (k, i). split; [done|].
    apply list_elem_of_filter. split; [done|]. by apply elem_of_map_to_list.
Qed.

Lemma lookup_delete_list {A} (m : gmap Z A) ks k :
  foldr delete m ks !! k = if decide (k ∈ ks) then None else m !! k.
Proof.
  induction ks as [|j ks IH]; cbn [foldr].
  - by case_decide as H; [apply not_elem_of_nil in H|].
  - rewrite lookup_delete, IH, (decide_ext (k ∈ j :: ks) (k = j ∨ k ∈ ks)) by apply elem_of_cons.
    destruct (decide (j = k)), (decide (k ∈ ks)), (decide (k = j ∨ k ∈ ks)) as [Hd|Hd];
      try done; exfalso; intuition congruence.
Qed.

Lemma lookup_CleanUp_delete c ks k :
  items (CleanUp_delete c ks) !! k = if decide (k ∈ ks) then None else items c !! k.
Proof. apply lookup_delete_list. Qed.

Lemma lookup_Add c now id p k :
  items (Add c now id p) !! k =
    if decide (id = k) then Some (mkItem (now + ttl c) p) else items c !! k.
Proof. unfold Add. simpl. by rewrite lookup_insert. Qed.

End Cache.

(** ** The abstract cache

    What a user of the cache counts on: a log with, for each identifier, the
    time and the value of its latest addition.  A value is current at a time
    if it was added less than the time-to-live before. *)

Module Spec.

Abbreviation Log := (gmap Z (Z * option Probe)).

Definition current (ttl : Z) (l : Log) (now id : Z) : option (option Probe) :=
  match l !! id with
  | Some (t, p) => if now <? t + ttl then Some p else None
  | None => None
  end.

End Spec.

(** ** Interleavings

    The state of the cache together with the clock, the log of additions and
    the keys of a CleanUp that has scanned but not deleted yet. *)

Module Run.
Import Cache.

Record state := mkState {
  cache : Cache;
  clock : Z;
  log : Spec.Log;
  pending : option (list Z)
}.

Definition init (ttl : Z) (now : Z) : state := mkState (NewCache ttl) now ∅ None.

Inductive step : state → state → Prop :=
| step_tick s t : clock s <= t →
    step s (mkState (cache s) t (log s) (pending s))
| step_add s id p :
    step s (mkState (Add (cache s) (clock s) id p) (clock s)
                    (<[id := (clock s, p)]> (log s)) (pending s))
| step_scan s read : pending s = None → (∀ k, read k <= clock s) →
    step s (mkState (cache s) (clock s) (log s) (Some (CleanUp_scan (cache s) read)))
| step_delete s ks : pending s = Some ks →
    step s (mkState (CleanUp_delete (cache s) ks) (clock s) (log s) None).

(** The same steps, with no addition while a CleanUp is under way. *)
Inductive seq_step : state → state → Prop :=
| seq_tick s t : clock s <= t →
    seq_step s (mkState (cache s) t (log s) (pending s))
| seq_add s id p : pending s = None →
    seq_step s (mkState (Add (cache s) (clock s) id p) (clock s)
                    (<[id := (clock s, p)]> (log s)) (pending s))
| seq_scan s read : pending s = None → (∀ k, read k <= clock s) →
    seq_step s (mkState (cache s) (clock s) (log s) (Some (CleanUp_scan (cache s) read)))
| seq_delete s ks : pending s = Some ks →
    seq_step s (mkState (CleanUp_delete (cache s) ks) (clock s) (log s) None).

(** Every entry is the latest addition of its key. *)
Definition sound (T : Z) (s : state) : Prop :=
  ttl (cache s) = T ∧
  ∀ k i, items (cache s) !! k = Some i →
    ∃ t, log s !! k = Some (t, value i) ∧ expires i = t + T.

(** What was added is there, unless it has expired; what a CleanUp is about
    to delete has expired. *)
Definition complete (T : Z) (s : state) : Prop :=
  (∀ k t p, log s !! k = Some (t, p) →
     items (cache s) !! k = Some (mkItem (t + T) p) ∨ t + T < clock s) ∧
  (∀ ks k i, pending s = Some ks → k ∈ ks → items (cache s) !! k = Some i →
     expires i < clock s).

Lemma sound_step T s s' : step s s' → sound T s → sound T s'.
Proof.
  intros Hs [HT HI]. destruct Hs as [s t ?|s id p|s rd ??|s ks ?]; split; simpl; try done.
  - intros k i. rewrite lookup_insert. case_decide; subst.
    + intros [= <-]. eexists. split; [apply lookup_insert_eq|done].
    + intros Hi. rewrite lookup_insert_ne by done. by apply HI.
  - intros k i. rewrite lookup_delete_list. case_decide; [done|]. apply HI.
Qed.

Lemma complete_step T s s' :
  seq_step s s' → sound T s → complete T s → complete T s'.
Proof.
  intros Hs [HT HI] [HC HP]. destruct Hs as [s t ?|s id p Hn|s rd Hn Hrd|s ks Hp]; split; simpl in *.
  - intros k t' p' Hk. destruct (HC k t' p' Hk); [by left|right; lia].
  - intros ks k i Hp Hk Hi. specialize (HP ks k i Hp Hk Hi). lia.
  - intros k t' p'. rewrite !lookup_insert. case_decide; subst.
    + intros [= <- <-]. by left.
    + apply HC.
  - by rewrite Hn.
  - apply HC.
  - intros ks k i [= <-] (j & Hj & He)%elem_of_scan Hi. specialize (Hrd k).
    simplify_eq. lia.
  - intros k t p Hk. rewrite lookup_delete_list. destruct (HC k t p Hk) as [Hi|]; [|by right].
    case_decide as Hin; [right|by left]. specialize (HP ks k _ Hp Hin Hi). simpl in HP. lia.
  - done.
Qed.

Lemma seq_step_step s s' : seq_step s s' → step s s'.
Proof. destruct 1; eauto using step. Qed.

Lemma sound_reach T now s : rtc step (init T now) s → sound T s.
Proof.
  intros H. eapply (rtc_ind_r (sound T)); [..|exact H].
  - split; [done|]. intros k i. simpl. by rewrite lookup_empty.
  - intros y z _ Hyz Hy. by eapply sound_step.
Qed.

Lemma complete_reach T now s : rtc seq_step (init T now) s → complete T s.
Proof.
  intros H.
  apply (rtc_ind_r (λ s, sound T s ∧ complete T s) (init T now)) in H as [_ HC]; [done|..].
  - split; [split; [done|]|split; [|done]]; intros ???; simpl; try rewrite lookup_empty; done.
  - intros y z _ Hyz [HS HC]. split; [|by eapply complete_step].
    eapply sound_step; [by apply seq_step_step|done].
Qed.

End Run.

Lemma size_delete_list {A} (m : gmap Z A) ks :
  NoDup ks → (∀ k, k ∈ ks → is_Some (m !! k)) →
  (size (foldr delete m ks) + length ks = size m)%nat.
Proof.
  induction ks as [|k ks IH]; intros Hnd Hin; simpl; [lia|].
  apply NoDup_cons in Hnd as [Hk Hnd].
  destruct (Hin k) as [v Hv]; [left|].
  assert (foldr delete m ks !! k = Some v) as Hl.
  { by rewrite Cache.lookup_delete_list, decide_False. }
  assert (0 < size (foldr delete m ks))%nat.
  { apply Nat.neq_0_lt_0. intros E%map_size_empty_inv. by rewrite E, lookup_empty in Hl. }
  rewrite map_size_delete_Some by eauto.
  rewrite <-IH; [lia|done|]. intros j Hj. apply Hin. by right.
Qed.

(** What CleanUp leaves, key by key, and that Get does not tell the
    difference. *)
Lemma lookup_CleanUp c clock k :
  Cache.items (Cache.CleanUp c clock).1 !! k =
    i ← Cache.items c !! k; if Cache.expires i <? clock k then None else Some i.
Proof.
  unfold Cache.CleanUp. cbn [fst]. rewrite Cache.lookup_CleanUp_delete. case_decide as Hin.
  - apply Cache.elem_of_scan in Hin as (i & -> & He). simpl.
    by destruct (Z.ltb_spec (Cache.expires i) (clock k)); [|lia].
  - destruct (Cache.items c !! k) as [i|] eqn:Ei; [simpl|done].
    destruct (Z.ltb_spec (Cache.expires i) (clock k)); [|done].
    destruct Hin. apply Cache.elem_of_scan. eauto.
Qed.

Lemma Get_CleanUp c clock now k :
  clock k <= now → Cache.Get (Cache.CleanUp c clock).1 now k = Cache.Get c now k.
Proof.
  intros Hnow. unfold Cache.Get. rewrite lookup_CleanUp.
  destruct (Cache.items c !! k) as [i|]; [simpl|done].
  destruct (Z.ltb_spec (Cache.expires i) (clock k)); [|done].
  by destruct (Z.ltb_spec now (Cache.expires i)); [lia|].
Qed.

(** ** Properties *)

(** Whatever the interleaving of additions, clock ticks and the two
    halves of CleanUp, a hit of Get returns the value of the latest addition
    of that identifier, and only while it is younger than the time-to-live. *)
Theorem cache_sound T t0 s now id p :
  rtc Run.step (Run.init T t0) s →
  Cache.Get (Run.cache s) now id = (p, true) →
  Spec.current T (Run.log s) now id = Some p.
Proof.
  intros [HT HI]%Run.sound_reach. unfold Cache.Get, Spec.current.
  case_match eqn:E; [|done]. destruct (HI _ _ E) as (t & -> & <-).
  case_match; naive_solver.
Qed.

(** C12: when no addition falls between the two halves of a CleanUp, Get
    answers exactly what the abstract cache says, hits and misses alike. *)
Theorem cache_refines_spec T t0 s now id :
  rtc Run.seq_step (Run.init T t0) s →
  Run.clock s <= now →
  Cache.Get (Run.cache s) now id =
    match Spec.current T (Run.log s) now id with
    | Some p => (p, true)
    | None => (None, false)
    end.
Proof.
  intros Hr Hnow.
  destruct (Run.complete_reach T t0 s Hr) as [HC _].
  destruct (Run.sound_reach T t0 s) as [HT HI].
  { eapply rtc_subrel; [|done]. apply Run.seq_step_step. }
  unfold Cache.Get, Spec.current.
  destruct (Run.log s !! id) as [[t p]|] eqn:El.
  - destruct (HC id t p El) as [->|Hexp]; simpl; [by case_match|].
    destruct (Z.ltb_spec now (t + T)); [lia|].
    case_match eqn:Ei; [|done]. destruct (HI _ _ Ei) as (t' & Ht' & Hx).
    simplify_eq. destruct (Z.ltb_spec now (Cache.expires c)); [lia|done].
  - case_match eqn:Ei; [|done]. destruct (HI _ _ Ei) as (t' & Ht' & _). congruence.
Qed.

(** CleanUp removes exactly the entries that had expired when the loop
    read the clock at them, returns their number, and changes no answer that
    Get gives from then on. *)
Theorem CleanUp_exact c clock :
  let '(c', n) := Cache.CleanUp c clock in
  (∀ k, Cache.items c' !! k =
     i ← Cache.items c !! k; if Cache.expires i <? clock k then None else Some i) ∧
  Z.of_nat (size (Cache.items c')) + n = Z.of_nat (size (Cache.items c)) ∧
  (∀ now k, clock k <= now → Cache.Get c' now k = Cache.Get c now k).
Proof.
  pose proof (lookup_CleanUp c clock) as Hk. pose proof (Get_CleanUp c clock) as Hg.
  destruct (Cache.CleanUp c clock) as [c' n] eqn:E. split; [exact Hk|]. split; [|auto].
  unfold Cache.CleanUp in E. simplify_eq.
  rewrite <-Nat2Z.inj_add. f_equal. apply size_delete_list.
  - apply NoDup_fmap_fst; [|apply NoDup_filter, NoDup_map_to_list].
    intros x y1 y2 [_ H1]%list_elem_of_filter [_ H2]%list_elem_of_filter.
    exact (map_to_list_unique _ _ _ _ H1 H2).
  - intros k (i & Hi & _)%Cache.elem_of_scan. eauto.
Qed.

(** An addition between the two halves of a CleanUp can be lost: a key
    that had expired is scanned, added again, and then deleted, so Get misses
    a probe that was added just before. *)
Theorem CleanUp_drops_fresh_entry T t0 id p :
  0 < T →
  ∃ s, rtc Run.step (Run.init T t0) s ∧
       Spec.current T (Run.log s) (Run.clock s) id = Some p ∧
       Cache.Get (Run.cache s) (Run.clock s) id = (None, false).
Proof.
  intros HT. eexists. split; [|split].
  - eapply rtc_l. { apply (Run.step_add _ id p). }
    eapply rtc_l. { apply (Run.step_tick _ (t0 + T + 1)). simpl. lia. }
    eapply rtc_l. { by apply (Run.step_scan _ (λ _, t0 + T + 1)). }
    eapply rtc_l. { apply (Run.step_add _ id p). }
    eapply rtc_l. { by apply Run.step_delete. }
    apply rtc_refl.
  - unfold Spec.current. simpl. rewrite lookup_insert_eq.
    by destruct (Z.ltb_spec (t0 + T + 1) (t0 + T + 1 + T)); [|lia].
  - unfold Cache.Get. cbn [Run.cache]. rewrite Cache.lookup_CleanUp_delete.
    rewrite decide_True; [done|].
    apply Cache.elem_of_scan. eexists. split; [apply lookup_insert_eq|]. simpl. lia.
Qed.

(** ** Witnesses *)

Definition ttl_w : Z := 3600 * Second.
Definition probe_w : Probe := mkProbe 6031 1101 0 "NL" [].
Definition state_w : Run.state :=
  Run.mkState (Cache.Add (Cache.NewCache ttl_w) 0 6031 (Some probe_w)) 0
              {[ 6031 := (0, Some probe_w) ]} None.

Lemma cache_sound_witness :
  Spec.current ttl_w (Run.log state_w) (10 * Second) 6031 = Some (Some probe_w).
Proof.
  apply (cache_sound ttl_w 0 state_w (10 * Second) 6031 (Some probe_w)).
  - eapply rtc_l; [|apply rtc_refl]. apply (Run.step_add (Run.init ttl_w 0) 6031 (Some probe_w)).
  - reflexivity.
Defined.

Lemma cache_refines_spec_witness :
  Cache.Get (Run.cache state_w) (2 * ttl_w) 6031 = (None, false).
Proof.
  refine (eq_trans (cache_refines_spec ttl_w 0 state_w (2 * ttl_w) 6031 _ _) _).
  - eapply rtc_l; [|apply rtc_refl].
    by apply (Run.seq_add (Run.init ttl_w 0) 6031 (Some probe_w)).
  - done.
  - reflexivity.
Defined.

Lemma CleanUp_drops_fresh_entry_witness :
  ∃ s, rtc Run.step (Run.init ttl_w 0) s ∧
       Spec.current ttl_w (Run.log s) (Run.clock s) 6031 = Some (Some probe_w) ∧
       Cache.Get (Run.cache s) (Run.clock s) 6031 = (None, false).
Proof. apply (CleanUp_drops_fresh_entry ttl_w 0 6031 (Some probe_w)). reflexivity. Defined.
