(* ===== verification/Config.v ===== *)
(** * Package config: types.go, defaults.go and the pure parts of loader.go

    The configuration record, the defaults and the flags made from them, the
    mapping of environment names, the conversion of maps with numeric keys to
    arrays, and Validate.  [Load], which drives the koanf library, is in
    ConfigLoad.v. *)

From S2P Require Import Prelude GoInt GoFloat GoStrings.
Open Scope Z_scope.

(** ** types.go *)

(** A bucket list is [None] when the slice is nil. *)
Record RttHistogramBucket := { Rtt : option (list float64) }.
Record HistogramBuckets := {
  HB_DNS : RttHistogramBucket;
  HB_HTTP : RttHistogramBucket;
  HB_Ping : RttHistogramBucket;
  HB_Traceroute : RttHistogramBucket
}.

(** config.Measurement: a measurement to watch. *)
Record MeasurementCfg := { m_ID : string }.

Record Config := {
  Web_ListenAddress : string;
  Web_TelemetryPath : string;
  Cache_TTL : Z;
  Cache_Cleanup : Z;
  Timeout : Z;
  Worker_Count : Z;
  Streaming_Enabled : bool;
  Streaming_BufferSize : Z;
  Profiling_Enabled : bool;
  Metrics_GoEnabled : bool;
  Metrics_ProcessEnabled : bool;
  Log_Level : string;
  TLS_Enabled : bool;
  TLS_CertFile : string;
  TLS_KeyFile : string;
  DNS_NSIDEnabled : bool;
  Health_MaxDataAge : Z;
  cfg_HistogramBuckets : HistogramBuckets;
  Measurements : list MeasurementCfg;
  FilterInvalidResults : bool;
  MaxResultAge : Z
}.

Definition MeasurementIDs (c : Config) : list string := m_ID <$> Measurements c.

(** ** defaults.go *)

Inductive Any := AStr (s : string) | AInt (z : Z) | ABool (b : bool).
#[export] Instance Any_eq_dec : EqDecision Any.
Proof. solve_decision. Defined.

Definition Defaults : list (string * Any) := [
  ("web.listen_address", AStr ":9400");
  ("web.telemetry_path", AStr "/metrics");
  ("cache.ttl", AStr "3600s");
  ("cache.cleanup", AStr "300s");
  ("timeout", AStr "60s");
  ("worker.count", AInt 8);
  ("streaming.enabled", ABool true);
  ("streaming.buffer_size", AInt 100);
  ("profiling.enabled", ABool false);
  ("metrics.go_enabled", ABool true);
  ("metrics.process_enabled", ABool true);
  ("log.level", AStr "info");
  ("tls.enabled", ABool false);
  ("tls.cert_file", AStr "");
  ("tls.key_file", AStr "");
  ("health.max_data_age", AStr "0s");
  ("filter_invalid_results", ABool true);
  ("max_result_age", AStr "0s");
  ("dns.nsid_enabled", ABool true)
].

(** ** RegisterFlags *)

(** A registered flag: its name and its typed default. *)
Inductive FlagDef :=
| FString (name : string) (def : string)
| FUint (name : string) (def : Z)
| FBool (name : string) (def : bool).

Definition lookup_default (k : string) : option Any :=
  match list_find (λ kv : string * Any, kv.1 = k) Defaults with
  | Some (_, kv) => Some kv.2
  | None => None
  end.

Definition type_assertion : string := "interface conversion: interface {} is of another type".

(** [d[k].(string)] and the like panic on a missing key or another type. *)
Definition as_string (k : string) : Outcome string :=
  match lookup_default k with Some (AStr s) => Ret s | _ => Panic type_assertion end.
Definition as_int (k : string) : Outcome Z :=
  match lookup_default k with Some (AInt z) => Ret z | _ => Panic type_assertion end.
Definition as_bool (k : string) : Outcome bool :=
  match lookup_default k with Some (ABool b) => Ret b | _ => Panic type_assertion end.

Definition flag_string (k : string) : Outcome FlagDef := s ← as_string k; Ret (FString k s).
Definition flag_uint (k : string) : Outcome FlagDef := z ← as_int k; Ret (FUint k (to_uint z)).
Definition flag_bool (k : string) : Outcome FlagDef := b ← as_bool k; Ret (FBool k b).

Fixpoint sequence {A} (l : list (Outcome A)) : Outcome (list A) :=
  match l with
  | [] => Ret []
  | o :: l' => x ← o; xs ← sequence l'; Ret (x :: xs)
  end.

Definition RegisterFlags : Outcome (list FlagDef) :=
  sequence [
    flag_string "web.listen_address";
    flag_string "web.telemetry_path";
    flag_string "cache.ttl";
    flag_string "cache.cleanup";
    flag_string "timeout";
    flag_uint "worker.count";
    flag_bool "streaming.enabled";
    flag_uint "streaming.buffer_size";
    flag_bool "profiling.enabled";
    flag_bool "metrics.go_enabled";
    flag_bool "metrics.process_enabled";
    flag_string "log.level";
    flag_bool "tls.enabled";
    flag_string "tls.cert_file";
    flag_string "tls.key_file";
    flag_string "health.max_data_age";
    flag_bool "filter_invalid_results";
    flag_string "max_result_age";
    flag_bool "dns.nsid_enabled";
    Ret (FString "config.file" "")
  ].

(** ** envTransform *)

Definition envPrefix : string := "ATLAS_".

(** The value is passed through. *)
Definition envTransform (k v : string) : string * string :=
  let k := TrimPrefix (ToUpper k) envPrefix in
  let k := ToLower k in
  let segs := Split k "__" in
  (Join segs ".", v).

(** ** Validate *)

Fixpoint nondecr_go (i : Z) (prev : float64) (vals : list float64) : bool :=
  match vals with
  | [] => true
  | v :: vals' =>
      if f64_lt v f64_zero then false
      else if (0 <? i) && f64_lt v prev then false
      else nondecr_go (i + 1) v vals'
  end.
Definition isNonDecreasingNonNegative (vals : list float64) : bool :=
  nondecr_go 0 (f64_of_int (-1)) vals.

(** The map literal Validate ranges over; a nil slice is empty to [range]. *)
Definition bucket_entries (c : Config) : list (string * list float64) :=
  let b := cfg_HistogramBuckets c in
  [("dns.rtt", default [] (Rtt (HB_DNS b)));
   ("http.rtt", default [] (Rtt (HB_HTTP b)));
   ("ping.rtt", default [] (Rtt (HB_Ping b)));
   ("traceroute.rtt", default [] (Rtt (HB_Traceroute b)))].

(** [entries] is the map in the order Go visits it.  [None] is a nil error. *)
Definition Validate (c : Config) (entries : list (string * list float64)) : option string :=
  if bool_decide (Web_TelemetryPath c = "") || negb (HasPrefix (Web_TelemetryPath c) "/") then
    Some "web.telemetry_path must start with '/'"
  else if TLS_Enabled c &&
          (bool_decide (TLS_CertFile c = "") || bool_decide (TLS_KeyFile c = "")) then
    Some "tls enabled but cert_file or key_file missing"
  else
    match list_find (λ nb : string * list float64, isNonDecreasingNonNegative nb.2 = false) entries with
    | Some (_, (name, _)) =>
        Some ("histogram_buckets." +:+ name +:+ " must be non-negative and non-decreasing")
    | None =>
        if (Cache_TTL c <? 0) || (Cache_Cleanup c <? 0) || (Timeout c <? 0) ||
           (MaxResultAge c <? 0) || (Health_MaxDataAge c <? 0)
        then Some "duration values must be >= 0"
        else None
    end.

(** ** normalizeArrays

    [k.Get("measurements")] is nil, a map (its entries in the order Go visits
    them) or something else.  The result is the slice stored back with
    [k.Set], if any; an element no index names stays nil.  [sort] is
    sort.Slice: it sorts, in an order of its own where indices are equal. *)

Section normalize.
Context {V : Type}.

Inductive Raw := RNil | RMap (entries : list (string * V)) | ROther.

Record kv := mkKv { idx : Z; val : V }.

(** The elements of [arr]: the entries whose key is an index. *)
Definition indexed (entries : list (string * V)) : list kv :=
  omap (λ '(ks, vv),
    let i := match Atoi ks with inl i => i | inr _ => -1 end in
    if 0 <=? i then Some (mkKv i vv) else None) entries.

(** [make([]any, n)] panics if [n] is negative or the slice, at 16 bytes an
    element, is larger than the address space. *)
Definition make_slice (n : Z) : Outcome (list (option V)) :=
  if (0 <=? n) && (n * 16 <=? 2 ^ 48) then Ret (replicate (Z.to_nat n) None)
  else Panic "runtime error: makeslice: len out of range".

Definition fill (out : list (option V)) (arr : list kv) : list (option V) :=
  foldl (λ out e,
    if (0 <=? idx e) && (idx e <? Z.of_nat (length out))
    then <[Z.to_nat (idx e) := Some (val e)]> out else out) out arr.

Definition normalizeArrays (sort : list kv → list kv) (v : Raw) : Outcome (option (list (option V))) :=
  match v with
  | RMap m =>
      let arr := sort (indexed m) in
      match last arr with
      | None => Ret None
      | Some e => out ← make_slice (add64 (idx e) 1); Ret (Some (fill out arr))
      end
  | _ => Ret None
  end.

(** What sort.Slice promises. *)
Class SortSlice (sort : list kv → list kv) : Prop := {
  sort_perm l : sort l ≡ₚ l;
  sort_sorted l : StronglySorted (λ a b, idx a <= idx b) (sort l)
}.

(** *** Lemmas *)

Lemma length_fill out arr : length (fill out arr) = length out.
Proof.
  unfold fill. revert out. induction arr as [|e arr IH]; intros out; [done|].
  simpl. rewrite IH. case_match; [by rewrite length_insert|done].
Qed.

(** A slot holds the value of the one element with its index, if any. *)
Lemma lookup_fill out arr i :
  NoDup (idx <$> arr) → (∀ e, e ∈ arr → 0 <= idx e < Z.of_nat (length out)) →
  fill out arr !! i =
    match list_find (λ e, idx e = Z.of_nat i) arr with
    | Some (_, e) => Some (Some (val e))
    | None => out !! i
    end.
Proof.
  revert out. induction arr as [|e arr IH]; intros out Hnd Hb; [done|].
  rewrite fmap_cons in Hnd. apply NoDup_cons in Hnd as [He Hnd].
  assert (0 <= idx e < Z.of_nat (length out)) as Hbe by (apply Hb; left).
  change (fill out (e :: arr)) with
    (fill (if (0 <=? idx e) && (idx e <? Z.of_nat (length out))
           then <[Z.to_nat (idx e) := Some (val e)]> out else out) arr).
  replace ((0 <=? idx e) && (idx e <? Z.of_nat (length out))) with true
    by (symmetry; rewrite andb_true_iff, Z.leb_le, Z.ltb_lt; lia).
  rewrite IH; [|done|intros e' He'; rewrite length_insert; apply Hb; by right].
  cbn [list_find]. case_decide as Hi; cbn [fmap].
  - destruct (list_find _ arr) as [[j e']|] eqn:Ef.
    + apply list_find_Some in Ef as (Hj & Hij & _). destruct He.
      rewrite Hi, <-Hij. apply list_elem_of_fmap. exists e'. split; [done|].
      by eapply list_elem_of_lookup_2.
    + replace (Z.to_nat (idx e)) with i by lia.
      apply list_lookup_insert_eq. lia.
  - destruct (list_find _ arr) as [[j e']|] eqn:Ef; [done|]. simpl.
    rewrite list_lookup_insert_ne by lia. done.
Qed.

Lemma elem_of_indexed (m : list (string * V)) e :
  e ∈ indexed m ↔ ∃ ks, (ks, val e) ∈ m ∧ Atoi ks = inl (idx e) ∧ 0 <= idx e.
Proof.
  destruct e as [i v]. unfold indexed. rewrite list_elem_of_omap. split.
  - intros ([ks w] & Hin & Hif). destruct (Atoi ks) as [z|] eqn:Ea; [|done].
    destruct (Z.leb_spec 0 z); [|done]. simplify_eq/=. eauto.
  - intros (ks & Hin & Ha & H0). exists (ks, v). split; [done|]. simpl in *. rewrite Ha.
    by destruct (Z.leb_spec 0 i); [|lia].
Qed.

(** Elements with the same index are equal when indices are distinct. *)
Lemma idx_unique (arr : list kv) e e' :
  NoDup (idx <$> arr) → e ∈ arr → e' ∈ arr → idx e = idx e' → e = e'.
Proof.
  intros Hnd [a Ha]%list_elem_of_lookup [b Hb]%list_elem_of_lookup He.
  assert (a = b) as ->; [|congruence].
  eapply (NoDup_lookup (idx <$> arr)); [done|..]; rewrite list_lookup_fmap;
    [by rewrite Ha|by rewrite Hb, He].
Qed.

(** The last element of the sorted slice has the largest index. *)
Lemma last_sorted_max (sort : list kv → list kv) `{!SortSlice sort} (arr : list kv) n :
  (∀ e, e ∈ arr → idx e <= n) → n ∈ idx <$> arr →
  ∃ e, last (sort arr) = Some e ∧ idx e = n.
Proof.
  intros Hmax Hn. pose proof (sort_perm arr) as Hp. pose proof (sort_sorted arr) as Hs.
  assert (∀ e, e ∈ sort arr ↔ e ∈ arr) as Harr by (intros; by rewrite Hp).
  destruct (last (sort arr)) as [e|] eqn:El; cycle 1.
  { apply last_None in El. rewrite El in Hp. apply Permutation_nil_l in Hp.
    rewrite <-Hp in Hn. by apply not_elem_of_nil in Hn. }
  exists e. split; [done|].
  apply last_Some in El as (l' & El). apply list_elem_of_fmap in Hn as (em & -> & Hem).
  apply Z.le_antisymm; [apply Hmax, Harr; rewrite El; apply elem_of_app; right; left|].
  apply Harr in Hem. rewrite El in Hem, Hs.
  apply elem_of_app in Hem as [Hem|Hem]; [|by apply list_elem_of_singleton in Hem as ->].
  apply StronglySorted_app in Hs as (Hs & _ & _). apply Hs; [done|]. by left.
Qed.

(** What the filled slice holds. *)
Lemma fill_indexed n (arr : list kv) (m : list (string * V)) i v :
  arr ≡ₚ indexed m → NoDup (idx <$> indexed m) →
  (∀ e, e ∈ indexed m → idx e < Z.of_nat n) →
  fill (replicate n None) arr !! i = Some (Some v) ↔
  ∃ ks, (ks, v) ∈ m ∧ Atoi ks = inl (Z.of_nat i).
Proof.
  intros Hp Hnd Hmax.
  assert (∀ e, e ∈ arr ↔ e ∈ indexed m) as Harr by (intros; by rewrite Hp).
  assert (∀ ks, (ks, v) ∈ m → Atoi ks = inl (Z.of_nat i) → mkKv (Z.of_nat i) v ∈ arr) as Hin.
  { intros ks Hks Ha. apply Harr, elem_of_indexed. simpl. eauto with lia. }
  rewrite lookup_fill; cycle 1.
  { by rewrite Hp. }
  { intros e He%Harr. rewrite length_replicate. split; [|by apply Hmax].
    by apply elem_of_indexed in He as (? & _ & _ & ?). }
  destruct (list_find _ arr) as [[j e]|] eqn:Ef.
  - apply list_find_Some in Ef as (Hj%list_elem_of_lookup_2 & Hij & _).
    split; [intros [= <-]|intros (ks & Hks & Ha)].
    + apply Harr, elem_of_indexed in Hj as (ks & ? & ? & _). exists ks. by rewrite <-Hij.
    + do 2 f_equal. rewrite (idx_unique arr e (mkKv (Z.of_nat i) v)); eauto. by rewrite Hp.
  - apply list_find_None in Ef. rewrite Forall_forall in Ef. split.
    + by intros [? _]%lookup_replicate.
    + intros (ks & Hks & Ha). by destruct (Ef (mkKv (Z.of_nat i) v)); eauto.
Qed.

End normalize.
Arguments Raw : clear implicits.
Arguments kv : clear implicits.

(** ** Lemmas on envTransform *)

(** A segment with no double underscore in it and none at its end. *)
Fixpoint clean (s : string) : bool :=
  match s with
  | EmptyString => true
  | String c s' =>
      (if Ascii.eqb c "_" then
         match s' with
         | EmptyString => false
         | String d _ => negb (Ascii.eqb d "_")
         end
       else true) && clean s'
  end.

Lemma clean_no_prefix c s t :
  clean (String c s) = true → s ≠ EmptyString ∨ c ≠ "_"%char →
  HasPrefix (String c (s +:+ t)) "__" = false.
Proof.
  intros Hc Hs. apply not_true_iff_false. intros (r & Hr)%HasPrefix_spec.
  change ("__" +:+ r) with (String "_"%char (String "_"%char r)) in Hr.
  destruct s as [|d s].
  - injection Hr as -> _. by destruct Hs.
  - rewrite app_cons in Hr. by injection Hr as -> -> _.
Qed.

(** Reading a clean segment gathers it into the current field. *)
Lemma Split_go_clean s t cur :
  clean s = true →
  Split_go "__" 0 cur (s +:+ t) =
    match t with
    | EmptyString => [cur +:+ s]
    | _ => Split_go "__" 0 (cur +:+ s) t
    end.
Proof.
  revert cur. induction s as [|c s IH]; intros cur Hs.
  - rewrite app_empty_r. by destruct t.
  - rewrite app_cons. cbn [Split_go].
    rewrite clean_no_prefix; [|done|].
    + cbn [clean] in Hs. apply andb_true_iff in Hs as [_ Hs].
      rewrite IH by done. by rewrite app_assoc_str.
    + destruct s; [right|by left]. intros ->. done.
Qed.

Lemma Split_go_sep cur t :
  Split_go "__" 0 cur ("__" +:+ t) = cur :: Split_go "__" 0 EmptyString t.
Proof. reflexivity. Qed.

Lemma Split_Join segs :
  segs ≠ [] → forallb clean segs = true → Split (Join segs "__") "__" = segs.
Proof.
  unfold Split, Join. destruct segs as [|s segs]; [done|]. intros _.
  revert s. induction segs as [|s' segs IH]; intros s; cbn [forallb]; intros [Hs Hss]%andb_true_iff.
  - cbn [String.concat]. rewrite <-(app_empty_r s) at 1. by rewrite Split_go_clean.
  - change (String.concat "__" (s :: s' :: segs))
      with (s +:+ "__" +:+ String.concat "__" (s' :: segs)).
    rewrite Split_go_clean by done.
    simpl. f_equal. by apply IH.
Qed.

Lemma str_forallb_concat p sep segs :
  str_forallb p sep = true → forallb (str_forallb p) segs = true →
  str_forallb p (String.concat sep segs) = true.
Proof.
  intros Hsep. induction segs as [|s [|s' segs] IH]; [done|by intros [? _]%andb_true_iff|].
  intros [Hs Hss]%andb_true_iff.
  change (String.concat sep (s :: s' :: segs)) with (s +:+ sep +:+ String.concat sep (s' :: segs)).
  autorewrite with strs. by rewrite Hs, Hsep, IH.
Qed.

(** The environment variable documented for a dotted key. *)
Definition env_name (segs : list string) : string := envPrefix +:+ ToUpper (Join segs "__").

(** ** Lemmas on Validate *)

Lemma nondecr_go_spec vals i prev :
  0 <= i → nondecr_go i prev vals = true ↔
  (∀ j x, vals !! j = Some x → f64_lt x f64_zero = false) ∧
  (∀ j x y, vals !! j = Some x → vals !! S j = Some y → f64_lt y x = false) ∧
  (∀ x, 0 < i → vals !! 0%nat = Some x → f64_lt x prev = false).
Proof.
  revert i prev. induction vals as [|v vals IH]; intros i prev Hi; [by simpl; naive_solver|].
  cbn [nondecr_go]. destruct (f64_lt v f64_zero) eqn:Hv.
  { split; [done|]. intros [H _]. specialize (H 0%nat v eq_refl). congruence. }
  destruct ((0 <? i) && f64_lt v prev) eqn:Hp.
  { apply andb_true_iff in Hp as [Hi'%Z.ltb_lt Hp]. split; [done|].
    intros (_ & _ & H). specialize (H v Hi' eq_refl). congruence. }
  rewrite IH by lia. apply andb_false_iff in Hp. rewrite Z.ltb_ge in Hp.
  split; intros (H1 & H2 & H3); (split; [|split]).
  - intros [|j] x Hx; simplify_eq/=; eauto.
  - intros [|j] x y Hx Hy; simplify_eq/=; [apply H3; [lia|done]|eauto].
  - intros x Hi' Hx; simplify_eq/=. destruct Hp; [lia|done].
  - intros j x Hx. by apply (H1 (S j)).
  - intros j x y Hx Hy. by apply (H2 (S j)).
  - intros x _ Hx. by apply (H2 0%nat).
Qed.

(** ** Properties *)

(** What Validate promises of a configuration it accepts. *)
Definition valid_config (c : Config) : Prop :=
  (∃ r, Web_TelemetryPath c = "/" +:+ r) ∧
  (TLS_Enabled c = true → TLS_CertFile c ≠ "" ∧ TLS_KeyFile c ≠ "") ∧
  (∀ name b, (name, b) ∈ bucket_entries c →
     (∀ i x, b !! i = Some x → f64_lt x f64_zero = false) ∧
     (∀ i x y, b !! i = Some x → b !! S i = Some y → f64_lt y x = false)) ∧
  0 <= Cache_TTL c ∧ 0 <= Cache_Cleanup c ∧ 0 <= Timeout c ∧
  0 <= MaxResultAge c ∧ 0 <= Health_MaxDataAge c.

Lemma isNonDecreasingNonNegative_spec vals :
  isNonDecreasingNonNegative vals = true ↔
  (∀ j x, vals !! j = Some x → f64_lt x f64_zero = false) ∧
  (∀ j x y, vals !! j = Some x → vals !! S j = Some y → f64_lt y x = false).
Proof.
  unfold isNonDecreasingNonNegative. rewrite nondecr_go_spec by done.
  split; [tauto|]. intros [? ?]. split; [done|]. split; [done|lia].
Qed.

Lemma buckets_ok_iff entries :
  list_find (λ nb : string * list float64, isNonDecreasingNonNegative nb.2 = false) entries = None ↔
  ∀ name b, (name, b) ∈ entries → isNonDecreasingNonNegative b = true.
Proof.
  rewrite list_find_None, Forall_forall. split.
  - intros H name b Hin. apply not_false_iff_true. by apply (H (name, b)).
  - intros H [name b] Hin. simpl. apply not_false_iff_true. by eapply H.
Qed.

Lemma Validate_iff c entries :
  entries ≡ₚ bucket_entries c → Validate c entries = None ↔ valid_config c.
Proof.
  intros He. unfold Validate, valid_config.
  rewrite <-HasPrefix_spec.
  assert (∀ name b, (name, b) ∈ entries ↔ (name, b) ∈ bucket_entries c) as Hin
    by (intros; by rewrite He).
  setoid_rewrite <-isNonDecreasingNonNegative_spec. setoid_rewrite <-Hin.
  rewrite <-buckets_ok_iff.
  destruct (bool_decide_reflect (Web_TelemetryPath c = "")) as [->|_]; [by split; [|intros [? _]]|].
  destruct (HasPrefix (Web_TelemetryPath c) "/"); [|by split; [|intros [? _]]]. simpl.
  destruct (TLS_Enabled c), (bool_decide_reflect (TLS_CertFile c = "")),
    (bool_decide_reflect (TLS_KeyFile c = "")); simpl; try by (split; [done|naive_solver]).
  all: destruct (list_find _ _) as [[? [? ?]]|]; [by split; [|intros (_ & _ & ? & _)]|].
  all: repeat match goal with |- context [Z.ltb ?a ?b] => destruct (Z.ltb_spec a b) end;
    simpl; (split; [try done; intros _; repeat split; done || lia|intros; destruct_and!; done || lia]).
Qed.

(** The configuration with another telemetry path, clean-up interval and list
    of measurements. *)
Definition with_settings (c : Config) (path : string) (cleanup : Z) (ms : list MeasurementCfg) : Config := {|
  Web_ListenAddress := Web_ListenAddress c; Web_TelemetryPath := path;
  Cache_TTL := Cache_TTL c; Cache_Cleanup := cleanup; Timeout := Timeout c;
  Worker_Count := Worker_Count c; Streaming_Enabled := Streaming_Enabled c;
  Streaming_BufferSize := Streaming_BufferSize c; Profiling_Enabled := Profiling_Enabled c;
  Metrics_GoEnabled := Metrics_GoEnabled c; Metrics_ProcessEnabled := Metrics_ProcessEnabled c;
  Log_Level := Log_Level c; TLS_Enabled := TLS_Enabled c; TLS_CertFile := TLS_CertFile c;
  TLS_KeyFile := TLS_KeyFile c; DNS_NSIDEnabled := DNS_NSIDEnabled c;
  Health_MaxDataAge := Health_MaxDataAge c; cfg_HistogramBuckets := cfg_HistogramBuckets c;
  Measurements := ms; FilterInvalidResults := FilterInvalidResults c; MaxResultAge := MaxResultAge c
|}.

Lemma Validate_with_settings c path cleanup ms :
  Validate c (bucket_entries c) = None → HasPrefix path "/" = true → 0 <= cleanup →
  Validate (with_settings c path cleanup ms) (bucket_entries (with_settings c path cleanup ms)) = None.
Proof.
  intros Hv Hp Hc. assert (path ≠ "") as Hne by (by intros ->).
  unfold Validate, bucket_entries in *. simpl in *. rewrite Hp, (bool_decide_eq_false_2 (path = "")) by done.
  simpl. repeat case_match; simplify_eq/=; try done; exfalso;
    repeat match goal with H : _ || _ = _ |- _ => rewrite ?orb_true_iff, ?orb_false_iff in H end; lia.
Qed.

(** C27: Validate accepts a configuration exactly when the telemetry path
    starts with a slash, TLS has both of its files, no bucket list holds a
    negative bound or a bound below the one before it, and no duration is
    negative; the order in which Go visits the map of bucket lists does not
    matter to that. *)
Theorem Validate_spec c entries :
  entries ≡ₚ bucket_entries c → Validate c entries = None ↔ valid_config c.
Proof. apply Validate_iff. Qed.

(** The array built from MEASUREMENTS__<i>__... variables has one element
    more than the largest index, each element is the value of the key that
    reads as its index, keys that are no index are dropped, and an element no
    key names is nil. *)
Theorem normalizeArrays_spec {V} (sort : list (kv V) → list (kv V)) (m : list (string * V)) n :
  SortSlice sort →
  NoDup (idx <$> indexed m) →
  (∀ e, e ∈ indexed m → idx e <= n) → n ∈ idx <$> indexed m →
  n < 2 ^ 44 →
  ∃ out, normalizeArrays sort (RMap m) = Ret (Some out) ∧
    Z.of_nat (length out) = n + 1 ∧
    ∀ i v, out !! i = Some (Some v) ↔ ∃ ks, (ks, v) ∈ m ∧ Atoi ks = inl (Z.of_nat i).
Proof.
  intros Hsort Hnd Hmax Hn Hsz.
  destruct (last_sorted_max sort (indexed m) n Hmax Hn) as (e & El & He).
  assert (0 <= n) as H0n.
  { apply list_elem_of_fmap in Hn as (em & -> & (? & _ & _ & ?)%elem_of_indexed). done. }
  unfold normalizeArrays. rewrite El, He.
  unfold add64, make_slice. rewrite wrap64_id by (unfold int64_ok, two63; lia).
  replace ((0 <=? n + 1) && ((n + 1) * 16 <=? 2 ^ 48)) with true
    by (symmetry; rewrite andb_true_iff, !Z.leb_le; lia).
  eexists. split; [reflexivity|]. rewrite length_fill, length_replicate. split; [lia|].
  intros i v. apply fill_indexed; [apply sort_perm|done|].
  intros e' He'. specialize (Hmax e' He'). lia.
Qed.

(** The environment variable documented for a dotted key, segments in
    upper case joined by a double underscore behind ATLAS_, maps back to that
    key, single underscores inside a segment included. *)
Theorem envTransform_env_name segs v :
  segs ≠ [] → forallb clean segs = true → forallb (str_forallb is_lower) segs = true →
  envTransform (env_name segs) v = (Join segs ".", v).
Proof.
  intros Hne Hc Hl. unfold envTransform, env_name.
  replace (ToUpper (envPrefix +:+ ToUpper (Join segs "__")))
    with (envPrefix +:+ ToUpper (Join segs "__"));
    [|unfold ToUpper at 2; rewrite str_map_app; fold ToUpper; by rewrite ToUpper_ToUpper].
  rewrite TrimPrefix_app, ToLower_ToUpper by (by apply str_forallb_concat).
  by rewrite Split_Join.
Qed.

(** The flag a default stands for. *)
Definition flag_of (kv : string * Any) : FlagDef :=
  match kv.2 with
  | AStr s => FString kv.1 s
  | AInt z => FUint kv.1 z
  | ABool b => FBool kv.1 b
  end.

(** RegisterFlags registers, without a failing type assertion, one flag
    per default under the same key and with the same value, and config.file
    beside them; and each of those keys is the image of its environment
    variable. *)
Theorem flags_env_defaults_agree v :
  RegisterFlags = Ret ((flag_of <$> Defaults) ++ [FString "config.file" ""]) ∧
  Forall (λ kv, envTransform (env_name (Split kv.1 ".")) v = (kv.1, v)) Defaults.
Proof.
  split; [reflexivity|].
  repeat constructor.
Qed.

(** ** Witnesses *)

(** The configuration of the defaults, with two measurements. *)
Definition defaultConfig : Config := {|
  Web_ListenAddress := ":9400"; Web_TelemetryPath := "/metrics";
  Cache_TTL := 3600 * Second; Cache_Cleanup := 300 * Second; Timeout := 60 * Second;
  Worker_Count := 8; Streaming_Enabled := true; Streaming_BufferSize := 100;
  Profiling_Enabled := false; Metrics_GoEnabled := true; Metrics_ProcessEnabled := true;
  Log_Level := "info"; TLS_Enabled := false; TLS_CertFile := ""; TLS_KeyFile := "";
  DNS_NSIDEnabled := true; Health_MaxDataAge := 0;
  cfg_HistogramBuckets := {| HB_DNS := {| Rtt := None |}; HB_HTTP := {| Rtt := None |};
    HB_Ping := {| Rtt := Some [f64_of_int 5; f64_of_int 10] |}; HB_Traceroute := {| Rtt := None |} |};
  Measurements := [{| m_ID := "1001" |}; {| m_ID := "5001" |}];
  FilterInvalidResults := true; MaxResultAge := 0
|}.

Lemma Validate_spec_witness : valid_config defaultConfig.
Proof.
  apply (Validate_spec defaultConfig (reverse (bucket_entries defaultConfig))).
  - apply reverse_Permutation.
  - reflexivity.
Defined.

Definition idx_le {V} (a b : kv V) : Prop := idx a <= idx b.
#[export] Instance idx_le_dec {V} : RelDecision (@idx_le V).
Proof. unfold idx_le. intros a b. apply _. Defined.

#[export] Instance merge_sort_slice {V} : SortSlice (merge_sort (@idx_le V)).
Proof.
  split; intros l; [apply merge_sort_Permutation|].
  change (StronglySorted idx_le (merge_sort idx_le l)).
  apply StronglySorted_merge_sort; unfold idx_le; [intros a b c; lia|intros a b; lia].
Qed.

Lemma normalizeArrays_spec_witness :
  ∃ out, normalizeArrays (merge_sort idx_le)
           (RMap [("1", "222"); ("x", "no"); ("0", "111")]) = Ret (Some out) ∧
    Z.of_nat (length out) = 2 ∧
    ∀ i v, out !! i = Some (Some v) ↔
      ∃ ks, (ks, v) ∈ [("1", "222"); ("x", "no"); ("0", "111")] ∧ Atoi ks = inl (Z.of_nat i).
Proof.
  apply (normalizeArrays_spec (merge_sort idx_le)
           [("1", "222"); ("x", "no"); ("0", "111")] 1).
  - apply merge_sort_slice.
  - apply (bool_decide_unpack _). vm_compute. exact I.
  - intros e He. repeat (apply elem_of_cons in He as [->|He]; [simpl; lia|]).
    by apply not_elem_of_nil in He.
  - apply (bool_decide_unpack _). vm_compute. exact I.
  - lia.
Defined.

Lemma envTransform_env_name_witness :
  envTransform "ATLAS_HEALTH__MAX_DATA_AGE" "30m" = ("health.max_data_age", "30m").
Proof.
  apply (envTransform_env_name ["health"; "max_data_age"] "30m"); [done|reflexivity|reflexivity].
Defined.
