(* ===== verification/ConfigLoad.v ===== *)
(** * Package config: Load

    The layers of the configuration.  koanf, its providers and mapstructure are
    third-party: class [Koanf] has the operations Load calls, and [KoanfLaws]
    their documented behaviour: that a later source overrides an earlier one
    key by key, and what each provider reads.  Keys are dotted paths; the laws
    are about a key that is neither above nor below another key of the source,
    which would be merged into a map. *)

From S2P Require Import Prelude GoInt GoFloat GoStrings Config.
Open Scope Z_scope.

(** A parsed flag: whether the command line set it, and its value. *)
Record Flag {V : Type} := mkFlag { f_name : string; f_changed : bool; f_value : V; f_text : string }.
Arguments Flag : clear implicits.
Arguments mkFlag {V}.

Class Koanf := {
  K : Type;                            (* *koanf.Koanf *)
  Val : Type;                          (* any *)
  k_new : K;
  k_get : K → string → option Val;
  k_merge : K → list (string * Val) → K;                 (* k.Load, once the source is read *)
  k_set : K → string → Val → K;
  of_any : Any → Val;                  (* the values of Defaults *)
  of_string : string → Val;
  as_raw : option Val → Raw Val;   (* nil, map[string]any or another type *)
  of_slice : list (option Val) → Val;
  confmap_provider : list (string * Any) → GoResult (list (string * Val));
  read_yaml : string → GoResult (list (string * Val));   (* file.Provider with yaml.Parser *)
  env_provider : string → (string → string → string * string) → list (string * string) →
    GoResult (list (string * Val));                      (* Prefix, TransformFunc and os.Environ *)
  posflag_provider : list (Flag Val) → K → GoResult (list (string * Val));
  unmarshal : K → GoResult Config
}.

(** The last value a list gives a key. *)
Definition assoc {V} (l : list (string * V)) (key : string) : option V :=
  snd <$> last (filter (λ kv : string * V, kv.1 = key) l).

Definition flag_named {V} (fs : list (Flag V)) (key : string) : option (Flag V) :=
  snd <$> list_find (λ f : Flag V, f_name f = key) fs.

(** No name is a path through [key], or [key] a path through a name. *)
Definition leaf (key : string) (names : list string) : Prop :=
  Forall (λ n, HasPrefix n (key +:+ ".") = false ∧ HasPrefix key (n +:+ ".") = false) names.

(** The variables whose names have the prefix, transformed. *)
Definition transformed (prefix : string) (transform : string → string → string * string)
    (environ : list (string * string)) : list (string * string) :=
  (λ nv : string * string, transform nv.1 nv.2) <$> filter (λ nv, HasPrefix nv.1 prefix = true) environ.

Class KoanfLaws `{KO : Koanf} : Prop := {
  k_get_new key : k_get k_new key = None;
  k_get_merge k l key : leaf key l.*1 →
    k_get (k_merge k l) key = match assoc l key with Some v => Some v | None => k_get k key end;
  (** confmap: the values of the map *)
  confmap_reads m l key : leaf key m.*1 → confmap_provider m = Ok l →
    leaf key l.*1 ∧ assoc l key = of_any <$> assoc m key;
  (** env/v2: "only env vars beginning with the prefix are captured", with the
      keys and values that the transformation returns for them; a variable
      whose key it makes empty is left out *)
  env_reads prefix transform environ l key :
    key ≠ "" → leaf key (transformed prefix transform environ).*1 →
    env_provider prefix transform environ = Ok l →
    leaf key l.*1 ∧ assoc l key = of_string <$> assoc (transformed prefix transform environ) key;
  (** posflag with a Koanf instance: the defaults of flags are merged for keys
      that it does not have, otherwise only the flags that were set *)
  posflag_reads fs k l key :
    NoDup (f_name <$> fs) → leaf key (f_name <$> fs) → posflag_provider fs k = Ok l →
    leaf key l.*1 ∧
    assoc l key = f ← flag_named fs key;
                  if f_changed f || bool_decide (k_get k key = None) then Some (f_value f) else None
}.

Section load.
Context {KO : Koanf}.

Abbreviation FlagSet := (list (Flag Val)).

(** [fs.Lookup("config.file")], or the environment. *)
Definition config_file (fs : FlagSet) (environ : list (string * string)) : string :=
  let filePath :=
    match flag_named fs "config.file" with
    | Some f => f_text f
    | None => ""
    end in
  if bool_decide (filePath = "") then default "" (assoc environ (envPrefix +:+ "CONFIG_FILE"))
  else filePath.

(** [k.Load]: an error of the source, with [what] in front, or its values
    merged. *)
Definition k_Load (what : string) (k : K) (source : GoResult (list (string * Val))) : GoResult K :=
  match source with
  | Err e => Err (what +:+ ": " +:+ e)
  | Ok l => Ok (k_merge k l)
  end.

(** [filepath.Abs], if it does not fail. *)
Definition abs_path (abs : string → GoResult string) (filePath : string) : string :=
  match abs filePath with Ok a => a | Err _ => filePath end.

(** The file that the flag or the environment names, if any. *)
Definition load_file (abs : string → GoResult string) (filePath : string) (k : K) : GoResult K :=
  if bool_decide (filePath = "") then Ok k
  else
    let filePath := abs_path abs filePath in
    k_Load ("load yaml file " +:+ filePath) k (read_yaml filePath).

Definition and_then {B C} (r : GoResult B) (f : B → GoResult C) : GoResult C :=
  match r with Ok x => f x | Err e => Err e end.

(** The four layers, in the order they are loaded. *)
Definition load_layers (abs : string → GoResult string) (fs : FlagSet)
    (environ : list (string * string)) : GoResult K :=
  and_then (k_Load "load defaults" k_new (confmap_provider Defaults)) (λ k,
  and_then (load_file abs (config_file fs environ) k) (λ k,
  and_then (k_Load "load env" k (env_provider envPrefix envTransform environ)) (λ k,
  k_Load "load flags" k (posflag_provider fs k)))).

(** [sort] and [entries] are the orders that Go leaves open in normalizeArrays
    and Validate. *)
Definition Load (sort : list (kv Val) → list (kv Val))
    (entries : Config → list (string * list float64))
    (abs : string → GoResult string) (fs : FlagSet) (environ : list (string * string)) :
  Outcome (GoResult Config) :=
  match load_layers abs fs environ with
  | Err e => Ret (Err e)
  | Ok k =>
      arr ← normalizeArrays sort (as_raw (k_get k "measurements"));
      let k := match arr with Some out => k_set k "measurements" (of_slice out) | None => k end in
      match unmarshal k with
      | Err e => Ret (Err ("unmarshal: " +:+ e))
      | Ok cfg =>
          match Validate cfg (entries cfg) with
          | Some e => Ret (Err e)
          | None => Ret (Ok cfg)
          end
      end
  end.

(** ** Lemmas *)

Lemma assoc_cons {V} (kv : string * V) l key :
  assoc (kv :: l) key =
    match assoc l key with
    | Some v => Some v
    | None => if decide (kv.1 = key) then Some kv.2 else None
    end.
Proof.
  unfold assoc. destruct (decide (kv.1 = key)) as [E|E].
  - rewrite filter_cons_True by done. destruct (filter _ l) as [|x l'] eqn:El; [done|].
    rewrite last_cons_cons. by destruct (last (x :: l')) eqn:Ex; [|apply last_None in Ex].
  - rewrite filter_cons_False by done. by destruct (last _).
Qed.

Lemma assoc_app {V} (k l : list (string * V)) key :
  assoc (k ++ l) key = match assoc l key with Some v => Some v | None => assoc k key end.
Proof.
  induction k as [|kv k IH]; simpl; [by destruct (assoc l key)|].
  rewrite !assoc_cons, IH. by destruct (assoc l key), (assoc k key).
Qed.

(** ** Properties *)

(** What the file gives, if there is one. *)
Definition file_values (abs : string → GoResult string) (fs : FlagSet)
    (environ : list (string * string)) : list (string * Val) :=
  let filePath := config_file fs environ in
  if bool_decide (filePath = "") then []
  else match read_yaml (abs_path abs filePath) with Ok m => m | Err _ => [] end.

(** What the environment gives. *)
Definition env_values (environ : list (string * string)) : list (string * string) :=
  transformed envPrefix envTransform environ.

Lemma and_then_Ok {B C} (r : GoResult B) (f : B → GoResult C) y :
  and_then r f = Ok y → ∃ x, r = Ok x ∧ f x = Ok y.
Proof. destruct r as [x|e]; [|done]. by exists x. Qed.

Lemma k_Load_Ok what k source k' :
  k_Load what k source = Ok k' → ∃ l, source = Ok l ∧ k' = k_merge k l.
Proof. destruct source as [l|e]; [|done]. intros [= <-]. by exists l. Qed.

Lemma load_file_get `{!KoanfLaws} abs fs environ k k' key :
  load_file abs (config_file fs environ) k = Ok k' → leaf key (file_values abs fs environ).*1 →
  k_get k' key = assoc (file_values abs fs environ) key ∪ k_get k key.
Proof.
  unfold load_file, file_values. case_bool_decide; [by intros [= <-] _; destruct (k_get k key)|].
  intros (l & -> & ->)%k_Load_Ok Hl. rewrite k_get_merge by done. by destruct (assoc l key), (k_get k key).
Qed.

(** C29: when the sources load, the value of a key comes from the first of
    these that has it: a flag set on the command line, the environment (the
    variables whose names begin with the prefix, as envTransform renames
    them), the file, the defaults, and last the default of a flag.  This is
    for a key that is neither above nor below another key of a source: not
    for measurements that both the file and variables with indices set. *)
Theorem Load_precedence `{!KoanfLaws} abs fs environ k key :
  key ≠ "" → NoDup (f_name <$> fs) → load_layers abs fs environ = Ok k →
  leaf key Defaults.*1 → leaf key (file_values abs fs environ).*1 →
  leaf key (env_values environ).*1 → leaf key (f_name <$> fs) →
  k_get k key =
    (f ← flag_named fs key; if f_changed f then Some (f_value f) else None) ∪
    ((of_string <$> assoc (env_values environ) key) ∪
     (assoc (file_values abs fs environ) key ∪
      ((of_any <$> assoc Defaults key) ∪ (f_value <$> flag_named fs key)))).
Proof.
  intros Hkey Hnd Hload Hd Hf He Hfs. unfold load_layers in Hload.
  apply and_then_Ok in Hload as (k1 & (l1 & H1 & ->)%k_Load_Ok & Hload).
  apply and_then_Ok in Hload as (k2 & H2 & Hload).
  apply and_then_Ok in Hload as (k3 & (l3 & H3 & ->)%k_Load_Ok & (l4 & H4 & ->)%k_Load_Ok).
  destruct (confmap_reads _ _ key Hd H1) as [Hl1 E1]. destruct (env_reads _ _ _ _ key Hkey He H3) as [Hl3 E3].
  destruct (posflag_reads _ _ _ key Hnd Hfs H4) as [Hl4 E4].
  apply load_file_get with (key := key) in H2; [|done]. rewrite k_get_merge, E1, k_get_new in H2 by done.
  rewrite k_get_merge, E4, !k_get_merge, E3, H2 by done.
  unfold env_values. generalize (assoc (transformed envPrefix envTransform environ) key) as v3,
    (assoc (file_values abs fs environ) key) as v2, (assoc Defaults key) as v1. intros [] [] [];
    destruct (flag_named fs key) as [f|]; simpl; try destruct (f_changed f); done.
Qed.

(** A configuration that Load returns is valid; the file that cannot be
    read, the values that do not fit and the values that are not valid are
    errors. *)
Theorem Load_valid sort entries abs fs environ :
  (∀ c, entries c ≡ₚ bucket_entries c) →
  match Load sort entries abs fs environ with
  | Ret (Ok cfg) => valid_config cfg
  | _ => True
  end.
Proof.
  intros He. unfold Load. destruct (load_layers abs fs environ) as [k|e]; [|done].
  destruct (normalizeArrays _ _) as [arr|e]; [|done]. simpl. destruct (unmarshal _) as [cfg|e]; [|done].
  destruct (Validate cfg (entries cfg)) eqn:Ev; [done|]. by apply Validate_iff in Ev.
Qed.

End load.

(** ** Witnesses *)

Module LoadW.

(** A koanf over association lists with text values, and providers that read
    what the laws say. *)
Definition flag_layer_w (fs : list (Flag string)) (k : list (string * string)) : list (string * string) :=
  omap (λ f, if f_changed f || bool_decide (assoc k (f_name f) = None) then Some (f_name f, f_value f) else None) fs.

Definition env_layer_w (prefix : string) (transform : string → string → string * string)
    (environ : list (string * string)) : list (string * string) :=
  filter (λ kv, kv.1 ≠ "") (transformed prefix transform environ).

Definition any_w (a : Any) : string :=
  match a with AStr s => s | AInt z => Itoa z | ABool b => if b then "true" else "false" end.

#[local] Instance sKoanf : Koanf := {|
  K := list (string * string); Val := string; k_new := []; k_get := assoc;
  k_merge := λ k l, k ++ l; k_set := λ k key v, k ++ [(key, v)];
  of_any := any_w; of_string := λ s, s; as_raw := λ _, RNil; of_slice := λ _, "";
  confmap_provider := λ m, Ok (prod_map id any_w <$> m);
  read_yaml := λ _, Ok [("timeout", "30s"); ("log.level", "warn")];
  env_provider := λ prefix transform environ, Ok (env_layer_w prefix transform environ);
  posflag_provider := λ fs k, Ok (flag_layer_w fs k);
  unmarshal := λ _, Ok defaultConfig
|}.

Lemma assoc_fmap {V W} (f : V → W) (l : list (string * V)) key :
  assoc (prod_map id f <$> l) key = f <$> assoc l key.
Proof.
  induction l as [|kv l IH]; [done|]. rewrite fmap_cons, !assoc_cons, IH. simpl.
  destruct (assoc l key); [done|]. by case_decide.
Qed.

Lemma assoc_nonempty {V} (l : list (string * V)) key :
  key ≠ "" → assoc (filter (λ kv : string * V, kv.1 ≠ "") l) key = assoc l key.
Proof.
  intros Hk. induction l as [|kv l IH]; [done|]. rewrite filter_cons. case_decide as H.
  - by rewrite !assoc_cons, IH.
  - rewrite assoc_cons, IH. destruct (decide (kv.1 = key)) as [E|]; [|by destruct (assoc l key)].
    destruct H. congruence.
Qed.

Lemma flag_layer_None k fs key : key ∉ f_name <$> fs → assoc (flag_layer_w fs k) key = None.
Proof.
  induction fs as [|f fs IH]; [done|]. rewrite fmap_cons, not_elem_of_cons. intros [Hf Hfs].
  unfold flag_layer_w. cbn [omap list_omap]. fold (flag_layer_w fs k).
  repeat case_match; simplify_eq; rewrite ?assoc_cons, ?IH by done; try done;
    by rewrite decide_False by (simpl; congruence).
Qed.

Lemma flag_named_cons {V} (f : Flag V) fs key :
  flag_named (f :: fs) key = if decide (f_name f = key) then Some f else flag_named fs key.
Proof.
  unfold flag_named. cbn [list_find]. case_decide; [done|].
  by destruct (list_find _ fs) as [[]|].
Qed.

Lemma assoc_flag_layer k fs key :
  NoDup (f_name <$> fs) →
  assoc (flag_layer_w fs k) key =
    f ← flag_named fs key; if f_changed f || bool_decide (assoc k key = None) then Some (f_value f) else None.
Proof.
  induction fs as [|f fs IH]; [done|]. rewrite fmap_cons, NoDup_cons. intros [Hf Hnd].
  rewrite flag_named_cons. unfold flag_layer_w. cbn [omap list_omap]. fold (flag_layer_w fs k).
  destruct (decide (f_name f = key)) as [<-|Hk].
  - simpl. repeat case_match; simplify_eq; rewrite ?assoc_cons, ?flag_layer_None by done; try done; by rewrite decide_True.
  - rewrite <-IH by done. repeat case_match; simplify_eq; rewrite ?assoc_cons; try done;
      rewrite decide_False by (simpl; congruence); by destruct (assoc _ _).
Qed.

#[local] Instance sKoanfLaws : KoanfLaws.
Proof.
  split; [done|..].
  - intros k l key _. apply assoc_app.
  - intros m l key Hl [= <-]. split; [|apply assoc_fmap]. unfold leaf. rewrite <-list_fmap_compose.
    by rewrite (list_fmap_ext _ fst).
  - intros prefix transform environ l key Hk Hl [= <-]. unfold env_layer_w.
    rewrite assoc_nonempty, option_fmap_id by done. split; [|done]. unfold leaf in *.
    rewrite !Forall_forall in *. intros n (kv & -> & [_ Hin]%list_elem_of_filter)%list_elem_of_fmap.
    apply Hl. by apply list_elem_of_fmap_2.
  - intros fs k l key Hnd Hl [= <-]. split; [|by apply assoc_flag_layer]. unfold leaf in *.
    rewrite !Forall_forall in *. intros n ([n' v] & -> & Hin)%list_elem_of_fmap.
    apply list_elem_of_omap in Hin as (f & Hf & E). apply Hl. case_match; [|done]. simplify_eq/=.
    by apply (list_elem_of_fmap_2 f_name).
Qed.

Definition flags_w : list (Flag Val) :=
  [mkFlag "config.file" true "c.yaml" "c.yaml"; mkFlag "log.level" false "info" "info"].
Definition env_w : list (string * string) := [("ATLAS_TIMEOUT", "10s"); ("HOME", "/root")].
Definition layers_w : K := default [] (match load_layers Ok flags_w env_w with Ok k => Some k | Err _ => None end).

Lemma Load_precedence_witness : k_get layers_w "timeout" = Some "10s".
Proof.
  refine (eq_trans (Load_precedence Ok flags_w env_w layers_w "timeout" _ _ _ _ _ _ _) _).
  - done.
  - by apply (bool_decide_unpack (NoDup (f_name <$> flags_w))).
  - reflexivity.
  - by repeat constructor.
  - by repeat constructor.
  - by repeat constructor.
  - by repeat constructor.
  - reflexivity.
Defined.

Lemma Load_valid_witness : valid_config defaultConfig.
Proof.
  apply (Load_valid (λ l, l) bucket_entries Ok flags_w env_w). done.
Defined.

End LoadW.
