(* ===== verification/Measurement.v ===== *)
(** * Package exporter

    [Measurement] keeps the latest result and the probe of every probe
    identifier and turns them into metrics.  The interfaces [Exporter],
    [Histogram] and [ResultValidator] are records of their methods; class
    [LawfulExporter] states what [Measurement] and the collector rely on, and
    each measurement package discharges it.

    [World] is what exporting touches outside a measurement: the metric
    channel, as the list of what was sent, and the one package variable that
    an exporter writes, certFingerprint of package sslcert. *)

From S2P Require Import Prelude GoInt GoFloat GoStrings Apis Probe.
Open Scope Z_scope.

Section measurement.
Context {A : AtlasAPI} {P : PromAPI}.

Record World := mkWorld { certFingerprint : string; sent : list Metric }.

(** [ch <- m] *)
Definition send (m : Metric) : GoM World unit :=
  modify (λ w, mkWorld (certFingerprint w) (sent w ++ [m])).

(** [ch <- prometheus.MustNewConstMetric(d, vt, v, lvs...)] *)
Definition send_const (d : Desc) (vt : ValueType) (v : float64) (lvs : list string) :
  GoM World unit :=
  m ← lift (MustNewConstMetric d vt v lvs); send m.

(** ** The interfaces *)

Record Exporter := {
  Export : Result → option Probe → GoM World unit;
  Describe : list Desc
}.

(** A histogram's state and how a result changes it. *)
Record Histogram := mkHistogram {
  Hist : PromHist;
  process : Result → PromHist → PromHist
}.
Definition ProcessResult (h : Histogram) (r : Result) : Histogram :=
  mkHistogram (process h r (Hist h)) (process h).

Record ResultValidator := { IsValid : Result → option Probe → Outcome bool }.

(** DefaultResultValidator *)
Definition DefaultResultValidator : ResultValidator := {|
  IsValid := λ res probe, asn ← ASNForIPVersion probe (Af res); Ret (0 <? asn)
|}.

(** ** Measurement *)

Record Measurement := mkMeasurement {
  latest : gmap Z Result;
  probes : gmap Z (option Probe);
  histograms : list Histogram;
  exporter : Exporter;
  validator : option ResultValidator;
  maxResultAge : Z
}.

Definition MeasurementOpt : Type := Measurement → Measurement.

Definition WithHistograms (h : list Histogram) : MeasurementOpt := λ r,
  mkMeasurement (latest r) (probes r) (histograms r ++ h) (exporter r) (validator r) (maxResultAge r).
Definition WithValidator (v : ResultValidator) : MeasurementOpt := λ r,
  mkMeasurement (latest r) (probes r) (histograms r) (exporter r) (Some v) (maxResultAge r).
Definition WithMaxResultAge (age : Z) : MeasurementOpt := λ r,
  mkMeasurement (latest r) (probes r) (histograms r) (exporter r) (validator r) age.

Definition NewMeasurement (e : Exporter) (opts : list MeasurementOpt) : Measurement :=
  foldl (λ r opt, opt r) (mkMeasurement ∅ ∅ [] e None 0) opts.

(** Whether the validator lets a result through; with none, all pass. *)
Definition passes (r : Measurement) (m : Result) (p : option Probe) : Outcome bool :=
  match validator r with
  | Some v => IsValid v m p
  | None => Ret true
  end.

(** The part of Add under the lock. *)
Definition store (r : Measurement) (m : Result) (p : option Probe) : Measurement :=
  mkMeasurement (<[PrbId m := m]> (latest r)) (<[PrbId m := p]> (probes r))
    ((λ h, ProcessResult h m) <$> histograms r) (exporter r) (validator r) (maxResultAge r).

(** A panic of the validator comes before any change. *)
Definition Add (r : Measurement) (m : Result) (p : option Probe) : Outcome Measurement :=
  valid ← passes r m p;
  if (valid : bool) then Ret (store r m p) else Ret r.

Definition DescribeAll (r : Measurement) : list Desc :=
  Describe (exporter r) ++ concat ((λ h, hist_Describe (Hist h)) <$> histograms r).

(** Whether a result is too old at the Unix time [now]. *)
Definition stale (r : Measurement) (now : Z) (v : Result) : bool :=
  if 0 <? maxResultAge r then
    let cutoff := sub64 now (f64_trunc (Seconds (maxResultAge r))) in
    Timestamp v <? cutoff
  else false.

(** The probe stored for a result; a missing key reads as a nil pointer. *)
Definition probe_of (r : Measurement) (v : Result) : option Probe :=
  default None (probes r !! PrbId v).

(** Go visits the map in an order of its own: [order] lists the keys as they
    are visited, and [clock i] is the Unix time read in the [i]-th turn. *)
Definition snapshot (r : Measurement) (order : list Z) : list Result :=
  omap (λ k, latest r !! k) order.

(** The results and the probes are copied under the lock; the exports run
    after it is released, so that the histograms are read in a later state
    [r'].  The exporter and the maximum age never change. *)
Definition CollectWith (r r' : Measurement) (order : list Z) (clock : nat → Z) : GoM World unit :=
  range_ (imap pair (snapshot r order)) (λ '(i, v),
    if stale r (clock i) v then mret tt
    else Export (exporter r) v (probe_of r v)) ;;
  range_ (histograms r') (λ h, range_ (hist_Collect (Hist h)) send).

(** With nothing added meanwhile. *)
Definition Collect (r : Measurement) (order : list Z) (clock : nat → Z) : GoM World unit :=
  CollectWith r r order clock.

End measurement.

Arguments World {P}.
Arguments Exporter {A P}.
Arguments Histogram {A P}.
Arguments ResultValidator {A}.
Arguments Measurement {A P}.

(** ** What exporters promise *)

Section lawful.
Context {A : AtlasAPI} {P : PromAPI}.

(** The label values a result and a probe contribute are valid. *)
Definition result_labels_ok (r : Result) : bool :=
  forallb label_ok [DstAddr r; DstName r; Proto r; Uri r] &&
  forallb (λ h, label_ok (http_DstAddr h) && label_ok (http_Method h)) (HttpResults r).

Definition probe_labels_ok (p : option Probe) : bool :=
  probe_ok p && match p with Some q => label_ok (CountryCode q) | None => false end.

(** The metrics [f] sends in [w] are appended to the channel and each is
    described in [ds]; nothing sent before is touched, even on a panic. *)
Definition sends_only (ds : list Desc) (f : GoM World unit) : Prop :=
  ∀ w, ∃ ms, sent (f w).2 = sent w ++ ms ∧ Forall (λ m, metric_Desc m ∈ ds) ms.

(** The certificate fingerprint kept between exports is printable. *)
Definition world_ok (w : World) : Prop := str_forallb printable (certFingerprint w) = true.

(** An exporter sends only metrics it describes, and with valid label values
    it ends without a panic. *)
Class LawfulExporter (e : Exporter) : Prop := {
  export_described r p : sends_only (Describe e) (Export e r p);
  export_total r p w :
    probe_labels_ok p = true → result_labels_ok r = true → world_ok w →
    (Export e r p w).1 = Ret tt ∧ world_ok (Export e r p w).2
}.

(** *** Composition *)

Lemma sends_only_mono ds ds' f : ds ⊆ ds' → sends_only ds f → sends_only ds' f.
Proof.
  intros Hd Hf w. destruct (Hf w) as (ms & Hs & Hm). exists ms. split; [done|].
  eapply Forall_impl; [exact Hm|]. set_solver.
Qed.

Lemma sends_only_ret ds : sends_only ds (mret tt).
Proof. intros w. exists []. rewrite app_nil_r. by split. Qed.

Lemma sends_only_bind ds f g : sends_only ds f → sends_only ds g → sends_only ds (f ;; g).
Proof.
  intros Hf Hg w. unfold mbind, GoM_bind.
  destruct (Hf w) as (ms & Hs & Hm). destruct (f w) as [[u|e] w'] eqn:E; simpl in *.
  - destruct (Hg w') as (ms' & Hs' & Hm'). exists (ms ++ ms').
    rewrite Hs', Hs, app_assoc. split; [done|]. by apply Forall_app.
  - eauto.
Qed.

(** A computation that reads no channel and sends nothing can come first. *)
Lemma sends_only_lift {B} ds (o : Outcome B) (g : B → GoM World unit) :
  (∀ b, o = Ret b → sends_only ds (g b)) → sends_only ds (x ← lift o; g x).
Proof.
  intros Hg w. unfold mbind, GoM_bind, lift. destruct o as [b|e].
  - by apply Hg.
  - exists []. by rewrite app_nil_r.
Qed.

Lemma sends_only_get ds (g : World → GoM World unit) :
  (∀ w, sends_only ds (g w)) → sends_only ds (w ← get; g w).
Proof. intros Hg w. apply (Hg w w). Qed.

Lemma sends_only_range {B} ds (l : list B) f :
  (∀ x, x ∈ l → sends_only ds (f x)) → sends_only ds (range_ l f).
Proof.
  induction l as [|x l IH]; intros Hf; [apply sends_only_ret|].
  apply sends_only_bind; [apply Hf; left|]. apply IH. intros y Hy. apply Hf. by right.
Qed.

Lemma sends_only_send ds m : metric_Desc m ∈ ds → sends_only ds (send m).
Proof. intros Hm w. exists [m]. split; [done|]. by repeat constructor. Qed.

Lemma sends_only_const `{!PromLaws} ds d vt v lvs :
  d ∈ ds → sends_only ds (send_const d vt v lvs).
Proof.
  intros Hd. unfold send_const. apply sends_only_lift. intros m Hm.
  apply sends_only_send. enough (m = const_metric d vt v lvs) as -> by (by rewrite metric_desc_const).
  destruct (decide (length lvs = length (variableLabels d))) as [Hl|Hl].
  - destruct (forallb label_ok lvs) eqn:Ho.
    + rewrite must_const_ok in Hm by done. by simplify_eq.
    + destruct (must_const_bad d vt v lvs) as [msg E]; [by right|congruence].
  - destruct (must_const_bad d vt v lvs) as [msg E]; [by left|congruence].
Qed.

Lemma send_const_run `{!PromLaws} d vt v lvs w :
  length lvs = length (variableLabels d) → forallb label_ok lvs = true →
  send_const d vt v lvs w =
    (Ret tt, mkWorld (certFingerprint w) (sent w ++ [const_metric d vt v lvs])).
Proof.
  intros Hl Ho. unfold send_const.
  erewrite bind_run by (unfold lift; by rewrite must_const_ok). done.
Qed.

End lawful.

#[export] Hint Resolve sends_only_ret sends_only_bind sends_only_const sends_only_send : atlas.

(** ** Support for the measurement packages *)

Section support.
Context {A : AtlasAPI} {P : PromAPI}.

(** The sample a description and a value stand for, with its label values. *)
Definition gauges (lvs : list string) (samples : list (Desc * float64)) : list Metric :=
  (λ dv, const_metric dv.1 GaugeValue dv.2 lvs) <$> samples.

(** What the label values of a good probe are made of. *)
Lemma probe_labels `{!PromLaws} p v :
  probe_labels_ok p = true →
  ∃ q asn lat lon, p = Some q ∧ ASNForIPVersion p v = Ret asn ∧
    Latitude p = Ret lat ∧ Longitude p = Ret lon ∧
    forallb label_ok [Itoa (ID q); Itoa asn; CountryCode q; lat; lon] = true.
Proof.
  unfold probe_labels_ok. intros [Hp Hc]%andb_true_iff.
  destruct (ASN_ret p v Hp) as [asn Ha]. destruct (Latitude_ret p Hp) as (lat & Hlat & Hlat').
  destruct (Longitude_ret p Hp) as (lon & Hlon & Hlon'). destruct p as [q|]; [|done].
  exists q, asn, lat, lon. do 4 (split; [done|]). simpl. rewrite Hc.
  by rewrite !label_ok_printable by auto with atlas.
Qed.

Lemma send_const_bind `{!PromLaws} {B} d vt v lvs w (k : unit → GoM World B) :
  length lvs = length (variableLabels d) → forallb label_ok lvs = true →
  (send_const d vt v lvs ≫= k) w =
    k tt (mkWorld (certFingerprint w) (sent w ++ [const_metric d vt v lvs])).
Proof. intros. apply bind_run. by apply send_const_run. Qed.

End support.

(** Run the calls [lift o] whose outcome is known, then the sends. *)
Ltac run_lift :=
  repeat (erewrite bind_run by (unfold lift; first [reflexivity | match goal with H : _ = Ret _ |- _ => rewrite H; reflexivity end])).
Ltac run_sends Hn Ho :=
  repeat (rewrite ?bind_assoc_run;
          first [rewrite send_const_bind by (exact Hn || exact Ho)
                |rewrite send_const_run by (exact Hn || exact Ho)]);
  unfold gauges; simpl; by rewrite <-?app_assoc.

(** A list of label values is valid because each of its parts is. *)
Ltac solve_labels :=
  simpl in *; rewrite ?andb_true_iff in *; destruct_and?;
  repeat match goal with |- _ ∧ _ => split end;
  solve [done | assumption | apply label_ok_printable; auto with atlas].

(** Everything an Export sends is in the list of Describe. *)
Ltac solve_described :=
  repeat first
    [ apply sends_only_const; solve [repeat first [left | right]]
    | apply sends_only_lift; intros ? _
    | apply sends_only_bind
    | apply sends_only_ret
    | apply sends_only_range; intros ? _
    | case_match ].

(** ** Sequences of additions *)

Section sequences.
Context {A : AtlasAPI} {P : PromAPI}.

(** Calls of Add one after the other; a panic ends the sequence. *)
Fixpoint AddAll (r : Measurement) (l : list (Result * option Probe)) : Outcome Measurement :=
  match l with
  | [] => Ret r
  | (m, p) :: l' => r' ← Add r m p; AddAll r' l'
  end.

Definition accepted (r : Measurement) (mp : Result * option Probe) : Prop :=
  passes r mp.1 mp.2 = Ret true.
#[export] Instance accepted_dec r mp : Decision (accepted r mp).
Proof. unfold accepted. apply _. Defined.

Definition storeAll (r : Measurement) (l : list (Result * option Probe)) : Measurement :=
  foldl (λ r mp, store r mp.1 mp.2) r l.

(** Adding stores what the validator accepts and nothing else. *)
Lemma AddAll_storeAll r l r' :
  AddAll r l = Ret r' → r' = storeAll r (filter (accepted r) l).
Proof.
  revert r. induction l as [|[m p] l IH]; intros r H; [by simplify_eq/=|].
  cbn [AddAll] in H. unfold Add in H.
  destruct (passes r m p) as [[]|e] eqn:E; simpl in H; [..|done].
  - apply IH in H as ->. by rewrite filter_cons_True.
  - rewrite filter_cons_False by (unfold accepted; simpl; congruence). by apply IH.
Qed.

Lemma storeAll_fields r l :
  exporter (storeAll r l) = exporter r ∧ validator (storeAll r l) = validator r ∧
  maxResultAge (storeAll r l) = maxResultAge r.
Proof. revert r. induction l as [|mp l IH]; intros r; [done|]. apply (IH (store r mp.1 mp.2)). Qed.

(** The entry of a key is the last stored pair with that probe id. *)
Lemma storeAll_lookup r l k :
  latest (storeAll r l) !! k =
    match last (filter (λ mp : Result * option Probe, PrbId mp.1 = k) l) with
    | Some mp => Some mp.1
    | None => latest r !! k
    end ∧
  probes (storeAll r l) !! k =
    match last (filter (λ mp : Result * option Probe, PrbId mp.1 = k) l) with
    | Some mp => Some mp.2
    | None => probes r !! k
    end.
Proof.
  revert r. induction l as [|[m p] l IH] using rev_ind; intros r; [done|].
  unfold storeAll. rewrite foldl_snoc, filter_app. fold (storeAll r l).
  destruct (IH r) as [IH1 IH2]. simpl.
  rewrite !lookup_insert. destruct (decide (PrbId m = k)) as [Hk|Hk].
  - rewrite filter_cons_True, filter_nil by done. by rewrite last_snoc.
  - rewrite filter_cons_False, filter_nil by done. by rewrite app_nil_r, IH1, IH2.
Qed.

Lemma storeAll_histograms r l :
  histograms (storeAll r l) =
    (λ h, foldl (λ h mp, ProcessResult h mp.1) h l) <$> histograms r.
Proof.
  revert r. induction l as [|[m p] l IH]; intros r; simpl.
  - by rewrite list_fmap_id.
  - rewrite IH. simpl. by rewrite <-list_fmap_compose.
Qed.

(** ** The invariant *)

(** Results and probes have the same keys, and a result is kept under its
    probe's identifier. *)
Definition wf (r : Measurement) : Prop :=
  (∀ k, is_Some (latest r !! k) ↔ is_Some (probes r !! k)) ∧
  (∀ k v, latest r !! k = Some v → PrbId v = k).

Lemma wf_store r m p : wf r → wf (store r m p).
Proof.
  intros [Hd Hk]. split; intros k; simpl; rewrite !lookup_insert; case_decide; subst; auto.
  - split; intros _; by eexists.
  - by intros v [= <-].
Qed.

Lemma wf_Add r m p r' : wf r → Add r m p = Ret r' → wf r'.
Proof.
  intros Hr. unfold Add. destruct (passes r m p) as [[]|]; simpl; intros; simplify_eq; auto using wf_store.
Qed.

(** An option touches neither map: the options of a new measurement leave
    it empty. *)
Definition empty_maps (r : Measurement) : Prop := latest r = ∅ ∧ probes r = ∅.

Lemma wf_empty r : empty_maps r → wf r.
Proof.
  intros [H1 H2]. split; intros k; rewrite ?H1, ?H2, ?lookup_empty; [|done].
  split; by intros [? ?].
Qed.

(** ** Snapshots *)

Lemma elem_of_snapshot r order v :
  wf r → order ≡ₚ (map_to_list (latest r)).*1 →
  v ∈ snapshot r order ↔ latest r !! PrbId v = Some v.
Proof.
  intros [_ Hk] Ho. unfold snapshot. rewrite list_elem_of_omap. split.
  - intros (k & _ & Hv). by rewrite (Hk _ _ Hv).
  - intros Hv. exists (PrbId v). split; [|done]. rewrite Ho, list_elem_of_fmap.
    exists (PrbId v, v). split; [done|]. by apply elem_of_map_to_list.
Qed.

Lemma NoDup_snapshot r order :
  wf r → order ≡ₚ (map_to_list (latest r)).*1 → NoDup (PrbId <$> snapshot r order).
Proof.
  intros [_ Hk] Ho.
  assert (NoDup order) as Hnd by (rewrite Ho; apply NoDup_fst_map_to_list). clear Ho.
  induction order as [|k order IH]; [by apply NoDup_nil|].
  apply NoDup_cons in Hnd as [Hk' Hnd]. unfold snapshot. cbn [omap list_omap].
  destruct (latest r !! k) as [v|] eqn:E; [|by apply IH].
  rewrite fmap_cons, (Hk _ _ E). apply NoDup_cons. split; [|by apply IH].
  intros (v' & Hv' & (k' & Hk'' & E')%list_elem_of_omap)%list_elem_of_fmap.
  destruct Hk'. rewrite Hv', (Hk _ _ E'). done.
Qed.

(** The results a collection exports, with the turn each was reached in. *)
Definition exported (r : Measurement) (order : list Z) (clock : nat → Z) : list (nat * Result) :=
  filter (λ iv : nat * Result, stale r (clock iv.1) iv.2 = false) (imap pair (snapshot r order)).

(** Skipping the stale results inside the loop is looping over the others. *)
Lemma Collect_loop r (l : list (nat * Result)) clock w :
  range_ l (λ '(i, v), if stale r (clock i) v then mret tt
                       else Export (exporter r) v (probe_of r v)) w =
  range_ (filter (λ iv : nat * Result, stale r (clock iv.1) iv.2 = false) l)
         (λ iv, Export (exporter r) iv.2 (probe_of r iv.2)) w.
Proof.
  revert w. induction l as [|[i v] l IH]; intros w; [done|]. cbn [range_].
  destruct (stale r (clock i) v) eqn:E.
  - rewrite filter_cons_False by (simpl; congruence). apply IH.
  - rewrite filter_cons_True by done. cbn [range_]. unfold mbind, GoM_bind.
    destruct (Export _ _ _ w) as [[[]|e] w']; [apply IH|done].
Qed.

Lemma stale_seconds r k now v :
  maxResultAge r = k * Second → 0 <= k < 2 ^ 34 → 0 <= now < 2 ^ 62 →
  stale r now v = (0 <? k) && (Timestamp v <? now - k).
Proof.
  intros Ha Hk Hn. unfold stale. rewrite Ha.
  assert ((0 <? k * Second) = (0 <? k)) as ->.
  { unfold Second. destruct (Z.ltb_spec 0 (k * 1000000000)), (Z.ltb_spec 0 k); lia. }
  rewrite Seconds_whole by lia. unfold sub64. rewrite wrap64_id by (unfold int64_ok, two63; lia).
  by destruct (0 <? k).
Qed.

End sequences.
