(* ===== verification/Ping.v ===== *)
(** * Package ping *)

From S2P Require Import Prelude GoInt GoFloat GoStrings Apis Probe Config Measurement.
Open Scope Z_scope.

Section ping.
Context {A : AtlasAPI} {P : PromAPI}.

Definition ns : string := "atlas".
Definition sub : string := "ping".

Definition labels : list string :=
  ["measurement"; "probe"; "dst_addr"; "dst_name"; "asn"; "ip_version"; "country_code"; "lat"; "long"].

Definition successDesc := NewDesc (BuildFQName ns sub "success") "Destination was reachable" labels [].
Definition minLatencyDesc := NewDesc (BuildFQName ns sub "min_latency") "Minimum latency" labels [].
Definition maxLatencyDesc := NewDesc (BuildFQName ns sub "max_latency") "Maximum latency" labels [].
Definition avgLatencyDesc := NewDesc (BuildFQName ns sub "avg_latency") "Average latency" labels [].
Definition sentDesc := NewDesc (BuildFQName ns sub "sent") "Number of sent icmp requests" labels [].
Definition rcvdDesc := NewDesc (BuildFQName ns sub "received") "Number of received icmp repsponses" labels [].
Definition dupDesc := NewDesc (BuildFQName ns sub "dup") "Number of duplicate icmp repsponses" labels [].
Definition ttlDesc := NewDesc (BuildFQName ns sub "ttl") "Time-to-live field in the response" labels [].
Definition sizeDesc := NewDesc (BuildFQName ns sub "size") "Size of ICMP packet" labels [].

Definition labelValues (id : string) (res : Result) (probe : option Probe) : Outcome (list string) :=
  p ← deref probe;
  asn ← ASNForIPVersion probe (Af res);
  lat ← Latitude probe;
  lon ← Longitude probe;
  Ret [id; Itoa (ID p); DstAddr res; DstName res; Itoa asn; Itoa (Af res); CountryCode p; lat; lon].

Definition Export (id : string) (res : Result) (probe : option Probe) : GoM World unit :=
  lvs ← lift (labelValues id res probe);
  (if f64_pos (Min res) then
     send_const successDesc GaugeValue (f64_of_int 1) lvs ;;
     send_const minLatencyDesc GaugeValue (Min res) lvs ;;
     send_const maxLatencyDesc GaugeValue (Max res) lvs ;;
     send_const avgLatencyDesc GaugeValue (Avg res) lvs
   else
     send_const successDesc GaugeValue (f64_of_int 0) lvs) ;;
  send_const sentDesc GaugeValue (f64_of_int (Sent res)) lvs ;;
  send_const rcvdDesc GaugeValue (f64_of_int (Rcvd res)) lvs ;;
  send_const dupDesc GaugeValue (f64_of_int (Dup res)) lvs ;;
  send_const ttlDesc GaugeValue (f64_of_int (Ttl res)) lvs ;;
  send_const sizeDesc GaugeValue (f64_of_int (Size res)) lvs.

Definition Describe : list Desc :=
  [successDesc; minLatencyDesc; maxLatencyDesc; avgLatencyDesc; sentDesc; rcvdDesc; dupDesc; ttlDesc; sizeDesc].

Definition pingExporter (id : string) : Exporter :=
  {| Measurement.Export := Export id; Measurement.Describe := Describe |}.

(** ** The histogram *)

Record rttHistogram := { rtt : PromHist }.
Definition Hist (h : rttHistogram) : PromHist := rtt h.

Definition ProcessResult (r : Result) (h : PromHist) : PromHist :=
  foldl (λ h p, if f64_pos (ping_Rtt p) then Observe (ping_Rtt p) h else h) h (PingResults r).

(** [buckets] is [None] for a nil slice. *)
Definition newRttHistogram (id ipVersion : string) (buckets : option (list float64)) : Outcome Histogram :=
  let buckets := default (f64_of_int <$> [10; 20; 50; 100]) buckets in
  h ← NewHistogram {|
    Namespace := ns; Subsystem := sub; Name := "rtt_hist"; Buckets := buckets;
    Help := "Histogram of round trip times over all ICMP requests";
    ConstLabels := [("measurement", id); ("ip_version", ipVersion)] |};
  Ret (mkHistogram (Hist {| rtt := h |}) ProcessResult).

Definition NewMeasurement (id ipVersion : string) (cfg : Config) : Outcome Measurement :=
  h ← newRttHistogram id ipVersion (Rtt (HB_Ping (cfg_HistogramBuckets cfg)));
  let opts := [WithHistograms [h]] in
  let opts := if FilterInvalidResults cfg then opts ++ [WithValidator DefaultResultValidator] else opts in
  let opts := if 0 <? MaxResultAge cfg then opts ++ [WithMaxResultAge (MaxResultAge cfg)] else opts in
  Ret (Measurement.NewMeasurement (pingExporter id) opts).

(** ** Lemmas *)

Lemma ping_labelValues_ok `{!PromLaws} id res p :
  label_ok id = true → probe_labels_ok p = true → result_labels_ok res = true →
  ∃ lvs, labelValues id res p = Ret lvs ∧ length lvs = length labels ∧
         forallb label_ok lvs = true.
Proof.
  intros Hid Hp [Hr _]%andb_true_iff.
  destruct (probe_labels p (Af res) Hp) as (q & asn & lat & lon & -> & Ha & Hlat & Hlon & Hl).
  unfold labelValues. simpl. rewrite Ha, Hlat, Hlon. eexists. split; [done|]. split; [done|].
  solve_labels.
Qed.

(** The samples of a result: the success flag, the latencies of a reachable
    destination, and the packet counters. *)
Definition samples (res : Result) : list (Desc * float64) :=
  (if f64_pos (Min res)
   then [(successDesc, f64_of_int 1); (minLatencyDesc, Min res);
         (maxLatencyDesc, Max res); (avgLatencyDesc, Avg res)]
   else [(successDesc, f64_of_int 0)]) ++
  [(sentDesc, f64_of_int (Sent res)); (rcvdDesc, f64_of_int (Rcvd res));
   (dupDesc, f64_of_int (Dup res)); (ttlDesc, f64_of_int (Ttl res));
   (sizeDesc, f64_of_int (Size res))].

Lemma ping_Export_run `{!PromLaws} id res p w :
  label_ok id = true → probe_labels_ok p = true → result_labels_ok res = true →
  ∃ lvs, labelValues id res p = Ret lvs ∧
    Export id res p w =
      (Ret tt, mkWorld (certFingerprint w) (sent w ++ gauges lvs (samples res))).
Proof.
  intros Hid Hp Hr. destruct (ping_labelValues_ok id res p Hid Hp Hr) as (lvs & Hl & Hn & Ho).
  exists lvs. split; [done|]. unfold Export, samples. run_lift.
  case_match; run_sends Hn Ho.
Qed.

#[export] Instance pingExporter_lawful `{!PromLaws} id (Hid : label_ok id = true) :
  LawfulExporter (pingExporter id).
Proof.
  split; simpl.
  - intros r p. unfold Export. solve_described.
  - intros r p w Hp Hr Hw. by destruct (ping_Export_run id r p w Hid Hp Hr) as (lvs & _ & ->).
Qed.

End ping.
