(* ===== verification/Traceroute.v ===== *)
(** * Package traceroute *)

From S2P Require Import Prelude GoInt GoFloat GoStrings Apis Probe Config Measurement.
Open Scope Z_scope.

Section traceroute.
Context {A : AtlasAPI} {P : PromAPI}.

Definition ns : string := "atlas".
Definition sub : string := "traceroute".

Definition labels : list string :=
  ["measurement"; "probe"; "dst_addr"; "dst_name"; "asn"; "ip_version"; "protocol"; "country_code"; "lat"; "long"].

Definition successDesc := NewDesc (BuildFQName ns sub "success") "Destination was reachable" labels [].
Definition hopDesc := NewDesc (BuildFQName ns sub "hops") "Number of hops" labels [].
Definition rttDesc := NewDesc (BuildFQName ns sub "rtt") "Round trip time in ms" labels [].

(** The loop over the replies of the last hop sets the success flag on a
    reply from the destination and the round trip time, in every turn, to
    that of the last reply. *)
Definition processLastHop (r : Result) : float64 * float64 :=
  match last (TracerouteResults r) with
  | None => (f64_zero, f64_zero)
  | Some hop =>
      foldl (λ '(success, rtt) rep,
        let success := if bool_decide (From_ rep = DstAddr r) then f64_of_int 1 else success in
        let rtt := match last (Replies hop) with Some l => hop_Rtt l | None => rtt end in
        (success, rtt)) (f64_zero, f64_zero) (Replies hop)
  end.

Definition labelValues (id : string) (res : Result) (probe : option Probe) : Outcome (list string) :=
  p ← deref probe;
  asn ← ASNForIPVersion probe (Af res);
  lat ← Latitude probe;
  lon ← Longitude probe;
  Ret [id; Itoa (ID p); DstAddr res; DstName res; Itoa asn; Itoa (Af res); Proto res; CountryCode p; lat; lon].

Definition Export (id : string) (res : Result) (probe : option Probe) : GoM World unit :=
  lvs ← lift (labelValues id res probe);
  let '(success, rtt) := processLastHop res in
  let hops := f64_of_int (Z.of_nat (length (TracerouteResults res))) in
  send_const successDesc GaugeValue success lvs ;;
  send_const hopDesc GaugeValue hops lvs ;;
  if f64_pos rtt then send_const rttDesc GaugeValue rtt lvs else mret tt.

Definition Describe : list Desc := [successDesc; hopDesc; rttDesc].

Definition tracerouteExporter (id : string) : Exporter :=
  {| Measurement.Export := Export id; Measurement.Describe := Describe |}.

(** result_validator.go: the second test runs only if the first holds. *)
Definition tracerouteResultValidator : ResultValidator := {|
  IsValid := λ res probe,
    asn ← ASNForIPVersion probe (Af res);
    Ret ((0 <? asn) && (1 <? Z.of_nat (length (TracerouteResults res))))
|}.

(** rtt_histogram.go *)
Record rttHistogram := { rtt : PromHist }.
Definition Hist (h : rttHistogram) : PromHist := rtt h.

Definition ProcessResult (r : Result) (h : PromHist) : PromHist :=
  let '(success, rtt) := processLastHop r in
  if SFeqb success (f64_of_int 1) && f64_pos rtt then Observe rtt h else h.

Definition newRttHistogram (id ipVersion : string) (buckets : option (list float64)) : Outcome Histogram :=
  let buckets := default (f64_of_int <$> [10; 20; 50; 100]) buckets in
  h ← NewHistogram {|
    Namespace := ns; Subsystem := sub; Name := "rtt_hist"; Buckets := buckets;
    Help := "Histogram of round trip times over all traceroute requests";
    ConstLabels := [("measurement", id); ("ip_version", ipVersion)] |};
  Ret (mkHistogram (Hist {| rtt := h |}) ProcessResult).

Definition NewMeasurement (id ipVersion : string) (cfg : Config) : Outcome Measurement :=
  h ← newRttHistogram id ipVersion (Rtt (HB_Traceroute (cfg_HistogramBuckets cfg)));
  let opts := [WithHistograms [h]] in
  let opts := if FilterInvalidResults cfg then opts ++ [WithValidator tracerouteResultValidator] else opts in
  let opts := if 0 <? MaxResultAge cfg then opts ++ [WithMaxResultAge (MaxResultAge cfg)] else opts in
  Ret (Measurement.NewMeasurement (tracerouteExporter id) opts).

(** ** Lemmas *)

(** What the loop computes: whether some reply of the last hop comes from the
    destination, and the time of the last reply of the last hop. *)
Lemma processLastHop_eq r :
  processLastHop r =
    match last (TracerouteResults r) with
    | None => (f64_zero, f64_zero)
    | Some hop =>
        (if existsb (λ rep, bool_decide (From_ rep = DstAddr r)) (Replies hop)
         then f64_of_int 1 else f64_zero,
         match last (Replies hop) with Some l => hop_Rtt l | None => f64_zero end)
    end.
Proof.
  unfold processLastHop. destruct (last (TracerouteResults r)) as [hop|]; [|done].
  set (t := last (Replies hop)).
  assert (∀ l s x, foldl (λ '(success, rtt) rep,
      let success := if bool_decide (From_ rep = DstAddr r) then f64_of_int 1 else success in
      let rtt := match t with Some l => hop_Rtt l | None => rtt end in
      (success, rtt)) (s, x) l =
    (if existsb (λ rep, bool_decide (From_ rep = DstAddr r)) l then f64_of_int 1 else s,
     match l, t with _ :: _, Some z => hop_Rtt z | _, _ => x end)) as Hgo.
  { induction l as [|rep l IH]; intros s x; [done|]. cbn [foldl]. rewrite IH. cbn [existsb].
    destruct (bool_decide _); simpl; [|by destruct l, t].
    f_equal; [by destruct (existsb _ l)|by destruct l, t]. }
  rewrite Hgo. f_equal. subst t. destruct (Replies hop); done.
Qed.

Lemma traceroute_labelValues_ok `{!PromLaws} id res p :
  label_ok id = true → probe_labels_ok p = true → result_labels_ok res = true →
  ∃ lvs, labelValues id res p = Ret lvs ∧ length lvs = length labels ∧
         forallb label_ok lvs = true.
Proof.
  intros Hid Hp [Hr _]%andb_true_iff.
  destruct (probe_labels p (Af res) Hp) as (q & asn & lat & lon & -> & Ha & Hlat & Hlon & Hl).
  unfold labelValues. simpl. rewrite Ha, Hlat, Hlon. eexists. split; [done|]. split; [done|].
  solve_labels.
Qed.

Definition samples (res : Result) : list (Desc * float64) :=
  let '(success, rtt) := processLastHop res in
  [(successDesc, success); (hopDesc, f64_of_int (Z.of_nat (length (TracerouteResults res))))] ++
  if f64_pos rtt then [(rttDesc, rtt)] else [].

Lemma traceroute_Export_run `{!PromLaws} id res p w :
  label_ok id = true → probe_labels_ok p = true → result_labels_ok res = true →
  ∃ lvs, labelValues id res p = Ret lvs ∧
    Export id res p w =
      (Ret tt, mkWorld (certFingerprint w) (sent w ++ gauges lvs (samples res))).
Proof.
  intros Hid Hp Hr. destruct (traceroute_labelValues_ok id res p Hid Hp Hr) as (lvs & Hl & Hn & Ho).
  exists lvs. split; [done|]. unfold Export, samples. run_lift.
  destruct (processLastHop res) as [success rtt].
  case_match; run_sends Hn Ho.
Qed.

#[export] Instance tracerouteExporter_lawful `{!PromLaws} id (Hid : label_ok id = true) :
  LawfulExporter (tracerouteExporter id).
Proof.
  split; simpl.
  - intros r p. unfold Export. solve_described.
  - intros r p w Hp Hr Hw. by destruct (traceroute_Export_run id r p w Hid Hp Hr) as (lvs & _ & ->).
Qed.

End traceroute.
