(* ===== verification/Ntp.v ===== *)
(** * Package ntp *)

From S2P Require Import Prelude GoInt GoFloat GoStrings Apis Probe Config Measurement.
Open Scope Z_scope.

Section ntp.
Context {A : AtlasAPI} {P : PromAPI}.

Definition ns : string := "atlas".
Definition sub : string := "ntp".

Definition labels : list string :=
  ["measurement"; "probe"; "dst_addr"; "dst_name"; "asn"; "ip_version"; "country_code"; "lat"; "long"].

Definition pollDesc := NewDesc (BuildFQName ns sub "poll") "Poll" labels [].
Definition precisionDesc := NewDesc (BuildFQName ns sub "precision") "Precision" labels [].
Definition roolDelayDesc := NewDesc (BuildFQName ns sub "root_delay") "Root delay" labels [].
Definition rootDispersionDesc := NewDesc (BuildFQName ns sub "root_dispersion") "Root dispersion" labels [].
Definition ntpVersionDesc := NewDesc (BuildFQName ns sub "ntp_version") "NTP Version" labels [].

Definition labelValues (id : string) (res : Result) (probe : option Probe) : Outcome (list string) :=
  p ← deref probe;
  asn ← ASNForIPVersion probe (Af res);
  lat ← Latitude probe;
  lon ← Longitude probe;
  Ret [id; Itoa (ID p); DstAddr res; DstName res; Itoa asn; Itoa (Af res); CountryCode p; lat; lon].

Definition Export (id : string) (res : Result) (probe : option Probe) : GoM World unit :=
  lvs ← lift (labelValues id res probe);
  send_const pollDesc GaugeValue (Poll res) lvs ;;
  send_const precisionDesc GaugeValue (Precision res) lvs ;;
  send_const roolDelayDesc GaugeValue (RootDelay res) lvs ;;
  send_const rootDispersionDesc GaugeValue (RootDispersion res) lvs ;;
  send_const ntpVersionDesc GaugeValue (f64_of_int (Version res)) lvs.

Definition Describe : list Desc :=
  [pollDesc; precisionDesc; roolDelayDesc; rootDispersionDesc; ntpVersionDesc].

Definition ntpExporter (id : string) : Exporter :=
  {| Measurement.Export := Export id; Measurement.Describe := Describe |}.

Definition NewMeasurement (id : string) (cfg : Config) : Outcome Measurement :=
  let opts := [] in
  let opts := if FilterInvalidResults cfg then opts ++ [WithValidator DefaultResultValidator] else opts in
  let opts := if 0 <? MaxResultAge cfg then opts ++ [WithMaxResultAge (MaxResultAge cfg)] else opts in
  Ret (Measurement.NewMeasurement (ntpExporter id) opts).

(** ** Lemmas *)

Lemma ntp_labelValues_ok `{!PromLaws} id res p :
  label_ok id = true → probe_labels_ok p = true → result_labels_ok res = true →
  ∃ lvs, labelValues id res p = Ret lvs ∧ length lvs = length labels ∧
         forallb label_ok lvs = true.
Proof.
  intros Hid Hp [Hr _]%andb_true_iff.
  destruct (probe_labels p (Af res) Hp) as (q & asn & lat & lon & -> & Ha & Hlat & Hlon & Hl).
  unfold labelValues. simpl. rewrite Ha, Hlat, Hlon. eexists. split; [done|]. split; [done|].
  solve_labels.
Qed.

Definition samples (res : Result) : list (Desc * float64) :=
  [(pollDesc, Poll res); (precisionDesc, Precision res); (roolDelayDesc, RootDelay res);
   (rootDispersionDesc, RootDispersion res); (ntpVersionDesc, f64_of_int (Version res))].

Lemma ntp_Export_run `{!PromLaws} id res p w :
  label_ok id = true → probe_labels_ok p = true → result_labels_ok res = true →
  ∃ lvs, labelValues id res p = Ret lvs ∧
    Export id res p w =
      (Ret tt, mkWorld (certFingerprint w) (sent w ++ gauges lvs (samples res))).
Proof.
  intros Hid Hp Hr. destruct (ntp_labelValues_ok id res p Hid Hp Hr) as (lvs & Hl & Hn & Ho).
  exists lvs. split; [done|]. unfold Export, samples. run_lift. run_sends Hn Ho.
Qed.

#[export] Instance ntpExporter_lawful `{!PromLaws} id (Hid : label_ok id = true) :
  LawfulExporter (ntpExporter id).
Proof.
  split; simpl.
  - intros r p. unfold Export. solve_described.
  - intros r p w Hp Hr Hw. by destruct (ntp_Export_run id r p w Hid Hp Hr) as (lvs & _ & ->).
Qed.

End ntp.
