(* ===== verification/Dns.v ===== *)
(** * Package dns *)

From S2P Require Import Prelude GoInt GoFloat GoStrings Apis Probe Config Measurement.
Open Scope Z_scope.

Section dns.
Context {A : AtlasAPI} {P : PromAPI}.

Definition ns : string := "atlas".
Definition sub : string := "dns".

Definition labels : list string :=
  ["measurement"; "probe"; "dst_addr"; "asn"; "ip_version"; "country_code"; "lat"; "long"; "nsid"].

Definition successDesc := NewDesc (BuildFQName ns sub "success") "Destination was reachable" labels [].
Definition rttDesc := NewDesc (BuildFQName ns sub "rtt") "Roundtrip time in ms" labels [].

(** ** NSID *)

Definition isASCIIPrintable (data : string) : bool :=
  str_forallb (λ b, negb ((code b <? 32) || (126 <? code b))) data.

(** The loop over the options of the OPT record: the first NSID option whose
    text is hexadecimal decides. *)
Fixpoint nsid_of_options (opts : list Edns0) : string :=
  match opts with
  | [] => ""
  | o :: opts' =>
      match as_NSID o with
      | Some nsid =>
          match DecodeString nsid with
          | Some raw => if isASCIIPrintable raw then raw else EncodeToString raw
          | None => nsid_of_options opts'
          end
      | None => nsid_of_options opts'
      end
  end.

Definition extractNsid (result : DnsReply) : string :=
  match UnpackAbuf result with
  | Err _ => ""
  | Ok None => ""
  | Ok (Some msg) =>
      match IsEdns0 msg with
      | Some opt => nsid_of_options (opt_Option opt)
      | None => ""
      end
  end.

(** ** The exporter *)

Record dnsExporter := { id : string; nsidEnabled : bool }.

Definition nsid_label (m : dnsExporter) (res : Result) : string :=
  match nsidEnabled m, DnsResult res with
  | true, Some d => extractNsid d
  | _, _ => ""
  end.

Definition labelValues (m : dnsExporter) (res : Result) (probe : option Probe) : Outcome (list string) :=
  let nsid := nsid_label m res in
  p ← deref probe;
  asn ← ASNForIPVersion probe (Af res);
  lat ← Latitude probe;
  lon ← Longitude probe;
  Ret [id m; Itoa (ID p); DstAddr res; Itoa asn; Itoa (Af res); CountryCode p; lat; lon; nsid].

Definition Export (m : dnsExporter) (res : Result) (probe : option Probe) : GoM World unit :=
  lvs ← lift (labelValues m res probe);
  let rtt := match DnsResult res with Some d => dns_Rt d | None => f64_zero end in
  if f64_pos rtt then
    send_const successDesc GaugeValue (f64_of_int 1) lvs ;;
    send_const rttDesc GaugeValue rtt lvs
  else
    send_const successDesc GaugeValue (f64_of_int 0) lvs.

Definition Describe : list Desc := [successDesc; rttDesc].

Definition newExporter (m : dnsExporter) : Exporter :=
  {| Measurement.Export := Export m; Measurement.Describe := Describe |}.

(** ** The histogram *)

Record rttHistogram := { rtt : PromHist }.
Definition Hist (h : rttHistogram) : PromHist := rtt h.

Definition ProcessResult (r : Result) (h : PromHist) : PromHist :=
  match DnsResult r with
  | None => h
  | Some d => if f64_pos (dns_Rt d) then Observe (dns_Rt d) h else h
  end.

Definition newRttHistogram (id ipVersion : string) (buckets : option (list float64)) : Outcome Histogram :=
  let buckets := default (f64_of_int <$> [10; 20; 50; 100]) buckets in
  h ← NewHistogram {|
    Namespace := ns; Subsystem := sub; Name := "rtt_hist"; Buckets := buckets;
    Help := "Histogram of round trip times over all DNS requests";
    ConstLabels := [("measurement", id); ("ip_version", ipVersion)] |};
  Ret (mkHistogram (Hist {| rtt := h |}) ProcessResult).

Definition NewMeasurement (id ipVersion : string) (cfg : Config) : Outcome Measurement :=
  h ← newRttHistogram id ipVersion (Rtt (HB_DNS (cfg_HistogramBuckets cfg)));
  let opts := [WithHistograms [h]] in
  let opts := if FilterInvalidResults cfg then opts ++ [WithValidator DefaultResultValidator] else opts in
  let opts := if 0 <? MaxResultAge cfg then opts ++ [WithMaxResultAge (MaxResultAge cfg)] else opts in
  Ret (Measurement.NewMeasurement (newExporter {| id := id; nsidEnabled := DNS_NSIDEnabled cfg |}) opts).

(** ** Lemmas *)

Lemma isASCIIPrintable_printable s : isASCIIPrintable s = str_forallb printable s.
Proof.
  unfold isASCIIPrintable. induction s as [|c s IH]; [done|]. simpl. rewrite IH. f_equal.
  unfold printable. destruct (Z.ltb_spec (code c) 32), (Z.leb_spec 32 (code c)),
    (Z.ltb_spec 126 (code c)), (Z.leb_spec (code c) 126); done || lia.
Qed.

Lemma nsid_of_options_printable opts : str_forallb printable (nsid_of_options opts) = true.
Proof.
  induction opts as [|o opts IH]; [done|]. simpl. repeat case_match; try done.
  - by rewrite <-isASCIIPrintable_printable.
  - apply EncodeToString_printable.
Qed.

Lemma nsid_label_printable m res : str_forallb printable (nsid_label m res) = true.
Proof.
  unfold nsid_label, extractNsid. repeat case_match; try done. apply nsid_of_options_printable.
Qed.
#[local] Hint Resolve nsid_label_printable : atlas.

Lemma dns_labelValues_ok `{!PromLaws} m res p :
  label_ok (id m) = true → probe_labels_ok p = true → result_labels_ok res = true →
  ∃ lvs, labelValues m res p = Ret lvs ∧ length lvs = length labels ∧
         forallb label_ok lvs = true.
Proof.
  intros Hid Hp [Hr _]%andb_true_iff.
  destruct (probe_labels p (Af res) Hp) as (q & asn & lat & lon & -> & Ha & Hlat & Hlon & Hl).
  unfold labelValues. cbn [mbind Outcome_bind deref].
  rewrite Ha, Hlat, Hlon. eexists. split; [done|]. split; [done|].
  solve_labels.
Qed.

Definition samples (res : Result) : list (Desc * float64) :=
  match DnsResult res with
  | Some d => if f64_pos (dns_Rt d) then [(successDesc, f64_of_int 1); (rttDesc, dns_Rt d)]
              else [(successDesc, f64_of_int 0)]
  | None => [(successDesc, f64_of_int 0)]
  end.

Lemma dns_Export_run `{!PromLaws} m res p w :
  label_ok (id m) = true → probe_labels_ok p = true → result_labels_ok res = true →
  ∃ lvs, labelValues m res p = Ret lvs ∧
    Export m res p w =
      (Ret tt, mkWorld (certFingerprint w) (sent w ++ gauges lvs (samples res))).
Proof.
  intros Hid Hp Hr. destruct (dns_labelValues_ok m res p Hid Hp Hr) as (lvs & Hl & Hn & Ho).
  exists lvs. split; [done|]. unfold Export, samples. run_lift.
  destruct (DnsResult res); [destruct (f64_pos _)|]; cbn [f64_pos f64_lt f64_zero SFltb SFcompare];
    run_sends Hn Ho.
Qed.

#[export] Instance dnsExporter_lawful `{!PromLaws} m (Hid : label_ok (id m) = true) :
  LawfulExporter (newExporter m).
Proof.
  split; simpl.
  - intros r p. unfold Export. solve_described.
  - intros r p w Hp Hr Hw. by destruct (dns_Export_run m r p w Hid Hp Hr) as (lvs & _ & ->).
Qed.

End dns.
