(* ===== verification/Http.v ===== *)
(** * Package http *)

From S2P Require Import Prelude GoInt GoFloat GoStrings GoParse Apis Probe Config Measurement.
Open Scope Z_scope.

Section http.
Context {A : AtlasAPI} {P : PromAPI}.

Definition ns : string := "atlas".
Definition sub : string := "http".

Definition labels : list string :=
  ["measurement"; "probe"; "dst_addr"; "asn"; "ip_version"; "uri"; "method"; "country_code"; "lat"; "long"].

Definition successDesc := NewDesc (BuildFQName ns sub "success") "Destination was reachable" labels [].
Definition resultDesc := NewDesc (BuildFQName ns sub "result") "Code returned from http server" labels [].
Definition httpVerDesc := NewDesc (BuildFQName ns sub "version") "HTTP version used for the request" labels [].
Definition bodySizeDesc := NewDesc (BuildFQName ns sub "body_size") "Body size in bytes" labels [].
Definition headerSizeDesc := NewDesc (BuildFQName ns sub "header_size") "Header size in bytes" labels [].
Definition rttDesc := NewDesc (BuildFQName ns sub "rtt") "Round trip time in ms" labels [].
Definition dnsErrDesc := NewDesc (BuildFQName ns sub "dns_error") "A DNS error occurred (0 if not)" labels [].

Definition labelValues (id : string) (res : Result) (probe : option Probe) (h : HttpReply) :
  Outcome (list string) :=
  p ← deref probe;
  asn ← ASNForIPVersion probe (http_Af h);
  lat ← Latitude probe;
  lon ← Longitude probe;
  Ret [id; Itoa (ID p); http_DstAddr h; Itoa asn; Itoa (http_Af h); Uri res; http_Method h; CountryCode p; lat; lon].

(** One turn of the loop; a version that does not parse is logged and its
    value is exported all the same. *)
Definition ExportOne (id : string) (res : Result) (probe : option Probe) (h : HttpReply) :
  GoM World unit :=
  lvs ← lift (labelValues id res probe h);
  let dnsError := if 0 <? str_len (http_Dnserr h) then 1 else 0 in
  let httpVer := (ParseFloat (http_Ver h)).1 in
  send_const resultDesc GaugeValue (f64_of_int (http_Res h)) lvs ;;
  send_const httpVerDesc GaugeValue httpVer lvs ;;
  send_const bodySizeDesc GaugeValue (f64_of_int (http_Bsize h)) lvs ;;
  send_const headerSizeDesc GaugeValue (f64_of_int (http_Hsize h)) lvs ;;
  send_const dnsErrDesc GaugeValue (f64_of_int dnsError) lvs ;;
  if f64_pos (http_Rt h) then
    send_const successDesc GaugeValue (f64_of_int 1) lvs ;;
    send_const rttDesc GaugeValue (http_Rt h) lvs
  else
    send_const successDesc GaugeValue (f64_of_int 0) lvs.

Definition Export (id : string) (res : Result) (probe : option Probe) : GoM World unit :=
  range_ (HttpResults res) (ExportOne id res probe).

Definition Describe : list Desc :=
  [successDesc; resultDesc; httpVerDesc; bodySizeDesc; headerSizeDesc; rttDesc; dnsErrDesc].

Definition httpExporter (id : string) : Exporter :=
  {| Measurement.Export := Export id; Measurement.Describe := Describe |}.

(** ** The histogram *)

Record rttHistogram := { rtt : PromHist }.
Definition Hist (h : rttHistogram) : PromHist := rtt h.

Definition ProcessResult (r : Result) (h : PromHist) : PromHist :=
  foldl (λ h p, if f64_pos (http_Rt p) then Observe (http_Rt p) h else h) h (HttpResults r).

Definition newRttHistogram (id ipVersion : string) (buckets : option (list float64)) : Outcome Histogram :=
  let buckets := default (f64_of_int <$> [100; 200; 500; 1000]) buckets in
  h ← NewHistogram {|
    Namespace := ns; Subsystem := sub; Name := "rtt_hist"; Buckets := buckets;
    Help := "Histogram of round trip times over all HTTP requests";
    ConstLabels := [("measurement", id); ("ip_version", ipVersion)] |};
  Ret (mkHistogram (Hist {| rtt := h |}) ProcessResult).

Definition NewMeasurement (id ipVersion : string) (cfg : Config) : Outcome Measurement :=
  h ← newRttHistogram id ipVersion (Rtt (HB_HTTP (cfg_HistogramBuckets cfg)));
  let opts := [WithHistograms [h]] in
  let opts := if FilterInvalidResults cfg then opts ++ [WithValidator DefaultResultValidator] else opts in
  let opts := if 0 <? MaxResultAge cfg then opts ++ [WithMaxResultAge (MaxResultAge cfg)] else opts in
  Ret (Measurement.NewMeasurement (httpExporter id) opts).

(** ** Lemmas *)

Lemma http_labelValues_ok `{!PromLaws} id res p h :
  label_ok id = true → probe_labels_ok p = true → result_labels_ok res = true →
  h ∈ HttpResults res →
  ∃ lvs, labelValues id res p h = Ret lvs ∧ length lvs = length labels ∧
         forallb label_ok lvs = true.
Proof.
  intros Hid Hp [Hr Hh]%andb_true_iff Hin%list_elem_of_In.
  rewrite forallb_forall in Hh. specialize (Hh h Hin).
  destruct (probe_labels p (http_Af h) Hp) as (q & asn & lat & lon & -> & Ha & Hlat & Hlon & Hl).
  unfold labelValues. simpl. rewrite Ha, Hlat, Hlon. eexists. split; [done|]. split; [done|].
  solve_labels.
Qed.

Definition samples (h : HttpReply) : list (Desc * float64) :=
  [(resultDesc, f64_of_int (http_Res h)); (httpVerDesc, (ParseFloat (http_Ver h)).1);
   (bodySizeDesc, f64_of_int (http_Bsize h)); (headerSizeDesc, f64_of_int (http_Hsize h));
   (dnsErrDesc, f64_of_int (if 0 <? str_len (http_Dnserr h) then 1 else 0))] ++
  (if f64_pos (http_Rt h) then [(successDesc, f64_of_int 1); (rttDesc, http_Rt h)]
   else [(successDesc, f64_of_int 0)]).

Lemma ExportOne_run `{!PromLaws} id res p h w :
  label_ok id = true → probe_labels_ok p = true → result_labels_ok res = true →
  h ∈ HttpResults res →
  ∃ lvs, labelValues id res p h = Ret lvs ∧
    ExportOne id res p h w =
      (Ret tt, mkWorld (certFingerprint w) (sent w ++ gauges lvs (samples h))).
Proof.
  intros Hid Hp Hr Hin.
  destruct (http_labelValues_ok id res p h Hid Hp Hr Hin) as (lvs & Hl & Hn & Ho).
  exists lvs. split; [done|]. unfold ExportOne, samples. run_lift.
  destruct (f64_pos (http_Rt h)); run_sends Hn Ho.
Qed.

(** The metrics of the replies follow each other in the replies' order. *)
Definition metrics_of (id : string) (res : Result) (p : option Probe) (h : HttpReply) : list Metric :=
  match labelValues id res p h with Ret lvs => gauges lvs (samples h) | Panic _ => [] end.

Lemma http_Export_run `{!PromLaws} id res p w :
  label_ok id = true → probe_labels_ok p = true → result_labels_ok res = true →
  Export id res p w =
    (Ret tt, mkWorld (certFingerprint w)
               (sent w ++ concat (metrics_of id res p <$> HttpResults res))).
Proof.
  intros Hid Hp Hr. unfold Export.
  rewrite (range_run _ _ (λ h w, mkWorld (certFingerprint w) (sent w ++ metrics_of id res p h))).
  - f_equal. generalize (HttpResults res) as l. intros l. revert w.
    induction l as [|h l IH]; intros w; simpl; [destruct w; simpl; by rewrite app_nil_r|].
    rewrite IH. simpl. by rewrite app_assoc.
  - intros h w' Hin. destruct (ExportOne_run id res p h w' Hid Hp Hr Hin) as (lvs & Hl & ->).
    unfold metrics_of. by rewrite Hl.
Qed.

#[export] Instance httpExporter_lawful `{!PromLaws} id (Hid : label_ok id = true) :
  LawfulExporter (httpExporter id).
Proof.
  split; simpl.
  - intros r p. unfold Export, ExportOne. solve_described.
  - intros r p w Hp Hr Hw. by rewrite (http_Export_run id r p w Hid Hp Hr).
Qed.

End http.
