(* ===== verification/Sslcert.v ===== *)
(** * Package sslcert

    The exporter keeps the fingerprint of the last certificate it decoded in
    a package variable, certFingerprint, which is part of [World]. *)

From S2P Require Import Prelude GoInt GoFloat GoStrings GoParse Apis Probe Config Measurement.
From S2P Require Sha256 Pem.
Open Scope Z_scope.

Section sslcert.
Context {A : AtlasAPI} {P : PromAPI}.

Definition ns : string := "atlas".
Definition sub : string := "sslcert".

Definition labels : list string :=
  ["measurement"; "probe"; "dst_addr"; "asn"; "ip_version"; "country_code"; "lat"; "long"; "cert_fingerprint"].

Definition successDesc := NewDesc (BuildFQName ns sub "success") "Destination was reachable" labels [].
Definition sslVerDesc := NewDesc (BuildFQName ns sub "version") "SSL/TLS version used for the request" labels [].
Definition rttDesc := NewDesc (BuildFQName ns sub "rtt") "Round trip time in ms" labels [].
Definition alertLevelDesc := NewDesc (BuildFQName ns sub "alert_level") "Status of the SSL/TLS certificate (0 = valid)" labels [].
Definition alertDescriptionDesc := NewDesc (BuildFQName ns sub "alert_description") "Description for the alert level (see RIPE Atlas documentation)" labels [].

(** The fingerprint of the result's first certificate, if it decodes. *)
Definition fingerprint (res : Result) : option string :=
  match Cert res with
  | c :: _ => block ← Pem.pem_Decode c; Some (EncodeToString (Sha256.Sum256 block))
  | [] => None
  end.

Definition setFingerprint (res : Result) : GoM World unit :=
  match fingerprint res with
  | Some f => modify (λ w, mkWorld f (sent w))
  | None => mret tt
  end.

Definition labelValues (id : string) (res : Result) (probe : option Probe) (fp : string) :
  Outcome (list string) :=
  p ← deref probe;
  asn ← ASNForIPVersion probe (Af res);
  lat ← Latitude probe;
  lon ← Longitude probe;
  Ret [id; Itoa (ID p); DstAddr res; Itoa asn; Itoa (Af res); CountryCode p; lat; lon; fp].

(** The rest of Export, after the variable has been set. *)
Definition sendSamples (id : string) (res : Result) (probe : option Probe) : GoM World unit :=
  w ← get;
  lvs ← lift (labelValues id res probe (certFingerprint w));
  let ver := (ParseFloat (Ver res)).1 in
  send_const sslVerDesc GaugeValue ver lvs ;;
  let '(alertLevel, alertDescription) :=
    match SslcertAlert res with
    | Some a => (f64_of_int (alert_Level a), f64_of_int (alert_Description a))
    | None => (f64_zero, f64_zero)
    end in
  send_const alertLevelDesc GaugeValue alertLevel lvs ;;
  send_const alertDescriptionDesc GaugeValue alertDescription lvs ;;
  if f64_pos (Rt res) then
    send_const successDesc GaugeValue (f64_of_int 1) lvs ;;
    send_const rttDesc GaugeValue (Rt res) lvs
  else
    send_const successDesc GaugeValue (f64_of_int 0) lvs.

Definition Export (id : string) (res : Result) (probe : option Probe) : GoM World unit :=
  setFingerprint res ;; sendSamples id res probe.

Definition Describe : list Desc :=
  [successDesc; rttDesc; sslVerDesc; alertLevelDesc; alertDescriptionDesc].

Definition sslCertExporter (id : string) : Exporter :=
  {| Measurement.Export := Export id; Measurement.Describe := Describe |}.

Definition NewMeasurement (id : string) (cfg : Config) : Outcome Measurement :=
  let opts := [] in
  let opts := if FilterInvalidResults cfg then opts ++ [WithValidator DefaultResultValidator] else opts in
  let opts := if 0 <? MaxResultAge cfg then opts ++ [WithMaxResultAge (MaxResultAge cfg)] else opts in
  Ret (Measurement.NewMeasurement (sslCertExporter id) opts).

(** ** Lemmas *)

(** The fingerprint label of an export: the result's own, or what an earlier
    export left. *)
Definition fp_label (res : Result) (w : World) : string :=
  default (certFingerprint w) (fingerprint res).

Lemma setFingerprint_run res w :
  setFingerprint res w = (Ret tt, mkWorld (fp_label res w) (sent w)).
Proof. unfold setFingerprint, fp_label. destruct (fingerprint res), w; done. Qed.

(** A fingerprint is the hexadecimal text of 32 bytes. *)
Lemma fingerprint_digest res f :
  fingerprint res = Some f → ∃ c cs b, Cert res = c :: cs ∧ Pem.pem_Decode c = Some b ∧
    f = EncodeToString (Sha256.Sum256 b).
Proof.
  unfold fingerprint. destruct (Cert res) as [|c cs]; [done|].
  destruct (Pem.pem_Decode c) as [b|] eqn:E; [|done]. intros Hf.
  exists c, cs, b. split; [done|]. split; [done|]. symmetry. by apply (inj Some).
Qed.

Lemma fp_label_printable res w :
  world_ok w → str_forallb printable (fp_label res w) = true.
Proof.
  intros Hw. unfold fp_label. destruct (fingerprint res) as [f|] eqn:E; [cbn [default]|done].
  apply fingerprint_digest in E as (c & cs & b & _ & _ & ->). apply EncodeToString_printable.
Qed.
#[local] Hint Resolve fp_label_printable : atlas.

Lemma sslcert_labelValues_ok `{!PromLaws} id res p fp :
  label_ok id = true → probe_labels_ok p = true → result_labels_ok res = true →
  str_forallb printable fp = true →
  ∃ lvs, labelValues id res p fp = Ret lvs ∧ length lvs = length labels ∧
         forallb label_ok lvs = true.
Proof.
  intros Hid Hp [Hr _]%andb_true_iff Hf.
  destruct (probe_labels p (Af res) Hp) as (q & asn & lat & lon & -> & Ha & Hlat & Hlon & Hl).
  unfold labelValues. simpl. rewrite Ha, Hlat, Hlon. eexists. split; [done|]. split; [done|].
  solve_labels.
Qed.

Definition samples (res : Result) : list (Desc * float64) :=
  let '(l, d) :=
    match SslcertAlert res with
    | Some a => (f64_of_int (alert_Level a), f64_of_int (alert_Description a))
    | None => (f64_zero, f64_zero)
    end in
  [(sslVerDesc, (ParseFloat (Ver res)).1); (alertLevelDesc, l); (alertDescriptionDesc, d)] ++
  (if f64_pos (Rt res) then [(successDesc, f64_of_int 1); (rttDesc, Rt res)]
   else [(successDesc, f64_of_int 0)]).

Lemma sendSamples_run `{!PromLaws} id res p w :
  label_ok id = true → probe_labels_ok p = true → result_labels_ok res = true → world_ok w →
  ∃ lvs, labelValues id res p (certFingerprint w) = Ret lvs ∧
    sendSamples id res p w =
      (Ret tt, mkWorld (certFingerprint w) (sent w ++ gauges lvs (samples res))).
Proof.
  intros Hid Hp Hr Hw.
  destruct (sslcert_labelValues_ok id res p (certFingerprint w) Hid Hp Hr Hw) as (lvs & Hl & Hn & Ho).
  exists lvs. split; [done|]. unfold sendSamples, samples.
  erewrite bind_run by reflexivity. run_lift.
  destruct (SslcertAlert res), (f64_pos (Rt res)); cbv beta iota; run_sends Hn Ho.
Qed.

Lemma sslcert_Export_run `{!PromLaws} id res p w :
  label_ok id = true → probe_labels_ok p = true → result_labels_ok res = true → world_ok w →
  ∃ lvs, labelValues id res p (fp_label res w) = Ret lvs ∧
    Export id res p w =
      (Ret tt, mkWorld (fp_label res w) (sent w ++ gauges lvs (samples res))).
Proof.
  intros Hid Hp Hr Hw.
  destruct (sendSamples_run id res p (mkWorld (fp_label res w) (sent w)) Hid Hp Hr) as (lvs & Hl & E);
    [by apply fp_label_printable|].
  exists lvs. split; [done|]. unfold Export. by erewrite bind_run by apply setFingerprint_run.
Qed.

Lemma sslcert_export_described `{!PromLaws} id r p : sends_only Describe (Export id r p).
Proof.
  unfold Export. apply sends_only_bind.
  - intros w. rewrite setFingerprint_run. exists []. simpl. by rewrite app_nil_r.
  - unfold sendSamples. apply sends_only_get. intros w. solve_described.
Qed.

#[export] Instance sslCertExporter_lawful `{!PromLaws} id (Hid : label_ok id = true) :
  LawfulExporter (sslCertExporter id).
Proof.
  split; simpl.
  - intros r p. apply sslcert_export_described.
  - intros r p w Hp Hr Hw. destruct (sslcert_Export_run id r p w Hid Hp Hr Hw) as (lvs & _ & ->).
    split; [done|]. by apply fp_label_printable.
Qed.

End sslcert.
