(* ===== verification/Kinds.v ===== *)
(** * What the measurement packages export

    The theorems about single packages: the samples of a result, the label
    values that are computed, and what is kept between two exports. *)

From S2P Require Import Prelude GoInt GoFloat GoStrings GoParse Apis Samples Probe Config Measurement.
From S2P Require Json Sha256 Pem Ping Traceroute Ntp Dns Http Sslcert.
Open Scope Z_scope.

Section kinds.
Context {A : AtlasAPI} {P : PromAPI}.

(** Label values fit descriptions: the descriptions' label names are distinct,
    and a list of values, when there is one, has a value for each of them. *)
Definition fits (ds : list Desc) (values : Outcome (list string)) : Prop :=
  Forall (λ d, NoDup (variableLabels d) ∧
               ∀ lvs, values = Ret lvs → length lvs = length (variableLabels d)) ds.

Lemma fits_labels ds labels (values : Outcome (list string)) :
  forallb (λ d, bool_decide (variableLabels d = labels)) ds = true → bool_decide (NoDup labels) = true →
  (∀ lvs, values = Ret lvs → length lvs = length labels) → fits ds values.
Proof.
  intros Hd Hn Hl. rewrite forallb_forall in Hd. apply Forall_forall. intros d Hin%list_elem_of_In.
  specialize (Hd d Hin). apply bool_decide_eq_true in Hd as ->. split; [|done].
  by apply bool_decide_eq_true in Hn.
Qed.

Ltac solve_fits labels :=
  apply (fits_labels _ labels); [reflexivity|reflexivity|]; intros lvs;
  repeat match goal with
  | |- context [mbind _ ?o = _] => destruct o; cbn [mbind Outcome_bind]; [|discriminate 1]
  end; intros [= <-]; reflexivity.

(** C21: in all six packages the label values and the metric descriptions are of
    one type: whatever the result and the probe are, the values an export
    computes are as many as the label names of each description it uses, and
    no name occurs twice, so that no metric is refused for its labels'
    number. *)
Theorem labels_fit_descriptions id m res p h fp :
  fits Ping.Describe (Ping.labelValues id res p) ∧
  fits Traceroute.Describe (Traceroute.labelValues id res p) ∧
  fits Ntp.Describe (Ntp.labelValues id res p) ∧
  fits Dns.Describe (Dns.labelValues m res p) ∧
  fits Http.Describe (Http.labelValues id res p h) ∧
  fits Sslcert.Describe (Sslcert.labelValues id res p fp).
Proof.
  split_and!; [unfold Ping.labelValues; solve_fits Ping.labels|
    unfold Traceroute.labelValues; solve_fits Traceroute.labels|
    unfold Ntp.labelValues; solve_fits Ntp.labels|
    unfold Dns.labelValues; solve_fits Dns.labels|
    unfold Http.labelValues; solve_fits Http.labels|
    unfold Sslcert.labelValues; solve_fits Sslcert.labels].
Qed.

(** A ping result with valid labels is exported as these samples and no
    others, all with the same nine label values: success is 1 and the three
    latencies are there exactly when the minimum is positive, and the
    counters always. *)
Theorem ping_export_exact `{!PromLaws} id res q w asn lat lon :
  label_ok id = true → probe_labels_ok (Some q) = true → result_labels_ok res = true →
  ASNForIPVersion (Some q) (Af res) = Ret asn →
  Latitude (Some q) = Ret lat → Longitude (Some q) = Ret lon →
  let lvs := [id; Itoa (ID q); DstAddr res; DstName res; Itoa asn; Itoa (Af res);
              CountryCode q; lat; lon] in
  Ping.Export id res (Some q) w =
    (Ret tt, mkWorld (certFingerprint w) (sent w ++ gauges lvs (
      (if f64_pos (Min res)
       then [(Ping.successDesc, f64_of_int 1); (Ping.minLatencyDesc, Min res);
             (Ping.maxLatencyDesc, Max res); (Ping.avgLatencyDesc, Avg res)]
       else [(Ping.successDesc, f64_of_int 0)]) ++
      [(Ping.sentDesc, f64_of_int (Sent res)); (Ping.rcvdDesc, f64_of_int (Rcvd res));
       (Ping.dupDesc, f64_of_int (Dup res)); (Ping.ttlDesc, f64_of_int (Ttl res));
       (Ping.sizeDesc, f64_of_int (Size res))]))).
Proof.
  intros Hid Hp Hr Ha Hlat Hlon lvs.
  destruct (Ping.ping_Export_run id res (Some q) w Hid Hp Hr) as (lvs' & Hl & ->).
  unfold Ping.labelValues in Hl. cbn [mbind Outcome_bind deref] in Hl.
  rewrite Ha, Hlat, Hlon in Hl. by injection Hl as <-.
Qed.

(** C33: a traceroute result is exported with success 1 exactly when a reply
    of its last hop comes from the destination, with the number of hops, and
    with the time of the last hop's last reply when that is positive; with
    no hops, success and the number are 0. *)
Theorem traceroute_export_exact `{!PromLaws} id res q w :
  label_ok id = true → probe_labels_ok (Some q) = true → result_labels_ok res = true →
  let reps := default [] (Replies <$> last (TracerouteResults res)) in
  let rtt := default f64_zero (hop_Rtt <$> last reps) in
  ∃ lvs, Traceroute.labelValues id res (Some q) = Ret lvs ∧
    Traceroute.Export id res (Some q) w =
      (Ret tt, mkWorld (certFingerprint w) (sent w ++ gauges lvs (
        [(Traceroute.successDesc,
          if bool_decide (Exists (λ rep, From_ rep = DstAddr res) reps) then f64_of_int 1 else f64_zero);
         (Traceroute.hopDesc, f64_of_int (Z.of_nat (length (TracerouteResults res))))] ++
        if f64_pos rtt then [(Traceroute.rttDesc, rtt)] else []))).
Proof.
  intros Hid Hp Hr reps rtt.
  destruct (Traceroute.traceroute_Export_run id res (Some q) w Hid Hp Hr) as (lvs & Hl & ->).
  exists lvs. split; [done|]. do 3 f_equal. unfold Traceroute.samples.
  rewrite Traceroute.processLastHop_eq. subst reps rtt.
  destruct (last (TracerouteResults res)) as [hop|]; [|done]. simpl.
  assert (existsb (λ rep, bool_decide (From_ rep = DstAddr res)) (Replies hop) =
    bool_decide (Exists (λ rep, From_ rep = DstAddr res) (Replies hop))) as ->.
  { apply eq_bool_prop_intro. rewrite bool_decide_spec, Is_true_true, existsb_exists, Exists_exists.
    setoid_rewrite list_elem_of_In. setoid_rewrite bool_decide_eq_true. done. }
  by destruct (last (Replies hop)).
Qed.

(** An option that gives no name server identifier. *)
Definition no_nsid (o : Edns0) : bool :=
  match as_NSID o with
  | Some n => match DecodeString n with Some _ => false | None => true end
  | None => true
  end.

Lemma nsid_skips before opts :
  forallb no_nsid before = true →
  Dns.nsid_of_options (before ++ opts) = Dns.nsid_of_options opts.
Proof.
  induction before as [|o before IH]; [done|]. simpl. intros [Ho Hb]%andb_true_iff.
  unfold no_nsid in Ho. destruct (as_NSID o) as [n|]; [destruct (DecodeString n); [done|]|]; auto.
Qed.

(** C34: the name server identifier of a DNS answer is that of its first
    option with hexadecimal text: the bytes if all are printable ASCII, and
    otherwise the text in lower case, from which the bytes can be decoded
    again.  What is exported is always printable. *)
Theorem extractNsid_spec d msg opt before o after n raw :
  UnpackAbuf d = Ok (Some msg) → IsEdns0 msg = Some opt →
  opt_Option opt = before ++ o :: after → forallb no_nsid before = true →
  as_NSID o = Some n → DecodeString n = Some raw →
  Dns.extractNsid d = (if str_forallb printable raw then raw else ToLower n) ∧
  str_forallb printable (Dns.extractNsid d) = true ∧
  DecodeString (EncodeToString raw) = Some raw.
Proof.
  intros Hu Hi Ho Hb Hn Hd. unfold Dns.extractNsid. rewrite Hu, Hi, Ho.
  split; [|split; [apply Dns.nsid_of_options_printable|apply Decode_Encode]].
  rewrite nsid_skips by done. simpl. rewrite Hn, Hd, Dns.isASCIIPrintable_printable.
  case_match; [done|]. by apply Encode_Decode.
Qed.

(** An HTTP result is exported reply by reply, each with the seven or
    eight samples of that reply and its own labels, in the replies' order. *)
Theorem http_export_exact `{!PromLaws} id res q w :
  label_ok id = true → probe_labels_ok (Some q) = true → result_labels_ok res = true →
  ∃ mss, Http.Export id res (Some q) w =
      (Ret tt, mkWorld (certFingerprint w) (sent w ++ concat mss)) ∧
    Forall2 (λ h ms, ∃ lvs, Http.labelValues id res (Some q) h = Ret lvs ∧
      ms = gauges lvs (
        [(Http.resultDesc, f64_of_int (http_Res h)); (Http.httpVerDesc, (ParseFloat (http_Ver h)).1);
         (Http.bodySizeDesc, f64_of_int (http_Bsize h)); (Http.headerSizeDesc, f64_of_int (http_Hsize h));
         (Http.dnsErrDesc, f64_of_int (if bool_decide (http_Dnserr h = "") then 0 else 1))] ++
        if f64_pos (http_Rt h) then [(Http.successDesc, f64_of_int 1); (Http.rttDesc, http_Rt h)]
        else [(Http.successDesc, f64_of_int 0)])) (HttpResults res) mss.
Proof.
  intros Hid Hp Hr. exists (Http.metrics_of id res (Some q) <$> HttpResults res).
  split; [by apply Http.http_Export_run|]. apply Forall2_fmap_r, Forall_Forall2_diag.
  apply Forall_forall. intros h Hh.
  destruct (Http.http_labelValues_ok id res (Some q) h Hid Hp Hr Hh) as (lvs & Hl & _ & _).
  exists lvs. split; [done|]. unfold Http.metrics_of, Http.samples. rewrite Hl.
  assert ((if 0 <? str_len (http_Dnserr h) then 1 else 0) =
          if bool_decide (http_Dnserr h = "") then 0 else 1) as -> by (by destruct (http_Dnserr h)).
  done.
Qed.

(** The fingerprint label of an sslcert export comes from the last
    certificate that was decoded, whoever presented it: a result without a
    certificate that is exported after another one is labelled with the
    other's fingerprint. *)
Theorem sslcert_fingerprint_leaks `{!PromLaws} id id' res res' p p' w f :
  label_ok id = true → label_ok id' = true →
  probe_labels_ok p = true → probe_labels_ok p' = true →
  result_labels_ok res = true → result_labels_ok res' = true → world_ok w →
  Sslcert.fingerprint res = Some f → Cert res' = [] →
  ∃ ms lvs, Sslcert.labelValues id' res' p' f = Ret lvs ∧
    ((Sslcert.Export id res p ;; Sslcert.Export id' res' p') w) =
      (Ret tt, mkWorld f (sent w ++ ms ++ gauges lvs (Sslcert.samples res'))).
Proof.
  intros Hid Hid' Hp Hp' Hr Hr' Hw Hf Hc.
  destruct (Sslcert.sslcert_Export_run id res p w Hid Hp Hr Hw) as (lvs1 & _ & E1).
  pose proof (Sslcert.fp_label_printable res w Hw) as Hw1.
  erewrite bind_run by exact E1. unfold Sslcert.fp_label in *. rewrite Hf in *. simpl in *.
  edestruct (Sslcert.sslcert_Export_run id' res' p') as (lvs & Hl & ->); [done..| |].
  2: { unfold Sslcert.fp_label, Sslcert.fingerprint in Hl |- *. rewrite Hc in *. simpl in *.
       eexists _, lvs. split; [exact Hl|]. by rewrite <-app_assoc. }
  done.
Qed.

Lemma EncodeToString_length b : String.length (EncodeToString b) = (2 * String.length b)%nat.
Proof. induction b as [|c b IH]; [done|]. cbn [EncodeToString String.length]. rewrite IH. lia. Qed.

(** C22: a result whose first certificate is a PEM text, of whatever type and
    with its base64 lines broken anywhere, is exported with the SHA-256 digest
    of the certificate's bytes as its fingerprint: 64 hexadecimal digits, from
    which the digest can be read back. *)
Theorem sslcert_fingerprint_sha256 `{!PromLaws} id res p w ty body der cs :
  label_ok id = true → probe_labels_ok p = true → result_labels_ok res = true → world_ok w →
  Cert res = Pem.pem_text ty body :: cs →
  str_forallb (λ c, negb (Ascii.eqb c Pem.newline)) ty = true → str_forallb Pem.body_char body = true →
  Pem.str_filter (λ c, negb (Pem.is_newline c)) body = Pem.base64_Encode der →
  ∃ f lvs, f = EncodeToString (Sha256.Sum256 der) ∧ String.length f = 64%nat ∧
    DecodeString f = Some (Sha256.Sum256 der) ∧
    Sslcert.labelValues id res p f = Ret lvs ∧
    Sslcert.Export id res p w = (Ret tt, mkWorld f (sent w ++ gauges lvs (Sslcert.samples res))).
Proof.
  intros Hid Hp Hr Hw Hc Ht Hb He. set (f := EncodeToString (Sha256.Sum256 der)).
  assert (Sslcert.fp_label res w = f) as Hf.
  { unfold Sslcert.fp_label, Sslcert.fingerprint. by rewrite Hc, (Pem.pem_Decode_text ty body der). }
  destruct (Sslcert.sslcert_Export_run id res p w Hid Hp Hr Hw) as (lvs & Hl & E). rewrite Hf in Hl, E.
  exists f, lvs. split; [done|]. split; [|split; [apply Decode_Encode|done]].
  unfold f. by rewrite EncodeToString_length, Sha256.Sum256_length.
Qed.

End kinds.

(** ** Witnesses *)

Module KindsW.
#[local] Existing Instances sAtlas sProm sPromLaws.

Definition prb : Probe := mkProbe 6031 1101 0 "NL" [].
Definition w0 : World := mkWorld "" [].

Definition with_cert (c : list string) (r : sResult) : Result := {|
  s_err := s_err r; s_prb := s_prb r; s_msm := s_msm r; s_af := s_af r; s_time := s_time r;
  s_type := "sslcert"; s_dst := s_dst r; s_dstname := s_dstname r; s_proto := s_proto r;
  s_uri := s_uri r; s_ver := "1.2"; s_min := s_min r; s_max := s_max r; s_avg := s_avg r;
  s_sent := s_sent r; s_rcvd := s_rcvd r; s_dup := s_dup r; s_ttl := s_ttl r;
  s_size := s_size r; s_pings := s_pings r; s_poll := s_poll r; s_prec := s_prec r;
  s_delay := s_delay r; s_disp := s_disp r; s_version := s_version r;
  s_hops := [[("10.0.0.1", f64_of_int 3)]; [("8.8.8.8", f64_of_int 9); ("*", f64_zero)]];
  s_http := [{| sh_dst := "8.8.8.8"; sh_af := 4; sh_method := "GET"; sh_dnserr := ""; sh_ver := "1.1";
                sh_res := 200; sh_bsize := 10; sh_hsize := 20; sh_rt := f64_of_int 30 |}];
  s_rt := f64_of_int 40; s_cert := c; s_alert := s_alert r; s_dns := s_dns r
|}.

Definition ping_w : Result := sPing 6031 100 [f64_of_int 7].

Lemma ping_export_exact_witness :
  Ping.Export "1001" ping_w (Some prb) w0 =
    (Ret tt, mkWorld "" (gauges ["1001"; "6031"; "8.8.8.8"; "8.8.8.8"; "1101"; "4"; "NL"; ""; ""]
      [(Ping.successDesc, f64_of_int 1); (Ping.minLatencyDesc, f64_of_int 7);
       (Ping.maxLatencyDesc, f64_of_int 7); (Ping.avgLatencyDesc, f64_of_int 7);
       (Ping.sentDesc, f64_of_int 3); (Ping.rcvdDesc, f64_of_int 1); (Ping.dupDesc, f64_of_int 0);
       (Ping.ttlDesc, f64_of_int 55); (Ping.sizeDesc, f64_of_int 48)])).
Proof.
  apply (ping_export_exact "1001" ping_w prb w0 1101 "" ""); reflexivity.
Defined.

(** The certificate is the bytes of hello, in two lines. *)
Definition body_w : string := "aGVs" +:+ String Pem.newline "bG8=".
Definition cert_w : string := Pem.pem_text "CERTIFICATE" body_w.
Definition hello_w : string := "2cf24dba5fb0a30e26e83b2ac5b9e29e1b161e5c1fa7425e73043362938b9824".
Definition res_w : Result := with_cert [cert_w] (sPing 6031 100 []).
Definition res_w' : Result := with_cert [] (sPing 17 100 []).

(** The destination answers the last hop, then a reply is lost. *)
Lemma traceroute_export_exact_witness :
  ∃ lvs, Traceroute.labelValues "1001" res_w (Some prb) = Ret lvs ∧
    Traceroute.Export "1001" res_w (Some prb) w0 =
      (Ret tt, mkWorld "" (gauges lvs [(Traceroute.successDesc, f64_of_int 1);
                                       (Traceroute.hopDesc, f64_of_int 2)])).
Proof. apply (traceroute_export_exact "1001" res_w prb w0); reflexivity. Defined.

(** Two options, the first not hexadecimal. *)
Definition dns_w : DnsReply := {| sd_rt := f64_of_int 5; sd_nsid := [Some "xyz"; Some "6E7331"] |}.
Definition msg_w : DnsMsg := [Some "xyz"; Some "6E7331"].

Lemma extractNsid_spec_witness :
  Dns.extractNsid dns_w = "ns1" ∧ str_forallb printable (Dns.extractNsid dns_w) = true ∧
  DecodeString (EncodeToString "ns1") = Some "ns1".
Proof.
  apply (extractNsid_spec dns_w msg_w msg_w [Some "xyz"] (Some "6E7331") [] "6E7331" "ns1"); reflexivity.
Defined.

Lemma http_export_exact_witness :
  ∃ mss, Http.Export "1001" res_w (Some prb) w0 = (Ret tt, mkWorld "" (concat mss)) ∧
    Forall2 (λ h ms, ∃ lvs, Http.labelValues "1001" res_w (Some prb) h = Ret lvs ∧
      ms = gauges lvs (
        [(Http.resultDesc, f64_of_int (http_Res h)); (Http.httpVerDesc, (ParseFloat (http_Ver h)).1);
         (Http.bodySizeDesc, f64_of_int (http_Bsize h)); (Http.headerSizeDesc, f64_of_int (http_Hsize h));
         (Http.dnsErrDesc, f64_of_int (if bool_decide (http_Dnserr h = "") then 0 else 1))] ++
        if f64_pos (http_Rt h) then [(Http.successDesc, f64_of_int 1); (Http.rttDesc, http_Rt h)]
        else [(Http.successDesc, f64_of_int 0)])) (HttpResults res_w) mss.
Proof. apply (http_export_exact "1001" res_w prb w0); reflexivity. Defined.

(** The second result has no certificate. *)
Lemma sslcert_fingerprint_leaks_witness :
  ∃ ms lvs, Sslcert.labelValues "2002" res_w' (Some prb) hello_w = Ret lvs ∧
    ((Sslcert.Export "1001" res_w (Some prb) ;; Sslcert.Export "2002" res_w' (Some prb)) w0) =
      (Ret tt, mkWorld hello_w ([] ++ ms ++ gauges lvs (Sslcert.samples res_w'))).
Proof.
  apply (sslcert_fingerprint_leaks "1001" "2002" res_w res_w' (Some prb) (Some prb) w0);
    vm_compute; reflexivity.
Defined.

Lemma sslcert_fingerprint_sha256_witness :
  ∃ f lvs, f = EncodeToString (Sha256.Sum256 "hello") ∧ String.length f = 64%nat ∧
    DecodeString f = Some (Sha256.Sum256 "hello") ∧
    Sslcert.labelValues "1001" res_w (Some prb) f = Ret lvs ∧
    Sslcert.Export "1001" res_w (Some prb) w0 = (Ret tt, mkWorld f ([] ++ gauges lvs (Sslcert.samples res_w))).
Proof.
  apply (sslcert_fingerprint_sha256 "1001" res_w (Some prb) w0 "CERTIFICATE" body_w "hello" []);
    vm_compute; reflexivity.
Defined.

End KindsW.
