(* ===== verification/Fingerprints.v ===== *)
(** * Scrapes at the same time: certFingerprint of package sslcert

    net/http runs the handlers of two requests in two goroutines, and Collect
    of both may export sslcert results.  Export writes its package variable
    and reads it later, without a lock; every scrape sends to a channel of its
    own.  Here the two halves of Export are steps, and those of different
    scrapes interleave.  (Reading the variable while it is written is a data
    race, of which Go promises nothing; a read here sees the last write.) *)

From S2P Require Import Prelude GoInt GoFloat GoStrings Apis Samples Probe Measurement.
From S2P Require Sha256 Pem Sslcert Kinds.
Open Scope Z_scope.

Section fingerprints.
Context {A : AtlasAPI} {P : PromAPI} {L : PromLaws}.

(** A call of Export. *)
Record job := mkJob { j_id : string; j_res : Result; j_probe : option Probe }.

(** A scrape: the calls to come, the one that has set the variable, and what
    was sent. *)
Record scrape := mkScrape { jobs : list job; inside : option job; channel : list Metric }.

Record fstate := mkState { certFingerprint : string; scrapes : list scrape }.

Definition start (f : string) (work : list (list job)) : fstate :=
  mkState f ((λ js, mkScrape js None []) <$> work).

Inductive fstep : fstate → fstate → Prop :=
| f_set f l i j js ch w :
    l !! i = Some (mkScrape (j :: js) None ch) →
    Sslcert.setFingerprint (j_res j) (mkWorld f ch) = (Ret tt, w) →
    fstep (mkState f l) (mkState (Measurement.certFingerprint w) (<[i := mkScrape js (Some j) (sent w)]> l))
| f_send f l i j js ch w :
    l !! i = Some (mkScrape js (Some j) ch) →
    Sslcert.sendSamples (j_id j) (j_res j) (j_probe j) (mkWorld f ch) = (Ret tt, w) →
    fstep (mkState f l) (mkState (Measurement.certFingerprint w) (<[i := mkScrape js None (sent w)]> l)).

Definition job_ok (j : job) : Prop :=
  label_ok (j_id j) = true ∧ probe_labels_ok (j_probe j) = true ∧ result_labels_ok (j_res j) = true.

(** ** Lemmas *)

Lemma sendSamples_step j f ch :
  job_ok j → str_forallb printable f = true →
  ∃ lvs, Sslcert.labelValues (j_id j) (j_res j) (j_probe j) f = Ret lvs ∧
    Sslcert.sendSamples (j_id j) (j_res j) (j_probe j) (mkWorld f ch) =
      (Ret tt, mkWorld f (ch ++ gauges lvs (Sslcert.samples (j_res j)))).
Proof. intros (Hid & Hp & Hr) Hf. by apply (Sslcert.sendSamples_run _ _ _ (mkWorld f ch)). Qed.

Lemma labelValues_last id res p f lvs : Sslcert.labelValues id res p f = Ret lvs → last lvs = Some f.
Proof.
  unfold Sslcert.labelValues. intros Hl.
  repeat match type of Hl with
  | context [mbind _ ?o] => destruct o; cbn [mbind Outcome_bind] in Hl; [|discriminate Hl]
  end. by injection Hl as <-.
Qed.

(** ** Every label is some certificate's *)

Section run.
Context (f0 : string) (work : list (list job)).

(** The fingerprints that can be in use: the one at the start and those of the
    certificates to be exported. *)
Definition known (f : string) : Prop :=
  f = f0 ∨ ∃ js j, js ∈ work ∧ j ∈ js ∧ Sslcert.fingerprint (j_res j) = Some f.

Definition valid_work : Prop := Forall (Forall job_ok) work.

(** A scrape whose calls are from [work], and what it has sent. *)
Record scrape_ok (sc : scrape) : Prop := {
  so_jobs : Forall (λ j, ∃ js, js ∈ work ∧ j ∈ js) (option_list (inside sc) ++ jobs sc);
  so_sent : Forall (λ m, ∃ f, last (metric_values m) = Some f ∧ known f) (channel sc)
}.

Definition finv (s : fstate) : Prop := known (certFingerprint s) ∧ Forall scrape_ok (scrapes s).

Lemma finv_start : finv (start f0 work).
Proof.
  split; [by left|]. apply Forall_fmap, Forall_forall. intros js Hjs. split; simpl; [|constructor].
  apply Forall_forall. eauto.
Qed.

Lemma known_printable f : str_forallb printable f0 = true → known f → str_forallb printable f = true.
Proof.
  intros H0 [->|(js & j & _ & _ & (c & cs & b & _ & _ & ->)%Sslcert.fingerprint_digest)]; [done|].
  apply EncodeToString_printable.
Qed.

Lemma finv_fstep s s' :
  str_forallb printable f0 = true → valid_work → fstep s s' → finv s → finv s'.
Proof.
  intros H0 Hok Hs [Hv Hl]. destruct Hs as [f l i j js ch w Hi Hw|f l i j js ch w Hi Hw]; simpl in *;
    pose proof (Forall_lookup_1 _ _ _ _ Hl Hi) as [[(js' & Hjs & Hin) Hj]%Forall_cons Hc]; simpl in *.
  - rewrite Sslcert.setFingerprint_run in Hw. injection Hw as <-. split; simpl.
    + unfold Sslcert.fp_label. destruct (Sslcert.fingerprint (j_res j)) as [g|] eqn:E; [|done].
      right. by exists js', j.
    + apply Forall_insert; [done|]. split; [|done]. apply Forall_cons. eauto.
  - unfold valid_work in Hok. rewrite Forall_forall in Hok. specialize (Hok _ Hjs).
    rewrite Forall_forall in Hok. specialize (Hok _ Hin).
    destruct (sendSamples_step j f ch Hok (known_printable f H0 Hv)) as (lvs & Hlv & E).
    rewrite Hw in E. injection E as ->. split; [done|]. apply Forall_insert; [done|]. split; [done|].
    apply Forall_app. split; [done|]. apply Forall_fmap, Forall_forall. intros dv _. exists f. simpl.
    rewrite metric_values_const. split; [by eapply labelValues_last|done].
Qed.

Lemma fingerprints_inv s :
  str_forallb printable f0 = true → valid_work → rtc fstep (start f0 work) s → finv s.
Proof.
  intros H0 Hok Hs. eapply (rtc_ind_r finv); [apply finv_start| |exact Hs].
  intros x y _ Hxy. by apply finv_fstep.
Qed.

End run.

(** ** Properties *)

(** C28: however scrapes overlap, a fingerprint label is never made up: it is
    the one at the start or that of a certificate which one of the scrapes
    exports. *)
Theorem fingerprints_known f0 work s i sc m :
  str_forallb printable f0 = true → Forall (Forall job_ok) work → rtc fstep (start f0 work) s →
  scrapes s !! i = Some sc → m ∈ channel sc →
  ∃ f, last (metric_values m) = Some f ∧
    (f = f0 ∨ ∃ js j, js ∈ work ∧ j ∈ js ∧ Sslcert.fingerprint (j_res j) = Some f).
Proof.
  intros H0 Hok Hs Hi Hm. destruct (fingerprints_inv f0 work s H0 Hok Hs) as [_ Hl].
  apply (Forall_lookup_1 _ _ _ _ Hl) in Hi as [_ Hc]. rewrite Forall_forall in Hc. by apply Hc.
Qed.

(** C30: but it can be another's: of any two results with certificates that
    two scrapes export at the same time, the first can be labelled with the
    fingerprint of the second, in all of its samples. *)
Theorem fingerprints_swap f0 j1 j2 f1 f2 :
  job_ok j1 → job_ok j2 →
  Sslcert.fingerprint (j_res j1) = Some f1 → Sslcert.fingerprint (j_res j2) = Some f2 →
  ∃ lvs s, Sslcert.labelValues (j_id j1) (j_res j1) (j_probe j1) f2 = Ret lvs ∧
    rtc fstep (start f0 [[j1]; [j2]]) s ∧
    scrapes s = [mkScrape [] None (gauges lvs (Sslcert.samples (j_res j1))); mkScrape [] (Some j2) []].
Proof.
  intros H1 H2 Hf1 Hf2.
  assert (str_forallb printable f2 = true) as Hp.
  { apply Sslcert.fingerprint_digest in Hf2 as (c & cs & b & _ & _ & ->). apply EncodeToString_printable. }
  destruct (sendSamples_step j1 f2 [] H1 Hp) as (lvs & Hl & E). eexists lvs, _. split; [done|]. split.
  - eapply rtc_l; [eapply (f_set _ _ 0); [done|apply Sslcert.setFingerprint_run]|].
    eapply rtc_l; [eapply (f_set _ _ 1); [done|apply Sslcert.setFingerprint_run]|].
    simpl. unfold Sslcert.fp_label. rewrite Hf1, Hf2. simpl.
    eapply rtc_l; [eapply (f_send _ _ 0); [done|exact E]|]. apply rtc_refl.
  - done.
Qed.

End fingerprints.

(** ** Witnesses *)

Module FingerprintsW.
#[local] Existing Instances sAtlas sProm sPromLaws.
Import Kinds.KindsW.

(** Two certificates: the bytes of hello, and those of lo. *)
Definition res2_w : Result := with_cert [Pem.pem_text "CERTIFICATE" "bG8="] (sPing 17 100 []).
Definition job1_w : job := mkJob "1001" res_w (Some prb).
Definition job2_w : job := mkJob "1001" res2_w (Some prb).
Definition lo_w : string := EncodeToString (Sha256.Sum256 "lo").

Lemma fingerprint1_w : Sslcert.fingerprint res_w = Some hello_w.
Proof. vm_compute. reflexivity. Qed.

Lemma fingerprints_swap_witness :
  hello_w ≠ lo_w ∧
  ∃ lvs s, Sslcert.labelValues "1001" res_w (Some prb) lo_w = Ret lvs ∧
    rtc fstep (start "" [[job1_w]; [job2_w]]) s ∧
    scrapes s = [mkScrape [] None (gauges lvs (Sslcert.samples res_w)); mkScrape [] (Some job2_w) []].
Proof.
  split; [vm_compute; discriminate|].
  apply (fingerprints_swap "" job1_w job2_w hello_w lo_w).
  - done.
  - done.
  - exact fingerprint1_w.
  - vm_compute. reflexivity.
Defined.

(** The first call of a scrape on its own. *)
Lemma lone_reach : ∃ s m ms,
  rtc fstep (start "" [[job1_w]]) s ∧ scrapes s !! 0%nat = Some (mkScrape [] None (m :: ms)).
Proof.
  destruct (sendSamples_step job1_w hello_w []) as (lvs & _ & E); [done|vm_compute; reflexivity|].
  eexists _, _, _. split.
  - eapply rtc_l; [eapply (f_set _ _ 0); [done|apply Sslcert.setFingerprint_run]|].
    simpl. unfold Sslcert.fp_label. rewrite fingerprint1_w. simpl.
    eapply rtc_l; [eapply (f_send _ _ 0); [done|exact E]|]. apply rtc_refl.
  - done.
Qed.

Lemma fingerprints_known_witness :
  ∃ s m ms, scrapes s !! 0%nat = Some (mkScrape [] None (m :: ms)) ∧
    ∃ f, last (metric_values m) = Some f ∧
      (f = "" ∨ ∃ js j, js ∈ [[job1_w]] ∧ j ∈ js ∧ Sslcert.fingerprint (j_res j) = Some f).
Proof.
  destruct lone_reach as (s & m & ms & Hs & Hi). exists s, m, ms. split; [exact Hi|].
  apply (fingerprints_known "" [[job1_w]] s 0 (mkScrape [] None (m :: ms)) m).
  - reflexivity.
  - by repeat constructor.
  - exact Hs.
  - exact Hi.
  - left.
Defined.

End FingerprintsW.
