(* ===== verification/Exporting.v ===== *)
(** * What a measurement promises

    The theorems about package exporter: which results a [Measurement] keeps,
    which it exports, and what it sends.  They are stated for any exporter
    that satisfies [LawfulExporter] and any histograms that satisfy
    [LawfulHistogram], and so hold of all six measurement packages. *)

From S2P Require Import Prelude GoInt GoFloat GoStrings Apis Samples Probe Config Measurement.
From S2P Require Ping Traceroute Ntp Dns Http Sslcert.
Open Scope Z_scope.

Section histograms.
Context {A : AtlasAPI} {P : PromAPI}.

(** A result contributes the positive ones of its round trip times, in
    order, and never changes what the histogram describes. *)
Class LawfulHistogram (h : Histogram) (times : Result → list float64) : Prop := {
  process_observes r x :
    observations (process h r x) = observations x ++ filter (λ t, f64_pos t = true) (times r);
  process_describe r x : hist_Describe (process h r x) = hist_Describe x
}.

Lemma lawful_ProcessResult h times r :
  LawfulHistogram h times → LawfulHistogram (ProcessResult h r) times.
Proof. intros [H1 H2]. by split. Qed.

(** Observing the positive ones of a list of times, the shape of the loops
    of packages ping and http. *)
Lemma observe_positive `{!PromLaws} {B} (rtt : B → float64) l x :
  let x' := foldl (λ h p, if f64_pos (rtt p) then Observe (rtt p) h else h) x l in
  observations x' = observations x ++ filter (λ t, f64_pos t = true) (rtt <$> l) ∧
  hist_Describe x' = hist_Describe x.
Proof.
  revert x. induction l as [|b l IH]; intros x; simpl; [by rewrite filter_nil, app_nil_r|].
  destruct (IH (if f64_pos (rtt b) then Observe (rtt b) x else x)) as [-> ->].
  destruct (f64_pos (rtt b)) eqn:E.
  - rewrite observe_spec, observe_describe, filter_cons_True by done. by rewrite <-app_assoc.
  - rewrite filter_cons_False by congruence. done.
Qed.

(** The sequence of results a histogram has processed. *)
Lemma processed_observations h times l :
  LawfulHistogram h times →
  observations (Hist (foldl (λ h mp, ProcessResult h mp.1) h l)) =
    observations (Hist h) ++
    filter (λ t, f64_pos t = true) (concat (times <$> (l : list (Result * option Probe)).*1)).
Proof.
  revert h. induction l as [|[m p] l IH]; intros h Hh; simpl.
  - by rewrite filter_nil, app_nil_r.
  - rewrite IH by (by apply lawful_ProcessResult). simpl.
    rewrite process_observes, filter_app. by rewrite <-app_assoc.
Qed.

(** ** The four histograms *)

Definition ping_times (r : Result) : list float64 := ping_Rtt <$> PingResults r.
Definition http_times (r : Result) : list float64 := http_Rt <$> HttpResults r.
Definition dns_times (r : Result) : list float64 :=
  match DnsResult r with Some d => [dns_Rt d] | None => [] end.

(** A traceroute counts when the last hop answered from the destination. *)
Definition traceroute_times (r : Result) : list float64 :=
  let '(success, rtt) := Traceroute.processLastHop r in
  if SFeqb success (f64_of_int 1) then [rtt] else [].

#[export] Instance ping_histogram `{!PromLaws} h :
  LawfulHistogram (mkHistogram h Ping.ProcessResult) ping_times.
Proof. split; intros r x; apply (observe_positive ping_Rtt). Qed.

#[export] Instance http_histogram `{!PromLaws} h :
  LawfulHistogram (mkHistogram h Http.ProcessResult) http_times.
Proof. split; intros r x; apply (observe_positive http_Rt). Qed.

Lemma observe_one `{!PromLaws} t x :
  let x' := if f64_pos t then Observe t x else x in
  observations x' = observations x ++ filter (λ t, f64_pos t = true) [t] ∧
  hist_Describe x' = hist_Describe x.
Proof. apply (observe_positive id [t]). Qed.

#[export] Instance dns_histogram `{!PromLaws} h :
  LawfulHistogram (mkHistogram h Dns.ProcessResult) dns_times.
Proof.
  split; intros r x; simpl; unfold Dns.ProcessResult, dns_times;
    (destruct (DnsResult r); [apply observe_one|]); by rewrite ?filter_nil, ?app_nil_r.
Qed.

#[export] Instance traceroute_histogram `{!PromLaws} h :
  LawfulHistogram (mkHistogram h Traceroute.ProcessResult) traceroute_times.
Proof.
  split; intros r x; simpl; unfold Traceroute.ProcessResult, traceroute_times;
    destruct (Traceroute.processLastHop r) as [s rtt]; (destruct (SFeqb s _); [apply observe_one|]);
    by rewrite ?filter_nil, ?app_nil_r.
Qed.

End histograms.

Section theorems.
Context {A : AtlasAPI} {P : PromAPI}.

(** After any sequence of calls of Add, the entry of a probe identifier
    is the last result of that probe the validator accepted, together with
    the probe that came with it; a rejected result changes nothing. *)
Theorem Add_keeps_last_accepted r l r' k :
  empty_maps r →
  AddAll r l = Ret r' →
  let mine := filter (λ mp : Result * option Probe, PrbId mp.1 = k) (filter (accepted r) l) in
  latest r' !! k = fst <$> last mine ∧ probes r' !! k = snd <$> last mine.
Proof.
  intros [H1 H2] ->%AddAll_storeAll. simpl.
  destruct (storeAll_lookup r (filter (accepted r) l) k) as [-> ->].
  rewrite H1, H2, !lookup_empty. by destruct (last _) as [mp|].
Qed.

(** What a histogram of a measurement has observed after additions. *)
Lemma AddAll_observes r l r' i h times :
  AddAll r l = Ret r' →
  histograms r !! i = Some h →
  LawfulHistogram h times →
  ∃ h', histograms r' !! i = Some h' ∧
    observations (Hist h') = observations (Hist h) ++
      filter (λ t, f64_pos t = true) (concat (times <$> (filter (accepted r) l).*1)).
Proof.
  intros ->%AddAll_storeAll Hi Hh. rewrite storeAll_histograms, list_lookup_fmap, Hi.
  eexists. split; [done|]. by apply processed_observations.
Qed.

Lemma snd_indexed {B} (l : list B) : (imap pair l).*2 = l.
Proof. rewrite fmap_imap. change (imap (const id) l = l). by rewrite imap_const, list_fmap_id. Qed.

Lemma NoDup_exported r order clock :
  wf r → order ≡ₚ (map_to_list (latest r)).*1 → NoDup (PrbId <$> (exported r order clock).*2).
Proof.
  intros Hwf Ho. apply (sublist_NoDup _ _ (NoDup_snapshot r order Hwf Ho)).
  rewrite <-(snd_indexed (snapshot r order)). repeat apply fmap_sublist. apply sublist_filter.
Qed.

Lemma elem_of_imap_pair {B} (l : list B) i v : (i, v) ∈ imap pair l → v ∈ l.
Proof.
  intros (j & Hj)%list_elem_of_lookup. rewrite list_lookup_imap in Hj.
  destruct (l !! j) eqn:E; simplify_eq/=. by eapply list_elem_of_lookup_2.
Qed.

(** The results a collection exports, without the turns. *)
Lemma exported_exact r order clock k t0 t1 :
  wf r → order ≡ₚ (map_to_list (latest r)).*1 →
  maxResultAge r = k * Second → 0 <= k < 2 ^ 34 →
  0 <= t0 → t1 < 2 ^ 62 → (∀ i, t0 <= clock i <= t1) →
  NoDup (PrbId <$> (exported r order clock).*2) ∧
  (∀ v, v ∈ (exported r order clock).*2 →
     latest r !! PrbId v = Some v ∧ (k = 0 ∨ t0 - k <= Timestamp v)) ∧
  (∀ v, latest r !! PrbId v = Some v → k = 0 ∨ t1 - k <= Timestamp v →
     v ∈ (exported r order clock).*2).
Proof.
  intros Hwf Ho Ha Hk H0 H1 Hc.
  assert (∀ i v, stale r (clock i) v = false ↔ k = 0 ∨ clock i - k <= Timestamp v) as Hst.
  { intros i v. specialize (Hc i). rewrite (stale_seconds r k) by (done || lia).
    destruct (Z.ltb_spec 0 k), (Z.ltb_spec (Timestamp v) (clock i - k)); simpl; split; intros; try done; lia. }
  split; [|split].
  - by apply NoDup_exported.
  - intros v ([i v'] & -> & [Hs Hv]%list_elem_of_filter)%list_elem_of_fmap. simpl in *.
    split; [apply (elem_of_snapshot r order); eauto using elem_of_imap_pair|]. specialize (Hc i). apply Hst in Hs. lia.
  - intros v Hv Ht. apply (elem_of_snapshot r order) in Hv as [i Hi]%list_elem_of_lookup; [|done..].
    apply list_elem_of_fmap. exists (i, v). split; [done|]. apply list_elem_of_filter. split.
    + simpl. apply Hst. specialize (Hc i). lia.
    + apply list_elem_of_lookup. exists i. by rewrite list_lookup_imap, Hi.
Qed.

(** C6: a collection visits the kept results in Go's unspecified map order
    and exports each latest result that is young enough at most once, with
    the probe kept for it, then the histograms, whatever is added in the
    meantime.  With a maximum age of [k]
    seconds and clock readings between [t0] and [t1], no result older than
    [k] at [t0] is exported and none within [k] at [t1] is left out; [k = 0]
    means no limit. *)
Theorem Collect_exports_fresh r r' order clock k t0 t1 :
  wf r → order ≡ₚ (map_to_list (latest r)).*1 →
  maxResultAge r = k * Second → 0 <= k < 2 ^ 34 →
  0 <= t0 → t1 < 2 ^ 62 → (∀ i, t0 <= clock i <= t1) →
  ∃ vs, NoDup (PrbId <$> vs) ∧
    (∀ v, v ∈ vs → latest r !! PrbId v = Some v ∧ (k = 0 ∨ t0 - k <= Timestamp v)) ∧
    (∀ v, latest r !! PrbId v = Some v → k = 0 ∨ t1 - k <= Timestamp v → v ∈ vs) ∧
    ∀ w, CollectWith r r' order clock w =
      (range_ vs (λ v, Export (exporter r) v (probe_of r v)) ;;
       range_ (histograms r') (λ h, range_ (hist_Collect (Hist h)) send)) w.
Proof.
  intros Hwf Ho Ha Hk H0 H1 Hc. exists (exported r order clock).*2.
  destruct (exported_exact r order clock k t0 t1) as (Hn & Hs & Hc'); [done..|].
  do 3 (split; [done|]). intros w. unfold CollectWith, exported.
  unfold mbind, GoM_bind. by rewrite Collect_loop, range_fmap.
Qed.

Lemma CollectWith_sends `{!PromLaws} r r' order clock :
  LawfulExporter (exporter r) →
  sends_only (Describe (exporter r) ++ concat ((λ h, hist_Describe (Hist h)) <$> histograms r'))
    (CollectWith r r' order clock).
Proof.
  intros He. unfold CollectWith. apply sends_only_bind; apply sends_only_range.
  - intros [i v] _. case_match; [apply sends_only_ret|].
    eapply sends_only_mono; [|apply export_described]. set_solver.
  - intros h Hh. apply sends_only_range. intros m Hm. apply sends_only_send.
    apply elem_of_app. right. apply elem_of_concat. exists (hist_Describe (Hist h)).
    split; [by apply hist_collect_described|]. apply list_elem_of_fmap. eauto.
Qed.

Lemma Collect_sends `{!PromLaws} r order clock :
  LawfulExporter (exporter r) → sends_only (DescribeAll r) (Collect r order clock).
Proof. apply CollectWith_sends. Qed.

(** Everything Collect sends carries a description that Describe
    announced, whatever the order, the clock and the outcome, and metrics
    that other collectors sent before stay in the channel. *)
Theorem Collect_described `{!PromLaws} r order clock w :
  LawfulExporter (exporter r) →
  ∃ ms, sent (Collect r order clock w).2 = sent w ++ ms ∧
        Forall (λ m, metric_Desc m ∈ DescribeAll r) ms.
Proof. intros He. apply (Collect_sends r order clock He). Qed.

(** What [Collect] needs of the stored pairs in order not to panic. *)
Definition stored_ok (r : Measurement) : Prop :=
  ∀ k v, latest r !! k = Some v →
    result_labels_ok v = true ∧ probe_labels_ok (probe_of r v) = true.

(** What holds of all pairs that were stored holds of those that are kept. *)
Lemma stored_storeAll (Q : Result * option Probe → Prop) r l k v :
  empty_maps r → Forall Q l → latest (storeAll r l) !! k = Some v → Q (v, probe_of (storeAll r l) v).
Proof.
  intros [H1 H2] Hl. destruct (storeAll_lookup r l k) as [-> Hp].
  rewrite H1, lookup_empty. rewrite H2, lookup_empty in Hp.
  destruct (last _) as [[m p]|] eqn:E; simpl in *; intros [= <-].
  apply last_Some_elem_of in E as [Hk Hin]%list_elem_of_filter. simpl in Hk. subst k.
  unfold probe_of. rewrite Hp. rewrite Forall_forall in Hl. apply (Hl _ Hin).
Qed.

Lemma stored_ok_storeAll r l :
  empty_maps r →
  Forall (λ mp, result_labels_ok mp.1 = true ∧ probe_labels_ok mp.2 = true) l →
  stored_ok (storeAll r l).
Proof. intros He Hl k v Hv. apply (stored_storeAll _ r l k v He Hl Hv). Qed.

Lemma Collect_returns `{!PromLaws} r order clock w :
  LawfulExporter (exporter r) → stored_ok r → world_ok w →
  (Collect r order clock w).1 = Ret tt.
Proof.
  intros He Hs Hw. unfold Collect, CollectWith.
  assert (∀ l w, Forall (λ iv, ∃ k, latest r !! k = Some iv.2) l → world_ok w →
    (range_ l (λ '(i, v), if stale r (clock i) v then mret tt
                          else Export (exporter r) v (probe_of r v)) w).1 = Ret tt) as Hl.
  { clear w Hw. induction l as [|[i v] l IH]; intros w Hall Hw; [done|]. cbn [range_].
    apply Forall_cons in Hall as [[k Hk] Hall]. unfold mbind, GoM_bind.
    destruct (stale r (clock i) v); [by apply IH|].
    destruct (Hs k v Hk) as [Hr Hp]. destruct (export_total v (probe_of r v) w Hp Hr Hw) as [E Hw'].
    destruct (Export _ _ _ w) as [o w']. simpl in *. subst o. by apply IH. }
  specialize (Hl (imap pair (snapshot r order)) w).
  unfold mbind at 1, GoM_bind. destruct (range_ _ _ w) as [o w'] eqn:E. simpl in Hl.
  rewrite Hl; [|apply Forall_forall|done].
  - rewrite (range_run _ _ (λ h w, mkWorld (certFingerprint w) (sent w ++ hist_Collect (Hist h)))); [done|].
    intros h w0 _. rewrite (range_run _ _ (λ m w, mkWorld (certFingerprint w) (sent w ++ [m]))); [|done].
    f_equal. clear. revert w0. induction (hist_Collect (Hist h)) as [|m l IH]; intros w; simpl.
    + destruct w. by rewrite app_nil_r.
    + rewrite IH. simpl. by rewrite <-app_assoc.
  - intros iv (j & Hj)%list_elem_of_lookup. rewrite list_lookup_imap in Hj.
    destruct (snapshot r order !! j) eqn:Ej; simplify_eq/=.
    apply list_elem_of_lookup_2, list_elem_of_omap in Ej as (k & _ & Hk). eauto.
Qed.

(** When the probes and results that were added give valid label values,
    a collection ends without a panic: no result can break the exposition of
    the others. *)
Theorem Collect_never_panics `{!PromLaws} r l r' order clock w :
  LawfulExporter (exporter r) → empty_maps r →
  Forall (λ mp, result_labels_ok mp.1 = true ∧ probe_labels_ok mp.2 = true) l →
  AddAll r l = Ret r' → world_ok w →
  (Collect r' order clock w).1 = Ret tt.
Proof.
  intros He Hem Hl ->%AddAll_storeAll Hw.
  destruct (storeAll_fields r (filter (accepted r) l)) as (Hexp & _ & _).
  apply Collect_returns; [by rewrite Hexp| |done].
  apply stored_ok_storeAll; [done|].
  rewrite Forall_forall in *. intros mp [_ Hmp]%list_elem_of_filter. by apply Hl.
Qed.

End theorems.

(** ** Witnesses *)

Module ExportingW.
#[local] Existing Instances sAtlas sProm sPromLaws.

Definition prb (id asn : Z) : option Probe := Some (mkProbe id asn 0 "NL" []).

Definition hist_w : Histogram :=
  mkHistogram {| hi_opts := {| Namespace := "atlas"; Subsystem := "ping"; Name := "rtt_hist";
    Buckets := []; Help := ""; ConstLabels := [] |}; hi_obs := [] |} Ping.ProcessResult.

(** A ping measurement that rejects probes without an AS number and exports
    results of the last ten minutes. *)
Definition empty_w : Measurement :=
  Measurement.NewMeasurement (Ping.pingExporter "1001")
    [WithHistograms [hist_w]; WithValidator DefaultResultValidator; WithMaxResultAge (600 * Second)].

Definition added_w : list (Result * option Probe) :=
  [(sPing 1 1000 [f64_of_int 7], prb 1 1101); (sPing 2 300 [], prb 2 1102);
   (sPing 1 1060 [f64_of_int 9], prb 1 1101); (sPing 1 1120 [f64_of_int 8], prb 1 0)].

Definition full_w : Measurement := storeAll empty_w (take 3 added_w).

Lemma AddAll_w : AddAll empty_w added_w = Ret full_w.
Proof. reflexivity. Qed.

Lemma Add_keeps_last_accepted_witness :
  latest full_w !! 1 = Some (sPing 1 1060 [f64_of_int 9]) ∧ probes full_w !! 1 = Some (prb 1 1101).
Proof. apply (Add_keeps_last_accepted empty_w added_w full_w 1); [done|reflexivity]. Defined.

Lemma wf_full_w : wf full_w.
Proof. repeat apply wf_store. by apply wf_empty. Qed.

Lemma Collect_exports_fresh_witness :
  ∃ vs, NoDup (PrbId <$> vs) ∧
    (∀ v, v ∈ vs → latest full_w !! PrbId v = Some v ∧ (600 = 0 ∨ 1200 - 600 <= Timestamp v)) ∧
    (∀ v, latest full_w !! PrbId v = Some v → 600 = 0 ∨ 1201 - 600 <= Timestamp v → v ∈ vs) ∧
    ∀ w, CollectWith full_w full_w [2; 1] (λ _, 1200) w =
      (range_ vs (λ v, Export (exporter full_w) v (probe_of full_w v)) ;;
       range_ (histograms full_w) (λ h, range_ (hist_Collect (Hist h)) send)) w.
Proof.
  apply (Collect_exports_fresh full_w full_w [2; 1] (λ _, 1200) 600 1200 1201).
  - apply wf_full_w.
  - vm_compute. (reflexivity || apply Permutation_swap).
  - reflexivity.
  - lia.
  - lia.
  - lia.
  - intros i. lia.
Defined.

Lemma ping_lawful_w : LawfulExporter (exporter full_w).
Proof. by apply Ping.pingExporter_lawful. Qed.

Lemma Collect_described_witness :
  ∃ ms, sent (Collect full_w [1; 2] (λ _, 1200) (mkWorld "" [])).2 = [] ++ ms ∧
        Forall (λ m, metric_Desc m ∈ DescribeAll full_w) ms.
Proof.
  apply (Collect_described full_w [1; 2] (λ _, 1200) (mkWorld "" [])). apply ping_lawful_w.
Defined.

Lemma Collect_never_panics_witness :
  (Collect full_w [1; 2] (λ _, 1200) (mkWorld "" [])).1 = Ret tt.
Proof.
  apply (Collect_never_panics empty_w added_w full_w [1; 2] (λ _, 1200) (mkWorld "" [])).
  - by apply Ping.pingExporter_lawful.
  - done.
  - by repeat constructor.
  - reflexivity.
  - done.
Defined.

End ExportingW.
