(* ===== verification/Helper.v ===== *)
(** * Package atlas: probe_cache.go and the sequential part of helper.go

    The package variable cache is a nil pointer until InitCache has run.
    [AtlasVars] holds it; the concurrent part of helper.go is in
    ProbesForResults. *)

From S2P Require Import Prelude GoInt GoFloat GoStrings Apis Samples Probe ProbeCache Config.
From S2P Require Import Measurement Exporting.
From S2P Require Ping Traceroute Ntp Dns Http Sslcert.
Open Scope Z_scope.

(** ** probe_cache.go *)

(** The package variable [cache]. *)
Abbreviation AtlasVars := (option Cache.Cache).

Definition ticker_panic : string := "non-positive interval for NewTicker".

(** [time.NewTicker] *)
Definition NewTicker (d : Z) : Outcome unit :=
  if d <=? 0 then Panic ticker_panic else Ret tt.

(** What goes on during a CleanUp: its scan, which holds no lock, reaches a key
    at a time, or somebody adds a probe. *)
Inductive during := Visits (k t : Z) | Adds (id t : Z) (p : option Probe).

(** CleanUp as it meets them: [expired] is what the scan has collected.  After
    the last of them it takes the lock and deletes. *)
Fixpoint CleanUp_during (expired : list Z) (d : list during) (c : Cache.Cache) : Cache.Cache :=
  match d with
  | [] => Cache.CleanUp_delete c expired
  | Visits k t :: d' =>
      let expired' :=
        match Cache.items c !! k with
        | Some v => if Cache.expires v <? t then expired ++ [k] else expired
        | None => expired
        end in
      CleanUp_during expired' d' c
  | Adds id t p :: d' => CleanUp_during expired d' (Cache.Add c t id p)
  end.

(** What the select of the cleanup goroutine receives, a tick or the end of
    the context, and the additions between two of them. *)
Inductive cleanup_event := Tick (d : list during) | Between (id t : Z) (p : option Probe) | Done.

(** The loop: it stops at Done; [events] is what happened so far. *)
Fixpoint cleanup_loop (events : list cleanup_event) : GoM AtlasVars unit :=
  match events with
  | [] => mret tt
  | Done :: _ => mret tt
  | Tick d :: events' =>
      v ← get;
      c ← lift (deref v);
      modify (λ _, Some (CleanUp_during [] d c)) ;;
      cleanup_loop events'
  | Between id t p :: events' =>
      modify (fmap (λ c, Cache.Add c t id p)) ;;
      cleanup_loop events'
  end.

(** The body of the goroutine. *)
Definition startCacheCleanupFunc (d : Z) (events : list cleanup_event) : GoM AtlasVars unit :=
  lift (NewTicker d) ;; cleanup_loop events.

(** InitCache sets the variable, then starts the goroutine. *)
Definition InitCache (ttl cleanup : Z) (events : list cleanup_event) : GoM AtlasVars unit :=
  modify (λ _, Some (Cache.NewCache ttl)) ;;
  startCacheCleanupFunc cleanup events.

(** ** helper.go: probeForID *)

Section probeForID.

Definition retrieve_error (id : Z) (e : string) : string :=
  "could not retrieve probe information for probe " +:+ Itoa id +:+ ": " +:+ e.

(** [now] is the time Get reads, [now'] the time Add reads after the request. *)
Definition probeForID (c : HttpClient) (now now' id : Z) : GoM AtlasVars (GoResult (option Probe)) :=
  v ← get;
  cache ← lift (deref v);
  let '(p, found) := Cache.Get cache now id in
  if (found : bool) then mret (Ok p)
  else
    match Get c id with
    | Err e => mret (Err (retrieve_error id e))
    | Ok p =>
        modify (fmap (λ cache, Cache.Add cache now' id (Some p))) ;;
        mret (Ok (Some p))
    end.

(** Every case of a call with an initialised cache. *)
Lemma probeForID_run c now now' id cache :
  probeForID c now now' id (Some cache) =
    match Cache.Get cache now id with
    | (p, true) => (Ret (Ok p), Some cache)
    | (_, false) =>
        match Get c id with
        | Err e => (Ret (Err (retrieve_error id e)), Some cache)
        | Ok p => (Ret (Ok (Some p)), Some (Cache.Add cache now' id (Some p)))
        end
    end.
Proof.
  unfold probeForID, mbind, GoM_bind. simpl.
  destruct (Cache.Get cache now id) as [p []]; [done|]. by destruct (Get c id).
Qed.

(** ** Where probes come from

    [API id p] says that the Atlas API may answer a request for the probe [id]
    with the document of [p]. *)
Section provenance.
Context (API : Z → Probe → Prop).

Definition serves (c : HttpClient) : Prop := ∀ id p, Get c id = Ok p → API id p.

(** Nothing comes from a client whose requests fail. *)
Lemma serves_failing e : serves (λ _, Err e).
Proof. by intros id p. Qed.

(** The cache holds no nil pointers, and only what the API has answered. *)
Definition cache_from (c : Cache.Cache) : Prop :=
  ∀ k i, Cache.items c !! k = Some i → ∃ p, Cache.value i = Some p ∧ API k p.

Lemma cache_from_new ttl : cache_from (Cache.NewCache ttl).
Proof. intros k i. simpl. by rewrite lookup_empty. Qed.

Lemma cache_from_delete c ks : cache_from c → cache_from (Cache.CleanUp_delete c ks).
Proof. intros Hc k i. rewrite Cache.lookup_CleanUp_delete. case_decide; [done|apply Hc]. Qed.

Lemma cache_from_Add c now id p : cache_from c → API id p → cache_from (Cache.Add c now id (Some p)).
Proof.
  intros Hc Hp k i. rewrite Cache.lookup_Add. case_decide as Hk; [|apply Hc].
  intros [= <-]. subst k. by exists p.
Qed.

Lemma cache_from_Get c now id p : cache_from c → Cache.Get c now id = (p, true) → ∃ q, p = Some q ∧ API id q.
Proof.
  intros Hc. unfold Cache.Get. destruct (Cache.items c !! id) as [i|] eqn:E; [|done].
  case_match; [|done]. intros [= <-]. by apply (Hc id i).
Qed.

(** With such a cache a lookup gives a probe, or the error of the request. *)
Lemma probeForID_from c now now' id cache :
  cache_from cache → serves c →
  ∃ cache', cache_from cache' ∧
    ((∃ p, API id p ∧ probeForID c now now' id (Some cache) = (Ret (Ok (Some p)), Some cache')) ∨
     (∃ e e', Get c id = Err e ∧ probeForID c now now' id (Some cache) = (Ret (Err e'), Some cache'))).
Proof.
  intros Hn Hs. rewrite probeForID_run. destruct (Cache.Get cache now id) as [p []] eqn:Eg.
  - destruct (cache_from_Get cache now id p Hn Eg) as (q & -> & Hq). by eauto 10.
  - destruct (Get c id) as [q|e] eqn:E; [|by eauto 10].
    eexists. split; [by apply (cache_from_Add cache now' id q); [|apply Hs]|]. left. eauto.
Qed.

End provenance.

(** A probe that was retrieved is served from the cache, without a
    request, until its time-to-live is over; a failed request leaves the
    cache as it was, so the next call asks again. *)
Theorem probeForID_caches c now now' id cache :
  match probeForID c now now' id (Some cache) with
  | (Ret (Ok p), v) =>
      Cache.Get cache now id = (p, true) ∧ v = Some cache ∨
      (∀ c' t t', t < now' + Cache.ttl cache → probeForID c' t t' id v = (Ret (Ok p), v)) ∧
      ∃ q, Get c id = Ok q ∧ p = Some q
  | (Ret (Err e), v) => v = Some cache ∧ ∃ e', Get c id = Err e' ∧ e = retrieve_error id e'
  | (Panic _, _) => False
  end.
Proof.
  rewrite probeForID_run. destruct (Cache.Get cache now id) as [p []] eqn:E; [by left|].
  destruct (Get c id) as [q|e] eqn:Eg; [right|by eauto]. split; [|by eauto].
  intros c' t t' Ht. rewrite probeForID_run. unfold Cache.Get. rewrite Cache.lookup_Add, decide_True by done.
  simpl. by destruct (Z.ltb_spec t (now' + Cache.ttl cache)); [|lia].
Qed.

End probeForID.

(** ** helper.go: measurementForType *)

Section measurementForType.
Context {A : AtlasAPI} {P : PromAPI}.

Definition unsupported (t : string) : string := "type " +:+ t +:+ " is not supported yet".

Definition ok {B} (o : Outcome B) : Outcome (GoResult B) := m ← o; Ret (Ok m).

Definition measurementForType (t id ipVersion : string) (cfg : Config) :
  Outcome (GoResult Measurement) :=
  if bool_decide (t = "ping") then ok (Ping.NewMeasurement id ipVersion cfg)
  else if bool_decide (t = "traceroute") then ok (Traceroute.NewMeasurement id ipVersion cfg)
  else if bool_decide (t = "ntp") then ok (Ntp.NewMeasurement id cfg)
  else if bool_decide (t = "dns") then ok (Dns.NewMeasurement id ipVersion cfg)
  else if bool_decide (t = "http") then ok (Http.NewMeasurement id ipVersion cfg)
  else if bool_decide (t = "sslcert") then ok (Sslcert.NewMeasurement id cfg)
  else Ret (Err (unsupported t)).

Definition supported : list string := ["ping"; "traceroute"; "ntp"; "dns"; "http"; "sslcert"].

(** The configured bounds that the Prometheus client accepts. *)
Definition buckets_increasing (cfg : Config) : Prop :=
  Forall (λ nb : string * list float64, increasing nb.2 = true) (bucket_entries cfg).

(** A validator reads the probe: it panics on a nil one, and on no other. *)
Definition reads_probe (v : ResultValidator) : Prop :=
  (∀ r, IsValid v r None = Panic nil_deref) ∧ (∀ r p, ∃ b, IsValid v r (Some p) = Ret b).

Lemma default_reads_probe : reads_probe DefaultResultValidator.
Proof.
  split; intros r; simpl; unfold ASNForIPVersion; case_match; try done; intros p; by eexists.
Qed.

Lemma traceroute_reads_probe : reads_probe Traceroute.tracerouteResultValidator.
Proof.
  split; intros r; simpl; unfold ASNForIPVersion; case_match; try done; intros p; by eexists.
Qed.

(** A new measurement: empty, set up as configured, and with an exporter and
    histograms that keep the promises of Exporting. *)
Definition fresh_measurement (cfg : Config) (m : Measurement) : Prop :=
  empty_maps m ∧ LawfulExporter (exporter m) ∧
  maxResultAge m = Z.max 0 (MaxResultAge cfg) ∧
  (is_Some (validator m) ↔ FilterInvalidResults cfg = true) ∧
  (∀ v, validator m = Some v → reads_probe v) ∧
  Forall (λ h, observations (Hist h) = [] ∧ ∃ times, LawfulHistogram h times) (histograms m).

Lemma fresh_options cfg e hs v :
  LawfulExporter e → reads_probe v →
  Forall (λ h, observations (Hist h) = [] ∧ ∃ times, LawfulHistogram h times) hs →
  let opts := [WithHistograms hs] in
  let opts := if FilterInvalidResults cfg then opts ++ [WithValidator v] else opts in
  let opts := if 0 <? MaxResultAge cfg then opts ++ [WithMaxResultAge (MaxResultAge cfg)] else opts in
  fresh_measurement cfg (Measurement.NewMeasurement e opts).
Proof.
  intros He Hv Hh. unfold fresh_measurement.
  destruct (FilterInvalidResults cfg), (Z.ltb_spec 0 (MaxResultAge cfg)); simpl;
    (split; [done|]; split; [done|]; split; [simpl; lia|]; split; [|split; [|done]]);
    first [split; [intros [? ?]|intros]; done | by intros ? [= <-]].
Qed.

Lemma fresh_options_nohist cfg e v :
  LawfulExporter e → reads_probe v →
  let opts := [] in
  let opts := if FilterInvalidResults cfg then opts ++ [WithValidator v] else opts in
  let opts := if 0 <? MaxResultAge cfg then opts ++ [WithMaxResultAge (MaxResultAge cfg)] else opts in
  fresh_measurement cfg (Measurement.NewMeasurement e opts).
Proof.
  intros He Hv. unfold fresh_measurement.
  destruct (FilterInvalidResults cfg), (Z.ltb_spec 0 (MaxResultAge cfg)); simpl;
    (split; [done|]; split; [done|]; split; [simpl; lia|]; split; [|split; [|done]]);
    first [split; [intros [? ?]|intros]; done | by intros ? [= <-]].
Qed.

Lemma default_increasing (b : option (list float64)) d :
  increasing (default [] b) = true → increasing d = true → increasing (default d b) = true.
Proof. by destruct b. Qed.

(** The histogram of every package that has one starts empty. *)
Ltac new_hist Hb :=
  match goal with
  | |- context [NewHistogram ?o] =>
      let h := fresh "h" in let E := fresh "E" in let Ho := fresh "Ho" in
      destruct (NewHistogram_ok o) as (h & E & Ho);
      [apply default_increasing; [exact Hb|reflexivity] | simpl; set_solver | rewrite E ]
  end.

Lemma measurementForType_ok `{!PromLaws} t id v cfg :
  t ∈ supported → label_ok id = true → buckets_increasing cfg →
  ∃ m, measurementForType t id v cfg = Ret (Ok m) ∧ fresh_measurement cfg m.
Proof.
  intros Ht Hid Hb. unfold buckets_increasing, bucket_entries in Hb.
  rewrite !Forall_cons in Hb. simpl in Hb. destruct Hb as (Hd & Hh & Hp & Htr & _).
  unfold measurementForType, supported in *. rewrite !elem_of_cons in Ht.
  destruct Ht as [->|[->|[->|[->|[->|[->|[]%not_elem_of_nil]]]]]]; simpl;
    unfold Ping.NewMeasurement, Traceroute.NewMeasurement, Ntp.NewMeasurement, Dns.NewMeasurement,
      Http.NewMeasurement, Sslcert.NewMeasurement, Ping.newRttHistogram,
      Traceroute.newRttHistogram, Dns.newRttHistogram, Http.newRttHistogram;
    [new_hist Hp|new_hist Htr| |new_hist Hd|new_hist Hh|];
    (eexists; split; [reflexivity|]); (apply fresh_options || apply fresh_options_nohist);
    try (repeat constructor; [assumption|]; eexists; apply _);
    try (apply default_reads_probe || apply traceroute_reads_probe).
  - by apply Ping.pingExporter_lawful.
  - by apply Traceroute.tracerouteExporter_lawful.
  - by apply Ntp.ntpExporter_lawful.
  - by apply Dns.dnsExporter_lawful.
  - by apply Http.httpExporter_lawful.
  - by apply Sslcert.sslCertExporter_lawful.
Qed.

Lemma measurementForType_err t id v cfg :
  t ∉ supported → measurementForType t id v cfg = Ret (Err (unsupported t)).
Proof.
  unfold supported, measurementForType. rewrite !not_elem_of_cons. intros (?&?&?&?&?&?&_).
  by repeat rewrite bool_decide_eq_false_2 by done.
Qed.

(** Each of the six result types gives an empty measurement set up as
    configured, whose exporter and histograms keep the promises that
    Measurement relies on; every other type is an error. *)
Theorem measurementForType_lawful `{!PromLaws} t id v cfg :
  label_ok id = true → buckets_increasing cfg →
  if bool_decide (t ∈ supported)
  then ∃ m, measurementForType t id v cfg = Ret (Ok m) ∧ fresh_measurement cfg m
  else measurementForType t id v cfg = Ret (Err (unsupported t)).
Proof.
  intros Hid Hb. case_bool_decide; [by apply measurementForType_ok|by apply measurementForType_err].
Qed.

(** The configuration with other bounds for the ping histogram. *)
Definition set_ping_rtt (c : Config) (b : list float64) : Config := {|
  Web_ListenAddress := Web_ListenAddress c; Web_TelemetryPath := Web_TelemetryPath c;
  Cache_TTL := Cache_TTL c; Cache_Cleanup := Cache_Cleanup c; Timeout := Timeout c;
  Worker_Count := Worker_Count c; Streaming_Enabled := Streaming_Enabled c;
  Streaming_BufferSize := Streaming_BufferSize c; Profiling_Enabled := Profiling_Enabled c;
  Metrics_GoEnabled := Metrics_GoEnabled c; Metrics_ProcessEnabled := Metrics_ProcessEnabled c;
  Log_Level := Log_Level c; TLS_Enabled := TLS_Enabled c; TLS_CertFile := TLS_CertFile c;
  TLS_KeyFile := TLS_KeyFile c; DNS_NSIDEnabled := DNS_NSIDEnabled c;
  Health_MaxDataAge := Health_MaxDataAge c;
  cfg_HistogramBuckets := {| HB_DNS := HB_DNS (cfg_HistogramBuckets c);
    HB_HTTP := HB_HTTP (cfg_HistogramBuckets c); HB_Ping := {| Rtt := Some b |};
    HB_Traceroute := HB_Traceroute (cfg_HistogramBuckets c) |};
  Measurements := Measurements c; FilterInvalidResults := FilterInvalidResults c;
  MaxResultAge := MaxResultAge c
|}.

Lemma Validate_set_ping_rtt c b :
  Validate c (bucket_entries c) = None → isNonDecreasingNonNegative b = true →
  Validate (set_ping_rtt c b) (bucket_entries (set_ping_rtt c b)) = None.
Proof.
  unfold Validate, bucket_entries. simpl. intros H Hb. rewrite !Hb.
  repeat case_match; simplify_eq/=; done.
Qed.

(** Validate accepts bucket bounds that the Prometheus client does not:
    from any valid configuration, two equal bounds in
    histogram_buckets.ping.rtt give one that passes Validate, and with it
    every ping measurement panics when it is created. *)
Theorem equal_buckets_panic `{!PromLaws} cfg x :
  Validate cfg (bucket_entries cfg) = None →
  f64_lt x f64_zero = false → f64_lt x x = false → f64_le x x = true →
  let cfg' := set_ping_rtt cfg [x; x] in
  Validate cfg' (bucket_entries cfg') = None ∧
  ∀ id v, ∃ msg, measurementForType "ping" id v cfg' = Panic msg.
Proof.
  intros Hv H0 Hlt Hle cfg'. split.
  - apply Validate_set_ping_rtt; [done|]. unfold isNonDecreasingNonNegative. simpl. by rewrite H0, Hlt.
  - intros id v. unfold measurementForType, Ping.NewMeasurement, Ping.newRttHistogram. simpl.
    match goal with |- context [NewHistogram ?o] => destruct (NewHistogram_bad o) as [msg E] end.
    { simpl. by rewrite Hle. }
    rewrite E. by exists msg.
Qed.

End measurementForType.

(** ** The cleanup goroutine *)

(** The same additions without the clean-ups. *)
Fixpoint adds_during (d : list during) (c : Cache.Cache) : Cache.Cache :=
  match d with
  | [] => c
  | Visits _ _ :: d' => adds_during d' c
  | Adds id t p :: d' => adds_during d' (Cache.Add c t id p)
  end.

Fixpoint additions (events : list cleanup_event) (c : Cache.Cache) : Cache.Cache :=
  match events with
  | [] => c
  | Done :: _ => c
  | Tick d :: events' => additions events' (adds_during d c)
  | Between id t p :: events' => additions events' (Cache.Add c t id p)
  end.

(** No scan of [events] reads the clock at [k] after [now]. *)
Definition reads_before (now k : Z) (d : list during) : Prop := ∀ t, Visits k t ∈ d → t <= now.
Definition ticks_before (events : list cleanup_event) (now k : Z) : Prop :=
  ∀ d, Tick d ∈ events → reads_before now k d.

(** Nobody adds [k] between the visit of a scan and the deletion. *)
Definition not_readded (k : Z) (d : list during) : Prop :=
  ∀ l1 t l2 t' p, d = l1 ++ Visits k t :: l2 → Adds k t' p ∉ l2.
Definition no_race (events : list cleanup_event) (k : Z) : Prop := ∀ d, Tick d ∈ events → not_readded k d.

(** At [k], [c] differs from [a] at most by an entry that is over at [now]. *)
Definition over (now k : Z) (a : Cache.Cache) : Prop :=
  ∃ i, Cache.items a !! k = Some i ∧ Cache.expires i < now.
Definition agree (now k : Z) (c a : Cache.Cache) : Prop :=
  Cache.ttl c = Cache.ttl a ∧
  (Cache.items c !! k = Cache.items a !! k ∨ Cache.items c !! k = None ∧ over now k a).

Lemma agree_Get now k c a : agree now k c a → Cache.Get c now k = Cache.Get a now k.
Proof.
  unfold Cache.Get. intros [_ [->|[-> (i & -> & Hi)]]]; [done|]. by destruct (Z.ltb_spec now (Cache.expires i)); [lia|].
Qed.

Lemma agree_Add now k c a id t p : agree now k c a → agree now k (Cache.Add c t id p) (Cache.Add a t id p).
Proof.
  intros [Ht H]. split; [done|]. unfold over. rewrite !Cache.lookup_Add, Ht. case_decide; [by left|done].
Qed.

Lemma not_readded_tail k e d : not_readded k (e :: d) → not_readded k d.
Proof. intros H l1 t l2 t' p ->. by apply (H (e :: l1) t l2). Qed.

Lemma reads_before_tail now k e d : reads_before now k (e :: d) → reads_before now k d.
Proof. intros H t Ht. apply H. by right. Qed.

Lemma CleanUp_during_agree now k d : ∀ expired c a,
  reads_before now k d → not_readded k d → agree now k c a →
  (k ∈ expired → over now k a ∧ ∀ t p, Adds k t p ∉ d) →
  agree now k (CleanUp_during expired d c) (adds_during d a).
Proof.
  induction d as [|[j t|id t p] d IH]; intros ex c a Hr Hn Ha He; simpl.
  - destruct Ha as [Ht Ha]. split; [done|]. rewrite Cache.lookup_CleanUp_delete.
    case_decide as Hk; [|done]. right. split; [done|]. by apply He.
  - apply IH; [by eapply reads_before_tail|by eapply not_readded_tail|done|].
    assert (k ∈ ex → over now k a ∧ ∀ t p, Adds k t p ∉ d) as He'.
    { intros [Ho Hd]%He. split; [done|]. intros t' p Hin. apply (Hd t' p). by right. }
    destruct (Cache.items c !! j) as [i|] eqn:Ej; [|done]. destruct (Z.ltb_spec (Cache.expires i) t) as [Hi|]; [|done].
    rewrite elem_of_app, list_elem_of_singleton. intros [Hk| ->]; [by apply He'|]. split.
    + destruct Ha as [_ [Hia|[Hia Ho]]]; [|congruence]. exists i. rewrite <-Hia. split; [done|].
      enough (t <= now) by lia. apply Hr. left.
    + intros t' p. by apply (Hn [] t d).
  - apply IH; [by eapply reads_before_tail|by eapply not_readded_tail|by apply agree_Add|].
    intros [Ho Hd]%He. assert (id ≠ k) as Hne by (intros ->; apply (Hd t p); left). split.
    + unfold over. by rewrite Cache.lookup_Add, decide_False.
    + intros t' p' Hin. apply (Hd t' p'). by right.
Qed.

Lemma cleanup_loop_agree now k events : ∀ c a,
  ticks_before events now k → no_race events k → agree now k c a →
  ∃ c', cleanup_loop events (Some c) = (Ret tt, Some c') ∧ agree now k c' (additions events a).
Proof.
  induction events as [|e events IH]; intros c a Ht Hn Ha; [by exists c|].
  assert (ticks_before events now k ∧ no_race events k) as [Ht' Hn'].
  { split; intros d Hd; [apply Ht|apply Hn]; by right. }
  destruct e as [d|id t p|]; [| |by exists c].
  - destruct (IH (CleanUp_during [] d c) (adds_during d a)) as (c' & Hc & Ha'); [done..| |by exists c'].
    apply CleanUp_during_agree; [apply Ht; left|apply Hn; left|done|by intros ?%not_elem_of_nil].
  - destruct (IH (Cache.Add c t id p) (Cache.Add a t id p)) as (c' & Hc & Ha'); [done..|by apply agree_Add|by exists c'].
Qed.

(** What a scan found expired and nobody adds again is gone. *)
Lemma CleanUp_during_deletes k d : ∀ expired c,
  (∀ t p, Adds k t p ∉ d) →
  k ∈ expired ∨ (∃ i t, Cache.items c !! k = Some i ∧ Visits k t ∈ d ∧ Cache.expires i < t) →
  Cache.items (CleanUp_during expired d c) !! k = None.
Proof.
  induction d as [|[j t|id t p] d IH]; intros ex c Hd H; simpl.
  - destruct H as [H|(i & t & _ & []%not_elem_of_nil & _)].
    rewrite Cache.lookup_delete_list. by rewrite decide_True.
  - apply IH; [intros t' p Hin; apply (Hd t' p); by right|]. destruct H as [H|(i & t' & Hi & Hv & Hx)].
    + left. repeat case_match; [apply elem_of_app; by left|done..].
    + apply elem_of_cons in Hv as [[= <- <-]|Hv]; [|right; by eauto]. left. rewrite Hi.
      destruct (Z.ltb_spec (Cache.expires i) t'); [|lia]. apply elem_of_app. right. by left.
  - assert (id ≠ k) as Hne by (intros ->; apply (Hd t p); left).
    apply IH; [intros t' p' Hin; apply (Hd t' p'); by right|]. destruct H as [H|(i & t' & Hi & Hv & Hx)]; [by left|].
    apply elem_of_cons in Hv as [[=]|Hv]. right. exists i, t'. by rewrite Cache.lookup_Add, decide_False.
Qed.

Lemma cleanup_loop_runs events c : ∃ c', cleanup_loop events (Some c) = (Ret tt, Some c').
Proof.
  revert c. induction events as [|[d|id t p|] events IH]; intros c; [by exists c| | |by exists c]; apply IH.
Qed.

Lemma cleanup_loop_app es es' c c' :
  Done ∉ es → cleanup_loop es (Some c) = (Ret tt, Some c') →
  cleanup_loop (es ++ es') (Some c) = cleanup_loop es' (Some c').
Proof.
  revert c. induction es as [|[d|id t p|] es IH]; intros c Hd E; [by injection E as ->| | |by destruct Hd; left];
    apply IH; try exact E; intros Hin; apply Hd; by right.
Qed.

(** C38: the cleanup goroutine, with probes added before, between and during
    its clean-ups.  With a positive interval it runs for any sequence of
    ticks without a panic, and the cache answers what it would answer without
    clean-ups, for every identifier that nobody adds between the visit of a
    scan and its deletion (cache.go scans without the lock, so that such an
    addition can be lost); and an entry that the latest scan saw expired is
    gone.  With an interval of zero or less the goroutine panics at once, and
    nothing recovers that panic: Validate accepts an interval of zero in any
    configuration that it accepts otherwise, and with it the process ends
    when InitCache runs. *)
Theorem cleanup_goroutine_spec cfg d events c :
  Validate cfg (bucket_entries cfg) = None →
  (0 < d →
     ∃ c', startCacheCleanupFunc d events (Some c) = (Ret tt, Some c') ∧
       (∀ now k, ticks_before events now k → no_race events k →
          Cache.Get c' now k = Cache.Get (additions events c) now k) ∧
       (∀ es du k c1 i t, events = es ++ [Tick du] → Done ∉ es →
          startCacheCleanupFunc d es (Some c) = (Ret tt, Some c1) →
          Cache.items c1 !! k = Some i → Visits k t ∈ du → Cache.expires i < t → (∀ t' p, Adds k t' p ∉ du) →
          Cache.items c' !! k = None)) ∧
  (d <= 0 → startCacheCleanupFunc d events (Some c) = (Panic ticker_panic, Some c)) ∧
  let cfg' := with_settings cfg (Web_TelemetryPath cfg) 0 (Measurements cfg) in
  Validate cfg' (bucket_entries cfg') = None ∧
  ∀ v, (InitCache (Cache_TTL cfg') (Cache_Cleanup cfg') events v).1 = Panic ticker_panic.
Proof.
  intros Hval. split; [|split; [|split]].
  - unfold startCacheCleanupFunc, NewTicker, mbind, GoM_bind. simpl. intros Hd.
    destruct (Z.leb_spec d 0); [lia|]. destruct (cleanup_loop_runs events c) as [c' Hc]. exists c'.
    split; [done|]. split.
    + intros now k Ht Hn. destruct (cleanup_loop_agree now k events c c) as (c2 & Hc2 & Ha); [done..|by split; [|left]|].
      apply agree_Get. replace c' with c2 by congruence. done.
    + intros es du k c1 i t -> Hes H1 Hi Hv Hx Hn. rewrite (cleanup_loop_app _ _ _ c1) in Hc by done.
      injection Hc as <-. apply CleanUp_during_deletes; [done|]. right. by exists i, t.
  - unfold startCacheCleanupFunc, NewTicker, mbind, GoM_bind. simpl. intros Hd. by destruct (Z.leb_spec d 0); [|lia].
  - apply Validate_iff in Hval as Hvc; [|done]. by apply Validate_with_settings; [|apply HasPrefix_spec, Hvc|].
  - done.
Qed.

(** ** Witnesses *)

Module HelperW.
#[local] Existing Instances sAtlas sProm sPromLaws.

Lemma measurementForType_lawful_witness :
  ∃ m, measurementForType "dns" "1001" "4" defaultConfig = Ret (Ok m) ∧
       fresh_measurement defaultConfig m.
Proof.
  apply (measurementForType_lawful "dns" "1001" "4" defaultConfig).
  - reflexivity.
  - repeat constructor.
Defined.

Lemma equal_buckets_panic_witness :
  Validate (set_ping_rtt defaultConfig [f64_of_int 5; f64_of_int 5])
    (bucket_entries (set_ping_rtt defaultConfig [f64_of_int 5; f64_of_int 5])) = None ∧
  ∀ id v, ∃ msg, measurementForType "ping" id v
    (set_ping_rtt defaultConfig [f64_of_int 5; f64_of_int 5]) = Panic msg.
Proof. apply (equal_buckets_panic defaultConfig (f64_of_int 5)); reflexivity. Defined.

(** Probe 6031 is added at time 0 with a time-to-live of 10, probe 6032 during
    the clean-up that finds the first expired. *)
Definition events_w : list cleanup_event :=
  [Between 6031 0 (Some probe_w); Tick [Visits 6031 20; Adds 6032 21 (Some probe_w)]].

Lemma cleanup_goroutine_spec_witness :
  (∃ c', startCacheCleanupFunc 300 events_w (Some (Cache.NewCache 10)) = (Ret tt, Some c') ∧
     Cache.Get c' 25 6032 = Cache.Get (additions events_w (Cache.NewCache 10)) 25 6032 ∧
     Cache.items c' !! 6031 = None) ∧
  startCacheCleanupFunc 0 events_w (Some (Cache.NewCache 10)) = (Panic ticker_panic, Some (Cache.NewCache 10)) ∧
  let cfg' := with_settings defaultConfig (Web_TelemetryPath defaultConfig) 0 (Measurements defaultConfig) in
  Validate cfg' (bucket_entries cfg') = None ∧
  ∀ v, (InitCache (Cache_TTL cfg') (Cache_Cleanup cfg') events_w v).1 = Panic ticker_panic.
Proof.
  assert (Validate defaultConfig (bucket_entries defaultConfig) = None) as Hv by reflexivity.
  destruct (cleanup_goroutine_spec defaultConfig 300 events_w (Cache.NewCache 10) Hv) as [H1 [_ H3]].
  destruct (cleanup_goroutine_spec defaultConfig 0 events_w (Cache.NewCache 10) Hv) as [_ [H2 _]].
  split; [|split; [by apply H2|exact H3]]. destruct H1 as (c' & E & Hg & Hx); [lia|].
  exists c'. split; [exact E|]. split.
  - apply Hg.
    + intros d [[=]|[[= ->]|[]%not_elem_of_nil]%elem_of_cons]%elem_of_cons t Ht.
      apply elem_of_cons in Ht as [[=]|[[=]|[]%not_elem_of_nil]%elem_of_cons].
    + intros d [[=]|[[= ->]|[]%not_elem_of_nil]%elem_of_cons]%elem_of_cons [|x l1] t l2 t' p; [done|].
      intros [= _ Hd]. destruct l1 as [|y l1]; [done|]. injection Hd as _ Hd. by destruct l1.
  - eapply (Hx [Between 6031 0 (Some probe_w)] [Visits 6031 20; Adds 6032 21 (Some probe_w)] 6031 _ _ 20).
    + reflexivity.
    + intros [[=]|[]%not_elem_of_nil]%elem_of_cons.
    + reflexivity.
    + reflexivity.
    + left.
    + reflexivity.
    + intros t' p [[=]|[[=]|[]%not_elem_of_nil]%elem_of_cons]%elem_of_cons.
Defined.

End HelperW.
