(* ===== verification/Lookups.v ===== *)
(** * Concurrent calls of probeForID

    The workers of probesForResults, those of other scrapes and the processor
    of the streams call probeForID at the same time, while the clean-up runs.
    Here a call goes step by step: it looks into the cache, sends its request
    and adds the answer, and other calls and the clean-up go in between.  The
    functions of package probe keep the lock, so that each is one step, except
    CleanUp, which takes the lock only to delete: its scan is a step for each
    key it reaches, and calls go on between them.  What Go's runtime does when
    such a scan meets a write of the map is [race].  [added] and [asked] record
    the additions and the requests; no step reads them. *)

From S2P Require Import Prelude GoInt GoFloat GoStrings Json Probe ProbeCache Helper.
Open Scope Z_scope.

Section lookups.
Context (API : Z → Probe → Prop).

(** Where a call is: before cache.Get, in probe.Get, before cache.Add, or
    returned, at the time given. *)
Inductive call :=
| Looking (id : Z)
| Requesting (id : Z)
| Adding (id : Z) (p : Probe)
| Ended (id t : Z) (r : GoResult (option Probe)).

(** The scan of a CleanUp under way: the keys of the map when it began, those
    it has reached and those it found expired. *)
Record scan := mkScan { todo : gset Z; seen : gset Z; expired : list Z }.

Record lstate := mkL {
  cache : Cache.Cache;
  now : Z;
  pending : option scan;
  calls : list call;
  added : list (Z * Z * Probe);      (* identifier, time, probe *)
  asked : list Z
}.

(** InitCache *)
Definition init (ttl t0 : Z) : lstate := mkL (Cache.NewCache ttl) t0 None [] [] [].

Inductive lstep : lstate → lstate → Prop :=
| l_tick c t t' pd cs ad ak : t <= t' →
    lstep (mkL c t pd cs ad ak) (mkL c t' pd cs ad ak)
| l_call c t pd cs ad ak id :
    lstep (mkL c t pd cs ad ak) (mkL c t pd (cs ++ [Looking id]) ad ak)
(** [p, found := cache.Get(id)] *)
| l_hit c t pd cs ad ak i id p : cs !! i = Some (Looking id) → Cache.Get c t id = (p, true) →
    lstep (mkL c t pd cs ad ak) (mkL c t pd (<[i := Ended id t (Ok p)]> cs) ad ak)
| l_miss c t pd cs ad ak i id p : cs !! i = Some (Looking id) → Cache.Get c t id = (p, false) →
    lstep (mkL c t pd cs ad ak) (mkL c t pd (<[i := Requesting id]> cs) ad (ak ++ [id]))
(** [p, err := probe.Get(id)] *)
| l_answer c t pd cs ad ak i id client p : cs !! i = Some (Requesting id) →
    serves API client → Get client id = Ok p →
    lstep (mkL c t pd cs ad ak) (mkL c t pd (<[i := Adding id p]> cs) ad ak)
| l_fail c t pd cs ad ak i id client e : cs !! i = Some (Requesting id) →
    serves API client → Get client id = Err e →
    lstep (mkL c t pd cs ad ak) (mkL c t pd (<[i := Ended id t (Err (retrieve_error id e))]> cs) ad ak)
(** [cache.Add(id, p)] *)
| l_add c t pd cs ad ak i id p : cs !! i = Some (Adding id p) →
    lstep (mkL c t pd cs ad ak)
          (mkL (Cache.Add c t id (Some p)) t pd (<[i := Ended id t (Ok (Some p))]> cs) (ad ++ [(id, t, p)]) ak)
(** CleanUp: [for k, v := range c.cache], which reaches every key that is there
    from the beginning, once, and may or may not reach one added meanwhile *)
| l_scan c t cs ad ak :
    lstep (mkL c t None cs ad ak) (mkL c t (Some (mkScan (dom (Cache.items c)) ∅ [])) cs ad ak)
| l_visit c t td sn ex cs ad ak k v : Cache.items c !! k = Some v → k ∉ sn →
    lstep (mkL c t (Some (mkScan td sn ex)) cs ad ak)
          (mkL c t (Some (mkScan td ({[k]} ∪ sn) (if Cache.expires v <? t then ex ++ [k] else ex))) cs ad ak)
| l_delete c t td sn ex cs ad ak : td ⊆ sn →
    lstep (mkL c t (Some (mkScan td sn ex)) cs ad ak) (mkL (Cache.CleanUp_delete c ex) t None cs ad ak).

(** A scan with a key left to reach and a call that is about to write: nothing
    orders the two, and when Go's runtime sees them at the same time it ends
    the process with "fatal error: concurrent map iteration and map write",
    which no recover catches.  (The steps above go on as when it does not.) *)
Inductive race : lstate → Prop :=
| race_write c t td sn ex cs ad ak k i id p :
    k ∈ td → k ∉ sn → cs !! i = Some (Adding id p) → race (mkL c t (Some (mkScan td sn ex)) cs ad ak).

(** ** What a call returns *)

(** A probe that the API gave for [id], added at most [ttl] before [t]. *)
Definition recent (ttl : Z) (ad : list (Z * Z * Probe)) (id t : Z) (p : Probe) : Prop :=
  API id p ∧ ∃ t', (id, t', p) ∈ ad ∧ t' <= t ∧ (t = t' ∨ t < t' + ttl).

Definition call_ok (ttl : Z) (ad : list (Z * Z * Probe)) (c : call) : Prop :=
  match c with
  | Looking _ | Requesting _ => True
  | Adding id p => API id p
  | Ended id t (Ok o) => ∃ p, o = Some p ∧ recent ttl ad id t p
  | Ended id t (Err e) => ∃ client e', Get client id = Err e' ∧ e = retrieve_error id e'
  end.

(** Every entry of the cache is an addition of the log. *)
Record linv (ttl : Z) (s : lstate) : Prop := {
  l_ttl : Cache.ttl (cache s) = ttl;
  l_calls : Forall (call_ok ttl (added s)) (calls s);
  l_items id i : Cache.items (cache s) !! id = Some i →
    ∃ p t, Cache.value i = Some p ∧ API id p ∧ (id, t, p) ∈ added s ∧ t <= now s ∧ Cache.expires i = t + ttl
}.

Lemma call_ok_mono ttl ad x c : call_ok ttl ad c → call_ok ttl (ad ++ [x]) c.
Proof.
  destruct c as [| | |id t [o|e]]; simpl; try done. intros (p & -> & Hp & t' & Hin & Ht).
  exists p. split; [done|]. split; [done|]. exists t'. split; [|done]. apply elem_of_app. by left.
Qed.

Lemma linv_lstep ttl s s' : lstep s s' → linv ttl s → linv ttl s'.
Proof.
  intros Hs [Ht Hc Hi].
  destruct Hs as [c t t' pd cs ad ak Hle|c t pd cs ad ak id|c t pd cs ad ak i id p Hl Hg|c t pd cs ad ak i id p Hl Hg
    |c t pd cs ad ak i id client p Hl Hv Hg|c t pd cs ad ak i id client e Hl Hv Hg|c t pd cs ad ak i id p Hl
    |c t cs ad ak|c t td sn ex cs ad ak k v Hk Hn|c t td sn ex cs ad ak Hsub];
    cbn [cache now pending calls added asked] in *; split; cbn [cache now pending calls added asked]; try done.
  - intros id i Hid. destruct (Hi id i Hid) as (p & u & ? & ? & ? & ? & ?). exists p, u. split_and!; done || lia.
  - apply Forall_app. split; [done|]. by apply Forall_singleton.
  - apply Forall_insert; [done|]. unfold Cache.Get in Hg.
    destruct (Cache.items c !! id) as [it|] eqn:E; [|done]. destruct (Z.ltb_spec t (Cache.expires it)); [|done].
    injection Hg as <-. destruct (Hi id it E) as (q & u & -> & Hq & Hin & Hu & Hx). exists q. split; [done|].
    split; [done|]. exists u. split_and!; [done..|lia].
  - by apply Forall_insert.
  - apply Forall_insert; [done|]. by apply Hv.
  - apply Forall_insert; [done|]. by exists client, e.
  - apply Forall_insert.
    + eapply Forall_impl; [exact Hc|]. intros x. apply call_ok_mono.
    + exists p. split; [done|]. split; [apply (Forall_lookup_1 _ _ _ _ Hc Hl)|]. exists t.
      split; [apply elem_of_app; right; left|]. split; [lia|by left].
  - intros k it. rewrite Cache.lookup_Add. case_decide as Hk.
    + intros [= <-]. subst k. exists p, t. split_and!; [done|apply (Forall_lookup_1 _ _ _ _ Hc Hl)|
        apply elem_of_app; right; left|lia|by rewrite Ht].
    + intros Hk'. destruct (Hi k it Hk') as (q & u & ? & ? & ? & ? & ?). exists q, u.
      split_and!; [done..| |done|done]. apply elem_of_app. by left.
  - intros k it. rewrite Cache.lookup_CleanUp_delete. case_decide; [done|apply Hi].
Qed.

Lemma linv_reach ttl t0 s : rtc lstep (init ttl t0) s → linv ttl s.
Proof.
  intros H. eapply (rtc_ind_r (linv ttl)); [|intros y z _ Hs; by apply linv_lstep|exact H].
  split; simpl; [done|constructor|]. intros id i. by rewrite lookup_empty.
Qed.

(** ** Calls end *)

(** The steps that a call has still to take, at most. *)
Definition steps_left (c : call) : nat :=
  match c with Looking _ => 3 | Requesting _ => 2 | Adding _ _ => 1 | Ended _ _ _ => 0 end.

Definition subject (c : call) : Z :=
  match c with Looking id | Requesting id | Adding id _ | Ended id _ _ => id end.

(** A call can always go on: no step of it waits for another call. *)
Lemma call_goes_on s i c :
  calls s !! i = Some c → (0 < steps_left c)%nat →
  ∃ s' c', lstep s s' ∧ calls s' = <[i := c']> (calls s) ∧ subject c' = subject c ∧
    (steps_left c' < steps_left c)%nat.
Proof.
  destruct s as [ca t pd cs ad ak]. simpl. intros Hi Hl. destruct c as [id|id|id p|]; simpl in *; [..|lia].
  - destruct (Cache.Get ca t id) as [p []] eqn:E.
    + eexists _, _. split; [by eapply l_hit|]. split_and!; [done..|simpl; lia].
    + eexists _, _. split; [by eapply l_miss|]. split_and!; [done..|simpl; lia].
  - eexists _, _. split.
    { eapply (l_fail _ _ _ _ _ _ _ _ (λ _, Err "")); [done|apply serves_failing|reflexivity]. }
    split_and!; [done..|simpl; lia].
  - eexists _, _. split; [by eapply l_add|]. split_and!; [done..|simpl; lia].
Qed.

(** Every call of a state can be brought to its end. *)
Lemma call_ends s i c :
  calls s !! i = Some c → ∃ s' t r, rtc lstep s s' ∧ calls s' !! i = Some (Ended (subject c) t r).
Proof.
  remember (steps_left c) as n eqn:En. revert s c En.
  induction n as [n IH] using lt_wf_ind. intros s c -> Hi.
  destruct (decide (0 < steps_left c)%nat) as [Hl|Hl].
  - destruct (call_goes_on s i c Hi Hl) as (s1 & c1 & Hs & Hc & Hsub & Hlt).
    destruct (IH _ Hlt s1 c1 eq_refl) as (s' & t & r & Hs' & He).
    { rewrite Hc. apply list_lookup_insert_eq. by eapply lookup_lt_Some. }
    exists s', t, r. rewrite <-Hsub. split; [by eapply rtc_l|done].
  - destruct c as [| | |id t r]; simpl in Hl; try lia. by exists s, t, r.
Qed.

(** ** What the workers of probesForResults may get *)

(** [r] is the outcome of some call for [id] in some run. *)
Definition outcome (ttl t0 id : Z) (r : GoResult Probe) : Prop :=
  ∃ s i t, rtc lstep (init ttl t0) s ∧
    calls s !! i = Some (Ended id t match r with Ok p => Ok (Some p) | Err e => Err e end).

Lemma outcome_from ttl t0 id p : outcome ttl t0 id (Ok p) → API id p.
Proof.
  intros (s & i & t & Hs & Hi). destruct (linv_reach ttl t0 s Hs) as [_ Hc _].
  apply (Forall_lookup_1 _ _ _ _ Hc) in Hi as (q & [= <-] & Hq & _). done.
Qed.

Lemma outcome_total ttl t0 id : ∃ r, outcome ttl t0 id r.
Proof.
  destruct (call_ends (mkL (Cache.NewCache ttl) t0 None [Looking id] [] []) 0 (Looking id)) as (s & t & r & Hs & Hi);
    [done|].
  assert (rtc lstep (init ttl t0) s) as Hs' by (eapply rtc_l; [apply (l_call _ _ _ [])|exact Hs]).
  destruct (linv_reach ttl t0 s Hs') as [_ Hc _]. pose proof (Forall_lookup_1 _ _ _ _ Hc Hi) as Hr.
  destruct r as [o|e]; [destruct Hr as (p & -> & _); exists (Ok p)|exists (Err e)]; by exists s, 0%nat, t.
Qed.

(** ** Properties *)

(** C13: whatever the interleaving of calls of probeForID with each other, with
    the clock and with a clean-up, a call never returns a nil probe or another
    probe's: it returns a document that the API gave for its identifier and
    that was added to the cache less than the time-to-live ago, or the error
    of its own request; and every call can go on to its end, without waiting
    for another. *)
Theorem lookups_sound ttl t0 s i c :
  rtc lstep (init ttl t0) s → calls s !! i = Some c →
  (∃ s' t r, rtc lstep s s' ∧ calls s' !! i = Some (Ended (subject c) t r)) ∧
  (∀ id t o, c = Ended id t (Ok o) → ∃ p t', o = Some p ∧ API id p ∧ (id, t', p) ∈ added s ∧
     t' <= t ∧ (t = t' ∨ t < t' + ttl)) ∧
  (∀ id t e, c = Ended id t (Err e) → ∃ client e', Get client id = Err e' ∧ e = retrieve_error id e').
Proof.
  intros Hs Hi. split; [by apply call_ends|].
  destruct (linv_reach ttl t0 s Hs) as [_ Hc _]. pose proof (Forall_lookup_1 _ _ _ _ Hc Hi) as Hr.
  split; intros id t x ->; [|done]. destruct Hr as (p & -> & Hp & t' & Hin & Ht). by exists p, t'.
Qed.

(** What a call is about to add was served by some client. *)
Lemma adding_served ttl t0 s i id p :
  rtc lstep (init ttl t0) s → calls s !! i = Some (Adding id p) →
  ∃ client, serves API client ∧ Get client id = Ok p.
Proof.
  intros Hs.
  set (served := λ c, match c with Adding id p => ∃ client, serves API client ∧ Get client id = Ok p | _ => True end).
  enough (Forall served (calls s)) as H by (intros Hi; exact (Forall_lookup_1 _ _ _ _ H Hi)).
  clear i id p. eapply (rtc_ind_r (λ s, Forall served (calls s))); [..|exact Hs]; [constructor|clear s Hs].
  intros y z _ Hyz H. destruct Hyz; cbn [calls] in *; try done; try (by apply Forall_insert).
  - apply Forall_app. split; [done|]. by apply Forall_singleton.
  - apply Forall_insert; [done|]. by exists client.
Qed.

Lemma added_served ttl t0 s id t p :
  rtc lstep (init ttl t0) s → (id, t, p) ∈ added s → ∃ client, serves API client ∧ Get client id = Ok p.
Proof.
  intros Hs. enough (rtc lstep (init ttl t0) s ∧ ∀ id t p, (id, t, p) ∈ added s →
    ∃ client, serves API client ∧ Get client id = Ok p) as [_ H] by apply H.
  clear id t p. eapply (rtc_ind_r (λ s, rtc lstep (init ttl t0) s ∧ ∀ id t p, (id, t, p) ∈ added s →
    ∃ client, serves API client ∧ Get client id = Ok p)); [split; [apply rtc_refl|by intros ??? ?%not_elem_of_nil]|clear s Hs|exact Hs].
  intros y z _ Hyz [Hy H]. split; [by eapply rtc_r|]. destruct Hyz; cbn [added] in *; try done.
  intros id' t' p' [?|[= -> -> ->]%list_elem_of_singleton]%elem_of_app; [by eapply H|]. by eapply adding_served.
Qed.

(** Two calls miss the same probe and both ask; one has added the answer. *)
Lemma two_calls ttl t0 client id p :
  serves API client → Get client id = Ok p →
  rtc lstep (init ttl t0)
    (mkL (Cache.Add (Cache.NewCache ttl) t0 id (Some p)) t0 None [Ended id t0 (Ok (Some p)); Adding id p]
       [(id, t0, p)] [id; id]).
Proof.
  intros Hc Hg.
  eapply rtc_l; [apply l_call with (id := id)|]. eapply rtc_l; [apply l_call with (id := id)|].
  eapply rtc_l; [by apply (l_miss _ _ _ _ _ _ 0%nat id None)|].
  eapply rtc_l; [by apply (l_miss _ _ _ _ _ _ 1%nat id None)|].
  eapply rtc_l; [by apply (l_answer _ _ _ _ _ _ 0%nat id client p)|].
  eapply rtc_l; [by apply (l_answer _ _ _ _ _ _ 1%nat id client p)|].
  eapply rtc_l; [by apply (l_add _ _ _ _ _ _ 0%nat id p)|]. apply rtc_refl.
Qed.

(** C26: the scan of CleanUp and the additions of probeForID race (cache.go
    scans the map without its lock): a run can come to a scan that has keys
    left while a call writes the map, where Go's runtime may end the process,
    for whatever time-to-live, exactly when the API answers some request;
    one probe asked for by two calls is enough.  And where the runtime does
    not end it, a probe that a call has just added can be missing, when it is
    added again after the scan has found it expired. *)
Theorem cleanup_races ttl t0 :
  0 < ttl →
  let answers := ∃ client id p, serves API client ∧ Get client id = Ok p in
  ((∃ s, rtc lstep (init ttl t0) s ∧ race s) ↔ answers) ∧
  ((∃ s id p, rtc lstep (init ttl t0) s ∧ (id, now s, p) ∈ added s ∧
      Cache.Get (cache s) (now s) id = (None, false)) ↔ answers).
Proof.
  intros Httl answers. split; split.
  - intros (s & Hs & Hr). destruct Hr as [c t td sn ex cs ad ak k i id p Hk Hn Hi].
    destruct (adding_served ttl t0 _ i id p Hs Hi) as (client & Hc & Hg). by exists client, id, p.
  - intros (client & id & p & Hc & Hg). eexists. split.
    + eapply rtc_trans; [by apply (two_calls ttl t0 client id p)|].
      eapply rtc_l; [apply l_scan|apply rtc_refl].
    + eapply (race_write _ _ _ _ _ _ _ _ id 1%nat id p); [|set_solver|done].
      simpl. rewrite dom_insert. set_solver.
  - intros (s & id & p & Hs & Hin & _). 
    destruct (added_served ttl t0 s id (now s) p Hs Hin) as (client & Hc & Hg). by exists client, id, p.
  - intros (client & id & p & Hc & Hg). set (t1 := t0 + ttl + 1).
    eexists _, id, p. split; [|split].
    + eapply rtc_trans; [by apply (two_calls ttl t0 client id p)|].
      eapply rtc_l; [apply (l_tick _ _ t1); unfold t1; lia|]. eapply rtc_l; [apply l_scan|].
      eapply rtc_l; [apply (l_visit _ _ _ _ _ _ _ _ id (Cache.mkItem (t0 + ttl) (Some p))); [apply lookup_insert_eq|set_solver]|].
      eapply rtc_l; [by apply (l_add _ _ _ _ _ _ 1%nat id p)|].
      eapply rtc_l; [apply l_delete|apply rtc_refl]. simpl. rewrite dom_insert. set_solver.
    + simpl. right. by left.
    + unfold Cache.Get. cbn [cache Cache.expires]. rewrite Cache.lookup_CleanUp_delete.
      destruct (Z.ltb_spec (t0 + ttl) t1); [|unfold t1 in *; lia]. by rewrite decide_True by (simpl; left).
Qed.

End lookups.

(** ** Witnesses *)

Module LookupsW.

(** The API knows one probe. *)
Definition body_w : string := json_text "{'id':1,'asn_v4':1101}".
Definition client_w : HttpClient := λ _, Ok (Ok body_w).
Definition probe_w : Probe := mkProbe 1 1101 0 "" [].
Definition API_w (id : Z) (p : Probe) : Prop := p = probe_w.

Lemma Get_w id : Get client_w id = Ok probe_w.
Proof. vm_compute. reflexivity. Qed.

Lemma lookups_serves_w : serves API_w client_w.
Proof. intros id p. rewrite Get_w. by intros [= <-]. Qed.

(** Two calls for probe 1 overlap: both miss, both ask, both add. *)
Definition twice_w : lstate :=
  mkL (Cache.Add (Cache.Add (Cache.NewCache 60) 0 1 (Some probe_w)) 10 1 (Some probe_w)) 10 None
    [Ended 1 0 (Ok (Some probe_w)); Ended 1 10 (Ok (Some probe_w))]
    [(1, 0, probe_w); (1, 10, probe_w)] [1; 1].

Lemma twice_reach : rtc (lstep API_w) (init 60 0) twice_w.
Proof.
  eapply rtc_l; [apply l_call with (id := 1)|]. eapply rtc_l; [apply l_call with (id := 1)|].
  eapply rtc_l; [by apply (l_miss _ _ _ _ _ _ _ 0%nat 1 None)|].
  eapply rtc_l; [by apply (l_miss _ _ _ _ _ _ _ 1%nat 1 None)|].
  eapply rtc_l; [apply (l_answer _ _ _ _ _ _ _ 0%nat 1 client_w probe_w); [done|apply lookups_serves_w|apply Get_w]|].
  eapply rtc_l; [apply (l_answer _ _ _ _ _ _ _ 1%nat 1 client_w probe_w); [done|apply lookups_serves_w|apply Get_w]|].
  eapply rtc_l; [by apply (l_add _ _ _ _ _ _ _ 0%nat 1 probe_w)|].
  eapply rtc_l; [by apply (l_tick _ _ _ 10)|].
  eapply rtc_l; [by apply (l_add _ _ _ _ _ _ _ 1%nat 1 probe_w)|]. apply rtc_refl.
Qed.

(** Nothing keeps overlapping calls from asking for the same probe. *)
Example overlapping_calls_ask_twice : ∃ s, rtc (lstep API_w) (init 60 0) s ∧ asked s = [1; 1].
Proof. exists twice_w. split; [apply twice_reach|done]. Qed.

Lemma lookups_sound_witness :
  (∃ s' t r, rtc (lstep API_w) twice_w s' ∧ calls s' !! 0%nat = Some (Ended 1 t r)) ∧
  (∀ id t o, Ended 1 0 (Ok (Some probe_w)) = Ended id t (Ok o) →
     ∃ p t', o = Some p ∧ API_w id p ∧ (id, t', p) ∈ added twice_w ∧ t' <= t ∧ (t = t' ∨ t < t' + 60)) ∧
  (∀ id t e, Ended 1 0 (Ok (Some probe_w)) = Ended id t (Err e) →
     ∃ client e', Get client id = Err e' ∧ e = retrieve_error id e').
Proof.
  apply (lookups_sound API_w 60 0 twice_w 0 (Ended 1 0 (Ok (Some probe_w)))); [apply twice_reach|reflexivity].
Defined.

Lemma cleanup_races_witness :
  (∃ s, rtc (lstep API_w) (init 60 0) s ∧ race s) ∧
  (∃ s id p, rtc (lstep API_w) (init 60 0) s ∧ (id, now s, p) ∈ added s ∧
     Cache.Get (cache s) (now s) id = (None, false)).
Proof.
  destruct (cleanup_races API_w 60 0) as [H1 H2]; [lia|].
  split; [apply H1|apply H2]; exists client_w, 1, probe_w; (split; [apply lookups_serves_w|apply Get_w]).
Defined.

End LookupsW.
