(* ===== verification/ProbesForResults.v ===== *)
(** * Package atlas: probesForResults, startProducer and startConsumers

    The producer, the workers and the caller are goroutines that meet on
    unbuffered channels: a send and its receive are one step.  [fetch id r]
    says that [r] is an outcome of probeForID for [id]; which one, and when,
    is left open, since it depends on the cache, the clock and the network. *)

From S2P Require Import Prelude GoInt GoFloat GoStrings Probe.
Open Scope Z_scope.

(** A worker: receiving from idChan, inside probeForID, sending on out or on
    errCh, or past its deferred wg.Done. *)
Inductive wstate :=
| WRecv
| WFetch (id : Z)
| WSend (p : Probe)
| WErr (e : string)
| WDone.
#[export] Instance wstate_eq_dec : EqDecision wstate.
Proof. solve_decision. Defined.

(** The caller: in the select loop with the map so far, or returned. *)
Inductive mstate :=
| MRun (probes : gmap Z Probe)
| MRet (probes : gmap Z Probe)
| MErr (e : string).

Record pstate := mkP {
  todo : list Z;         (* the identifiers the producer has still to look at *)
  added : list Z;        (* the keys of its map [added] *)
  idChan_closed : bool;
  workers : list wstate;
  out_closed : bool;
  caller : mstate
}.

Definition start (ids : list Z) (n : nat) : pstate :=
  mkP ids [] false (replicate n WRecv) false (MRun ∅).

Section probesForResults.
Context (fetch : Z → GoResult Probe → Prop).

Inductive pstep : pstate → pstate → Prop :=
(** startProducer *)
| p_skip x t ad cl ws oc m : x ∈ ad →
    pstep (mkP (x :: t) ad cl ws oc m) (mkP t ad cl ws oc m)
| p_give x t ad cl ws oc m i : x ∉ ad → ws !! i = Some WRecv →
    pstep (mkP (x :: t) ad cl ws oc m) (mkP t (x :: ad) cl (<[i := WFetch x]> ws) oc m)
| p_close ad ws oc m :
    pstep (mkP [] ad false ws oc m) (mkP [] ad true ws oc m)
(** a worker of startConsumers *)
| p_stop t ad ws oc m i : ws !! i = Some WRecv →
    pstep (mkP t ad true ws oc m) (mkP t ad true (<[i := WDone]> ws) oc m)
| p_found t ad cl ws oc m i x p : ws !! i = Some (WFetch x) → fetch x (Ok p) →
    pstep (mkP t ad cl ws oc m) (mkP t ad cl (<[i := WSend p]> ws) oc m)
| p_failed t ad cl ws oc m i x e : ws !! i = Some (WFetch x) → fetch x (Err e) →
    pstep (mkP t ad cl ws oc m) (mkP t ad cl (<[i := WErr e]> ws) oc m)
(** wg.Wait, then close(out) *)
| p_close_out t ad cl ws m : Forall (.= WDone) ws →
    pstep (mkP t ad cl ws false m) (mkP t ad cl ws true m)
(** the select of probesForResults *)
| p_deliver t ad cl ws oc ps i p : ws !! i = Some (WSend p) →
    pstep (mkP t ad cl ws oc (MRun ps)) (mkP t ad cl (<[i := WRecv]> ws) oc (MRun (<[ID p := p]> ps)))
| p_error t ad cl ws oc ps i e : ws !! i = Some (WErr e) →
    pstep (mkP t ad cl ws oc (MRun ps)) (mkP t ad cl (<[i := WRecv]> ws) oc (MErr e))
| p_return t ad cl ws ps :
    pstep (mkP t ad cl ws true (MRun ps)) (mkP t ad cl ws true (MRet ps)).

(** ** Termination *)

Definition weight (w : wstate) : nat :=
  match w with WFetch _ => 3 | WSend _ | WErr _ => 2 | WRecv => 1 | WDone => 0 end.

Definition measure (s : pstate) : nat :=
  4 * length (todo s) + sum_list_with weight (workers s) +
  (if idChan_closed s then 0 else 1) + (if out_closed s then 0 else 1) +
  match caller s with MRun _ => 1 | _ => 0 end.

Lemma weight_insert ws i a b :
  ws !! i = Some a →
  (sum_list_with weight (<[i := b]> ws) + weight a = sum_list_with weight ws + weight b)%nat.
Proof.
  revert i. induction ws as [|w ws IH]; intros [|i] H; simplify_eq/=; [lia|].
  specialize (IH i H). lia.
Qed.

Lemma pstep_measure s s' : pstep s s' → (measure s' < measure s)%nat.
Proof.
  destruct 1; unfold measure; simpl;
    try match goal with H : ?ws !! ?i = Some ?a |- context [<[?i := ?b]> ?ws] =>
          pose proof (weight_insert ws i a b H) as Hw; simpl in Hw end; lia.
Qed.

(** ** Deadlock freedom *)

Definition total : Prop := ∀ id, ∃ r, fetch id r.

(** Unless the caller has returned some goroutine can take a step. *)
Lemma pstep_progress s ps : total → caller s = MRun ps → ∃ s', pstep s s'.
Proof.
  intros Ht Hm. destruct s as [t ad cl ws oc m]. simpl in Hm. subst m.
  destruct (decide (Forall (.= WDone) ws)) as [Hd|Hd].
  { destruct oc; eexists; [apply p_return|by apply p_close_out]. }
  apply not_Forall_Exists in Hd as (w & [i Hi]%list_elem_of_lookup & Hw)%Exists_exists; [|apply _].
  destruct w as [|x|p|e|]; [..|by destruct Hw].
  - destruct t as [|x t].
    + destruct cl; eexists; [by eapply p_stop|apply p_close].
    + destruct (decide (x ∈ ad)); eexists; [by apply p_skip|by eapply p_give].
  - destruct (Ht x) as [[p|e] Hx]; eexists; [by eapply p_found|by eapply p_failed].
  - eexists. by eapply p_deliver.
  - eexists. by eapply p_error.
Qed.

(** ** The invariant *)

(** A worker is busy with an identifier. *)
Definition holds (w : wstate) (x : Z) : Prop :=
  match w with
  | WFetch y => y = x
  | WSend p => fetch x (Ok p)
  | WErr e => fetch x (Err e)
  | WRecv | WDone => False
  end.

Definition delivered (ps : gmap Z Probe) (x : Z) : Prop :=
  ∃ p, fetch x (Ok p) ∧ is_Some (ps !! ID p).

(** The caller's map holds what was fetched, and what it does not hold yet is
    with a worker; the error it returns is that of a call. *)
Definition caller_inv (ad : list Z) (ws : list wstate) (m : mstate) : Prop :=
  match m with
  | MRun ps | MRet ps =>
      (∀ x, x ∈ ad → delivered ps x ∨ ∃ w, w ∈ ws ∧ holds w x) ∧
      (∀ k p, ps !! k = Some p → ID p = k ∧ ∃ x, x ∈ ad ∧ fetch x (Ok p))
  | MErr e => ∃ x, x ∈ ad ∧ fetch x (Err e)
  end.

Record inv (ids : list Z) (s : pstate) : Prop := {
  inv_ids x : x ∈ ids ↔ x ∈ added s ∨ x ∈ todo s;
  inv_nodup : NoDup (added s);
  inv_closed : idChan_closed s = true → todo s = [];
  inv_done : WDone ∈ workers s → idChan_closed s = true;
  inv_out : out_closed s = true → Forall (.= WDone) (workers s);
  inv_busy w : w ∈ workers s → w = WRecv ∨ w = WDone ∨ ∃ x, x ∈ added s ∧ holds w x;
  inv_caller : caller_inv (added s) (workers s) (caller s);
  inv_ret : ∀ ps, caller s = MRet ps → out_closed s = true
}.

(** Replacing one worker. *)
Lemma elem_of_insert_cases (ws : list wstate) i b w : w ∈ <[i := b]> ws → w = b ∨ w ∈ ws.
Proof.
  intros [j Hj]%list_elem_of_lookup.
  apply list_lookup_insert_Some in Hj as [(_ & ? & _)|[_ Hj]]; [by left|].
  right. by eapply list_elem_of_lookup_2.
Qed.

Lemma elem_of_insert_keep (ws : list wstate) i a b w :
  ws !! i = Some a → w ∈ ws → w = a ∨ w ∈ <[i := b]> ws.
Proof.
  intros Ha [j Hj]%list_elem_of_lookup. destruct (decide (i = j)) as [->|Hne].
  - left. congruence.
  - right. apply list_elem_of_lookup. exists j. by rewrite list_lookup_insert_ne.
Qed.

Lemma elem_of_insert_new (ws : list wstate) i a b : ws !! i = Some a → b ∈ <[i := b]> ws.
Proof.
  intros Ha. apply list_elem_of_lookup. exists i. apply list_lookup_insert_eq.
  by eapply lookup_lt_Some.
Qed.

Lemma all_done_insert (ws : list wstate) i a b :
  ws !! i = Some a → a ≠ WDone → Forall (.= WDone) ws → Forall (.= WDone) (<[i := b]> ws).
Proof. intros Ha Hne Hd. destruct Hne. by apply (Forall_lookup_1 _ _ _ _ Hd Ha). Qed.

(** The work a worker holds is kept when it is replaced by one that holds
    the same. *)
Lemma held_insert (ws : list wstate) i a b x :
  ws !! i = Some a → (holds a x → holds b x) →
  (∃ w, w ∈ ws ∧ holds w x) → ∃ w, w ∈ <[i := b]> ws ∧ holds w x.
Proof.
  intros Ha Hab (w & Hw & Hx). destruct (elem_of_insert_keep ws i a b w Ha Hw) as [->|Hw'].
  - exists b. split; [by eapply elem_of_insert_new|auto].
  - by exists w.
Qed.

Lemma inv_start ids n : inv ids (start ids n).
Proof.
  split; simpl; try done.
  - set_solver.
  - constructor.
  - intros H%elem_of_replicate_inv; done.
  - intros w Hw%elem_of_replicate_inv. by left.
  - split; [set_solver|]. intros k p. by rewrite lookup_empty.
Qed.

(** A step in which one worker moves. *)
Lemma inv_worker ids t ad cl ws oc m t' ad' m' i a b :
  inv ids (mkP t ad cl ws oc m) → ws !! i = Some a → a ≠ WDone →
  (∀ x, x ∈ ad ∨ x ∈ t ↔ x ∈ ad' ∨ x ∈ t') → NoDup ad' → (cl = true → t' = []) → ad ⊆ ad' →
  (b = WDone → cl = true) → (b = WRecv ∨ b = WDone ∨ ∃ x, x ∈ ad' ∧ holds b x) →
  caller_inv ad' (<[i := b]> ws) m' → (∀ ps, m' = MRet ps → m = MRet ps) →
  inv ids (mkP t' ad' cl (<[i := b]> ws) oc m').
Proof.
  intros [H1 H2 H3 H4 H5 H6 H7 H8] Ha Hne Hids Hnd Hcl Had Hbd Hb Hm Hret. simpl in *.
  split; simpl; [..|done|].
  - intros x. by rewrite H1, Hids.
  - done.
  - done.
  - intros [Hw|Hw]%elem_of_insert_cases; auto.
  - intros Ho. by eapply all_done_insert; eauto.
  - intros w [->|Hw]%elem_of_insert_cases; [done|].
    destruct (H6 w Hw) as [|[|(x & Hx & Hh)]]; auto. right. right. exists x. auto.
  - intros ps Hps. apply (H8 ps). auto.
Qed.

(** The caller's clause when a worker moves and keeps what it holds. *)
Lemma caller_inv_worker ad ad' ws i a b m :
  caller_inv ad ws m → ws !! i = Some a → (∀ x, holds a x → holds b x) → ad ⊆ ad' →
  (∀ x, x ∈ ad' → x ∈ ad ∨ holds b x) → caller_inv ad' (<[i := b]> ws) m.
Proof.
  intros Hm Ha Hab Had Hnew. destruct m as [ps|ps|e]; simpl in *; [| |set_solver].
  all: destruct Hm as [Hd Hp]; split; [|set_solver].
  all: intros x [Hx|Hx]%Hnew; [|right; exists b; split; [by eapply elem_of_insert_new|done]].
  all: destruct (Hd x Hx) as [|Hw]; [by left|right]; by eapply held_insert; eauto.
Qed.

Lemma inv_pstep ids s s' : pstep s s' → inv ids s → inv ids s'.
Proof.
  intros Hs Hi. pose proof Hi as [H1 H2 H3 H4 H5 H6 H7 H8]. destruct Hs; simpl in *.
  - split; simpl; try done; [intros y; rewrite H1; set_solver|intros Hc; by specialize (H3 Hc)].
  - eapply inv_worker; try done; [set_solver|by constructor|intros Hc; by specialize (H3 Hc)|set_solver|
      right; right; exists x; split; [left|done]|].
    eapply caller_inv_worker; try done; set_solver.
  - by split.
  - eapply inv_worker; try done; [eauto|].
    eapply caller_inv_worker; try done; set_solver.
  - assert (holds (WFetch x) x) as Hx by done.
    destruct (H6 (WFetch x)) as [|[|(y & Hy & <-)]]; [by eapply list_elem_of_lookup_2|done|done|].
    eapply inv_worker; try done; [by right; right; exists x|].
    eapply caller_inv_worker; try done; [by intros ? <-|set_solver].
  - destruct (H6 (WFetch x)) as [|[|(y & Hy & <-)]]; [by eapply list_elem_of_lookup_2|done|done|].
    eapply inv_worker; try done; [by right; right; exists x|].
    eapply caller_inv_worker; try done; [by intros ? <-|set_solver].
  - by split.
  - destruct (H6 (WSend p)) as [|[|(y & Hy & Hp)]]; [by eapply list_elem_of_lookup_2|done|done|].
    eapply inv_worker; try done; [by left|]. destruct H7 as [Hd Hps]. split.
    + intros x [(q & Hq & Hs)|(w & Hw & Hx)]%Hd.
      * left. exists q. split; [done|]. rewrite lookup_insert. case_decide; [by eexists|done].
      * destruct (elem_of_insert_keep ws i (WSend p) WRecv w) as [->|Hw']; [done..| |by right; exists w].
        left. exists p. split; [done|]. rewrite lookup_insert_eq. by eexists.
    + intros k q. rewrite lookup_insert. case_decide; [|apply Hps]. intros [= <-].
      split; [done|]. by exists y.
  - destruct (H6 (WErr e)) as [|[|(y & Hy & Hp)]]; [by eapply list_elem_of_lookup_2|done|done|].
    eapply inv_worker; try done; [by left|]. by exists y.
  - by split.
Qed.

Lemma inv_reach ids n s : rtc pstep (start ids n) s → inv ids s.
Proof.
  intros H. eapply (rtc_ind_r (inv ids)); [apply inv_start| |exact H].
  intros y z _ Hyz Hy. by eapply inv_pstep.
Qed.

(** The number of workers never changes. *)
Lemma workers_reach ids n s : rtc pstep (start ids n) s → length (workers s) = n.
Proof.
  intros H. eapply (rtc_ind_r (λ s, length (workers s) = n) (start ids n)); [simpl; apply length_replicate| |exact H].
  intros y z _ Hyz Hy. destruct Hyz; simpl in *; by rewrite ?length_insert.
Qed.

(** ** Properties *)

(** Where the entries of a returned map come from. *)
Lemma returned_from ids n s ps :
  rtc pstep (start ids n) s → caller s = MRet ps →
  ∀ k p, ps !! k = Some p → ID p = k ∧ ∃ x, x ∈ ids ∧ fetch x (Ok p).
Proof.
  intros Hr Hc k p Hk. destruct (inv_reach ids n s Hr) as [H1 _ _ _ _ _ H7 _]. rewrite Hc in H7.
  destruct H7 as [_ Hp]. destruct (Hp k p Hk) as (? & x & Hx & Hf). split; [done|]. exists x. rewrite H1. auto.
Qed.

(** A map that is returned; with at least one worker. *)
Lemma returned_map ids n s ps :
  (0 < n)%nat → rtc pstep (start ids n) s → caller s = MRet ps →
  (∀ k p, ps !! k = Some p → ID p = k ∧ ∃ x, x ∈ ids ∧ fetch x (Ok p)) ∧
  (∀ x, x ∈ ids → ∃ p, fetch x (Ok p) ∧ is_Some (ps !! ID p)).
Proof.
  intros Hn Hr Hc. destruct (inv_reach ids n s Hr) as [H1 H2 H3 H4 H5 H6 H7 H8].
  pose proof (workers_reach ids n s Hr) as Hlen. rewrite Hc in H7. destruct H7 as [Hd Hp].
  specialize (H5 (H8 _ Hc)). rewrite Forall_forall in H5.
  assert (todo s = []) as Ht.
  { apply H3, H4. destruct (workers s) as [|w ws]; simpl in *; [lia|].
    rewrite <-(H5 w (list_elem_of_here _ _)). left. }
  assert (∀ x, x ∈ ids ↔ x ∈ added s) as Hids by (intros x; rewrite H1, Ht; set_solver).
  split.
  - intros k p Hk. setoid_rewrite Hids. auto.
  - intros x [Hx|(w & Hw & Hh)]%Hids%Hd; [done|]. by rewrite (H5 w Hw) in Hh.
Qed.

Lemma returned_error ids n s e :
  rtc pstep (start ids n) s → caller s = MErr e → ∃ x, x ∈ ids ∧ fetch x (Err e).
Proof.
  intros Hr Hc. destruct (inv_reach ids n s Hr) as [H1 _ _ _ _ _ H7 _]. rewrite Hc in H7.
  destruct H7 as (x & Hx & Hf). exists x. rewrite H1. auto.
Qed.

(** When every lookup ends, some run returns. *)
Lemma returns ids n :
  total → ∃ s, rtc pstep (start ids n) s ∧ ∀ ps, caller s ≠ MRun ps.
Proof.
  intros Ht. enough (∀ s, ∃ s', rtc pstep s s' ∧ ∀ ps, caller s' ≠ MRun ps) by auto.
  intros s. induction (well_founded_ltof _ measure s) as [s _ IH].
  destruct (caller s) as [ps| |] eqn:E; [|exists s; split; [done|by rewrite E]..].
  destruct (pstep_progress s ps Ht E) as [s1 H1]. destruct (IH s1 (pstep_measure s s1 H1)) as (s' & Hs' & Hc).
  exists s'. split; [by eapply rtc_l|done].
Qed.

(** C9: no probe is asked for twice.  With at least one worker, a map that
    probesForResults returns has under each of its keys a probe with that
    identifier that was fetched for one of the results, and the probe of
    every result was fetched and is in the map; if the API answers for the
    probe it was asked about, the keys are exactly the results' probe
    identifiers.  An error that it returns is that of looking up the probe
    of one of the results. *)
Theorem probesForResults_correct ids n s :
  (0 < n)%nat → rtc pstep (start ids n) s →
  NoDup (added s) ∧
  match caller s with
  | MRun _ => True
  | MErr e => ∃ x, x ∈ ids ∧ fetch x (Err e)
  | MRet ps =>
      (∀ k p, ps !! k = Some p → ID p = k ∧ ∃ x, x ∈ ids ∧ fetch x (Ok p)) ∧
      (∀ x, x ∈ ids → ∃ p, fetch x (Ok p) ∧ is_Some (ps !! ID p)) ∧
      ((∀ x p, fetch x (Ok p) → ID p = x) →
         ∀ x, x ∈ ids ↔ ∃ p, ps !! x = Some p ∧ fetch x (Ok p))
  end.
Proof.
  intros Hn Hr. destruct (inv_reach ids n s Hr) as [H1 H2 _ _ _ _ H7 _]. split; [done|].
  destruct (caller s) as [ps|ps|e] eqn:Hc; [done| |].
  - destruct (returned_map ids n s ps Hn Hr Hc) as [Hp Hall]. split; [done|]. split; [done|].
    intros Hhonest x. split.
    + intros (p & Hp1 & [q Hq])%Hall. rewrite (Hhonest x p Hp1) in Hq. exists q. split; [done|].
      destruct (Hp x q Hq) as (Hk & y & _ & Hy). by rewrite <-Hk, (Hhonest y q Hy).
    + intros (p & Hk & Hx). destruct (Hp x p Hk) as (<- & y & Hy & Hf). by rewrite (Hhonest y p Hf).
  - by eapply returned_error.
Qed.

Lemma nsteps_measure k s s' : nsteps pstep k s s' → (k + measure s' <= measure s)%nat.
Proof. induction 1 as [|k s s1 s2 H1%pstep_measure _ IH]; lia. Qed.

Lemma measure_start ids n : measure (start ids n) = (4 * length ids + n + 3)%nat.
Proof.
  unfold measure. simpl. enough (sum_list_with weight (replicate n WRecv) = n) by lia.
  induction n; simpl; lia.
Qed.

(** C10: when every lookup ends, probesForResults returns, whatever the
    schedule and the number of workers: a run has at most four steps per
    result, one per worker and three more, and when no goroutine can move
    any more the caller has returned. *)
Theorem probesForResults_terminates ids n :
  total →
  (∀ k s, nsteps pstep k (start ids n) s → (k <= 4 * length ids + n + 3)%nat) ∧
  (∀ s, rtc pstep (start ids n) s → (∀ s', ~ pstep s s') →
     (∃ ps, caller s = MRet ps) ∨ ∃ e, caller s = MErr e).
Proof.
  intros Ht. split.
  - intros k s H%nsteps_measure. rewrite measure_start in H. lia.
  - intros s _ Hstuck. destruct (caller s) as [ps|ps|e] eqn:E; [|by eauto..].
    destruct (pstep_progress s ps Ht E) as [s' Hs]. by destruct (Hstuck s').
Qed.

(** After an error the other goroutines can be left behind: with one
    worker and a second probe to look up, the caller returns and the worker
    waits for ever to send what it fetched. *)
Theorem probesForResults_leaks a b e p :
  a ≠ b → fetch a (Err e) → fetch b (Ok p) →
  ∃ s, rtc pstep (start [a; b] 1) s ∧ caller s = MErr e ∧ workers s = [WSend p] ∧
       ∀ s', ~ pstep s s'.
Proof.
  intros Hab Ha Hb. exists (mkP [] [b; a] true [WSend p] false (MErr e)). split; [|split; [done|split; [done|]]].
  - eapply rtc_l. { eapply (p_give _ _ _ _ _ _ _ 0); [set_solver|done]. }
    eapply rtc_l. { by eapply (p_failed _ _ _ _ _ _ 0). }
    eapply rtc_l. { by eapply (p_error _ _ _ _ _ _ 0). }
    eapply rtc_l. { eapply (p_give _ _ _ _ _ _ _ 0); [set_solver|done]. }
    eapply rtc_l. { apply p_close. }
    eapply rtc_l. { by eapply (p_found _ _ _ _ _ _ 0). }
    apply rtc_refl.
  - intros s' Hs. inversion Hs; subst;
      match goal with
      | H : _ !! ?i = Some _ |- _ => destruct i; simplify_eq/=
      | H : Forall _ _ |- _ => by inversion H
      end.
Qed.

Lemma no_workers_reach ids s : rtc pstep (start ids 0) s → workers s = [] ∧ added s = [].
Proof.
  intros H. eapply (rtc_ind_r (λ s, workers s = [] ∧ added s = []) (start ids 0)); [done| |exact H].
  intros y z _ Hyz [Hw Ha]. destruct Hyz; simpl in *; subst; try done;
    rewrite ?lookup_nil in *; done.
Qed.

(** With no workers, which Validate accepts for worker.count, a map that
    probesForResults returns is empty, whatever the results. *)
Theorem probesForResults_no_workers ids s ps :
  rtc pstep (start ids 0) s → caller s = MRet ps → ps = ∅.
Proof.
  intros Hr Hc. destruct (no_workers_reach ids s Hr) as [_ Ha].
  destruct (inv_reach ids 0 s Hr) as [_ _ _ _ _ _ H7 _]. rewrite Hc, Ha in H7. destruct H7 as [_ Hp].
  apply map_empty. intros k. destruct (ps !! k) as [p|] eqn:E; [|done].
  destruct (Hp k p E) as (_ & x & Hx & _). set_solver.
Qed.

End probesForResults.

(** ** Witnesses *)

Module ProbesW.

Definition prb (id : Z) : Probe := mkProbe id 1101 0 "NL" [].

(** Probe 2 is not known to the API. *)
Definition fetch_w (id : Z) (r : GoResult Probe) : Prop :=
  r = if id =? 2 then Err "not found" else Ok (prb id).

Lemma run_any (fetch : Z → GoResult Probe → Prop) :
  fetch 1 (Ok (prb 1)) →
  rtc (pstep fetch) (start [1; 1] 1) (mkP [] [1] true [WDone] true (MRet {[1 := prb 1]})).
Proof.
  intros Hf.
  eapply rtc_l. { eapply (p_give _ _ _ _ _ _ _ _ 0); [set_solver|done]. }
  eapply rtc_l. { by eapply (p_found _ _ _ _ _ _ _ 0). }
  eapply rtc_l. { by eapply (p_deliver _ _ _ _ _ _ _ 0). }
  eapply rtc_l. { apply p_skip. set_solver. }
  eapply rtc_l. { apply p_close. }
  eapply rtc_l. { by eapply (p_stop _ _ _ _ _ _ 0). }
  eapply rtc_l. { apply p_close_out. by repeat constructor. }
  eapply rtc_l. { apply p_return. }
  apply rtc_refl.
Qed.

Lemma run_w : rtc (pstep fetch_w) (start [1; 1] 1)
                  (mkP [] [1] true [WDone] true (MRet {[1 := prb 1]})).
Proof. by apply run_any. Qed.

Lemma probesForResults_correct_witness :
  NoDup [1] ∧
  (∀ k p, ({[1 := prb 1]} : gmap Z Probe) !! k = Some p →
     ID p = k ∧ ∃ x, x ∈ [1; 1] ∧ fetch_w x (Ok p)) ∧
  (∀ x, x ∈ [1; 1] → ∃ p, fetch_w x (Ok p) ∧ is_Some (({[1 := prb 1]} : gmap Z Probe) !! ID p)) ∧
  ((∀ x p, fetch_w x (Ok p) → ID p = x) →
     ∀ x, x ∈ [1; 1] ↔ ∃ p, ({[1 := prb 1]} : gmap Z Probe) !! x = Some p ∧ fetch_w x (Ok p)).
Proof. apply (probesForResults_correct fetch_w [1; 1] 1 _ ltac:(lia) run_w). Defined.

Lemma probesForResults_terminates_witness :
  (∀ k s, nsteps (pstep fetch_w) k (start [1; 2] 3) s → (k <= 14)%nat) ∧
  (∀ s, rtc (pstep fetch_w) (start [1; 2] 3) s → (∀ s', ~ pstep fetch_w s s') →
     (∃ ps, caller s = MRet ps) ∨ ∃ e, caller s = MErr e).
Proof. apply (probesForResults_terminates fetch_w [1; 2] 3). intros id. by eexists. Defined.

Lemma probesForResults_leaks_witness :
  ∃ s, rtc (pstep fetch_w) (start [2; 1] 1) s ∧ caller s = MErr "not found" ∧
       workers s = [WSend (prb 1)] ∧ ∀ s', ~ pstep fetch_w s s'.
Proof. by apply (probesForResults_leaks fetch_w 2 1). Defined.

Lemma probesForResults_no_workers_witness : (∅ : gmap Z Probe) = ∅.
Proof.
  apply (probesForResults_no_workers fetch_w [1] (mkP [1] [] false [] true (MRet ∅))); [|done].
  eapply rtc_l. { apply p_close_out. constructor. }
  eapply rtc_l. { apply p_return. }
  apply rtc_refl.
Defined.

End ProbesW.
