(* ===== verification/RequestStrategy.v ===== *)
(** * Package atlas: request_strategy.go

    [getMeasurementForID] is the body of one goroutine; the outcomes of the
    two calls that leave the process, the Atlas API and probesForResults, are
    its arguments.  The goroutines of MeasurementResults and its select loop
    are a step relation. *)

From S2P Require Import Prelude GoInt GoFloat GoStrings Apis Samples Probe Config Measurement.
From S2P Require Import Exporting Helper.
From S2P Require ProbesForResults Sslcert.
Open Scope Z_scope.

Section getMeasurementForID.
Context {A : AtlasAPI} {P : PromAPI}.

(** The loop over the result channel: an unparsed result ends the call. *)
Fixpoint parsed (rs : list Result) : option (list Result) :=
  match rs with
  | [] => Some []
  | m :: rs' => match ParseError m with Some _ => None | None => res ← parsed rs'; Some (m :: res) end
  end.

(** The body under the deferred recover.  [None]: nothing is sent on ch. *)
Definition getMeasurement_body (cfg : Config) (id : string)
    (api : GoResult (list Result)) (pfr : GoResult (gmap Z Probe)) : Outcome (option Measurement) :=
  match api with
  | Err _ => Ret None
  | Ok resultCh =>
      match parsed resultCh with
      | None => Ret None
      | Some [] => Ret None
      | Some ((first :: _) as res) =>
          mes ← measurementForType (MsmType first) id (Itoa (Af first)) cfg;
          match mes with
          | Err _ => Ret None
          | Ok mes =>
              match pfr with
              | Err _ => Ret None
              | Ok probes =>
                  mes ← AddAll mes ((λ r, (r, probes !! PrbId r)) <$> res);
                  Ret (Some mes)
              end
          end
      end
  end.

Definition getMeasurementForID (cfg : Config) (id : string)
    (api : GoResult (list Result)) (pfr : GoResult (gmap Z Probe)) : option Measurement :=
  match getMeasurement_body cfg id api pfr with
  | Ret m => m
  | Panic _ => None
  end.

(** What probesForResults can return for these results. *)
Definition probesForResults_outcome (fetch : Z → GoResult Probe → Prop) (workers : nat)
    (res : list Result) (o : GoResult (gmap Z Probe)) : Prop :=
  ∃ s, rtc (ProbesForResults.pstep fetch) (ProbesForResults.start (PrbId <$> res) workers) s ∧
    match o with
    | Ok ps => ProbesForResults.caller s = ProbesForResults.MRet ps
    | Err e => ProbesForResults.caller s = ProbesForResults.MErr e
    end.

(** ** Lemmas *)

Lemma parsed_ok rs : Forall (λ m, ParseError m = None) rs → parsed rs = Some rs.
Proof. induction 1 as [|m rs Hm _ IH]; [done|]. simpl. by rewrite Hm, IH. Qed.

Lemma parsed_bad rs m e : m ∈ rs → ParseError m = Some e → parsed rs = None.
Proof.
  intros Hm He. induction rs as [|m' rs IH]; [by apply not_elem_of_nil in Hm|].
  apply elem_of_cons in Hm as [<-|Hm]; simpl; [by rewrite He|].
  destruct (ParseError m'); [done|]. by rewrite IH.
Qed.

(** Additions of results with their probes do not panic. *)
Lemma AddAll_returns m l :
  (∀ v, validator m = Some v → Forall (λ mp, ∃ b, IsValid v mp.1 mp.2 = Ret b) l) →
  ∃ m', AddAll m l = Ret m'.
Proof.
  revert m. induction l as [|[r p] l IH]; intros m H; [by eexists|]. cbn [AddAll].
  assert (∃ b, passes m r p = Ret b) as [b Hb].
  { unfold passes. destruct (validator m) as [v|]; [|by eexists].
    specialize (H v eq_refl). by apply Forall_cons in H as [H _]. }
  unfold Add. rewrite Hb. simpl. destruct b; apply IH; intros v Hv;
    specialize (H v Hv); by apply Forall_cons in H as [_ H].
Qed.

(** A result without its probe makes the validator panic. *)
Lemma AddAll_nil_probe m v l r :
  validator m = Some v → reads_probe v → (r, None) ∈ l → ∃ e, AddAll m l = Panic e.
Proof.
  revert m. induction l as [|[r' p] l IH]; intros m Hv [Hn Hs] Hin; [by apply not_elem_of_nil in Hin|].
  cbn [AddAll]. unfold Add, passes. rewrite Hv.
  apply elem_of_cons in Hin as [[= <- <-]|Hin].
  - rewrite Hn. by eexists.
  - destruct (IsValid v r' p) as [[]|e]; simpl; [by apply IH|by apply IH|by eexists].
Qed.

(** Pairing with the map of probes commutes with the selections of Add. *)
Lemma paired_mine m (ps : gmap Z Probe) k (rs : list Result) :
  filter (λ mp : Result * option Probe, PrbId mp.1 = k)
    (filter (accepted m) ((λ r, (r, ps !! PrbId r)) <$> rs)) =
  (λ r, (r, ps !! k)) <$> filter (λ r, PrbId r = k ∧ passes m r (ps !! k) = Ret true) rs.
Proof.
  induction rs as [|r rs IH]; [done|]. rewrite fmap_cons.
  destruct (decide (accepted m (r, ps !! PrbId r))) as [Ha|Ha]; unfold accepted in Ha; simpl in Ha.
  - rewrite filter_cons_True by done. destruct (decide (PrbId r = k)) as [<-|Hk].
    + rewrite !filter_cons_True by done. by rewrite IH.
    + rewrite !filter_cons_False by naive_solver. apply IH.
  - rewrite filter_cons_False by done. rewrite (filter_cons_False _ r) by naive_solver. apply IH.
Qed.

Lemma AddAll_paired m (ps : gmap Z Probe) (rs : list Result) m' k :
  empty_maps m → AddAll m ((λ r, (r, ps !! PrbId r)) <$> rs) = Ret m' →
  let mine := filter (λ r, PrbId r = k ∧ passes m r (ps !! k) = Ret true) rs in
  latest m' !! k = last mine ∧ probes m' !! k = (λ _, ps !! k) <$> last mine.
Proof.
  intros [H1 H2] ->%AddAll_storeAll. simpl.
  destruct (storeAll_lookup m (filter (accepted m) ((λ r, (r, ps !! PrbId r)) <$> rs)) k) as [-> ->].
  rewrite paired_mine, fmap_last, H1, H2, !lookup_empty. by destruct (last _).
Qed.

(** The paths that send nothing. *)
Lemma getMeasurementForID_none cfg id rs pfr :
  (∃ m e, m ∈ rs ∧ ParseError m = Some e) ∨ rs = [] ∨
  (∃ m, head rs = Some m ∧ MsmType m ∉ supported) →
  getMeasurementForID cfg id (Ok rs) pfr = None.
Proof.
  unfold getMeasurementForID, getMeasurement_body.
  intros [(m & e & Hm & He)|[->|(m & Hm & Ht)]]; [by erewrite parsed_bad|done|].
  destruct rs as [|m' rs]; simplify_eq/=. destruct (ParseError m); [done|].
  destruct (parsed rs); simpl; [|done]. by rewrite measurementForType_err.
Qed.

(** The path on which a measurement is sent. *)
Lemma getMeasurementForID_run `{!PromLaws} cfg id rs first ps :
  label_ok id = true → buckets_increasing cfg →
  Forall (λ m, ParseError m = None) rs → head rs = Some first →
  MsmType first ∈ supported → (∀ m, m ∈ rs → is_Some (ps !! PrbId m)) →
  ∃ m0 mes, measurementForType (MsmType first) id (Itoa (Af first)) cfg = Ret (Ok m0) ∧
    fresh_measurement cfg m0 ∧ AddAll m0 ((λ r, (r, ps !! PrbId r)) <$> rs) = Ret mes ∧
    getMeasurementForID cfg id (Ok rs) (Ok ps) = Some mes.
Proof.
  intros Hid Hb Hp Hh Ht Hps.
  destruct (measurementForType_ok _ id (Itoa (Af first)) cfg Ht Hid Hb) as (m0 & Hm & Hf).
  exists m0. destruct rs as [|r rs]; simplify_eq/=.
  unfold getMeasurementForID, getMeasurement_body. rewrite parsed_ok, Hm by done.
  cbn [mbind Outcome_bind].
  destruct (AddAll_returns m0 ((λ r, (r, ps !! PrbId r)) <$> first :: rs)) as [mes Ha].
  { intros v Hv. destruct Hf as (_ & _ & _ & _ & Hrd & _). destruct (Hrd v Hv) as [_ Hs].
    apply Forall_fmap, Forall_forall. intros r Hr. simpl.
    destruct (Hps r Hr) as [p ->]. apply Hs. }
  exists mes. rewrite Ha. by split_and!.
Qed.

(** ** Properties *)

(** When the results of a request all parse and their probes were found,
    a measurement is sent, and it holds for each probe the last accepted
    result together with that probe. *)
Theorem getMeasurementForID_spec `{!PromLaws} cfg id rs first ps :
  label_ok id = true → buckets_increasing cfg →
  Forall (λ m, ParseError m = None) rs → head rs = Some first →
  MsmType first ∈ supported → (∀ m, m ∈ rs → is_Some (ps !! PrbId m)) →
  (∃ m0 mes, measurementForType (MsmType first) id (Itoa (Af first)) cfg = Ret (Ok m0) ∧
     getMeasurementForID cfg id (Ok rs) (Ok ps) = Some mes ∧
     ∀ k, let mine := filter (λ r, PrbId r = k ∧ passes m0 r (ps !! k) = Ret true) rs in
          latest mes !! k = last mine ∧ probes mes !! k = (λ _, ps !! k) <$> last mine).
Proof.
  intros Hid Hb Hp Hh Ht Hps.
  destruct (getMeasurementForID_run cfg id rs first ps Hid Hb Hp Hh Ht Hps) as (m0 & mes & Hm & Hf & Ha & Hg).
  exists m0, mes. split; [done|]. split; [done|]. intros k. apply AddAll_paired; [apply Hf|done].
Qed.

(** It sends nothing after an API error, an unparsed result, no result,
    a type that is not supported or a failed probe lookup. *)
Theorem getMeasurementForID_nothing cfg id api pfr :
  match api with
  | Err _ => True
  | Ok rs => (∃ m e, m ∈ rs ∧ ParseError m = Some e) ∨ rs = [] ∨
             (∃ m, head rs = Some m ∧ MsmType m ∉ supported) ∨ ∃ e, pfr = Err e
  end →
  getMeasurementForID cfg id api pfr = None.
Proof.
  destruct api as [rs|e]; [|done]. intros [H|[H|[H|[e ->]]]];
    [apply getMeasurementForID_none; auto..|].
  unfold getMeasurementForID, getMeasurement_body. destruct (parsed rs) as [[|m res]|]; try done.
  by destruct (measurementForType (MsmType m) id (Itoa (Af m)) cfg) as [[]|].
Qed.

(** C35: one probe that the API does not know takes the whole measurement
    with it: with filtering on, a result whose probe is missing from the map
    makes the validator panic, the panic is recovered, and nothing is sent,
    however many other results there are. *)
Theorem missing_probe_drops_measurement `{!PromLaws} cfg id rs ps r :
  label_ok id = true → buckets_increasing cfg → FilterInvalidResults cfg = true →
  r ∈ rs → ps !! PrbId r = None →
  getMeasurementForID cfg id (Ok rs) (Ok ps) = None.
Proof.
  intros Hid Hb Hfi Hr Hn. destruct (parsed rs) as [res|] eqn:Ep;
    [|unfold getMeasurementForID, getMeasurement_body; by rewrite Ep].
  assert (res = rs) as ->.
  { clear -Ep. revert res Ep. induction rs as [|m rs IH]; intros res; simpl; [congruence|].
    destruct (ParseError m); [done|]. destruct (parsed rs); intros; simplify_eq/=. f_equal. eauto. }
  destruct rs as [|first rs]; [by apply not_elem_of_nil in Hr|].
  destruct (decide (MsmType first ∈ supported)) as [Ht|Ht];
    [|apply getMeasurementForID_none; right; right; eauto].
  destruct (measurementForType_ok _ id (Itoa (Af first)) cfg Ht Hid Hb) as (m0 & Hm & Hf).
  unfold getMeasurementForID, getMeasurement_body. rewrite Ep, Hm. cbn [mbind Outcome_bind].
  destruct Hf as (_ & _ & _ & Hval & Hrd & _). apply Hval in Hfi as [v Hv].
  destruct (AddAll_nil_probe m0 v ((λ r, (r, ps !! PrbId r)) <$> first :: rs) r) as [e ->]; auto.
  apply list_elem_of_fmap. exists r. by rewrite Hn.
Qed.

End getMeasurementForID.

(** ** MeasurementResults *)

Section fanout.
Context {M : Type}.
(** [produce id o]: the goroutine of [id] may end with [o], the measurement
    it sends or nothing. *)
Context (produce : string → option M → Prop).

(** A goroutine: inside getMeasurementForID, sending on ch, or done; [GDone]
    remembers what was sent. *)
Inductive gstate := GRun | GSend (m : M) | GDone (o : option M).

(** The caller: in its loop, returned the slice, or the context's error. *)
Inductive rstate := RRun (res : list M) | RRet (res : list M) | RCancelled.

Record fstate := mkF { gs : list gstate; ch_closed : bool; main : rstate }.

Definition launch (ids : list string) : fstate := mkF (replicate (length ids) GRun) false (RRun []).

Definition g_done (g : gstate) : Prop := match g with GDone _ => True | _ => False end.
#[export] Instance g_done_dec g : Decision (g_done g).
Proof. destruct g; simpl; apply _. Defined.

Inductive fstep (ids : list string) : fstate → fstate → Prop :=
| f_produce l c m i id x : l !! i = Some GRun → ids !! i = Some id → produce id (Some x) →
    fstep ids (mkF l c m) (mkF (<[i := GSend x]> l) c m)
| f_nothing l c m i id : l !! i = Some GRun → ids !! i = Some id → produce id None →
    fstep ids (mkF l c m) (mkF (<[i := GDone None]> l) c m)
| f_receive l c res i x : l !! i = Some (GSend x) →
    fstep ids (mkF l c (RRun res)) (mkF (<[i := GDone (Some x)]> l) c (RRun (res ++ [x])))
| f_close l m : Forall g_done l → fstep ids (mkF l false m) (mkF l true m)
| f_return l res : fstep ids (mkF l true (RRun res)) (mkF l true (RRet res))
| f_cancel l c res : fstep ids (mkF l c (RRun res)) (mkF l c RCancelled).

(** *** Termination *)

Definition g_weight (g : gstate) : nat :=
  match g with GRun => 2 | GSend _ => 1 | GDone _ => 0 end.
Definition f_measure (s : fstate) : nat :=
  sum_list_with g_weight (gs s) + (if ch_closed s then 0 else 1) +
  match main s with RRun _ => 1 | _ => 0 end.

Lemma g_weight_insert l i a b :
  l !! i = Some a →
  (sum_list_with g_weight (<[i := b]> l) + g_weight a = sum_list_with g_weight l + g_weight b)%nat.
Proof.
  revert i. induction l as [|w l IH]; intros [|i] H; simplify_eq/=; [lia|]. specialize (IH i H). lia.
Qed.

Lemma fstep_measure ids s s' : fstep ids s s' → (f_measure s' < f_measure s)%nat.
Proof.
  destruct 1; unfold f_measure; simpl;
    try match goal with H : ?l !! ?i = Some ?a |- context [<[?i := ?b]> ?l] =>
          pose proof (g_weight_insert l i a b H) as Hw; simpl in Hw end; lia.
Qed.

(** *** The invariant *)

Definition sent_by (g : gstate) : option M := match g with GDone o => o | _ => None end.

Record finv (ids : list string) (s : fstate) : Prop := {
  finv_len : length (gs s) = length ids;
  finv_out i id g : ids !! i = Some id → gs s !! i = Some g →
    match g with GRun => True | GSend x => produce id (Some x) | GDone o => produce id o end;
  finv_closed : ch_closed s = true → Forall g_done (gs s);
  finv_main : match main s with
              | RRun res | RRet res => res ≡ₚ omap sent_by (gs s)
              | RCancelled => True
              end;
  finv_ret res : main s = RRet res → ch_closed s = true
}.

Lemma sent_by_insert (l : list gstate) (i : nat) a o :
  l !! i = Some a → sent_by a = None →
  omap sent_by (<[i := GDone o]> l) ≡ₚ omap sent_by l ++ option_list o.
Proof.
  revert i. induction l as [|g l IH]; intros [|i] H Ha; simplify_eq/=.
  - rewrite Ha. destruct o; simpl; [apply Permutation_cons_append|by rewrite app_nil_r].
  - destruct (sent_by g); simpl; by rewrite IH.
Qed.

Lemma sent_by_insert_same (l : list gstate) (i : nat) a b :
  l !! i = Some a → sent_by a = sent_by b → omap sent_by (<[i := b]> l) = omap sent_by l.
Proof.
  revert i. induction l as [|g l IH]; intros [|i] H Ha; simplify_eq/=; [by rewrite Ha|].
  destruct (sent_by g); by rewrite IH.
Qed.

Lemma finv_launch ids : finv ids (launch ids).
Proof.
  split; simpl; try done; [apply length_replicate| |].
  - intros i id g _ [-> _]%lookup_replicate. done.
  - induction (length ids); done.
Qed.

(** A step in which one goroutine moves. *)
Lemma finv_move ids l c m m' i a b :
  finv ids (mkF l c m) → l !! i = Some a → ¬ g_done a →
  (∀ id, ids !! i = Some id →
     match b with GRun => True | GSend x => produce id (Some x) | GDone o => produce id o end) →
  match m' with
  | RRun res | RRet res => res ≡ₚ omap sent_by (<[i := b]> l)
  | RCancelled => True
  end →
  (∀ res, m' = RRet res → m = RRet res) →
  finv ids (mkF (<[i := b]> l) c m').
Proof.
  intros [H1 H2 H3 H4 H5] Ha Hd Hb Hm Hr. simpl in *. split; simpl; try done.
  - by rewrite length_insert.
  - intros j id g Hj [(-> & <- & _)|[_ Hg]]%list_lookup_insert_Some; [by apply Hb|by eapply H2].
  - intros Hc. destruct Hd. specialize (H3 Hc). by eapply (Forall_lookup_1 _ _ _ _ H3).
  - intros res Hres. eapply H5; eauto.
Qed.

Lemma finv_step ids s s' : fstep ids s s' → finv ids s → finv ids s'.
Proof.
  intros Hs Hi. pose proof Hi as [H1 H2 H3 H4 H5].
  destruct Hs as [l c m i id x Hl Hid Hp|l c m i id Hl Hid Hp|l c res i x Hl|l m Hd|l res|l c res];
    simpl in *.
  - eapply finv_move; try done; [by intros []|intros; by simplify_eq|].
    by erewrite sent_by_insert_same.
  - eapply finv_move; try done; [by intros []|intros; by simplify_eq|].
    by erewrite sent_by_insert_same.
  - eapply finv_move; try done; [by intros []|..].
    + intros id Hid. apply (H2 i id (GSend x) Hid Hl).
    + by rewrite (sent_by_insert _ _ _ _ Hl), H4.
  - by split.
  - by split.
  - by split.
Qed.

Lemma finv_reach ids s : rtc (fstep ids) (launch ids) s → finv ids s.
Proof.
  intros H. eapply (rtc_ind_r (finv ids)); [apply finv_launch| |exact H].
  intros y z _ Hyz Hy. by eapply finv_step.
Qed.

Lemma fstep_progress ids s res :
  (∀ id, ∃ o, produce id o) → finv ids s → main s = RRun res →
  ∃ s', fstep ids s s' ∧ main s' ≠ RCancelled.
Proof.
  intros Ht [H1 _ _ _ _] Hm. destruct s as [l c m]. simpl in *. subst m.
  destruct (decide (Forall g_done l)) as [Hd|Hd].
  { destruct c; eexists; (split; [apply f_return || by apply f_close|done]). }
  apply not_Forall_Exists in Hd as (g & [i Hi]%list_elem_of_lookup & Hg)%Exists_exists; [|apply _].
  destruct g as [|x|o]; [| |by destruct Hg].
  - destruct (lookup_lt_is_Some_2 ids i) as [id Hid]; [rewrite <-H1; by eapply lookup_lt_Some|].
    destruct (Ht id) as [[x|] Ho]; eexists.
    + split; [by eapply f_produce|done].
    + split; [by eapply f_nothing|done].
  - eexists. split; [by eapply f_receive|done].
Qed.

(** What is returned is what the goroutines sent. *)
Lemma MeasurementResults_outs ids s res :
  rtc (fstep ids) (launch ids) s → main s = RRet res →
  ∃ outs, Forall2 produce ids outs ∧ res ≡ₚ omap (λ o, o) outs.
Proof.
  intros Hr Hm. destruct (finv_reach ids s Hr) as [H1 H2 H3 H4 H5].
  rewrite Hm in H4. specialize (H3 (H5 _ Hm)). exists (sent_by <$> gs s). split.
  - apply Forall2_same_length_lookup_2; [by rewrite length_fmap|].
    intros i id o Hid Ho. apply list_lookup_fmap_Some in Ho as (g & -> & Hg).
    specialize (H2 i id g Hid Hg). assert (g_done g) as Hd by (by eapply (Forall_lookup_1 _ _ _ _ H3)).
    by destruct g.
  - rewrite H4. clear. induction (gs s) as [|g l IH]; [done|]. simpl. by destruct (sent_by g); rewrite IH.
Qed.

(** *** Properties *)

(** A slice that MeasurementResults returns holds, in some order, what
    the goroutines of the requested identifiers sent: one measurement for
    each that sent one, and nothing else. *)
Theorem MeasurementResults_complete ids s res :
  rtc (fstep ids) (launch ids) s → main s = RRet res →
  ∃ outs, Forall2 produce ids outs ∧ res ≡ₚ omap (λ o, o) outs.
Proof. apply MeasurementResults_outs. Qed.

(** When every goroutine's work ends, MeasurementResults returns: a run
    has at most two steps per identifier and two more, and when nothing can
    move the caller has returned, even without the deadline. *)
Theorem MeasurementResults_terminates ids :
  (∀ id, ∃ o, produce id o) →
  (∀ k s, nsteps (fstep ids) k (launch ids) s → (k <= 2 * length ids + 2)%nat) ∧
  (∀ s, rtc (fstep ids) (launch ids) s → (∀ res, main s ≠ RRun res) ∨
     ∃ s', fstep ids s s' ∧ main s' ≠ RCancelled).
Proof.
  intros Ht. split.
  - intros k s H. assert (f_measure (launch ids) = (2 * length ids + 2)%nat) as Hs.
    { unfold f_measure, launch. simpl. induction (length ids); simpl in *; lia. }
    enough (k + f_measure s <= f_measure (launch ids))%nat by lia.
    clear Hs. induction H as [|k s s1 s2 H1%fstep_measure _ IH]; lia.
  - intros s Hr%finv_reach. destruct (main s) as [res| |] eqn:E; [right|by left..].
    by eapply fstep_progress.
Qed.

(** The deadline leaves goroutines behind: one that has its measurement
    when the caller has given up waits for ever to send it. *)
Theorem MeasurementResults_leaks id x :
  produce id (Some x) →
  ∃ s, rtc (fstep [id]) (launch [id]) s ∧ main s = RCancelled ∧ gs s = [GSend x] ∧
       ∀ s', ~ fstep [id] s s'.
Proof.
  intros Hp. exists (mkF [GSend x] false RCancelled). split; [|split; [done|split; [done|]]].
  - eapply rtc_l; [apply f_cancel|]. eapply rtc_l; [|apply rtc_refl].
    by apply (f_produce [id] [GRun] false RCancelled 0 id x).
  - intros s' Hs. inversion Hs; subst;
      match goal with
      | H : [_] !! ?i = Some _ |- _ => destruct i; simplify_eq/=
      | H : Forall _ _ |- _ => by inversion H
      end.
Qed.

End fanout.

(** IsHealthy *)
Definition IsHealthy : bool := true.

(** ** Witnesses *)

Module RequestW.
#[local] Existing Instances sAtlas sProm sPromLaws.

Definition results_w : list Result := [sPing 1 100 [f64_of_int 7]; sPing 2 101 []; sPing 1 102 []].
Definition probes_w : gmap Z Probe :=
  {[1 := mkProbe 1 1101 0 "NL" []; 2 := mkProbe 2 0 0 "DE" []]}.

Definition wifi_w : list Result := [retype "wifi" (sPing 1 100 [])].
Definition unknown_w : list Result := results_w ++ [sPing 9 103 []].

Lemma buckets_w : buckets_increasing defaultConfig.
Proof. repeat constructor. Qed.

Lemma getMeasurementForID_spec_witness :
  ∃ m0 mes, measurementForType "ping" "1001" "4" defaultConfig = Ret (Ok m0) ∧
    getMeasurementForID defaultConfig "1001" (Ok results_w) (Ok probes_w) = Some mes ∧
    ∀ k, let mine := filter (λ r, PrbId r = k ∧ passes m0 r (probes_w !! k) = Ret true) results_w in
         latest mes !! k = last mine ∧ probes mes !! k = (λ _, probes_w !! k) <$> last mine.
Proof.
  apply (getMeasurementForID_spec defaultConfig "1001" results_w (sPing 1 100 [f64_of_int 7]) probes_w).
  - reflexivity.
  - apply buckets_w.
  - by repeat constructor.
  - reflexivity.
  - left.
  - intros m. unfold results_w. rewrite !elem_of_cons. intros [->|[->|[->|[]%not_elem_of_nil]]]; by eexists.
Defined.

Lemma getMeasurementForID_nothing_witness :
  getMeasurementForID defaultConfig "1001" (Ok wifi_w) (Ok probes_w) = None.
Proof.
  apply (getMeasurementForID_nothing defaultConfig "1001" (Ok wifi_w) (Ok probes_w)).
  right. right. left. eexists. split; [reflexivity|]. by apply (bool_decide_unpack ("wifi" ∉ supported)).
Defined.

(** The probe of the last result is unknown. *)
Lemma missing_probe_drops_measurement_witness :
  getMeasurementForID defaultConfig "1001" (Ok unknown_w) (Ok probes_w) = None.
Proof.
  apply (missing_probe_drops_measurement defaultConfig "1001" unknown_w probes_w (sPing 9 103 [])).
  - reflexivity.
  - apply buckets_w.
  - reflexivity.
  - apply elem_of_app. right. left.
  - reflexivity.
Defined.

(** Two identifiers of which the second has no results. *)
Definition produce_w (id : string) (o : option Z) : Prop :=
  o = if bool_decide (id = "1001") then Some 1001 else None.

Lemma MeasurementResults_complete_witness :
  ∃ outs, Forall2 produce_w ["1001"; "2"] outs ∧ [1001] ≡ₚ omap (λ o, o) outs.
Proof.
  apply (MeasurementResults_complete produce_w ["1001"; "2"]
           (mkF [GDone (Some 1001); GDone None] true (RRet [1001]))); [|done].
  eapply rtc_l. { by eapply (f_nothing _ _ _ _ _ 1). }
  eapply rtc_l. { by eapply (f_produce _ _ _ _ _ 0). }
  eapply rtc_l. { by eapply (f_receive _ _ _ _ _ 0). }
  eapply rtc_l. { apply f_close. by repeat constructor. }
  eapply rtc_l. { apply f_return. }
  apply rtc_refl.
Defined.

Lemma MeasurementResults_terminates_witness :
  (∀ k s, nsteps (fstep produce_w ["1001"; "2"]) k (launch ["1001"; "2"]) s → (k <= 6)%nat) ∧
  (∀ s, rtc (fstep produce_w ["1001"; "2"]) (launch ["1001"; "2"]) s →
     (∀ res, main s ≠ RRun res) ∨ ∃ s', fstep produce_w ["1001"; "2"] s s' ∧ main s' ≠ RCancelled).
Proof. apply (MeasurementResults_terminates produce_w ["1001"; "2"]). intros id. by eexists. Defined.

Lemma MeasurementResults_leaks_witness :
  ∃ s, rtc (fstep produce_w ["1001"]) (launch ["1001"]) s ∧ main s = RCancelled ∧
       gs s = [GSend 1001] ∧ ∀ s', ~ fstep produce_w ["1001"] s s'.
Proof. by apply (MeasurementResults_leaks produce_w "1001" 1001). Defined.

End RequestW.
