(* ===== verification/StreamWorker.v ===== *)
(** * Package atlas: stream_strategy_worker.go

    The workers of the streaming strategy share the counter of connected
    workers, the gauge atlas_exporter_stream_connected and the result
    channel.  [wstep] is one step of one worker in run, with each access to
    the shared variables a step of its own; what the stream, the clock and the
    random numbers do is left open. *)

From S2P Require Import Prelude GoInt GoFloat GoStrings Apis Samples Config.
Open Scope Z_scope.

Definition minRetryDelay : Z := 1 * Second.
Definition maxRetryDelay : Z := 60 * Second.

(** [rand.Int63n(n)] when the generator draws [r]. *)
Definition Int63n (n r : Z) : Outcome Z :=
  if n <=? 0 then Panic "invalid argument to Int63n" else Ret (r mod n).

(** [r] is the random number. *)
Definition getRetryDelay (retryAttempt r : Z) : Outcome Z :=
  let delay := mul64 minRetryDelay (shl64 1 (to_uint retryAttempt)) in
  let delay := if maxRetryDelay <? delay then maxRetryDelay else delay in
  jitter ← Int63n (quot64 delay 2) r;
  Ret (sub64 (add64 delay jitter) (quot64 delay 4)).

(** ** subscribe and listenForResults *)

Section worker.
Context {A : AtlasAPI}.

(** What the stream client answers for a measurement number. *)
Definition subscribe {Ch} (stream : Z → GoResult Ch) (id : string) : GoResult Ch :=
  match Atoi id with
  | inr _ => Err ("strconv.Atoi: parsing " +:+ id)
  | inl msm => stream msm
  end.

(** What the select receives: from the stream (a nil pointer is [None]), that
    the stream is closed, or that the context is done. *)
Inductive levent := Recv (m : option Result) | Closed | CtxDone.

Definition disconnect_error (e : string) : bool := HasPrefix e "c.On(disconnect)".

(** The results put on resultCh, and whether the call has returned when
    these events have been received. *)
Fixpoint listenForResults (events : list levent) : list Result * bool :=
  match events with
  | [] => ([], false)
  | Closed :: _ => ([], true)
  | CtxDone :: _ => ([], true)
  | Recv None :: events' => listenForResults events'
  | Recv (Some m) :: events' =>
      match ParseError m with
      | Some e =>
          if disconnect_error e then ([], true)
          else let '(ms, b) := listenForResults events' in (m :: ms, b)
      | None => let '(ms, b) := listenForResults events' in (m :: ms, b)
      end
  end.

(** An event that ends the call. *)
Definition ends (e : levent) : bool :=
  match e with
  | Closed | CtxDone => true
  | Recv None => false
  | Recv (Some m) => match ParseError m with Some e => disconnect_error e | None => false end
  end.

Definition result_of (e : levent) : option Result :=
  match e with Recv m => m | _ => None end.

(** A worker forwards every result up to the event that ends its
    connection, in order, unparsed ones included, and nothing after it; it
    stops at the end of the stream, of the context, or at a disconnect. *)
Theorem listenForResults_spec before rest :
  Forall (λ e, ends e = false) before →
  listenForResults before = (omap result_of before, false) ∧
  ∀ e, ends e = true → listenForResults (before ++ e :: rest) = (omap result_of before, true).
Proof.
  induction 1 as [|e l He _ [IH1 IH2]]; simpl.
  - split; [done|]. intros [[m|]| |]; simpl; try done. by destruct (ParseError m) as [s|]; [intros ->|].
  - destruct e as [[m|]| |]; simpl in *; try done. destruct (ParseError m) as [s|].
    + rewrite He, IH1. split; [done|]. intros e Hee. by rewrite (IH2 e Hee).
    + rewrite IH1. split; [done|]. intros e Hee. by rewrite (IH2 e Hee).
Qed.

End worker.

(** ** Delays *)

Definition base_delay (attempt : Z) : Z := Z.min (2 ^ attempt * Second) maxRetryDelay.

(** The doubling stays within 64 bits up to the 33rd attempt. *)
Lemma delay_exact a :
  0 <= a <= 33 →
  (if maxRetryDelay <? mul64 minRetryDelay (shl64 1 (to_uint a)) then maxRetryDelay
   else mul64 minRetryDelay (shl64 1 (to_uint a))) = base_delay a.
Proof.
  intros Ha. assert (a ∈ seqZ 0 34) as Hin by (apply elem_of_seqZ; lia).
  assert (forallb (λ a, (if maxRetryDelay <? mul64 minRetryDelay (shl64 1 (to_uint a)) then maxRetryDelay
    else mul64 minRetryDelay (shl64 1 (to_uint a))) =? base_delay a) (seqZ 0 34) = true) as Hall
    by (vm_compute; reflexivity).
  rewrite forallb_forall in Hall. apply Z.eqb_eq, Hall. by apply list_elem_of_In.
Qed.

(** A delay is a quarter of a second times a number. *)
Lemma base_delay_quarter a : 0 <= a → ∃ q, base_delay a = 4 * q ∧ 0 < q <= 15 * Second.
Proof.
  intros Ha. unfold base_delay, maxRetryDelay, Second.
  assert (0 < 2 ^ a) by (apply Z.pow_pos_nonneg; lia).
  destruct (Z.min_spec (2 ^ a * 1000000000) (60 * 1000000000)) as [[Hlt ->]|[_ ->]].
  - exists (2 ^ a * 250000000). lia.
  - exists 15000000000. lia.
Qed.

Lemma getRetryDelay_eq a r :
  0 <= a <= 33 →
  getRetryDelay a r =
    Ret (base_delay a - base_delay a / 4 + r mod (base_delay a / 2)).
Proof.
  intros Ha. unfold getRetryDelay. rewrite delay_exact by done.
  destruct (base_delay_quarter a) as (q & -> & Hq); [lia|]. unfold Second in Hq.
  replace (4 * q / 4) with q by (by rewrite Z.mul_comm, Z.div_mul).
  replace (4 * q / 2) with (2 * q) by (replace (4 * q) with (2 * q * 2) by lia; by rewrite Z.div_mul).
  unfold quot64, Int63n. replace (Z.quot (4 * q) 2) with (2 * q)
    by (replace (4 * q) with (2 * q * 2) by lia; by rewrite Z.quot_mul).
  replace (Z.quot (4 * q) 4) with q by (by rewrite Z.mul_comm, Z.quot_mul).
  rewrite !wrap64_id by (unfold int64_ok, two63; lia).
  destruct (Z.leb_spec (2 * q) 0); [lia|]. cbn [mbind Outcome_bind]. f_equal.
  pose proof (Z.mod_pos_bound r (2 * q)) as Hm. unfold add64, sub64.
  rewrite (wrap64_id (4 * q + r mod (2 * q))) by (unfold int64_ok, two63; lia).
  rewrite wrap64_id by (unfold int64_ok, two63; lia). lia.
Qed.

Lemma delay_within a r :
  0 <= a <= 33 → ∃ d, getRetryDelay a r = Ret d ∧ 3 * base_delay a <= 4 * d < 5 * base_delay a.
Proof.
  intros Ha. rewrite getRetryDelay_eq by done. eexists. split; [done|].
  destruct (base_delay_quarter a) as (q & -> & Hq); [lia|].
  replace (4 * q / 4) with q by (by rewrite Z.mul_comm, Z.div_mul).
  replace (4 * q / 2) with (2 * q) by (replace (4 * q) with (2 * q * 2) by lia; by rewrite Z.div_mul).
  pose proof (Z.mod_pos_bound r (2 * q)). lia.
Qed.

Lemma getRetryDelay_34 r : getRetryDelay 34 r = Panic "invalid argument to Int63n".
Proof. reflexivity. Qed.

(** C16: up to 33 attempts the delay before a reconnection is within a
    quarter of the base delay, one second doubled per attempt and at most a
    minute; the next attempt overflows, and the call panics. *)
Theorem getRetryDelay_bounds a r :
  0 <= a <= 34 →
  if a =? 34 then ∃ msg, getRetryDelay a r = Panic msg
  else ∃ d, getRetryDelay a r = Ret d ∧
    3 * base_delay a <= 4 * d < 5 * base_delay a.
Proof.
  intros Ha. destruct (Z.eqb_spec a 34) as [->|]; [by eexists; apply getRetryDelay_34|].
  apply delay_within. lia.
Qed.

(** ** The workers *)

(** Where a worker is: about to subscribe, past the increment of the counter,
    listening, past the decrement, in the select between attempts, or
    returned. *)
Inductive phase := PSub | PUp | PListen | PDown | PWait | PExit.
#[export] Instance phase_eq_dec : EqDecision phase.
Proof. solve_decision. Defined.

Record worker := mkW { at_ : phase; retryAttempt : Z }.

Record shared := mkS {
  ws : list worker;
  connectedWorkers : Z;              (* int32 *)
  StreamConnectedGauge : gmap string Z
}.

Definition init (ids : list string) : shared :=
  mkS (replicate (length ids) (mkW PSub 0)) 0 ∅.

(** One step of worker [i], whose measurement is [id]. *)
Inductive wstep (ids : list string) : shared → shared → Prop :=
| w_sub_fail l c g i a : l !! i = Some (mkW PSub a) →
    wstep ids (mkS l c g) (mkS (<[i := mkW PWait (add64 a 1)]> l) c g)
| w_sub_ok l c g i a : l !! i = Some (mkW PSub a) →
    wstep ids (mkS l c g) (mkS (<[i := mkW PUp 0]> l) (wrap32 (c + 1)) g)
| w_gauge_up l c g i a id : l !! i = Some (mkW PUp a) → ids !! i = Some id →
    wstep ids (mkS l c g) (mkS (<[i := mkW PListen a]> l) c (<[id := 1]> g))
| w_disconnect l c g i a : l !! i = Some (mkW PListen a) →
    wstep ids (mkS l c g) (mkS (<[i := mkW PDown a]> l) (wrap32 (c - 1)) g)
| w_gauge_down l c g i a id : l !! i = Some (mkW PDown a) → ids !! i = Some id →
    wstep ids (mkS l c g) (mkS (<[i := mkW PWait (add64 a 1)]> l) c (<[id := 0]> g))
(** getRetryDelay is called before the select waits, whatever is ready *)
| w_retry l c g i a r d : l !! i = Some (mkW PWait a) → getRetryDelay a r = Ret d →
    wstep ids (mkS l c g) (mkS (<[i := mkW PSub a]> l) c g)
| w_ctx_done l c g i a r d : l !! i = Some (mkW PWait a) → getRetryDelay a r = Ret d →
    wstep ids (mkS l c g) (mkS (<[i := mkW PExit a]> l) c g)
(** the deferred recover of run: the worker returns *)
| w_panic l c g i a r msg : l !! i = Some (mkW PWait a) → getRetryDelay a r = Panic msg →
    wstep ids (mkS l c g) (mkS (<[i := mkW PExit a]> l) c g).

Definition counted (w : worker) : bool :=
  match at_ w with PUp | PListen => true | _ => false end.

Definition connected (l : list worker) : Z := Z.of_nat (length (filter (λ w, counted w = true) l)).

(** *** Lemmas *)

Lemma connected_insert l i a b :
  l !! i = Some a →
  connected (<[i := b]> l) + (if counted a then 1 else 0) =
  connected l + (if counted b then 1 else 0).
Proof.
  unfold connected. revert i. induction l as [|w l IH]; intros [|i] H; simplify_eq/=.
  - rewrite !filter_cons. destruct (counted a), (counted b); simpl; lia.
  - specialize (IH i H). rewrite !filter_cons. destruct (counted w); simpl; lia.
Qed.

Lemma connected_le l : 0 <= connected l <= Z.of_nat (length l).
Proof. unfold connected. pose proof (length_filter (λ w, counted w = true) l). lia. Qed.

(** What holds of each worker: the attempts fit the place. *)
Definition worker_ok (w : worker) : Prop :=
  match at_ w with
  | PSub => 0 <= retryAttempt w <= 33
  | PUp | PListen | PDown => retryAttempt w = 0
  | PWait => 1 <= retryAttempt w <= 34
  | PExit => 1 <= retryAttempt w <= 34
  end.

(** The gauge of a worker shows its connection; it is set after the counter
    and cleared after it. *)
Definition gauge_ok (g : gmap string Z) (id : string) (w : worker) : Prop :=
  match at_ w with PListen | PDown => g !! id = Some 1 | _ => g !! id ≠ Some 1 end.

Record winv (ids : list string) (s : shared) : Prop := {
  winv_len : length (ws s) = length ids;
  winv_count : connectedWorkers s = connected (ws s);
  winv_ok : Forall worker_ok (ws s);
  winv_gauge i id w : NoDup ids → ids !! i = Some id → ws s !! i = Some w →
    gauge_ok (StreamConnectedGauge s) id w
}.

Lemma delay_returns a r d : 1 <= a <= 34 → getRetryDelay a r = Ret d → a <= 33.
Proof. intros Ha Hd. destruct (decide (a = 34)) as [->|]; [by rewrite getRetryDelay_34 in Hd|lia]. Qed.

(** A step in which worker [i] moves from [a] to [b]. *)
Lemma winv_move ids l c g i a b c' g' :
  winv ids (mkS l c g) → l !! i = Some a → worker_ok b →
  c' = c + (if counted b then 1 else 0) - (if counted a then 1 else 0) →
  (∀ id, ids !! i = Some id → gauge_ok g' id b) →
  (∀ id', ids !! i ≠ Some id' → g' !! id' = g !! id') →
  winv ids (mkS (<[i := b]> l) c' g').
Proof.
  intros [H1 H2 H3 H4] Ha Hb -> Hg Hg'. simpl in *. split; simpl.
  - by rewrite length_insert.
  - pose proof (connected_insert l i a b Ha). lia.
  - by apply Forall_insert.
  - intros j id w Hnd Hid Hw. apply list_lookup_insert_Some in Hw as [(<- & <- & _)|[Hij Hw]]; [by apply Hg|].
    unfold gauge_ok. rewrite (Hg' id).
    + by apply (H4 j id w).
    + intros Hi. destruct Hij. by eapply NoDup_lookup.
Qed.

(** The gauge after a step that leaves it, or sets the worker's own value. *)
Lemma gauge_set (ids : list string) (i : nat) (g : gmap string Z) id v id' :
  ids !! i = Some id → ids !! i ≠ Some id' → <[id := v]> g !! id' = g !! id'.
Proof. intros Hi Hne. apply lookup_insert_ne. intros <-. by destruct Hne. Qed.

Lemma winv_step ids s s' :
  Z.of_nat (length ids) < two31 → NoDup ids → wstep ids s s' → winv ids s → winv ids s'.
Proof.
  intros Hlen Hnd Hs Hi. pose proof Hi as [H1 H2 H3 H4].
  assert (∀ i w id, ws s !! i = Some w → ids !! i = Some id →
    gauge_ok (StreamConnectedGauge s) id w) as Hgo by (intros; by eapply H4).
  assert (∀ i w, ws s !! i = Some w → worker_ok w) as Hok by (intros; by eapply Forall_lookup_1).
  pose proof (connected_le (ws s)) as Hc.
  destruct Hs as [l c g i a Hw|l c g i a Hw|l c g i a id Hw Hid|l c g i a Hw|l c g i a id Hw Hid|
                  l c g i a r d Hw Hd|l c g i a r d Hw Hd|l c g i a r msg Hw Hd];
    pose proof (Hok _ _ Hw) as Ha; unfold worker_ok in Ha; simpl in *.
  - eapply winv_move; [done|done| |simpl; lia| |done].
    + unfold worker_ok, add64. simpl. rewrite wrap64_id by (unfold int64_ok, two63; lia). lia.
    + intros id Hid. apply (Hgo i _ id Hw Hid).
  - pose proof (connected_insert l i _ (mkW PUp 0) Hw) as Hci. simpl in Hci.
    pose proof (connected_le (<[i := mkW PUp 0]> l)) as Hcl. rewrite length_insert in Hcl.
    rewrite wrap32_id by (unfold two31 in *; lia).
    eapply winv_move; [done|done|done|simpl; lia| |done].
    intros id Hid. apply (Hgo i _ id Hw Hid).
  - eapply winv_move; [done|done|done|simpl; lia| |by intros; eapply gauge_set].
    intros id' Hid'. simplify_eq. unfold gauge_ok. simpl. by rewrite lookup_insert_eq.
  - rewrite wrap32_id by (unfold two31 in *; lia).
    eapply winv_move; [done|done|done|simpl; lia| |done].
    intros id Hid. apply (Hgo i _ id Hw Hid).
  - eapply winv_move; [done|done| |simpl; lia| |by intros; eapply gauge_set].
    + rewrite Ha. done.
    + intros id' Hid'. simplify_eq. unfold gauge_ok. simpl. by rewrite lookup_insert_eq.
  - pose proof (delay_returns a r d Ha Hd).
    eapply winv_move; [done|done|unfold worker_ok; simpl; lia|simpl; lia| |done].
    intros id Hid. apply (Hgo i _ id Hw Hid).
  - eapply winv_move; [done|done|done|simpl; lia| |done].
    intros id Hid. apply (Hgo i _ id Hw Hid).
  - eapply winv_move; [done|done|done|simpl; lia| |done].
    intros id Hid. apply (Hgo i _ id Hw Hid).
Qed.

Lemma winv_init ids : winv ids (init ids).
Proof.
  split; simpl.
  - apply length_replicate.
  - unfold connected. induction (length ids); [done|]. simpl. rewrite filter_cons_False by done. done.
  - apply Forall_replicate. done.
  - intros i id w _ _ [-> _]%lookup_replicate. unfold gauge_ok. simpl. by rewrite lookup_empty.
Qed.

Lemma winv_reach ids s :
  Z.of_nat (length ids) < two31 → NoDup ids → rtc (wstep ids) (init ids) s → winv ids s.
Proof.
  intros Hl Hn H. eapply (rtc_ind_r (winv ids)); [apply winv_init| |exact H].
  intros y z _ Hyz Hy. by eapply winv_step.
Qed.

(** C14: for different identifiers the counter of connected workers is, at
    every moment, the number of workers between the two updates around
    listening: it neither drifts nor becomes negative.  The gauge of a measurement is 1 exactly while its
    worker listens or has just stopped, and no worker counts more than 34
    attempts. *)
Theorem connectedWorkers_exact ids s :
  Z.of_nat (length ids) < two31 → NoDup ids → rtc (wstep ids) (init ids) s →
  connectedWorkers s = Z.of_nat (length (filter (λ w, counted w = true) (ws s))) ∧
  (∀ i id w, ids !! i = Some id → ws s !! i = Some w →
     (StreamConnectedGauge s !! id = Some 1 ↔ at_ w = PListen ∨ at_ w = PDown) ∧
     0 <= retryAttempt w <= 34).
Proof.
  intros Hl Hn Hr. destruct (winv_reach ids s Hl Hn Hr) as [H1 H2 H3 H4]. split; [done|].
  intros i id w Hid Hw. specialize (H4 i id w Hn Hid Hw).
  assert (worker_ok w) as Hok by (by eapply Forall_lookup_1). unfold gauge_ok, worker_ok in *.
  destruct (at_ w); (split; [naive_solver|lia]).
Qed.

(** A worker that waits with 34 attempts does not subscribe any more. *)
Definition dead (w : worker) : Prop := retryAttempt w = 34 ∧ (at_ w = PWait ∨ at_ w = PExit).

Lemma dead_step ids s s' i w :
  wstep ids s s' → ws s !! i = Some w → dead w → ∃ w', ws s' !! i = Some w' ∧ dead w'.
Proof.
  intros Hs Hw [Ha Hd].
  destruct Hs; simpl in *; match goal with H : _ !! ?j = Some _ |- _ =>
    destruct (decide (i = j)) as [->|Hne];
    [rewrite Hw in H; injection H as -> | rewrite list_lookup_insert_ne by done; exists w; by split] end;
    simpl in *; subst; try (by destruct Hd);
    try (match goal with H : getRetryDelay 34 _ = Ret _ |- _ => by rewrite getRetryDelay_34 in H end).
  eexists. split; [apply list_lookup_insert_eq; by eapply lookup_lt_Some|]. split; [done|by right].
Qed.

Lemma dead_reach ids s s' i w :
  rtc (wstep ids) s s' → ws s !! i = Some w → dead w → ∃ w', ws s' !! i = Some w' ∧ dead w'.
Proof.
  intros Hr. revert w. induction Hr as [s|s s1 s2 Hs _ IH]; intros w Hw Hd; [by exists w|].
  destruct (dead_step ids s s1 i w Hs Hw Hd) as (w1 & Hw1 & Hd1). by eapply IH.
Qed.

(** A run in which every attempt of worker [i] to subscribe fails, while the
    other workers do whatever they do: the number of its failures and the
    delays it waited. *)
Inductive outage (ids : list string) (i : nat) : shared → nat → list Z → shared → Prop :=
| outage_begin s : outage ids i s 0 [] s
| outage_other s f ds s1 s2 :
    outage ids i s f ds s1 → wstep ids s1 s2 → ws s2 !! i = ws s1 !! i → outage ids i s f ds s2
| outage_fail s f ds l c g a :
    outage ids i s f ds (mkS l c g) → l !! i = Some (mkW PSub a) →
    outage ids i s (S f) ds (mkS (<[i := mkW PWait (add64 a 1)]> l) c g)
| outage_wait s f ds l c g a r d :
    outage ids i s f ds (mkS l c g) → l !! i = Some (mkW PWait a) → getRetryDelay a r = Ret d →
    outage ids i s f (ds ++ [d]) (mkS (<[i := mkW PSub a]> l) c g).

(** It is a run of the workers. *)
Lemma outage_steps ids i s f ds s' : outage ids i s f ds s' → rtc (wstep ids) s s'.
Proof.
  induction 1 as [s|s f ds s1 s2 _ IH Hs _|s f ds l c g a _ IH Hw|s f ds l c g a r d _ IH Hw Hd]; [done|..];
    (eapply rtc_r; [exact IH|]); [done|by apply w_sub_fail|by eapply w_retry].
Qed.

Definition sumZ (l : list Z) : Z := foldr Z.add 0 l.

Lemma sumZ_app k l : sumZ (k ++ l) = sumZ k + sumZ l.
Proof. unfold sumZ. induction k as [|x k IH]; simpl; lia. Qed.

(** The delays without the jitter, of the first [n] attempts. *)
Definition base_total (n : nat) : Z := sumZ (base_delay <$> seqZ 1 (Z.of_nat n)).

Lemma base_total_S n : base_total (S n) = base_total n + base_delay (Z.of_nat n + 1).
Proof.
  unfold base_total. replace (Z.of_nat (S n)) with (Z.of_nat n + 1) by lia.
  rewrite seqZ_app, fmap_app, sumZ_app by lia. f_equal.
  change (base_delay (1 + Z.of_nat n) + 0 = base_delay (Z.of_nat n + 1)). rewrite Z.add_0_r. f_equal. lia.
Qed.

Lemma getRetryDelay_within a r d :
  1 <= a <= 34 → getRetryDelay a r = Ret d → a <= 33 ∧ 3 * base_delay a <= 4 * d < 5 * base_delay a.
Proof.
  intros Ha Hd. pose proof (delay_returns a r d Ha Hd). split; [done|].
  destruct (delay_within a r) as (d' & E & Hb); [lia|]. rewrite E in Hd. by injection Hd as <-.
Qed.

(** At the first attempt, or in the wait after a connection was lost. *)
Definition outage_starts (w : worker) : Prop := w = mkW PSub 0 ∨ w = mkW PWait 1.

(** After [n] waits the worker is at its attempt [n], or waits before the next
    one; the counter is the number of failures, and one more if it had a
    connection. *)
Definition outage_at (k : Z) (f n : nat) (w : worker) : Prop :=
  retryAttempt w = Z.of_nat f + k ∧
  (w = mkW PSub (Z.of_nat n) ∨ w = mkW PWait (Z.of_nat n + 1)).

Lemma outage_inv ids i s0 w0 f ds s :
  ws s0 !! i = Some w0 → outage_starts w0 → outage ids i s0 f ds s →
  (∃ w, ws s !! i = Some w ∧ outage_at (retryAttempt w0) f (length ds) w) ∧ (length ds <= 33)%nat ∧
  3 * base_total (length ds) <= 4 * sumZ ds <= 5 * base_total (length ds) - Z.of_nat (length ds).
Proof.
  intros H0 Hst Ho. revert H0.
  induction Ho as [s|s f ds s1 s2 _ IH _ Hi|s f ds l c g a _ IH Hw|s f ds l c g a r d _ IH Hw Hd]; intros H0.
  - split; [|change (base_total (length [])) with 0; simpl; lia]. exists w0. split; [done|].
    split; [simpl; lia|]. by destruct Hst as [->| ->]; [left|right].
  - rewrite Hi. by apply IH.
  - destruct (IH H0) as ((w & Hw' & Hr & Hat) & Hn & Hs). simpl in Hw'. rewrite Hw in Hw'. injection Hw' as <-.
    destruct Hat as [[= ->]|[=]]. split; [|done]. simpl in *.
    rewrite list_lookup_insert_eq by (by eapply lookup_lt_Some). eexists. split; [done|].
    unfold add64. rewrite wrap64_id by (unfold int64_ok, two63; lia). split; [simpl; lia|by right].
  - destruct (IH H0) as ((w & Hw' & Hr & Hat) & Hn & Hs). simpl in Hw'. rewrite Hw in Hw'. injection Hw' as <-.
    destruct Hat as [[=]|[= ->]]. apply getRetryDelay_within in Hd as [Ha Hd]; [|lia].
    rewrite length_app, Nat.add_1_r, base_total_S, sumZ_app. unfold sumZ at 2. simpl in *. split_and!; [|lia..].
    rewrite list_lookup_insert_eq by (by eapply lookup_lt_Some). eexists. split; [done|].
    split; [simpl; lia|]. left. f_equal. lia.
Qed.

(** Before the counter is at 34 the next attempt can fail as well. *)
Lemma outage_goes_on ids i s0 w0 f ds s :
  ws s0 !! i = Some w0 → outage_starts w0 → outage ids i s0 f ds s → Z.of_nat f + retryAttempt w0 < 34 →
  ∃ ds' s', outage ids i s0 (S f) ds' s'.
Proof.
  intros H0 Hst Ho Hf. destruct (outage_inv _ _ _ _ _ _ _ H0 Hst Ho) as ((w & Hw & Hr & Hat) & Hn & _).
  destruct s as [l c g]. simpl in Hw. destruct Hat as [->| ->]; simpl in Hr.
  - eexists _, _. by eapply outage_fail.
  - eexists _, _. eapply outage_fail.
    + eapply (outage_wait _ _ _ _ _ _ _ _ _ 0); [exact Ho|exact Hw|]. apply getRetryDelay_eq. lia.
    + apply list_lookup_insert_eq. by eapply lookup_lt_Some.
Qed.

Lemma outage_exists ids i s0 w0 n :
  ws s0 !! i = Some w0 → outage_starts w0 → Z.of_nat n + retryAttempt w0 <= 34 →
  ∃ ds s, outage ids i s0 n ds s.
Proof.
  intros H0 Hst. induction n as [|n IH]; intros Hn; [by eexists _, _; constructor|].
  destruct IH as (ds & s & Ho); [lia|]. eapply outage_goes_on; [done..|lia].
Qed.

(** The counter is at 34 only in the wait. *)
Lemma outage_at_34 k f n w :
  outage_at k f n w → (n <= 33)%nat → Z.of_nat f + k = 34 → n = 33%nat ∧ w = mkW PWait 34.
Proof.
  intros [Hr [->| ->]] Hn Hf; simpl in Hr; [lia|]. split; [lia|]. f_equal. lia.
Qed.

(** C17: an outage ends a worker, at any time and whatever the other workers
    do meanwhile: one that cannot subscribe from the beginning with its 34th
    failure, one that has lost its connection, where the counter is already
    at 1, with the 33rd.  It has then waited 33 times and for 22 to 36 minutes
    in all (1742 seconds, a quarter more or less), there is such a run from
    every such state, and no outage is longer: the worker never subscribes
    again as long as the process runs, whatever happens to the network,
    although the comment in run says it restarts. *)
Theorem outage_ends_worker ids i s0 w0 :
  ws s0 !! i = Some w0 → w0 = mkW PSub 0 ∨ w0 = mkW PWait 1 →
  (∃ f ds s, outage ids i s0 f ds s ∧ Z.of_nat f = 34 - retryAttempt w0) ∧
  ∀ f ds s, outage ids i s0 f ds s →
    rtc (wstep ids) s0 s ∧ Z.of_nat f <= 34 - retryAttempt w0 ∧
    (Z.of_nat f = 34 - retryAttempt w0 →
       length ds = 33%nat ∧ 3 * (1742 * Second) <= 4 * sumZ ds < 5 * (1742 * Second) ∧
       ∀ s', rtc (wstep ids) s s' →
         ∃ w, ws s' !! i = Some w ∧ retryAttempt w = 34 ∧ (at_ w = PWait ∨ at_ w = PExit)).
Proof.
  intros H0 Hst. split.
  - exists (Z.to_nat (34 - retryAttempt w0)).
    destruct (outage_exists ids i s0 w0 (Z.to_nat (34 - retryAttempt w0)) H0 Hst) as (ds & s & Ho);
      [|exists ds, s; split; [done|]]; destruct Hst as [->| ->]; simpl; lia.
  - intros f ds s Ho. destruct (outage_inv _ _ _ _ _ _ _ H0 Hst Ho) as ((w & Hw & Hat) & Hn & Hs).
    split; [by eapply outage_steps|]. split.
    { destruct Hat as [Hr [->| ->]]; simpl in Hr; lia. }
    intros Hf. destruct (outage_at_34 _ _ _ _ Hat Hn) as [E ->]; [lia|]. rewrite E in Hs. split; [done|].
    change (base_total 33) with (1742 * Second) in Hs. split; [lia|].
    intros s' Hs'. eapply (dead_reach _ _ _ _ _ Hs' Hw). by split; [|left].
Qed.

(** ** Witnesses *)

Module WorkerW.
#[local] Existing Instance sAtlas.

Definition before_w : list levent := [Recv (Some (sPing 1 100 [])); Recv None].

Lemma listenForResults_spec_witness :
  listenForResults before_w = ([sPing 1 100 []], false) ∧
  ∀ e, ends e = true → listenForResults (before_w ++ [e]) = ([sPing 1 100 []], true).
Proof. apply (listenForResults_spec before_w []). by repeat constructor. Defined.

Lemma getRetryDelay_bounds_witness :
  ∃ d, getRetryDelay 3 5 = Ret d ∧ 3 * (8 * Second) <= 4 * d < 5 * (8 * Second).
Proof. apply (getRetryDelay_bounds 3 5). lia. Defined.

Lemma connectedWorkers_exact_witness :
  1 = Z.of_nat (length (filter (λ w, counted w = true) [mkW PUp 0; mkW PSub 0])) ∧
  (∀ i id w, ["1001"; "2"] !! i = Some id → [mkW PUp 0; mkW PSub 0] !! i = Some w →
     ((∅ : gmap string Z) !! id = Some 1 ↔ at_ w = PListen ∨ at_ w = PDown) ∧
     0 <= retryAttempt w <= 34).
Proof.
  apply (connectedWorkers_exact ["1001"; "2"] (mkS [mkW PUp 0; mkW PSub 0] 1 ∅)).
  - reflexivity.
  - by apply (bool_decide_unpack (NoDup ["1001"; "2"])).
  - apply rtc_once. by apply (w_sub_ok _ [mkW PSub 0; mkW PSub 0] 0 ∅ 0 0).
Defined.

(** The second of two workers has just lost its connection; the first listens. *)
Definition lost_w : shared := mkS [mkW PListen 0; mkW PWait 1] 1
  (<["2" := 0]> (<["2" := 1]> (<["1001" := 1]> ∅))).

Lemma lost_reach : rtc (wstep ["1001"; "2"]) (init ["1001"; "2"]) lost_w.
Proof.
  eapply rtc_l; [by eapply (w_sub_ok _ _ _ _ 0)|]. eapply rtc_l; [by eapply (w_gauge_up _ _ _ _ 0)|].
  eapply rtc_l; [by eapply (w_sub_ok _ _ _ _ 1)|]. eapply rtc_l; [by eapply (w_gauge_up _ _ _ _ 1)|].
  eapply rtc_l; [by eapply (w_disconnect _ _ _ _ 1)|]. eapply rtc_l; [by eapply (w_gauge_down _ _ _ _ 1)|].
  apply rtc_refl.
Qed.

Lemma outage_ends_worker_witness :
  rtc (wstep ["1001"; "2"]) (init ["1001"; "2"]) lost_w ∧
  (∃ f ds s, outage ["1001"; "2"] 1 lost_w f ds s ∧ Z.of_nat f = 33) ∧
  ∀ f ds s, outage ["1001"; "2"] 1 lost_w f ds s →
    rtc (wstep ["1001"; "2"]) lost_w s ∧ Z.of_nat f <= 33 ∧
    (Z.of_nat f = 33 →
       length ds = 33%nat ∧ 3 * (1742 * Second) <= 4 * sumZ ds < 5 * (1742 * Second) ∧
       ∀ s', rtc (wstep ["1001"; "2"]) s s' →
         ∃ w, ws s' !! 1%nat = Some w ∧ retryAttempt w = 34 ∧ (at_ w = PWait ∨ at_ w = PExit)).
Proof.
  split; [apply lost_reach|]. apply (outage_ends_worker ["1001"; "2"] 1 lost_w (mkW PWait 1)).
  - reflexivity.
  - by right.
Defined.

End WorkerW.
