(* ===== verification/StreamStrategy.v ===== *)
(** * Package atlas: stream_strategy.go

    A [*exporter.Measurement] is an index into [heap]: the map of the
    strategy and the slices that MeasurementResults hands out share the
    objects, so an addition is seen by a collector that got the pointer
    before.  Calls under the strategy's mutex are atomic. *)

From S2P Require Import Prelude GoInt GoFloat GoStrings Json Apis Samples Probe ProbeCache Config.
From S2P Require Import Measurement Exporting Helper.
From S2P Require Sslcert StreamWorker.
Open Scope Z_scope.

Section strategy.
Context {A : AtlasAPI} {P : PromAPI}.
Context (cfg : Config).

Record streamingStrategy := mkStrategy {
  heap : list Measurement;
  measurements : gmap string nat;
  lastDataTime : Z;
  LastDataTimestampGauge : gmap string float64;
  vars : AtlasVars                   (* the package variable cache *)
}.

Definition NewStreamingStrategy (v : AtlasVars) : streamingStrategy := mkStrategy [] ∅ 0 ∅ v.

Definition set_heap (h : list Measurement) (s : streamingStrategy) : streamingStrategy :=
  mkStrategy h (measurements s) (lastDataTime s) (LastDataTimestampGauge s) (vars s).

(** [mes.Add(m, probe)] through the pointer [p]. *)
Definition AddAt (p : nat) (m : Result) (probe : option Probe) : GoM streamingStrategy unit :=
  s ← get;
  mes ← lift (deref (heap s !! p));
  mes' ← lift (Add mes m probe);
  modify (set_heap (<[p := mes']> (heap s))).

(** The deferred unlock runs on a panic too. *)
Definition add (m : Result) (probe : option Probe) : GoM streamingStrategy unit :=
  let msm := Itoa (MsmId m) in
  s ← get;
  match measurements s !! msm with
  | Some p => AddAt p m probe
  | None =>
      r ← lift (measurementForType (MsmType m) msm (Itoa (Af m)) cfg);
      match r with
      | Err _ => mret tt
      | Ok mes =>
          modify (λ s, mkStrategy (heap s ++ [mes]) (<[msm := length (heap s)]> (measurements s))
                         (lastDataTime s) (LastDataTimestampGauge s) (vars s)) ;;
          AddAt (length (heap s)) m probe
      end
  end.

(** A call on a package variable inside the strategy's state. *)
Definition on_vars {B} (f : GoM AtlasVars B) : GoM streamingStrategy B :=
  λ s, let '(o, v) := f (vars s) in
       (o, mkStrategy (heap s) (measurements s) (lastDataTime s) (LastDataTimestampGauge s) v).

(** What surrounds the handling of a result: the clock, in seconds at its
    start and in nanoseconds inside probeForID, and the HTTP client. *)
Record env := mkEnv { unix : Z; t_get : Z; t_add : Z; client : HttpClient }.

Definition processMeasurementResult (e : env) (r : Result) : GoM streamingStrategy unit :=
  modify (λ s, mkStrategy (heap s) (measurements s) (unix e)
                 (<[Itoa (MsmId r) := f64_of_int (unix e)]> (LastDataTimestampGauge s)) (vars s)) ;;
  probe ← on_vars (probeForID (client e) (t_get e) (t_add e) (PrbId r));
  match probe with
  | Err _ => mret tt
  | Ok p => add r p
  end.

(** The processor, with [q] the results in the buffered channel, which no
    code closes.  After a panic is recovered, the select takes one more value out of the channel,
    if there is one, to see whether the channel is closed. *)
Fixpoint processMeasurementResults (q : list (env * Result)) (s : streamingStrategy) :
  streamingStrategy :=
  match q with
  | [] => s
  | (e, r) :: q' =>
      match processMeasurementResult e r s with
      | (Ret _, s') => processMeasurementResults q' s'
      | (Panic _, s') =>
          match q' with
          | [] => s'
          | _ :: q'' => processMeasurementResults q'' s'
          end
      end
  end.

Definition getMapKeys (s : streamingStrategy) : list string := (map_to_list (measurements s)).*1.

(** The pointers for the identifiers that are known. *)
Definition MeasurementResults (s : streamingStrategy) (ids : list string) : list nat :=
  omap (λ id, measurements s !! id) ids.

(** [now] is the wall clock in nanoseconds; [time.Since] saturates. *)
Definition saturate (z : Z) : Z := Z.max (- two63) (Z.min (two63 - 1) z).

Definition IsHealthy (s : streamingStrategy) (connectedWorkers now : Z) : bool :=
  if connectedWorkers <=? 0 then false
  else if 0 <? Health_MaxDataAge cfg then
    if lastDataTime s =? 0 then false
    else negb (Health_MaxDataAge cfg <? saturate (now - lastDataTime s * Second))
  else true.

(** ** Lemmas *)

(** Every pointer of the map is allocated, and two names do not share one. *)
Record swf (s : streamingStrategy) : Prop := {
  swf_alloc k p : measurements s !! k = Some p → (p < length (heap s))%nat;
  swf_inj k k' p : measurements s !! k = Some p → measurements s !! k' = Some p → k = k'
}.

Lemma AddAt_run s p mes m probe :
  heap s !! p = Some mes →
  AddAt p m probe s =
    match Add mes m probe with
    | Ret mes' => (Ret tt, set_heap (<[p := mes']> (heap s)) s)
    | Panic e => (Panic e, s)
    end.
Proof.
  intros Hp. unfold AddAt, mbind, GoM_bind. simpl. rewrite Hp. simpl. by destruct (Add mes m probe).
Qed.

(** The object of a measurement name. *)
Definition object (s : streamingStrategy) (k : string) : option Measurement :=
  p ← measurements s !! k; heap s !! p.

(** What an addition does to the objects. *)
Lemma add_run s m probe :
  swf s →
  let k := Itoa (MsmId m) in
  add m probe s =
    match object s k with
    | Some mes =>
        match Add mes m probe with
        | Ret mes' => (Ret tt, set_heap (<[default 0%nat (measurements s !! k) := mes']> (heap s)) s)
        | Panic e => (Panic e, s)
        end
    | None =>
        match measurementForType (MsmType m) k (Itoa (Af m)) cfg with
        | Panic e => (Panic e, s)
        | Ret (Err _) => (Ret tt, s)
        | Ret (Ok mes) =>
            let s' mes := mkStrategy (heap s ++ [mes]) (<[k := length (heap s)]> (measurements s))
                            (lastDataTime s) (LastDataTimestampGauge s) (vars s) in
            match Add mes m probe with
            | Ret mes' => (Ret tt, s' mes')
            | Panic e => (Panic e, s' mes)
            end
        end
    end.
Proof.
  intros [Ha _] k. unfold add, object. fold k. unfold mbind at 1, GoM_bind, get.
  destruct (measurements s !! k) as [p|] eqn:E; cbn [mbind option_bind default].
  - destruct (lookup_lt_is_Some_2 (heap s) p (Ha k p E)) as [mes Hm]. rewrite Hm.
    by apply AddAt_run.
  - unfold mbind, GoM_bind, lift.
    destruct (measurementForType _ _ _ _) as [[mes|e]|e]; try done. unfold modify.
    rewrite (AddAt_run _ _ mes) by (simpl; by rewrite lookup_app_r, Nat.sub_diag by lia).
    destruct (Add mes m probe); [|done]. unfold set_heap. simpl.
    by rewrite insert_app_r_alt, Nat.sub_diag by lia.
Qed.

(** ** Refinement: every measurement on its own

    [own_add] is what a result does to the object of its measurement, as if
    there were no map, no heap and no other measurement. *)

Definition own_add (o : option Measurement) (mp : Result * option Probe) :
  Outcome (option Measurement) :=
  mes ← match o with
        | Some mes => Ret (Ok mes)
        | None => measurementForType (MsmType mp.1) (Itoa (MsmId mp.1)) (Itoa (Af mp.1)) cfg
        end;
  match mes with
  | Err _ => Ret None
  | Ok mes => mes' ← Add mes mp.1 mp.2; Ret (Some mes')
  end.

Fixpoint own_all (o : option Measurement) (l : list (Result * option Probe)) :
  Outcome (option Measurement) :=
  match l with
  | [] => Ret o
  | mp :: l' => o' ← own_add o mp; own_all o' l'
  end.

(** The results of measurement [k]. *)
Abbreviation mine k := (filter (λ mp : Result * option Probe, Itoa (MsmId mp.1) = k)).

Definition adds (l : list (Result * option Probe)) : GoM streamingStrategy unit :=
  range_ l (λ mp, add mp.1 mp.2).

(** Changing the object behind one name's pointer changes that name's only. *)
Lemma object_insert s k p mes k' :
  swf s → measurements s !! k = Some p →
  object (set_heap (<[p := mes]> (heap s)) s) k' = if decide (k' = k) then Some mes else object s k'.
Proof.
  intros [Ha Hi] Hk. unfold object. simpl. case_decide as E.
  - subst. rewrite Hk. simpl. apply list_lookup_insert_eq. by eapply Ha.
  - destruct (measurements s !! k') as [p'|] eqn:Ek; [simpl|done].
    rewrite list_lookup_insert_ne; [done|]. intros <-. by destruct E; eapply Hi.
Qed.

Lemma object_alloc s k mes k' t g v :
  swf s → measurements s !! k = None →
  object (mkStrategy (heap s ++ [mes]) (<[k := length (heap s)]> (measurements s)) t g v) k' =
    if decide (k' = k) then Some mes else object s k'.
Proof.
  intros [Ha _] Hk. unfold object. simpl. rewrite lookup_insert. case_decide as E; case_decide; subst; try done.
  - simpl. by rewrite lookup_app_r, Nat.sub_diag by lia.
  - destruct (measurements s !! k') as [p|] eqn:Ek; [simpl|done].
    by rewrite lookup_app_l by (by eapply Ha).
Qed.

Lemma swf_set_heap s h : length h = length (heap s) → swf s → swf (set_heap h s).
Proof. intros Hl [Ha Hi]. split; simpl; [rewrite Hl|..]; eauto. Qed.

Lemma swf_alloc_new s k0 mes t g v :
  swf s → measurements s !! k0 = None →
  swf (mkStrategy (heap s ++ [mes]) (<[k0 := length (heap s)]> (measurements s)) t g v).
Proof.
  intros [Ha Hi] Hk. split; simpl.
  - intros k p. rewrite lookup_insert, length_app. simpl. case_decide; [intros [= <-]; lia|].
    intros Hp%Ha. lia.
  - intros k k' p. rewrite !lookup_insert. repeat case_decide; subst; try done.
    + intros [= <-] Hp%Ha. lia.
    + intros Hp%Ha [= <-]. lia.
    + apply Hi.
Qed.

Lemma object_None s k : swf s → object s k = None → measurements s !! k = None.
Proof.
  intros [Ha _]. unfold object. destruct (measurements s !! k) as [p|] eqn:E; [simpl|done].
  intros Hp%lookup_ge_None. specialize (Ha k p E). lia.
Qed.

Lemma object_Some s k mes : object s k = Some mes → ∃ p, measurements s !! k = Some p.
Proof. unfold object. destruct (measurements s !! k); [by eauto|done]. Qed.

(** One addition: the invariant is kept even by a panic, pointers are never
    replaced, and its measurement's object changes as if it were alone. *)
Lemma add_spec s m probe :
  swf s →
  let '(o, s') := add m probe s in
  swf s' ∧ (∀ k p, measurements s !! k = Some p → measurements s' !! k = Some p) ∧
  (∀ k, k ≠ Itoa (MsmId m) → object s' k = object s k) ∧
  match o with
  | Ret _ => own_add (object s (Itoa (MsmId m))) (m, probe) = Ret (object s' (Itoa (MsmId m)))
  | Panic e => own_add (object s (Itoa (MsmId m))) (m, probe) = Panic e
  end.
Proof.
  intros Hs. rewrite add_run by done. set (k := Itoa (MsmId m)). unfold own_add. fold k. cbn [fst snd].
  destruct (object s k) as [mes|] eqn:Eo.
  - destruct (object_Some s k mes Eo) as [p Hp]. rewrite Hp. cbn [mbind Outcome_bind default].
    destruct (Add mes m probe) as [mes'|e]; cbn [mbind Outcome_bind]; [|by split_and!].
    split; [apply swf_set_heap; [by rewrite length_insert|done]|]. split; [done|]. split.
    + intros k' Hk'. by rewrite (object_insert s k), decide_False.
    + by rewrite (object_insert s k), decide_True.
  - pose proof (object_None s k Hs Eo) as Hn. cbn [mbind Outcome_bind].
    destruct (measurementForType _ _ _ _) as [[mes|e]|e]; cbn [mbind Outcome_bind];
      [|split_and!; congruence || done..].
    assert (∀ mes k' p, measurements s !! k' = Some p →
      measurements (mkStrategy (heap s ++ [mes]) (<[k := length (heap s)]> (measurements s))
        (lastDataTime s) (LastDataTimestampGauge s) (vars s)) !! k' = Some p) as Hkeep.
    { intros mes0 k' p Hp. simpl. rewrite lookup_insert_ne; [done|]. intros <-. congruence. }
    destruct (Add mes m probe) as [mes'|e]; cbn [mbind Outcome_bind];
      (split; [by apply swf_alloc_new|]; split; [by apply Hkeep|]; split);
      try (intros k' Hk'); rewrite ?object_alloc by done; rewrite ?decide_False, ?decide_True by done; done.
Qed.

Lemma own_all_app o l1 l2 : own_all o (l1 ++ l2) = o' ← own_all o l1; own_all o' l2.
Proof.
  revert o. induction l1 as [|mp l1 IH]; intros o; [done|]. simpl.
  destruct (own_add o mp); simpl; [apply IH|done].
Qed.

Lemma adds_spec l s s' :
  swf s → adds l s = (Ret tt, s') →
  swf s' ∧ (∀ k p, measurements s !! k = Some p → measurements s' !! k = Some p) ∧
  ∀ k, own_all (object s k) (mine k l) = Ret (object s' k).
Proof.
  revert s. unfold adds. induction l as [|[m p] l IH]; intros s Hs H; simpl in H.
  { injection H as <-. by split_and!. }
  pose proof (add_spec s m p Hs) as Ha. unfold mbind, GoM_bind in H.
  destruct (add m p s) as [[[]|e] s1]; [|done]. destruct Ha as (Hs1 & Hp1 & Hne & Heq).
  destruct (IH s1 Hs1 H) as (Hs' & Hp' & Hall). split; [done|]. split; [auto|]. intros k.
  destruct (decide (Itoa (MsmId m) = k)) as [<-|Hk].
  - rewrite filter_cons_True by done. cbn [own_all]. rewrite Heq. apply Hall.
  - rewrite filter_cons_False by done. rewrite <-Hne by congruence. apply Hall.
Qed.

Lemma swf_new v : swf (NewStreamingStrategy v).
Proof. split; simpl; intros k; [intros p|intros k' p]; by rewrite lookup_empty. Qed.

Lemma own_all_some mes l : own_all (Some mes) l = m ← AddAll mes l; Ret (Some m).
Proof.
  revert mes. induction l as [|[m p] l IH]; intros mes; [done|]. cbn [own_all AddAll].
  unfold own_add. cbn [fst snd mbind Outcome_bind].
  destruct (Add mes m p) as [mes'|e]; cbn [mbind Outcome_bind]; [apply IH|done].
Qed.

(** When the first result of a measurement has a supported type, the
    object of that measurement is the one measurementForType makes for that
    type with all of the measurement's results added in order. *)
Lemma own_object `{!PromLaws} k l m p rest o :
  buckets_increasing cfg → own_all None (mine k l) = Ret o →
  mine k l = (m, p) :: rest → MsmType m ∈ supported →
  ∃ mes0 mes, measurementForType (MsmType m) k (Itoa (Af m)) cfg = Ret (Ok mes0) ∧
    AddAll mes0 ((m, p) :: rest) = Ret mes ∧ o = Some mes ∧ fresh_measurement cfg mes0.
Proof.
  intros Hb Ho Hm Ht. rewrite Hm in Ho.
  assert (Itoa (MsmId m) = k) as <-.
  { assert ((m, p) ∈ mine k l) as Hin by (rewrite Hm; left). by apply list_elem_of_filter in Hin as [? _]. }
  destruct (measurementForType_ok (MsmType m) (Itoa (MsmId m)) (Itoa (Af m)) cfg Ht) as (mes0 & Hmt & Hf);
    [apply label_ok_printable, Itoa_printable|done|].
  exists mes0. cbn [own_all] in Ho. unfold own_add in Ho. cbn [fst snd] in Ho.
  cbv beta iota in Ho. rewrite Hmt in Ho. cbn [mbind Outcome_bind AddAll] in Ho |- *.
  destruct (Add mes0 m p) as [mes1|e]; cbn [mbind Outcome_bind] in Ho |- *; [|done].
  rewrite own_all_some in Ho. destruct (AddAll mes1 rest) as [mes|e]; simplify_eq/=.
  exists mes. by split_and!.
Qed.

(** ** Properties *)

(** C20: the strategy behaves as if each measurement were on its own: whatever
    the mixture of results of different measurements, the object of a
    measurement is what its own results, in order, make of it, and pointers
    handed out before stay the measurement's pointers. *)
Theorem streaming_refines_own v l s :
  adds l (NewStreamingStrategy v) = (Ret tt, s) →
  ∀ k, own_all None (mine k l) = Ret (object s k) ∧
    ∀ l' s', adds l' s = (Ret tt, s') → own_all (object s k) (mine k l') = Ret (object s' k) ∧
      ∀ p, measurements s !! k = Some p → measurements s' !! k = Some p.
Proof.
  intros (Hs & _ & Ho)%adds_spec k; [|apply swf_new]. split; [apply (Ho k)|].
  intros l' s' (_ & Hp & Ho')%adds_spec; [|done]. auto.
Qed.

(** C37: an identifier that is not written the way Itoa writes it, such as
    007, is subscribed to as the number, and its results are stored under the
    number's own text, in an object made of all of them: a lookup of the
    configured identifier never finds it. *)
Theorem noncanonical_id_not_found `{!PromLaws} {Ch} (stream : Z → GoResult Ch) v l s id z m p rest :
  buckets_increasing cfg → Forall (λ mp, int64_ok (MsmId mp.1)) l →
  adds l (NewStreamingStrategy v) = (Ret tt, s) →
  Atoi id = inl z → Itoa z ≠ id → mine (Itoa z) l = (m, p) :: rest → MsmType m ∈ supported →
  StreamWorker.subscribe stream id = stream z ∧
  MeasurementResults s [id] = [] ∧
  ∃ ptr mes0 mes, MeasurementResults s [Itoa z] = [ptr] ∧ heap s !! ptr = Some mes ∧
    measurementForType (MsmType m) (Itoa z) (Itoa (Af m)) cfg = Ret (Ok mes0) ∧
    AddAll mes0 ((m, p) :: rest) = Ret mes.
Proof.
  intros Hb Hl (Hs & _ & Ho)%adds_spec Hz Hne Hm Ht; [|apply swf_new].
  split; [unfold StreamWorker.subscribe; by rewrite Hz|]. split.
  - unfold MeasurementResults. simpl. specialize (Ho id). destruct (mine id l) as [|mp rest'] eqn:Em.
    + simpl in Ho. injection Ho as Ho. by rewrite (object_None s id Hs).
    + assert (mp ∈ mine id l) as [Hk Hin]%list_elem_of_filter by (rewrite Em; left).
      rewrite Forall_forall in Hl. rewrite <-Hk, Atoi_Itoa in Hz by (by apply Hl).
      destruct Hne. congruence.
  - destruct (own_object (Itoa z) l m p rest (object s (Itoa z)) Hb (Ho (Itoa z)) Hm Ht)
      as (mes0 & mes & Hmt & Hall & Hobj & _).
    destruct (object_Some s (Itoa z) mes Hobj) as [ptr Hptr]. exists ptr, mes0, mes.
    unfold MeasurementResults. simpl. rewrite Hptr. split; [done|]. split; [|done].
    unfold object in Hobj. by rewrite Hptr in Hobj.
Qed.

(** *** The processor *)

Lemma on_vars_run {B} (f : GoM AtlasVars B) s :
  on_vars f s = ((f (vars s)).1, mkStrategy (heap s) (measurements s) (lastDataTime s)
                                  (LastDataTimestampGauge s) (f (vars s)).2).
Proof. unfold on_vars. by destruct (f (vars s)). Qed.

(** C36: before InitCache has run, the handling of a result panics after the
    timestamps are set; the processor recovers, and, when a second result is
    already in the channel, throws it away too: neither reaches a
    measurement. *)
Theorem result_before_InitCache_lost e r e' r' q s :
  vars s = None →
  (processMeasurementResult e r s).1 = Panic nil_deref ∧
  ∃ s1, processMeasurementResults ((e, r) :: (e', r') :: q) s = processMeasurementResults q s1 ∧
    heap s1 = heap s ∧ measurements s1 = measurements s ∧ lastDataTime s1 = unix e.
Proof.
  intros Hv. assert (∃ s1, processMeasurementResult e r s = (Panic nil_deref, s1) ∧
    heap s1 = heap s ∧ measurements s1 = measurements s ∧ lastDataTime s1 = unix e) as (s1 & E & Hs1).
  { unfold processMeasurementResult, mbind, GoM_bind. cbn [modify]. rewrite on_vars_run.
    cbn [vars]. rewrite Hv. simpl. eexists. by split_and!. }
  split; [by rewrite E|]. exists s1. simpl. by rewrite E.
Qed.

(** What the handling of a result comes to, with an initialised cache. *)
Lemma processMeasurementResult_run e r s cache :
  vars s = Some cache →
  processMeasurementResult e r s =
    let '(o, v) := probeForID (client e) (t_get e) (t_add e) (PrbId r) (Some cache) in
    let s' := mkStrategy (heap s) (measurements s) (unix e)
                (<[Itoa (MsmId r) := f64_of_int (unix e)]> (LastDataTimestampGauge s)) v in
    match o with
    | Ret (Ok p) => add r p s'
    | Ret (Err _) => (Ret tt, s')
    | Panic m => (Panic m, s')
    end.
Proof.
  intros Hv. unfold processMeasurementResult, mbind, GoM_bind. cbn [modify]. rewrite on_vars_run.
  cbn [vars heap measurements lastDataTime LastDataTimestampGauge]. rewrite Hv.
  by destruct (probeForID _ _ _ _ _) as [[[p|m]|m] v].
Qed.

(** The validators of the objects read their probe. *)
Definition validator_ok (o : option Measurement) : Prop :=
  ∀ mes v, o = Some mes → validator mes = Some v → reads_probe v.

Lemma Add_returns mes m q :
  validator_ok (Some mes) → ∃ mes', Add mes m (Some q) = Ret mes' ∧ validator mes' = validator mes.
Proof.
  intros Hok. unfold Add, passes. destruct (validator mes) as [v|] eqn:Ev; simpl; [|by eexists].
  destruct (Hok mes v) as [_ Hs]; [done..|]. destruct (Hs m q) as [[] ->]; simpl; by eexists.
Qed.

Lemma own_add_returns `{!PromLaws} o m q :
  buckets_increasing cfg → validator_ok o →
  ∃ o', own_add o (m, Some q) = Ret o' ∧ validator_ok o'.
Proof.
  intros Hb Hok. unfold own_add. cbn [fst snd].
  assert (∀ mes, validator_ok (Some mes) →
    ∃ o', (mes' ← Add mes m (Some q); Ret (Some mes')) = Ret o' ∧ validator_ok o') as Hadd.
  { intros mes Hm. destruct (Add_returns mes m q Hm) as (mes' & -> & Hv). eexists. split; [done|].
    intros mes1 v [= <-] Hv'. apply (Hm mes v); congruence. }
  destruct o as [mes|]; [by apply Hadd|].
  destruct (decide (MsmType m ∈ supported)) as [Ht|Ht].
  - destruct (measurementForType_ok (MsmType m) (Itoa (MsmId m)) (Itoa (Af m)) cfg Ht) as (mes & -> & Hf);
      [apply label_ok_printable, Itoa_printable|done|].
    apply Hadd. intros mes1 v [= <-]. apply Hf.
  - rewrite measurementForType_err by done. by exists None.
Qed.

(** The documents of the Atlas API. *)
Context (API : Z → Probe → Prop).

(** The state in which the processor works. *)
Record ready (s : streamingStrategy) : Prop := {
  ready_swf : swf s;
  ready_cache : ∃ cache, vars s = Some cache ∧ cache_from API cache;
  ready_objects k : validator_ok (object s k)
}.

Lemma ready_new ttl : ready (NewStreamingStrategy (Some (Cache.NewCache ttl))).
Proof.
  split; [apply swf_new|exists (Cache.NewCache ttl); split; [done|apply cache_from_new]|done].
Qed.

Lemma add_vars s m probe : swf s → vars (add m probe s).2 = vars s.
Proof.
  intros Hs. rewrite add_run by done. repeat (case_match; try done).
Qed.

(** What was looked up for a result, paired with it. *)
Definition found (r : Result) (op : option Probe) : list (Result * option Probe) :=
  match op with Some p => [(r, Some p)] | None => [] end.

(** A lookup that failed, or a probe of the API. *)
Definition looked_up (e : env) (r : Result) (op : option Probe) : Prop :=
  match op with
  | Some p => API (PrbId r) p
  | None => ∃ err, Get (client e) (PrbId r) = Err err
  end.

Lemma process_one `{!PromLaws} e r s :
  buckets_increasing cfg → serves API (client e) → ready s →
  ∃ s1 op, processMeasurementResult e r s = (Ret tt, s1) ∧ ready s1 ∧ looked_up e r op ∧
    ∀ k, own_all (object s k) (mine k (found r op)) = Ret (object s1 k).
Proof.
  intros Hb He [[Ha Hi] (cache & Hc & Hn) Ho]. rewrite (processMeasurementResult_run e r s cache Hc).
  destruct (probeForID_from API (client e) (t_get e) (t_add e) (PrbId r) cache Hn He)
    as (cache' & Hn' & [(p & Hp & ->)|(err & err' & Hg & ->)]).
  - set (s0 := mkStrategy _ _ _ _ _). assert (swf s0) as Hs0 by done.
    pose proof (add_spec s0 r (Some p) Hs0) as Hadd. pose proof (add_vars s0 r (Some p) Hs0) as Hv.
    destruct (own_add_returns (object s0 (Itoa (MsmId r))) r p Hb) as (o' & Ho' & Hok'); [apply Ho|].
    destruct (add r (Some p) s0) as [[[]|m] s1]; destruct Hadd as (Hs1 & _ & Hne & Heq); [|congruence].
    exists s1, (Some p). split; [done|]. split; [|split; [done|]].
    + split; [done|by exists cache'|]. intros k.
      destruct (decide (k = Itoa (MsmId r))) as [->|Hk]; [|rewrite Hne by done; apply Ho].
      rewrite Heq in Ho'. by injection Ho' as <-.
    + intros k. simpl. destruct (decide (Itoa (MsmId r) = k)) as [<-|Hk].
      * rewrite filter_cons_True, filter_nil by done. cbn [own_all].
        change (object s (Itoa (MsmId r))) with (object s0 (Itoa (MsmId r))). by rewrite Heq.
      * rewrite filter_cons_False, filter_nil by done. simpl. by rewrite (Hne k).
  - eexists _, None. split; [done|]. split; [|split; [by exists err|done]].
    split; [done|by exists cache'|exact Ho].
Qed.

(** With an initialised cache and bucket bounds that the client accepts,
    no result makes the processor panic and only those are left out whose
    probe could not be retrieved: each measurement's object is what its
    results with the API's probes, in the order of the channel, make of it. *)
Theorem processor_handles_all `{!PromLaws} q s :
  buckets_increasing cfg → Forall (λ er : env * Result, serves API (client er.1)) q → ready s →
  ∃ ops, Forall2 (λ er op, looked_up er.1 er.2 op) q ops ∧
    ∀ k, own_all (object s k) (mine k (concat (zip_with found q.*2 ops))) =
         Ret (object (processMeasurementResults q s) k).
Proof.
  intros Hb Hq. revert s. induction Hq as [|[e r] q He Hq IH]; intros s Hs; [exists []; split; [constructor|done]|].
  destruct (process_one e r s Hb He Hs) as (s1 & op & Hrun & Hs1 & Hop & Hk).
  destruct (IH s1 Hs1) as (ops & Hops & Hall). exists (op :: ops). split; [by constructor|].
  intros k. cbn [processMeasurementResults]. rewrite Hrun. simpl.
  rewrite filter_app, own_all_app, Hk. apply Hall.
Qed.

(** IsHealthy answers yes exactly when a worker is connected and, if
    health.max_data_age is set, some result arrived at most that long ago. *)
Lemma IsHealthy_iff s c now :
  0 <= lastDataTime s < 2 ^ 33 → 0 <= now < 2 ^ 62 → Health_MaxDataAge cfg < two63 - 1 →
  IsHealthy s c now = true ↔
    0 < c ∧ (0 < Health_MaxDataAge cfg →
             lastDataTime s ≠ 0 ∧ now - lastDataTime s * Second <= Health_MaxDataAge cfg).
Proof.
  intros Hl Hn Hm. unfold IsHealthy, saturate, two63, Second in *.
  destruct (Z.leb_spec c 0); [split; [done|lia]|].
  destruct (Z.ltb_spec 0 (Health_MaxDataAge cfg)); [|split; [lia|done]].
  destruct (Z.eqb_spec (lastDataTime s) 0); [split; [done|lia]|].
  rewrite negb_true_iff, Z.ltb_ge. lia.
Qed.
End strategy.

(** ** Witnesses *)

Module StreamW.
#[local] Existing Instances sAtlas sProm sPromLaws.

Abbreviation mine k := (filter (λ mp : Result * option Probe, Itoa (MsmId mp.1) = k)).

Definition prb : option Probe := Some (mkProbe 1 1101 0 "NL" []).
Definition cfg_w : Config := defaultConfig.

Definition msm (m : Z) (r : Result) : Result := {|
  s_err := s_err r; s_prb := s_prb r; s_msm := m; s_af := s_af r; s_time := s_time r;
  s_type := s_type r; s_dst := s_dst r; s_dstname := s_dstname r; s_proto := s_proto r;
  s_uri := s_uri r; s_ver := s_ver r; s_min := s_min r; s_max := s_max r; s_avg := s_avg r;
  s_sent := s_sent r; s_rcvd := s_rcvd r; s_dup := s_dup r; s_ttl := s_ttl r;
  s_size := s_size r; s_pings := s_pings r; s_poll := s_poll r; s_prec := s_prec r;
  s_delay := s_delay r; s_disp := s_disp r; s_version := s_version r; s_hops := s_hops r;
  s_http := s_http r; s_rt := s_rt r; s_cert := s_cert r; s_alert := s_alert r; s_dns := s_dns r
|}.

Definition first_w : Result := sPing 1 100 [].
Definition last_w : Result := sPing 1 102 [].
(** Results of the measurements 1001, 7 and 1001 again. *)
Definition stream_w : list (Result * option Probe) :=
  [(first_w, prb); (msm 7 (sPing 1 101 []), prb); (last_w, prb)].
Definition state_w : streamingStrategy :=
  (adds cfg_w stream_w (NewStreamingStrategy None)).2.

Lemma streaming_refines_own_witness :
  own_all cfg_w None [(first_w, prb); (last_w, prb)] = Ret (object state_w "1001") ∧
    ∀ l' s', adds cfg_w l' state_w = (Ret tt, s') →
      own_all cfg_w (object state_w "1001") (mine "1001" l') = Ret (object s' "1001") ∧
      ∀ p, measurements state_w !! "1001" = Some p → measurements s' !! "1001" = Some p.
Proof. apply (streaming_refines_own cfg_w None stream_w state_w eq_refl "1001"). Defined.

Lemma noncanonical_id_not_found_witness :
  StreamWorker.subscribe (λ z, Ok z) "01001" = Ok 1001 ∧
  MeasurementResults state_w ["01001"] = [] ∧
  ∃ ptr mes0 mes, MeasurementResults state_w ["1001"] = [ptr] ∧ heap state_w !! ptr = Some mes ∧
    measurementForType "ping" "1001" "4" cfg_w = Ret (Ok mes0) ∧
    AddAll mes0 [(first_w, prb); (last_w, prb)] = Ret mes.
Proof.
  apply (noncanonical_id_not_found cfg_w (λ z, Ok z) None stream_w state_w "01001" 1001 first_w prb [(last_w, prb)]).
  - repeat constructor.
  - by repeat constructor.
  - reflexivity.
  - reflexivity.
  - done.
  - reflexivity.
  - left.
Defined.

(** The API knows probe 1 only. *)
Definition client_w : HttpClient := λ u,
  if bool_decide (u = url +:+ "1") then Ok (Ok (json_text "{'id':1,'asn_v4':1101}")) else Err "not found".
Definition env_w : env := mkEnv 100 5 6 client_w.

Lemma result_before_InitCache_lost_witness :
  (processMeasurementResult cfg_w env_w first_w (NewStreamingStrategy None)).1 = Panic nil_deref ∧
  ∃ s1, processMeasurementResults cfg_w [(env_w, first_w); (env_w, last_w)] (NewStreamingStrategy None) =
          processMeasurementResults cfg_w [] s1 ∧
    heap s1 = [] ∧ measurements s1 = ∅ ∧ lastDataTime s1 = 100.
Proof.
  apply (result_before_InitCache_lost cfg_w env_w first_w env_w last_w [] (NewStreamingStrategy None)).
  reflexivity.
Defined.

Definition ready_state : streamingStrategy := NewStreamingStrategy (Some (Cache.NewCache Hour)).
Definition queue_w : list (env * Result) := [(env_w, first_w); (env_w, last_w)].

Definition API_w (id : Z) (p : Probe) : Prop := id = 1 ∧ p = mkProbe 1 1101 0 "" [].

Lemma serves_w : serves API_w (client env_w).
Proof.
  intros id p. change (client env_w) with client_w. unfold Get, client_w. case_bool_decide as Hu; [|done].
  apply (inj _) in Hu. change "1" with (Itoa 1) in Hu. apply (inj Itoa) in Hu as ->.
  intros H. vm_compute in H. by injection H as <-.
Qed.

Lemma processor_handles_all_witness :
  ∃ ops, Forall2 (λ er op, looked_up API_w er.1 er.2 op) queue_w ops ∧
    ∀ k, own_all cfg_w (object ready_state k) (mine k (concat (zip_with found queue_w.*2 ops))) =
         Ret (object (processMeasurementResults cfg_w queue_w ready_state) k).
Proof.
  apply (processor_handles_all cfg_w API_w queue_w ready_state).
  - repeat constructor.
  - do 2 (apply Forall_cons; split; [apply serves_w|]). constructor.
  - apply ready_new.
Defined.

End StreamW.
