(* ===== verification/EndToEnd.v ===== *)
(** * From the stream to the exposition

    What a collection exports after a list of additions, and a scrape of a
    measurement of the streaming strategy. *)

From S2P Require Import Prelude GoInt GoFloat GoStrings Apis Samples Probe ProbeCache Config.
From S2P Require Import Measurement Exporting Helper StreamStrategy.
From S2P Require Sslcert.
Open Scope Z_scope.

Section end_to_end.
Context {A : AtlasAPI} {P : PromAPI}.

(** The last pair of probe [prb] in [l] that [mes0] accepts. *)
Definition last_accepted (mes0 : Measurement) (l : list (Result * option Probe)) (prb : Z) :
  option (Result * option Probe) :=
  last (filter (λ mp : Result * option Probe, PrbId mp.1 = prb) (filter (accepted mes0) l)).

(** The results of measurement [k]. *)
Definition results_of (k : string) (l : list (Result * option Probe)) : list (Result * option Probe) :=
  filter (λ mp : Result * option Probe, Itoa (MsmId mp.1) = k) l.

Lemma wf_storeAll r l : wf r → wf (storeAll r l).
Proof. revert r. induction l as [|mp l IH]; intros r Hr; [done|]. apply IH. by apply wf_store. Qed.

(** What a measurement holds that was empty before additions. *)
Lemma AddAll_holds mes0 l mes prb :
  empty_maps mes0 → AddAll mes0 l = Ret mes →
  latest mes !! prb = fst <$> last_accepted mes0 l prb ∧
  probes mes !! prb = snd <$> last_accepted mes0 l prb.
Proof.
  intros [H1 H2] ->%AddAll_storeAll. unfold last_accepted.
  destruct (storeAll_lookup mes0 (filter (accepted mes0) l) prb) as [-> ->].
  rewrite H1, H2, !lookup_empty. by destruct (last _).
Qed.

Lemma last_accepted_id mes0 l prb r q : last_accepted mes0 l prb = Some (r, q) → PrbId r = prb.
Proof. intros [H _]%last_Some_elem_of%list_elem_of_filter. done. Qed.

Lemma AddAll_fields mes0 l mes :
  empty_maps mes0 → AddAll mes0 l = Ret mes →
  wf mes ∧ exporter mes = exporter mes0 ∧ maxResultAge mes = maxResultAge mes0.
Proof.
  intros He ->%AddAll_storeAll. destruct (storeAll_fields mes0 (filter (accepted mes0) l)) as (? & _ & ?).
  split; [|done]. by apply wf_storeAll, wf_empty.
Qed.

(** What a collection after additions exports. *)
Definition exposes (mes0 mes : Measurement) (l : list (Result * option Probe)) (a t0 t1 : Z)
    (clock : nat → Z) : Prop :=
  ∀ order, order ≡ₚ (map_to_list (latest mes)).*1 →
    ∃ vs, NoDup (PrbId <$> vs.*1) ∧
      (∀ r q, (r, q) ∈ vs →
         last_accepted mes0 l (PrbId r) = Some (r, q) ∧ (a = 0 ∨ t0 - a <= Timestamp r)) ∧
      (∀ prb r q, last_accepted mes0 l prb = Some (r, q) → a = 0 ∨ t1 - a <= Timestamp r →
         (r, q) ∈ vs) ∧
      ∀ w, Collect mes order clock w =
        (range_ vs (λ rq, Export (exporter mes0) rq.1 rq.2) ;;
         range_ (histograms mes) (λ h, range_ (hist_Collect (Hist h)) send)) w.

Lemma AddAll_exposes mes0 l mes a t0 t1 clock :
  empty_maps mes0 → AddAll mes0 l = Ret mes → maxResultAge mes0 = a * Second → 0 <= a < 2 ^ 34 →
  0 <= t0 → t1 < 2 ^ 62 → (∀ i, t0 <= clock i <= t1) → exposes mes0 mes l a t0 t1 clock.
Proof.
  intros He Ha Hage Ha' H0 H1 Hc order Ho.
  destruct (AddAll_fields mes0 l mes He Ha) as (Hwf & Hexp & Hmax).
  destruct (exported_exact mes order clock a t0 t1) as (Hn & Hs & Hall); [done|done|congruence|done..|].
  assert (∀ r, latest mes !! PrbId r = Some r →
    last_accepted mes0 l (PrbId r) = Some (r, probe_of mes r)) as Hlast.
  { intros r Hr. unfold probe_of. destruct (AddAll_holds mes0 l mes (PrbId r) He Ha) as [El Ep].
    rewrite Ep. rewrite El in Hr. by destruct (last_accepted _ _ _) as [[]|]; simplify_eq/=. }
  exists ((λ r, (r, probe_of mes r)) <$> (exported mes order clock).*2).
  rewrite <-!list_fmap_compose. split; [by rewrite <-list_fmap_compose in Hn|]. split; [|split].
  - intros r q ([i r'] & [= -> ->] & Hin)%list_elem_of_fmap.
    destruct (Hs r') as [Hr Ht]; [apply list_elem_of_fmap; by exists (i, r')|]. auto.
  - intros prb r q Hla Ht. pose proof (last_accepted_id _ _ _ _ _ Hla) as <-.
    assert (latest mes !! PrbId r = Some r) as Hr.
    { destruct (AddAll_holds mes0 l mes (PrbId r) He Ha) as [-> _]. by rewrite Hla. }
    specialize (Hlast r Hr). rewrite Hla in Hlast. injection Hlast as ->.
    specialize (Hall r Hr Ht). apply list_elem_of_fmap in Hall as (ir & -> & Hin).
    apply list_elem_of_fmap. by exists ir.
  - intros w. unfold Collect, CollectWith, exported, mbind, GoM_bind.
    by rewrite Collect_loop, range_fmap, Hexp.
Qed.

(** A scrape of a measurement whose object is what the results in [l] make of
    it. *)
Lemma own_exposes `{!PromLaws} cfg s k l m p rest a t0 t1 clock :
  buckets_increasing cfg → MaxResultAge cfg = a * Second → 0 <= a < 2 ^ 34 →
  0 <= t0 → t1 < 2 ^ 62 → (∀ i, t0 <= clock i <= t1) →
  own_all cfg None (results_of k l) = Ret (object s k) →
  results_of k l = (m, p) :: rest → MsmType m ∈ supported →
  ∃ ptr mes0 mes,
    measurementForType (MsmType m) k (Itoa (Af m)) cfg = Ret (Ok mes0) ∧
    MeasurementResults s [k] = [ptr] ∧ heap s !! ptr = Some mes ∧
    exposes mes0 mes (results_of k l) a t0 t1 clock.
Proof.
  intros Hb Hage Ha H0 H1 Hc Hown Hk Ht.
  destruct (own_object cfg k l m p rest (object s k) Hb Hown Hk Ht) as (mes0 & mes & Hm & Hall & Ho & Hf).
  unfold object in Ho. destruct (measurements s !! k) as [ptr|] eqn:Ep; [|done].
  exists ptr, mes0, mes. split; [done|]. split; [unfold MeasurementResults; simpl; by rewrite Ep|].
  split; [done|]. rewrite Hk. destruct Hf as (He & _ & Hmax & _).
  apply AddAll_exposes; try done. rewrite Hmax, Hage. unfold Second. lia.
Qed.

End end_to_end.
