(* ===== verification/Strategies.v ===== *)
(** * The two strategies compared, and a scrape by request

    A request goes through the Atlas API, probesForResults and the goroutines
    of MeasurementResults; [produces] puts the parts together.  The theorems
    say what a scrape by request exports, and that the two strategies make the
    same object of the same results. *)

From S2P Require Import Prelude GoInt GoFloat GoStrings Apis Samples Probe ProbeCache Config.
From S2P Require Import Measurement Exporting Helper StreamStrategy EndToEnd.
From S2P Require Ping ProbesForResults RequestStrategy.
Open Scope Z_scope.

Section strategies.
Context {A : AtlasAPI} {P : PromAPI}.

(** The Atlas client is the answer of MeasurementLatest for an identifier. *)
Record requestStrategy := mkRequest {
  atlasser : string → GoResult (list Result);
  workers : nat;
  cfg : Config
}.

Definition NewRequestStrategy (http : string → GoResult (list Result)) (cfg : Config) (workers : nat) :
  requestStrategy := mkRequest http workers cfg.

(** What the goroutine of [id] may end with, when [fetch] says what probeForID
    may return. *)
Definition produces (s : requestStrategy) (fetch : Z → GoResult Probe → Prop) (id : string)
    (o : option Measurement) : Prop :=
  ∃ pfr,
    (∀ rs, atlasser s id = Ok rs → RequestStrategy.probesForResults_outcome fetch (workers s) rs pfr) ∧
    o = RequestStrategy.getMeasurementForID (cfg s) id (atlasser s id) pfr.

(** The documents of the probes of some results carry the identifier that was
    asked for. *)
Definition own_documents (fetch : Z → GoResult Probe → Prop) (rs : list Result) : Prop :=
  ∀ r p, r ∈ rs → fetch (PrbId r) (Ok p) → ID p = PrbId r.

(** Results with the probes of a map. *)
Definition paired (ps : gmap Z Probe) (rs : list Result) : list (Result * option Probe) :=
  (λ r, (r, ps !! PrbId r)) <$> rs.

(** ** Lemmas *)

Lemma parsed_same rs res : RequestStrategy.parsed rs = Some res → res = rs.
Proof.
  revert res. induction rs as [|m rs IH]; intros res; simpl; [congruence|].
  destruct (ParseError m); [done|]. destruct (RequestStrategy.parsed rs); intros; simplify_eq/=.
  f_equal. eauto.
Qed.

(** The one path on which a measurement is sent. *)
Lemma getMeasurementForID_some c id api pfr mes :
  RequestStrategy.getMeasurementForID c id api pfr = Some mes →
  ∃ first rs ps mes0, api = Ok (first :: rs) ∧ pfr = Ok ps ∧
    RequestStrategy.parsed (first :: rs) = Some (first :: rs) ∧
    measurementForType (MsmType first) id (Itoa (Af first)) c = Ret (Ok mes0) ∧
    AddAll mes0 (paired ps (first :: rs)) = Ret mes.
Proof.
  unfold RequestStrategy.getMeasurementForID, RequestStrategy.getMeasurement_body.
  destruct api as [rs|e]; [|done]. destruct (RequestStrategy.parsed rs) as [[|first res]|] eqn:Ep; try done.
  pose proof (parsed_same _ _ Ep) as <-.
  destruct (measurementForType _ _ _ _) as [[mes0|e]|e] eqn:Em; try done. cbn [mbind Outcome_bind].
  destruct pfr as [ps|e]; [|done]. destruct (AddAll mes0 _) as [mes'|e] eqn:Ea; [|done].
  intros [= <-]. exists first, res, ps, mes0. by split_and!.
Qed.

Lemma measurementForType_fresh `{!PromLaws} t id v c mes0 :
  label_ok id = true → buckets_increasing c → measurementForType t id v c = Ret (Ok mes0) →
  fresh_measurement c mes0.
Proof.
  intros Hid Hb Hm. destruct (decide (t ∈ supported)) as [Ht|Ht].
  - destruct (measurementForType_ok t id v c Ht Hid Hb) as (m & E & Hf). rewrite E in Hm. by simplify_eq.
  - by rewrite measurementForType_err in Hm.
Qed.

(** The map of probesForResults has the probe of every result. *)
Lemma outcome_probes fetch n rs ps :
  (0 < n)%nat → own_documents fetch rs → RequestStrategy.probesForResults_outcome fetch n rs (Ok ps) →
  ∀ r, r ∈ rs → ∃ p, ps !! PrbId r = Some p ∧ fetch (PrbId r) (Ok p).
Proof.
  intros Hn Hh (s & Hs & Hc) r Hr.
  destruct (ProbesForResults.returned_map fetch (PrbId <$> rs) n s ps Hn Hs Hc) as [Hp Hall].
  destruct (Hall (PrbId r)) as (p & Hf & [q Hq]); [by apply list_elem_of_fmap_2|].
  rewrite (Hh r p Hr Hf) in Hq. exists q. split; [done|].
  destruct (Hp _ _ Hq) as (Hk & y & (r' & -> & Hr')%list_elem_of_fmap & Hy). by rewrite <-Hk, (Hh r' q Hr' Hy).
Qed.

(** The probes that go with results: each was given for a result of the answer
    and is found under its own identifier; and when the documents carry the
    identifiers that were asked for, and there is a worker, every result has
    the one that was given for it. *)
Definition probes_given (n : nat) (fetch : Z → GoResult Probe → Prop) (rs : list Result) (ps : gmap Z Probe) : Prop :=
  (∀ x p, ps !! x = Some p → ID p = x ∧ ∃ r, r ∈ rs ∧ fetch (PrbId r) (Ok p)) ∧
  ((0 < n)%nat → own_documents fetch rs → ∀ r, r ∈ rs → ∃ p, ps !! PrbId r = Some p ∧ fetch (PrbId r) (Ok p)).

Lemma outcome_given fetch n rs ps :
  RequestStrategy.probesForResults_outcome fetch n rs (Ok ps) → probes_given n fetch rs ps.
Proof.
  intros Ho. split; [|intros Hn Hown; by apply (outcome_probes fetch n rs ps)]. destruct Ho as (s & Hs & Hc). intros x p Hx.
  destruct (ProbesForResults.returned_from fetch _ n s ps Hs Hc x p Hx) as (? & y & (r & -> & Hr)%list_elem_of_fmap & Hf).
  split; [done|]. by exists r.
Qed.

(** A goroutine's measurement, when there is one. *)
Lemma produced_exposes `{!PromLaws} s fetch id mes a t0 t1 clock :
  label_ok id = true → buckets_increasing (cfg s) →
  MaxResultAge (cfg s) = a * Second → 0 <= a < 2 ^ 34 → 0 <= t0 → t1 < 2 ^ 62 →
  (∀ i, t0 <= clock i <= t1) → produces s fetch id (Some mes) →
  ∃ first rs ps mes0,
    atlasser s id = Ok (first :: rs) ∧
    measurementForType (MsmType first) id (Itoa (Af first)) (cfg s) = Ret (Ok mes0) ∧
    (∀ r, r ∈ first :: rs → ParseError r = None) ∧ probes_given (workers s) fetch (first :: rs) ps ∧
    exposes mes0 mes (paired ps (first :: rs)) a t0 t1 clock.
Proof.
  intros Hlab Hb Hage Ha H0 H1 Hc (pfr & Hpfr & E). symmetry in E.
  apply getMeasurementForID_some in E as (first & rs & ps & mes0 & Hapi & -> & Hparsed & Hmt & Hall).
  destruct (measurementForType_fresh _ _ _ _ _ Hlab Hb Hmt) as (He & _ & Hmax & _).
  exists first, rs, ps, mes0. split; [done|]. split; [done|]. split; [|split; [by apply outcome_given, Hpfr|]].
  - intros r Hr'. destruct (ParseError r) as [e|] eqn:Er; [|done].
    by rewrite (RequestStrategy.parsed_bad _ r e Hr' Er) in Hparsed.
  - apply AddAll_exposes; try done. rewrite Hmax, Hage. unfold Second. lia.
Qed.

(** An answer of the API with which nothing goes wrong: all results parse, the
    type of the first is supported, no lookup of a probe fails, and its
    document carries the identifier. *)
Definition good_answer (s : requestStrategy) (fetch : Z → GoResult Probe → Prop) (id : string) : Prop :=
  ∃ first rs, atlasser s id = Ok (first :: rs) ∧ MsmType first ∈ supported ∧ own_documents fetch (first :: rs) ∧
    ∀ r, r ∈ first :: rs → ParseError r = None ∧ ∀ e, ¬ fetch (PrbId r) (Err e).

Lemma good_answer_sent `{!PromLaws} s fetch id o :
  (0 < workers s)%nat → label_ok id = true → buckets_increasing (cfg s) →
  good_answer s fetch id → produces s fetch id o → is_Some o.
Proof.
  intros Hn Hlab Hb (first & rs & Hapi & Ht & Hh & Hgood) (pfr & Hpfr & ->). specialize (Hpfr _ Hapi).
  destruct pfr as [ps|e].
  - rewrite Hapi. edestruct (RequestStrategy.getMeasurementForID_run (cfg s) id (first :: rs) first ps)
      as (m0 & mes & _ & _ & _ & ->); try done.
    + apply Forall_forall. intros r Hr. by apply Hgood.
    + intros r Hr. destruct (outcome_probes fetch (workers s) (first :: rs) ps Hn Hh Hpfr r Hr) as (p & -> & _).
      by eexists.
  - destruct Hpfr as (st & Hst & Hc).
    destruct (ProbesForResults.returned_error fetch _ _ st e Hst Hc) as (x & Hx & Hf).
    apply list_elem_of_fmap in Hx as (r & -> & Hr). by destruct (Hgood r Hr) as [_ Hno]; destruct (Hno e).
Qed.

(** ** Properties *)

(** A scrape by request.  Every measurement that MeasurementResults returns
    belongs to one of the requested identifiers, and every identifier whose
    results parse, are of a supported type and whose probes are found has one,
    if there is a worker.  Collecting it exports, once each and with the probe
    of the map, the last accepted result of every probe in the API's answer,
    if it is not older than max_result_age. *)
Lemma request_exposition `{!PromLaws} s fetch ids st res a t0 t1 clock :
  Forall (λ id, label_ok id = true) ids → buckets_increasing (cfg s) →
  MaxResultAge (cfg s) = a * Second → 0 <= a < 2 ^ 34 → 0 <= t0 → t1 < 2 ^ 62 →
  (∀ i, t0 <= clock i <= t1) →
  rtc (RequestStrategy.fstep (produces s fetch) ids) (RequestStrategy.launch ids) st →
  RequestStrategy.main st = RequestStrategy.RRet res →
  ∃ outs, length outs = length ids ∧ res ≡ₚ omap (λ o, o) outs ∧
    ∀ i id, ids !! i = Some id →
      ((0 < workers s)%nat → good_answer s fetch id → ∃ mes, outs !! i = Some (Some mes)) ∧
      ∀ mes, outs !! i = Some (Some mes) →
        ∃ first rs ps mes0,
          atlasser s id = Ok (first :: rs) ∧
          measurementForType (MsmType first) id (Itoa (Af first)) (cfg s) = Ret (Ok mes0) ∧
          (∀ r, r ∈ first :: rs → ParseError r = None) ∧ probes_given (workers s) fetch (first :: rs) ps ∧
          exposes mes0 mes (paired ps (first :: rs)) a t0 t1 clock.
Proof.
  intros Hids Hb Hage Ha H0 H1 Hc Hr Hm.
  destruct (RequestStrategy.MeasurementResults_outs _ ids st res Hr Hm) as (outs & Houts & Hperm).
  exists outs. split; [symmetry; by eapply Forall2_length|]. split; [done|]. intros i id Hid.
  assert (label_ok id = true) as Hlab by (by eapply (Forall_lookup_1 _ _ _ _ Hids)).
  destruct (Forall2_lookup_l _ _ _ _ _ Houts Hid) as (o & Ho & Hp). split.
  - intros Hn Hg. destruct (good_answer_sent s fetch id o Hn Hlab Hb Hg Hp) as [mes ->]. by exists mes.
  - intros mes Hmes. rewrite Ho in Hmes. injection Hmes as ->. by eapply produced_exposes.
Qed.

(** C11: a scrape by request ends: when every lookup of a probe ends, every
    goroutine ends its work, a run of MeasurementResults has at most two steps
    per identifier and two more, and when nothing can move the caller has
    returned, even without the deadline. *)
Theorem request_terminates s fetch ids :
  (∀ x, ∃ r, fetch x r) →
  (∀ id, ∃ o, produces s fetch id o) ∧
  (∀ k st, nsteps (RequestStrategy.fstep (produces s fetch) ids) k (RequestStrategy.launch ids) st →
     (k <= 2 * length ids + 2)%nat) ∧
  (∀ st, rtc (RequestStrategy.fstep (produces s fetch) ids) (RequestStrategy.launch ids) st →
     (∀ res, RequestStrategy.main st ≠ RequestStrategy.RRun res) ∨
     ∃ st', RequestStrategy.fstep (produces s fetch) ids st st' ∧
            RequestStrategy.main st' ≠ RequestStrategy.RCancelled).
Proof.
  intros Ht. assert (∀ id, ∃ o, produces s fetch id o) as Hprod.
  { intros id. destruct (atlasser s id) as [rs|e] eqn:Ea.
    - destruct (ProbesForResults.returns fetch (PrbId <$> rs) (workers s) Ht) as (st & Hst & Hc).
      assert (∃ pfr, RequestStrategy.probesForResults_outcome fetch (workers s) rs pfr) as [pfr Hpfr].
      { destruct (ProbesForResults.caller st) as [ps|ps|e] eqn:E; [by destruct (Hc ps)|exists (Ok ps)|exists (Err e)];
          by exists st. }
      eexists. exists pfr. split; [|done]. rewrite Ea. by intros ? [= <-].
    - eexists. exists (Err ""). split; [|done]. by rewrite Ea. }
  split; [done|]. by apply RequestStrategy.MeasurementResults_terminates.
Qed.

(** The additions of the streaming strategy return when the probes are there. *)
Lemma adds_returns `{!PromLaws} c l s :
  buckets_increasing c → swf s → (∀ k, validator_ok (object s k)) →
  Forall (λ mp : Result * option Probe, is_Some mp.2) l →
  ∃ s', adds c l s = (Ret tt, s').
Proof.
  intros Hb Hs Hv Hl. revert s Hs Hv. induction Hl as [|[m p] l [q Hq] _ IH]; intros s Hs Hv; [by eexists|].
  simpl in Hq. subst p. unfold adds. cbn [range_ fst snd].
  pose proof (add_spec c s m (Some q) Hs) as Hadd.
  destruct (own_add_returns c (object s (Itoa (MsmId m))) m q Hb) as (o' & Ho' & Hok'); [apply Hv|].
  destruct (add c m (Some q) s) as [[[]|e] s1] eqn:E; destruct Hadd as (Hs1 & _ & Hne & Heq); [|congruence].
  erewrite bind_run by exact E. apply IH; [done|]. intros k.
  destruct (decide (k = Itoa (MsmId m))) as [->|Hk]; [|rewrite Hne by done; apply Hv].
  rewrite Heq in Ho'. by injection Ho' as <-.
Qed.

(** C8: the strategies agree where no error comes in: for results of one
    measurement that all parse, are of a supported type and whose probes are
    all found, and with strictly increasing bucket bounds, the object that a
    request makes of them is the one the streaming strategy holds under the
    measurement's name after the same results with the same probes.  (With a
    parse error or a failed lookup they differ: a request drops the
    measurement, the stream only the result.) *)
Theorem strategies_agree `{!PromLaws} c v z first rs ps :
  buckets_increasing c → Forall (λ r, MsmId r = z ∧ ParseError r = None) (first :: rs) →
  MsmType first ∈ supported → (∀ r, r ∈ first :: rs → is_Some (ps !! PrbId r)) →
  ∃ s, adds c (paired ps (first :: rs)) (NewStreamingStrategy v) = (Ret tt, s) ∧
    object s (Itoa z) = RequestStrategy.getMeasurementForID c (Itoa z) (Ok (first :: rs)) (Ok ps) ∧
    is_Some (object s (Itoa z)).
Proof.
  intros Hb Hrs Ht Hps. set (l := paired ps (first :: rs)).
  destruct (adds_returns c l (NewStreamingStrategy v) Hb (swf_new v)) as [s Hs]; [by intros k m w| |].
  { apply Forall_fmap, Forall_forall. intros r Hr. by apply Hps. }
  exists s. split; [done|]. destruct (adds_spec c l _ s (swf_new v) Hs) as (_ & _ & Ho).
  specialize (Ho (Itoa z)). change (object (NewStreamingStrategy v) (Itoa z)) with (@None Measurement) in Ho.
  assert (results_of (Itoa z) l = l) as Hl.
  { unfold results_of. apply filter_all, Forall_forall. intros mp (r & -> & Hr)%list_elem_of_fmap. simpl.
    rewrite Forall_forall in Hrs. by destruct (Hrs r Hr) as [-> _]. }
  destruct (own_object c (Itoa z) l first (ps !! PrbId first) (paired ps rs) (object s (Itoa z)) Hb Ho)
    as (mes0 & mes & Hm & Hall & -> & Hf); [exact Hl|done|].
  split; [|by eexists]. unfold RequestStrategy.getMeasurementForID, RequestStrategy.getMeasurement_body.
  rewrite RequestStrategy.parsed_ok by (by eapply Forall_impl; [exact Hrs|]; intros r [_ ?]).
  rewrite Hm. cbn [mbind Outcome_bind]. change (AddAll mes0 l = Ret mes) in Hall. unfold l, paired in Hall.
  by rewrite Hall.
Qed.

End strategies.

(** ** Witnesses *)

Module StrategiesW.
#[local] Existing Instances sAtlas sProm sPromLaws.
Import ProbesForResults.ProbesW.

(** Two results of probe 1. *)
Definition first_w : Result := sPing 1 100 [].
Definition rest_w : list Result := [sPing 1 102 [f64_of_int 7]].
Definition request_w : requestStrategy := NewRequestStrategy (λ _, Ok (first_w :: rest_w)) defaultConfig 1.
Definition probes_w : gmap Z Probe := {[1 := prb 1]}.

Definition made_w : option Measurement :=
  RequestStrategy.getMeasurementForID defaultConfig "1001" (Ok (first_w :: rest_w)) (Ok probes_w).
Definition mes_w : Measurement :=
  match made_w with Some m => m | None => Measurement.NewMeasurement (Ping.pingExporter "") [] end.

Lemma made_eq : made_w = Some mes_w.
Proof.
  unfold mes_w. assert (match made_w with Some _ => true | None => false end = true) as H
    by (vm_compute; reflexivity).
  by destruct made_w.
Qed.

Definition returned_w : RequestStrategy.fstate :=
  RequestStrategy.mkF [RequestStrategy.GDone (Some mes_w)] true (RequestStrategy.RRet [mes_w]).

Lemma returned_any (fetch : Z → GoResult Probe → Prop) :
  fetch 1 (Ok (prb 1)) →
  rtc (RequestStrategy.fstep (produces request_w fetch) ["1001"]) (RequestStrategy.launch ["1001"]) returned_w.
Proof.
  intros Hf. eapply rtc_l.
  { apply (RequestStrategy.f_produce _ _ _ _ _ 0%nat "1001" mes_w); [done|done|].
    exists (Ok probes_w). split; [|symmetry; exact made_eq].
    intros rs [= <-]. eexists. split; [by apply run_any|done]. }
  eapply rtc_l. { by apply (RequestStrategy.f_receive _ _ _ _ _ 0%nat mes_w). }
  eapply rtc_l. { apply RequestStrategy.f_close. by repeat constructor. }
  eapply rtc_l. { apply RequestStrategy.f_return. }
  apply rtc_refl.
Qed.

(** The answer of the example is a good one. *)
Example good_w : good_answer request_w fetch_w "1001".
Proof.
  exists first_w, rest_w. split; [done|]. split; [left|]. split.
  { intros r p _. unfold fetch_w. case_match; [done|]. by intros [= ->]. }
  intros r. unfold rest_w. rewrite !elem_of_cons. intros [->|[->|[]%not_elem_of_nil]]; by split; [|intros e].
Qed.

Lemma request_terminates_witness :
  (∀ id, ∃ o, produces request_w fetch_w id o) ∧
  (∀ k st, nsteps (RequestStrategy.fstep (produces request_w fetch_w) ["1001"; "2"]) k
             (RequestStrategy.launch ["1001"; "2"]) st → (k <= 6)%nat) ∧
  (∀ st, rtc (RequestStrategy.fstep (produces request_w fetch_w) ["1001"; "2"])
           (RequestStrategy.launch ["1001"; "2"]) st →
     (∀ res, RequestStrategy.main st ≠ RequestStrategy.RRun res) ∨
     ∃ st', RequestStrategy.fstep (produces request_w fetch_w) ["1001"; "2"] st st' ∧
            RequestStrategy.main st' ≠ RequestStrategy.RCancelled).
Proof. apply (request_terminates request_w fetch_w ["1001"; "2"]). intros x. by eexists. Defined.

Lemma strategies_agree_witness :
  ∃ s, adds defaultConfig (paired probes_w (first_w :: rest_w)) (NewStreamingStrategy None) = (Ret tt, s) ∧
    object s "1001" = made_w ∧ is_Some (object s "1001").
Proof.
  apply (strategies_agree defaultConfig None 1001 first_w rest_w probes_w).
  - repeat constructor.
  - by repeat constructor.
  - left.
  - intros r. unfold rest_w. rewrite !elem_of_cons. intros [->|[->|[]%not_elem_of_nil]]; by eexists.
Defined.

End StrategiesW.
