(* ===== verification/StreamSystem.v ===== *)
(** * The streaming strategy as one system

    start launches a worker per measurement and the processor; they share the
    buffered channel resultCh.  [istep] are the steps on that channel: a
    worker sends, the processor receives, handles, recovers from a panic and
    looks into the channel.  [estep] are the steps in which the outside takes
    part: a worker connects, receives a result from its stream or loses it,
    the cache is set up or cleaned.  [recvd], [fed] and [log] record what the
    workers received, what entered the channel and what became of it; no step
    reads them. *)

From S2P Require Import Prelude GoInt GoFloat GoStrings Json Apis Samples Probe ProbeCache Config.
From S2P Require Import Measurement Exporting Helper StreamWorker StreamStrategy EndToEnd.
Open Scope Z_scope.

Section system.
Context {A : AtlasAPI} {P : PromAPI}.
Context (cfg : Config) (API : Z → Probe → Prop) (ids : list string) (bufferSize : nat).

(** Where the processor is: receiving in the range loop, handling a result, or
    in the select after a panic. *)
Inductive ppc := Ranging | Handling (r : Result) | Selecting.

(** What became of a result that was taken out of the channel: it was handled,
    its handling panicked, or the select threw it away. *)
Inductive fate := Handled (e : env) | Recovered (e : env) | Discarded.

Record sys := mkSys {
  workers : shared;
  sending : list (option Result);    (* per worker, the result in w.resultCh <- m *)
  resultCh : list Result;
  processor : ppc;
  strategy : streamingStrategy;
  recvd : list (nat * Result);
  fed : list (nat * Result);
  log : list (Result * fate)
}.

(** NewStreamingStrategy and start; [v] is the package variable cache. *)
Definition start (v : AtlasVars) : sys :=
  mkSys (init ids) (replicate (length ids) None) [] Ranging (NewStreamingStrategy v) [] [] [].

Inductive istep : sys → sys → Prop :=
(** [w.resultCh <- m], when there is room in the buffer *)
| s_send w sd q p st rv fd lg i m :
    sd !! i = Some (Some m) → (length q < bufferSize)%nat →
    istep (mkSys w sd q p st rv fd lg)
          (mkSys w (<[i := None]> sd) (q ++ [m]) p st rv (fd ++ [(i, m)]) lg)
(** [for r := range resultCh] *)
| s_take w sd m q st rv fd lg :
    istep (mkSys w sd (m :: q) Ranging st rv fd lg) (mkSys w sd q (Handling m) st rv fd lg)
(** a value handed over to the waiting processor *)
| s_hand w sd st rv fd lg i m :
    sd !! i = Some (Some m) →
    istep (mkSys w sd [] Ranging st rv fd lg)
          (mkSys w (<[i := None]> sd) [] (Handling m) st rv (fd ++ [(i, m)]) lg)
| s_done w sd q r st st' rv fd lg e :
    serves API (client e) → processMeasurementResult cfg e r st = (Ret tt, st') →
    istep (mkSys w sd q (Handling r) st rv fd lg)
          (mkSys w sd q Ranging st' rv fd (lg ++ [(r, Handled e)]))
(** a panic, caught by the deferred recover *)
| s_panic w sd q r st st' rv fd lg e msg :
    serves API (client e) → processMeasurementResult cfg e r st = (Panic msg, st') →
    istep (mkSys w sd q (Handling r) st rv fd lg)
          (mkSys w sd q Selecting st' rv fd (lg ++ [(r, Recovered e)]))
(** [case _, ok := <-resultCh] with a value in the buffer, or of a sender *)
| s_discard w sd m q st rv fd lg :
    istep (mkSys w sd (m :: q) Selecting st rv fd lg)
          (mkSys w sd q Ranging st rv fd (lg ++ [(m, Discarded)]))
| s_discard_hand w sd st rv fd lg i m :
    sd !! i = Some (Some m) →
    istep (mkSys w sd [] Selecting st rv fd lg)
          (mkSys w (<[i := None]> sd) [] Ranging st rv (fd ++ [(i, m)]) (lg ++ [(m, Discarded)]))
(** [default]: sleep a second and start again *)
| s_default w sd st rv fd lg :
    istep (mkSys w sd [] Selecting st rv fd lg) (mkSys w sd [] Ranging st rv fd lg).

(** What others do to the variable cache: InitCache, the deletion of keys by a
    clean-up, and the additions of a scrape with a measurement_id, which looks
    its probes up through the same cache.  (A lookup of the processor is one
    step; what happens to the cache between its parts can as well happen
    before and after it, see Lookups.) *)
Inductive vstep : AtlasVars → AtlasVars → Prop :=
| v_init ttl : vstep None (Some (Cache.NewCache ttl))
| v_add c now id p : API id p → vstep (Some c) (Some (Cache.Add c now id (Some p)))
| v_delete c ks : vstep (Some c) (Some (Cache.CleanUp_delete c ks)).

Definition set_vars (v : AtlasVars) (s : streamingStrategy) : streamingStrategy :=
  mkStrategy (heap s) (measurements s) (lastDataTime s) (LastDataTimestampGauge s) v.

Inductive estep : sys → sys → Prop :=
(** a worker moves; in the middle of a send it cannot *)
| s_worker w w' sd q p st rv fd lg :
    wstep ids w w' → (∀ i m, sd !! i = Some (Some m) → ws w' !! i = ws w !! i) →
    estep (mkSys w sd q p st rv fd lg) (mkSys w' sd q p st rv fd lg)
(** [case m, ok := <-ch], with a result that does not end the connection *)
| s_recv w sd q p st rv fd lg i a m :
    ws w !! i = Some (mkW PListen a) → sd !! i = Some None → ends (Recv (Some m)) = false →
    estep (mkSys w sd q p st rv fd lg) (mkSys w (<[i := Some m]> sd) q p st (rv ++ [(i, m)]) fd lg)
| s_vars w sd q p st v rv fd lg :
    vstep (vars st) v →
    estep (mkSys w sd q p st rv fd lg) (mkSys w sd q p (set_vars v st) rv fd lg).

Definition sstep (s s' : sys) : Prop := istep s s' ∨ estep s s'.

(** ** Conservation *)

Definition by_worker (i : nat) (l : list (nat * Result)) : list Result :=
  (filter (λ x : nat * Result, x.1 = i) l).*2.

Definition in_send (s : sys) (i : nat) : list Result :=
  match sending s !! i with Some (Some m) => [m] | _ => [] end.

Definition in_hand (p : ppc) : list Result := match p with Handling r => [r] | _ => [] end.

Lemma by_worker_app i l j m :
  by_worker i (l ++ [(j, m)]) = by_worker i l ++ (if decide (j = i) then [m] else []).
Proof.
  unfold by_worker. rewrite filter_app, fmap_app. f_equal.
  case_decide; [by rewrite filter_cons_True|by rewrite filter_cons_False].
Qed.

Record sinv (s : sys) : Prop := {
  sinv_workers : rtc (wstep ids) (init ids) (workers s);
  sinv_len : length (sending s) = length ids;
  sinv_cap : (length (resultCh s) <= bufferSize)%nat;
  sinv_fifo : (fed s).*2 = (log s).*1 ++ in_hand (processor s) ++ resultCh s;
  sinv_recv i : by_worker i (recvd s) = by_worker i (fed s) ++ in_send s i;
  sinv_listen i m : sending s !! i = Some (Some m) → ∃ a, ws (workers s) !! i = Some (mkW PListen a)
}.

(** A worker's result leaves its hands. *)
Lemma recv_sent (sd : list (option Result)) rv fd i m :
  sd !! i = Some (Some m) →
  (∀ j, by_worker j rv = by_worker j fd ++ match sd !! j with Some (Some x) => [x] | _ => [] end) →
  ∀ j, by_worker j rv = by_worker j (fd ++ [(i, m)]) ++
         match <[i := None]> sd !! j with Some (Some x) => [x] | _ => [] end.
Proof.
  intros Hi H j. rewrite by_worker_app, H. destruct (decide (i = j)) as [<-|Hne].
  - rewrite Hi, list_lookup_insert_eq by (by eapply lookup_lt_Some). by rewrite app_nil_r.
  - by rewrite list_lookup_insert_ne, app_nil_r.
Qed.

Lemma listen_sent (sd : list (option Result)) i (Q : nat → Result → Prop) :
  (∀ j m, sd !! j = Some (Some m) → Q j m) →
  ∀ j m, <[i := None]> sd !! j = Some (Some m) → Q j m.
Proof. intros H j m [(_ & [=] & _)|[_ Hj]]%list_lookup_insert_Some. by apply H. Qed.

Lemma sinv_istep s s' : istep s s' → sinv s → sinv s'.
Proof.
  intros Hs [Hw Hl Hc Hf Hr Hn]. unfold in_send in *.
  destruct Hs; cbn [workers sending resultCh processor strategy recvd fed log in_hand] in *;
    (split; cbn [workers sending resultCh processor strategy recvd fed log in_hand]);
    unfold in_send; cbn [sending]; rewrite ?length_insert, ?length_app, ?fmap_app, ?Hf;
    try done; try (by apply recv_sent); try (by eapply listen_sent); simpl in *; try lia;
    by rewrite ?app_nil_r, <-?app_assoc.
Qed.

Lemma sinv_estep s s' : estep s s' → sinv s → sinv s'.
Proof.
  intros Hs [Hw Hl Hc Hf Hr Hn]. unfold in_send in *.
  destruct Hs as [w w' sd q p st rv fd lg Hww Hkeep|w sd q p st rv fd lg i a m Hi Hsd He|];
    cbn [workers sending resultCh processor strategy recvd fed log] in *; split; try done.
  - by eapply rtc_r.
  - intros i m Him. simpl in *. rewrite (Hkeep i m Him). by apply (Hn i m).
  - simpl. by rewrite length_insert.
  - intros j. unfold in_send. cbn [sending recvd fed]. rewrite by_worker_app, Hr.
    destruct (decide (i = j)) as [<-|Hne].
    + rewrite Hsd, list_lookup_insert_eq by (by eapply lookup_lt_Some). by rewrite app_nil_r.
    + by rewrite list_lookup_insert_ne, app_nil_r.
  - intros j m'. simpl. intros [(<- & _ & _)|[_ Hj]]%list_lookup_insert_Some; [by eexists|by apply (Hn j m')].
Qed.

Lemma sinv_start v : sinv (start v).
Proof.
  split; simpl; try done; try lia.
  - by rewrite length_replicate.
  - intros i. unfold in_send. simpl. destruct (replicate _ _ !! i) as [[m|]|] eqn:E; try done.
    by apply lookup_replicate in E as [[=] _].
  - intros i m [[=] _]%lookup_replicate.
Qed.

Lemma sinv_reach s s' : rtc sstep s s' → sinv s → sinv s'.
Proof.
  induction 1 as [|s s1 s2 [Hs|Hs] _ IH]; [done|..]; intros Hi; apply IH;
    [by eapply sinv_istep|by eapply sinv_estep].
Qed.

(** What was thrown away, and the panics that were recovered. *)
Definition count (f : fate → bool) (lg : list (Result * fate)) : nat :=
  length (filter (λ x : Result * fate, f x.2 = true) lg).
Definition is_discarded (f : fate) : bool := match f with Discarded => true | _ => false end.
Definition is_recovered (f : fate) : bool := match f with Recovered _ => true | _ => false end.

Lemma count_app f lg r x : count f (lg ++ [(r, x)]) = (count f lg + if f x then 1 else 0)%nat.
Proof.
  unfold count. rewrite filter_app, length_app. f_equal. rewrite filter_cons. simpl.
  by destruct (f x).
Qed.

(** Every discarded result is preceded by a panic of its own. *)
Definition loss_inv (s : sys) : Prop :=
  (count is_discarded (log s) + (match processor s with Selecting => 1 | _ => 0 end) <=
   count is_recovered (log s))%nat.

Lemma loss_reach v s : rtc sstep (start v) s → loss_inv s.
Proof.
  intros H. eapply (rtc_ind_r loss_inv (start v)); [unfold loss_inv; simpl; lia| |exact H]. unfold loss_inv.
  intros y z _ [Hs|Hs] Hy; destruct Hs; simpl in *; rewrite ?count_app; simpl; lia.
Qed.

(** C3: nothing is lost, duplicated or reordered on the way: at every moment
    what entered the channel is, in that order, what was taken out, the result
    in the processor's hands and the buffer, which holds no more than its
    size; and what a worker received from its stream is, in that order, what
    it put into the channel and the result it is about to put.  Of what was
    taken out no more is thrown away than panics were recovered.  The workers
    among themselves behave as if there were no channel. *)
Theorem stream_conservation v s :
  rtc sstep (start v) s →
  (length (resultCh s) <= bufferSize)%nat ∧
  (fed s).*2 = (log s).*1 ++ in_hand (processor s) ++ resultCh s ∧
  (∀ i, by_worker i (recvd s) = by_worker i (fed s) ++ in_send s i) ∧
  (count is_discarded (log s) <= count is_recovered (log s))%nat ∧
  rtc (wstep ids) (init ids) (workers s).
Proof.
  intros Hs. pose proof (loss_reach v s Hs) as Hl. unfold loss_inv in Hl.
  apply sinv_reach in Hs as [H1 H2 H3 H4 H5 H6]; [|apply sinv_start]. split_and!; done || lia.
Qed.

(** ** Nothing is thrown away once the cache is there *)

Lemma object_set_vars v st k : object (set_vars v st) k = object st k.
Proof. done. Qed.

Lemma vstep_from v v' : vstep v v' → (∀ c, v = Some c → cache_from API c) →
  ∃ c', v' = Some c' ∧ cache_from API c'.
Proof.
  intros Hv Hc. destruct Hv; eexists; (split; [done|]);
    auto using cache_from_new, cache_from_Add, cache_from_delete.
Qed.

Lemma ready_vstep st v : ready API st → vstep (vars st) v → ready API (set_vars v st).
Proof.
  intros [[Ha Hi] (c & Hc & Hn) Ho] Hv. split; [by split| |done].
  apply (vstep_from _ _ Hv). intros c' E. rewrite Hc in E. by injection E as <-.
Qed.

(** The results handled since a state, each with what was found for it. *)
Definition handled_since (s0 s : sys) (new : list (Result * fate)) (ops : list (option Probe)) : Prop :=
  log s = log s0 ++ new ∧
  Forall2 (λ x op, ∃ e, x.2 = Handled e ∧ looked_up API e x.1 op) new ops ∧
  ∀ k, own_all cfg (object (strategy s0) k) (results_of k (concat (zip_with found new.*1 ops))) =
       Ret (object (strategy s) k).

Lemma handled_start s0 : handled_since s0 s0 [] [].
Proof. split_and!; [by rewrite app_nil_r|constructor|done]. Qed.

Lemma handled_more s0 s new ops w sd q p rv fd :
  handled_since s0 s new ops → handled_since s0 (mkSys w sd q p (strategy s) rv fd (log s)) new ops.
Proof. done. Qed.

Lemma handled_istep `{!PromLaws} s0 s s' new ops :
  buckets_increasing cfg → istep s s' → processor s ≠ Selecting → ready API (strategy s) →
  handled_since s0 s new ops →
  processor s' ≠ Selecting ∧ ready API (strategy s') ∧ ∃ new' ops', handled_since s0 s' new' ops'.
Proof.
  intros Hb Hs Hp Hr Hh. destruct Hs as [| | |w sd q r st st' rv fd lg e Hc He|w sd q r st st' rv fd lg e msg Hc He| | |];
    simpl in *; try done; try (split; [done|]; split; [done|]; by exists new, ops).
  - destruct (process_one cfg API e r st Hb Hc Hr) as (s1 & op & E & Hr1 & Herr & Hk). rewrite He in E.
    injection E as <-. split; [done|]. split; [done|]. destruct Hh as (Hlog & Hnew & Hobj). simpl in *.
    exists (new ++ [(r, Handled e)]), (ops ++ [op]). split_and!; simpl.
    + by rewrite Hlog, app_assoc.
    + apply Forall2_app; [done|]. constructor; [by eexists|constructor].
    + intros k. rewrite fmap_app, zip_with_app by (by rewrite length_fmap; eapply Forall2_length).
      rewrite concat_app. unfold results_of in *. rewrite filter_app, own_all_app, Hobj. simpl.
      rewrite app_nil_r. apply Hk.
  - destruct (process_one cfg API e r st Hb Hc Hr) as (s1 & op & E & _). congruence.
Qed.

Lemma handled_estep s0 s s' new ops :
  estep s s' → processor s ≠ Selecting → ready API (strategy s) → handled_since s0 s new ops →
  processor s' ≠ Selecting ∧ ready API (strategy s') ∧ handled_since s0 s' new ops.
Proof.
  intros Hs Hp Hr Hh. destruct Hs; simpl in *; try done.
  split; [done|]. split; [by apply ready_vstep|done].
Qed.

Lemma handled_reach `{!PromLaws} s0 s :
  buckets_increasing cfg → rtc sstep s0 s → processor s0 ≠ Selecting → ready API (strategy s0) →
  processor s ≠ Selecting ∧ ready API (strategy s) ∧ ∃ new ops, handled_since s0 s new ops.
Proof.
  intros Hb Hs Hp0 Hr0.
  eapply (rtc_ind_r (λ s, processor s ≠ Selecting ∧ ready API (strategy s) ∧ ∃ new ops, handled_since s0 s new ops));
    [split_and!; [done..|]; exists [], []; apply handled_start| |exact Hs].
  intros s1 s2 _ [Hi|He] (Hp & Hr & new & ops & Hh); [by eapply handled_istep|].
  destruct (handled_estep s0 s1 s2 new ops) as (? & ? & ?); [done..|]. split_and!; [done..|]. by exists new, ops.
Qed.

(** While the processor is in its select, it changes nothing; it leaves with at
    most one result thrown away. *)
Lemma selecting_reach s0 s :
  rtc sstep s0 s → processor s0 = Selecting → ready API (strategy s0) →
  (processor s = Selecting ∧ log s = log s0 ∧ ready API (strategy s) ∧
     ∀ k, object (strategy s) k = object (strategy s0) k) ∨
  ∃ s1 lost, rtc sstep s1 s ∧ processor s1 = Ranging ∧ ready API (strategy s1) ∧ log s1 = log s0 ++ lost ∧
    (lost = [] ∨ ∃ r, lost = [(r, Discarded)]) ∧ ∀ k, object (strategy s1) k = object (strategy s0) k.
Proof.
  intros Hs. induction Hs as [s|s0 s1 s2 Hstep Hrest IH]; intros Hp Hr; [by left|].
  assert (processor s1 = Selecting → log s1 = log s0 → ready API (strategy s1) →
    (∀ k, object (strategy s1) k = object (strategy s0) k) → 
    (processor s2 = Selecting ∧ log s2 = log s0 ∧ ready API (strategy s2) ∧
       ∀ k, object (strategy s2) k = object (strategy s0) k) ∨
    ∃ s1 lost, rtc sstep s1 s2 ∧ processor s1 = Ranging ∧ ready API (strategy s1) ∧ log s1 = log s0 ++ lost ∧
      (lost = [] ∨ ∃ r, lost = [(r, Discarded)]) ∧ ∀ k, object (strategy s1) k = object (strategy s0) k) as Hstay.
  { intros Hp1 Hl1 Hr1 Ho1. destruct (IH Hp1 Hr1) as [(? & Hl & ? & Ho)|(s1' & lost & ? & ? & ? & Hl & ? & Ho)].
    - left. split_and!; [done|congruence|done|]. intros k. by rewrite Ho, Ho1.
    - right. exists s1', lost. split_and!; [done..|congruence|done|]. intros k. by rewrite Ho, Ho1. }
  destruct Hstep as [Hs|Hs]; destruct Hs; simpl in *; try done; try (by apply Hstay);
    try (by apply Hstay; [..|apply ready_vstep|]);
    right; first [by (eexists _, [_]; split; [exact Hrest|]); simpl; split_and!; eauto
                 |by (eexists _, []; split; [exact Hrest|]); simpl; rewrite app_nil_r; split_and!; eauto].
Qed.

(** C4: from the moment the cache is set up, with bucket bounds that the client
    accepts, the recovery never throws a result away, whatever happens: every
    result taken out of the channel is handled, only those are left out whose
    probe could not be retrieved, and each measurement's object is what its
    results, with the API's documents of their probes, make of it, in the
    order in which they came out of the channel.  The one exception is a panic
    from before that moment of which the processor is still recovering: its
    select may throw away one result, the first. *)
Theorem ready_system_drops_nothing `{!PromLaws} s0 s :
  buckets_increasing cfg → rtc sstep s0 s → ready API (strategy s0) →
  (processor s = Selecting → processor s0 = Selecting ∧ log s = log s0) ∧
  ∃ lost new ops, log s = log s0 ++ lost ++ new ∧
    (lost = [] ∨ processor s0 = Selecting ∧ ∃ r, lost = [(r, Discarded)]) ∧
    Forall2 (λ x op, ∃ e, x.2 = Handled e ∧ looked_up API e x.1 op) new ops ∧
    ∀ k, own_all cfg (object (strategy s0) k) (results_of k (concat (zip_with found new.*1 ops))) =
         Ret (object (strategy s) k).
Proof.
  intros Hb Hs Hr. assert (processor s0 = Selecting ∨ processor s0 ≠ Selecting) as [Hp|Hp]
    by (destruct (processor s0); by (left + right)).
  - destruct (selecting_reach s0 s Hs Hp Hr) as [(Hps & Hl & _ & Ho)|(s1 & lost & Hs1 & Hp1 & Hr1 & Hl1 & Hlost & Ho1)].
    + split; [done|]. exists [], [], []. split; [by rewrite Hl, app_nil_r|]. split; [by left|]. split; [constructor|].
      intros k. by rewrite Ho.
    + destruct (handled_reach s1 s Hb Hs1) as (Hps & _ & new & ops & Hl & Hn & Ho); [by rewrite Hp1|done|].
      split; [done|]. exists lost, new, ops. split; [by rewrite Hl, Hl1, app_assoc|].
      split; [by destruct Hlost as [->|Hd]; [left|right]|]. split; [done|]. intros k. by rewrite <-Ho1.
  - destruct (handled_reach s0 s Hb Hs Hp Hr) as (Hp' & _ & new & ops & Hl & Hn & Ho).
    split; [done|]. exists [], new, ops. split_and!; [done|by left|done..].
Qed.

(** ** Whatever was received is handled *)

Definition busy (o : option Result) : nat := match o with Some _ => 1 | None => 0 end.

Definition measure (s : sys) : nat :=
  4 * list_sum (busy <$> sending s) + 3 * length (resultCh s) +
  match processor s with Ranging => 0 | Handling _ => 2 | Selecting => 1 end.

Lemma busy_insert (sd : list (option Result)) i m :
  sd !! i = Some (Some m) → list_sum (busy <$> sd) = S (list_sum (busy <$> <[i := None]> sd)).
Proof.
  unfold list_sum. revert i. induction sd as [|o sd IH]; intros [|i] H; simplify_eq/=; [done|].
  rewrite (IH i H). lia.
Qed.

Lemma istep_measure s s' : istep s s' → (measure s' < measure s)%nat.
Proof.
  unfold measure. intros [w sd q p st rv fd lg i m Hi _| |w sd st rv fd lg i m Hi| | | |w sd st rv fd lg i m Hi|];
    cbn [sending resultCh processor]; rewrite ?length_app; try (rewrite (busy_insert sd i m Hi));
    cbn [length]; lia.
Qed.

Lemma istep_recvd s s' : rtc istep s s' → recvd s' = recvd s.
Proof. induction 1 as [|s s1 s2 Hs _ ->]; [done|]. by destruct Hs. Qed.

(** A state in which the parts wait for each other is one in which nothing is
    left to do. *)
Lemma settled_nf s :
  nf istep s → resultCh s = [] ∧ processor s = Ranging ∧ Forall (λ o, o = None) (sending s).
Proof.
  intros Hnf. destruct s as [w sd q p st rv fd lg]. simpl.
  assert (p = Ranging) as ->.
  { destruct p as [|r|]; [done|..]; destruct Hnf.
    - destruct (processMeasurementResult cfg (mkEnv 0 0 0 (λ _, Err "")) r st) as [[[]|msg] st'] eqn:E.
      + eexists. eapply s_done; [|exact E]. apply serves_failing.
      + eexists. eapply s_panic; [|exact E]. apply serves_failing.
    - destruct q; eexists; [apply s_default|apply s_discard]. }
  assert (q = []) as -> by (destruct q; [done|]; destruct Hnf; eexists; apply s_take).
  split_and!; [done..|]. apply Forall_lookup. intros i [m|] Hi; [|done].
  destruct Hnf. eexists. by apply s_hand.
Qed.

Lemma at_rest w n st rv fd lg : nf istep (mkSys w (replicate n None) [] Ranging st rv fd lg).
Proof.
  intros [s' Hs]. inversion Hs; subst;
    match goal with H : replicate _ _ !! _ = Some _ |- _ => by apply lookup_replicate in H as [[=] _] end.
Qed.

Lemma istep_sn s : sn istep s.
Proof.
  induction (well_founded_ltof _ measure s) as [s _ IH]. constructor.
  intros s' Hs. apply IH. by apply istep_measure.
Qed.

Lemma rtc_istep s s' : rtc istep s s' → rtc sstep s s'.
Proof. apply rtc_subrel. by left. Qed.

Lemma settled_all s :
  sinv s → nf istep s → (fed s).*2 = (log s).*1 ∧ ∀ i, by_worker i (recvd s) = by_worker i (fed s).
Proof.
  intros [_ _ _ Hf Hr _] (Hq & Hp & Hsd)%settled_nf. split.
  - rewrite Hf, Hq, Hp. by rewrite !app_nil_r.
  - intros i. rewrite Hr. unfold in_send. destruct (sending s !! i) as [[m|]|] eqn:E; try by rewrite app_nil_r.
    by pose proof (Forall_lookup_1 _ _ _ _ Hsd E).
Qed.

(** C5: the parts never wait for each other in vain: when the streams bring
    nothing new, the steps on the channel come to an end, whatever the size of
    the buffer, and then every result that a worker received has been taken
    out of the channel. *)
Theorem stream_settles v s :
  rtc sstep (start v) s →
  sn istep s ∧
  ∀ s', rtc istep s s' → nf istep s' →
    resultCh s' = [] ∧ recvd s' = recvd s ∧ (fed s').*2 = (log s').*1 ∧
    ∀ i, by_worker i (recvd s) = by_worker i (fed s').
Proof.
  intros Hs. split; [apply istep_sn|]. intros s' Hs' Hnf.
  assert (sinv s') as Hi by (eapply sinv_reach; [by apply rtc_istep|]; eapply sinv_reach; [done|apply sinv_start]).
  destruct (settled_all s' Hi Hnf) as [Hf Hr]. rewrite <-(istep_recvd s s' Hs').
  split_and!; [by apply settled_nf|done..].
Qed.

(** ** From the streams to the exposition *)

(** Before a result has been handled the strategy is as new; only the cache
    may have been set up. *)
Definition untouched (s : sys) : Prop :=
  log s = [] → processor s ≠ Selecting ∧
    ∃ v, strategy s = NewStreamingStrategy v ∧ ∀ c, v = Some c → cache_from API c.

Lemma untouched_istep s s' : istep s s' → untouched s → untouched s'.
Proof.
  unfold untouched. intros Hs IH. destruct Hs; simpl in *; try (intros Hl; by apply app_nil in Hl as [_ Hl]);
    intros Hl; destruct (IH Hl) as [Hp Hv]; (split; [done|exact Hv]).
Qed.

Lemma untouched_estep s s' : estep s s' → untouched s → untouched s'.
Proof.
  unfold untouched. intros Hs IH. destruct Hs as [| |w sd q p st v' rv fd lg Hv]; simpl in *; try done.
  intros H. destruct (IH H) as (Hp & v & -> & Hn). split; [done|]. exists v'. split; [done|].
  intros c ->. destruct (vstep_from _ _ Hv Hn) as (c' & [= <-] & Hc). done.
Qed.

Lemma untouched_reach s : rtc sstep (start None) s → untouched s.
Proof.
  intros H. eapply (rtc_ind_r untouched); [| |exact H].
  - intros _. split; [done|]. by exists None.
  - intros y z _ [Hi|He]; [by apply untouched_istep|by apply untouched_estep].
Qed.

Lemma ready_untouched s :
  untouched s → log s = [] → is_Some (vars (strategy s)) →
  processor s ≠ Selecting ∧ ready API (strategy s) ∧ ∀ k, object (strategy s) k = None.
Proof.
  intros Hu Hl [c Hc]. destruct (Hu Hl) as (Hp & v & E & Hn). rewrite E in Hc |- *. simpl in Hc. subst v.
  split; [done|]. split; [|done]. split; [apply swf_new|exists c; split; [done|by apply Hn]|done].
Qed.

(** When the cache was set up before the first result was handled, the streams
    are quiet and the parts have come to rest, the object of a measurement is
    found and exposes what the workers received for it. *)
Lemma system_exposes `{!PromLaws} s0 s a t0 t1 clock :
  buckets_increasing cfg → MaxResultAge cfg = a * Second → 0 <= a < 2 ^ 34 →
  0 <= t0 → t1 < 2 ^ 62 → (∀ i, t0 <= clock i <= t1) →
  rtc sstep (start None) s0 → log s0 = [] → is_Some (vars (strategy s0)) →
  rtc sstep s0 s → nf istep s →
  ∃ ops,
    Forall2 (λ x op, ∃ e, x.2 = Handled e ∧ looked_up API e x.1 op) (log s) ops ∧
    (log s).*1 = (fed s).*2 ∧ (∀ i, by_worker i (fed s) = by_worker i (recvd s)) ∧
    let l := concat (zip_with found (fed s).*2 ops) in
    ∀ k m p rest, results_of k l = (m, p) :: rest → MsmType m ∈ supported →
      ∃ ptr mes0 mes,
        measurementForType (MsmType m) k (Itoa (Af m)) cfg = Ret (Ok mes0) ∧
        MeasurementResults (strategy s) [k] = [ptr] ∧ heap (strategy s) !! ptr = Some mes ∧
        exposes mes0 mes (results_of k l) a t0 t1 clock.
Proof.
  intros Hb Hage Ha H0 H1 Hc Hs0 Hlog0 Hv Hs Hnf.
  assert (sinv s) as Hi by (eapply sinv_reach; [done|]; eapply sinv_reach; [done|apply sinv_start]).
  destruct (settled_all s Hi Hnf) as [Hf Hr].
  destruct (ready_untouched s0 (untouched_reach s0 Hs0) Hlog0 Hv) as (Hp & Hready & Hnone).
  destruct (handled_reach _ s Hb Hs Hp Hready) as (_ & _ & new & ops & Hlog & Hnew & Hobj).
  rewrite Hlog0 in Hlog. simpl in Hlog. subst new. exists ops. split; [done|]. split; [done|]. split; [done|].
  intros l k m p rest Hk Ht. subst l. rewrite Hf in *. specialize (Hobj k). rewrite Hnone in Hobj.
  by apply (own_exposes cfg (strategy s) k _ m p rest).
Qed.
End system.

(** ** Witnesses *)

Module SystemW.
Import StreamW.
#[local] Existing Instances sAtlas sProm sPromLaws.

Definition ids_w : list string := ["1001"].
(** The cache is set up before the worker connects. *)
Definition start_w : sys :=
  mkSys (init ids_w) [None] [] Ranging (NewStreamingStrategy (Some (Cache.NewCache Hour))) [] [] [].
Definition connected_w : shared := mkS [mkW PListen 0] 1 {["1001" := 1]}.
Definition handled_w : streamingStrategy :=
  (processMeasurementResult cfg_w env_w first_w (strategy start_w)).2.

(** A result has been received and is about to be sent; it is in the channel;
    it has been handled. *)
Definition sending_w : sys :=
  mkSys connected_w [Some first_w] [] Ranging (strategy start_w) [(0%nat, first_w)] [] [].
Definition final_of (st : streamingStrategy) : sys :=
  mkSys connected_w [None] [] Ranging st [(0%nat, first_w)] [(0%nat, first_w)] [(first_w, Handled env_w)].
Definition final_w : sys := final_of handled_w.

Lemma start_reach cfg : rtc (sstep cfg API_w ids_w 1) (start ids_w None) start_w.
Proof.
  apply rtc_once. right.
  apply (s_vars API_w ids_w (init ids_w) [None] [] Ranging (NewStreamingStrategy None) (Some (Cache.NewCache Hour))), v_init.
Qed.

Lemma sending_reach cfg : rtc (sstep cfg API_w ids_w 1) start_w sending_w.
Proof.
  eapply rtc_l; [right; apply (s_worker _ _ _ (mkS [mkW PUp 0] 1 ∅))|].
  { by apply (w_sub_ok _ [mkW PSub 0] 0 ∅ 0 0). }
  { intros [|i] m; [done|]. simpl. by destruct i. }
  eapply rtc_l; [right; apply (s_worker _ _ _ connected_w)|].
  { by apply (w_gauge_up _ [mkW PUp 0] 1 ∅ 0 0 "1001"). }
  { intros [|i] m; [done|]. simpl. by destruct i. }
  eapply rtc_l; [right; by apply (s_recv _ _ _ _ _ _ _ _ _ _ 0%nat 0 first_w)|]. done.
Qed.

Lemma handled_run : processMeasurementResult cfg_w env_w first_w (strategy start_w) = (Ret tt, handled_w).
Proof.
  rewrite (surjective_pairing (processMeasurementResult _ _ _ _)). unfold handled_w.
  assert ((processMeasurementResult cfg_w env_w first_w (strategy start_w)).1 = Ret tt) as ->; [|done].
  vm_compute. reflexivity.
Qed.

Lemma final_reach cfg st :
  processMeasurementResult cfg env_w first_w (strategy start_w) = (Ret tt, st) →
  rtc (istep cfg API_w 1) sending_w (final_of st).
Proof.
  intros Hst. eapply rtc_l; [apply (s_send _ _ _ _ _ _ _ _ _ _ _ 0%nat first_w); [done|simpl; lia]|].
  eapply rtc_l; [apply s_take|]. eapply rtc_l; [apply (s_done _ _ _ _ _ _ _ _ _ _ _ _ _ serves_w Hst)|]. apply rtc_refl.
Qed.

Lemma final_sreach cfg st :
  processMeasurementResult cfg env_w first_w (strategy start_w) = (Ret tt, st) →
  rtc (sstep cfg API_w ids_w 1) start_w (final_of st).
Proof. intros Hst. eapply rtc_trans; [apply sending_reach|by apply rtc_istep, final_reach]. Qed.

Lemma stream_conservation_witness :
  (length (resultCh sending_w) <= 1)%nat ∧
  (fed sending_w).*2 = (log sending_w).*1 ++ in_hand (processor sending_w) ++ resultCh sending_w ∧
  (∀ i, by_worker i (recvd sending_w) = by_worker i (fed sending_w) ++ in_send sending_w i) ∧
  (count is_discarded (log sending_w) <= count is_recovered (log sending_w))%nat ∧
  rtc (wstep ids_w) (init ids_w) (workers sending_w).
Proof.
  apply (stream_conservation cfg_w API_w ids_w 1 None sending_w).
  eapply rtc_trans; [apply start_reach|apply sending_reach].
Defined.

Lemma ready_system_drops_nothing_witness :
  (processor final_w = Selecting → processor start_w = Selecting ∧ log final_w = log start_w) ∧
  ∃ lost new ops, [(first_w, Handled env_w)] = [] ++ lost ++ new ∧
    (lost = [] ∨ processor start_w = Selecting ∧ ∃ r, lost = [(r, Discarded)]) ∧
    Forall2 (λ x op, ∃ e, x.2 = Handled e ∧ looked_up API_w e x.1 op) new ops ∧
    ∀ k, own_all cfg_w None (results_of k (concat (zip_with found new.*1 ops))) = Ret (object handled_w k).
Proof.
  apply (ready_system_drops_nothing cfg_w API_w ids_w 1 start_w final_w).
  - repeat constructor.
  - apply final_sreach, handled_run.
  - apply ready_new.
Defined.

Lemma stream_settles_witness :
  sn (istep cfg_w API_w 1) sending_w ∧
  ∀ s', rtc (istep cfg_w API_w 1) sending_w s' → nf (istep cfg_w API_w 1) s' →
    resultCh s' = [] ∧ recvd s' = [(0%nat, first_w)] ∧ (fed s').*2 = (log s').*1 ∧
    ∀ i, by_worker i [(0%nat, first_w)] = by_worker i (fed s').
Proof.
  apply (stream_settles cfg_w API_w ids_w 1 None sending_w).
  eapply rtc_trans; [apply start_reach|apply sending_reach].
Defined.

End SystemW.
