(* ===== verification/StreamShutdown.v ===== *)
(** * The end of the context

    main binds the context of the streaming strategy to the signals that stop
    the process.  [hstep] are the steps of the system of StreamSystem from
    then on.  A select that is entered now finds ctx.Done ready while its
    timer, of at least three quarters of a second, has only just been started,
    so it returns; only a worker that was already waiting may still be woken
    by its timer, once.  A listening worker may still prefer a result of its
    stream to ctx.Done, and the last scrapes may still use the cache; there is
    a number of such steps, of which nothing else is assumed.  main meanwhile
    is in srv.Shutdown, which waits for the scrapes and for 30 seconds at most,
    and returns without waiting for the workers or the processor: the process
    may end after any of these steps. *)

From S2P Require Import Prelude GoInt GoFloat GoStrings Json Apis Samples Probe ProbeCache Config.
From S2P Require Import Measurement Exporting Helper StreamWorker StreamStrategy EndToEnd StreamSystem.
Open Scope Z_scope.

Section shutdown.
Context {A : AtlasAPI} {P : PromAPI}.
Context (cfg : Config) (API : Z → Probe → Prop) (ids : list string) (bufferSize : nat).

Abbreviation istep := (istep cfg API bufferSize).
Abbreviation estep := (estep API ids).
Abbreviation sstep := (sstep cfg API ids bufferSize).

Definition in_select (w : shared) (i : nat) : bool :=
  match ws w !! i with Some (mkW PWait _) => true | _ => false end.

(** The workers in their select when the context ends. *)
Definition waiting (w : shared) : gset nat :=
  filter (λ i, in_select w i = true) (set_seq 0 (length (ws w))).

(** [early]: the workers whose select was entered before the context ended;
    [outside]: how many results and uses of the cache are still to come;
    [ended]: main has returned, and the process with it. *)
Record closing := mkC { system : sys; early : gset nat; outside : nat; ended : bool }.

Inductive hstep : closing → closing → Prop :=
| h_channel s s' E n : istep s s' → hstep (mkC s E n false) (mkC s' E n false)
| h_worker w w' sd q p st rv fd lg E n :
    wstep ids w w' →
    (∀ i m, sd !! i = Some (Some m) → ws w' !! i = ws w !! i) →
    (∀ i a b, ws w !! i = Some (mkW PWait a) → ws w' !! i = Some (mkW PSub b) → i ∈ E) →
    hstep (mkC (mkSys w sd q p st rv fd lg) E n false)
          (mkC (mkSys w' sd q p st rv fd lg)
               (filter (λ i, in_select w i && in_select w' i = true) E) n false)
| h_outside s s' E n :
    estep s s' → workers s' = workers s → hstep (mkC s E (S n) false) (mkC s' E n false)
(** srv.Shutdown returns, and main *)
| h_exit s E n : hstep (mkC s E n false) (mkC s E n true).

(** ** The steps end *)

(** How many steps a worker has left. *)
Definition steps_left (E : gset nat) (i : nat) (w : worker) : nat :=
  match at_ w with
  | PSub => 5 | PUp => 4 | PListen => 3 | PDown => 2
  | PWait => if decide (i ∈ E) then 6 else 1
  | PExit => 0
  end.

Definition all_left (E : gset nat) (l : list worker) : nat := list_sum (imap (steps_left E) l).

Lemma imap_sum_lt {T} (f g : nat → T → nat) (l : list T) i a b :
  l !! i = Some a → (f i b < g i a)%nat →
  (∀ j x, l !! j = Some x → j ≠ i → (f j x <= g j x)%nat) →
  (list_sum (imap f (<[i := b]> l)) < list_sum (imap g l))%nat.
Proof.
  assert (∀ (l : list T) (f g : nat → T → nat), (∀ j x, l !! j = Some x → (f j x <= g j x)%nat) →
    (list_sum (imap f l) <= list_sum (imap g l))%nat) as Hle.
  { clear. induction l as [|x l IH]; intros f g H; [done|]. rewrite !imap_cons. simpl.
    pose proof (H 0%nat x eq_refl). pose proof (IH (f ∘ S) (g ∘ S) (λ j y, H (S j) y)).
    unfold list_sum in *. lia. }
  revert f g i. induction l as [|x l IH]; intros f g [|i] Hi Hlt Hj; simplify_eq/=;
    rewrite ?imap_cons; simpl.
  - pose proof (Hle l (f ∘ S) (g ∘ S) (λ j y Hy, Hj (S j) y Hy (not_eq_sym (O_S j)))).
    unfold list_sum in *. lia.
  - pose proof (Hj 0%nat x eq_refl (O_S i)).
    pose proof (IH (f ∘ S) (g ∘ S) i Hi Hlt (λ j y Hy Hne, Hj (S j) y Hy (λ E, Hne (eq_add_S _ _ E)))).
    unfold list_sum in *. lia.
Qed.

Lemma steps_left_subset (E E' : gset nat) i w :
  E' ⊆ E → (steps_left E' i w <= steps_left E i w)%nat.
Proof. intros H. unfold steps_left. destruct (at_ w); try lia. repeat case_decide; set_solver || lia. Qed.

(** Every step of a worker uses one up. *)
Lemma wstep_left w w' E :
  wstep ids w w' →
  (∀ i a b, ws w !! i = Some (mkW PWait a) → ws w' !! i = Some (mkW PSub b) → i ∈ E) →
  (all_left (filter (λ i, in_select w i && in_select w' i = true) E) (ws w') < all_left E (ws w))%nat.
Proof.
  intros Hs HE. unfold all_left.
  destruct Hs as [l c g i a Hw|l c g i a Hw|l c g i a id Hw Hid|l c g i a Hw|l c g i a id Hw Hid|
                  l c g i a r d Hw Hd|l c g i a r d Hw Hd|l c g i a r msg Hw Hd];
    cbn [ws] in *; (eapply imap_sum_lt; [exact Hw| |intros; apply steps_left_subset; set_solver]);
    unfold steps_left; cbn [at_]; repeat case_decide; try lia.
  - exfalso. match goal with H : i ∈ filter _ _ |- _ => apply elem_of_filter in H as [H _] end.
    unfold in_select in *. cbn [ws] in *. by rewrite Hw in *.
  - exfalso. match goal with H : i ∈ filter _ _ |- _ => apply elem_of_filter in H as [H _] end.
    unfold in_select in *. cbn [ws] in *. by rewrite Hw in *.
  - exfalso. match goal with H : i ∉ E |- _ => apply H end. eapply HE; [exact Hw|].
    apply list_lookup_insert_eq. by eapply lookup_lt_Some.
Qed.

Lemma istep_workers s s' : istep s s' → workers s' = workers s.
Proof. by intros []. Qed.

(** The order in which the steps decrease: what comes from outside, then the
    workers, then the channel. *)
Lemma hstep_sn s E n b : sn hstep (mkC s E n b).
Proof.
  assert (∀ s E n, sn hstep (mkC s E n true)) as Hend by (constructor; intros c' Hc; inversion Hc).
  destruct b; [apply Hend|]. revert s E. induction n as [n IHn] using lt_wf_ind. intros s E.
  remember (all_left E (ws (workers s))) as k eqn:Ek. revert s E Ek.
  induction k as [k IHk] using lt_wf_ind. intros s E Ek.
  revert Ek. induction (istep_sn cfg API bufferSize s) as [s _ IHs]. intros Ek. constructor.
  intros c' Hc. inversion Hc as [? s' ? ? Hi|w w' sd q p st rv fd lg ? ? Hw Hsd HE|? s' ? m He Hws|]; subst.
  - apply IHs; [done|]. by rewrite (istep_workers _ _ Hi).
  - eapply IHk; [|reflexivity]. by apply wstep_left.
  - apply IHn. lia.
  - apply Hend.
Qed.

(** ** Where they end *)

Lemma hstep_sstep c c' : hstep c c' → rtc sstep (system c) (system c').
Proof.
  intros [|w w' sd q p st rv fd lg E n Hw Hk _| |]; [by apply rtc_once; left|..|apply rtc_refl]; apply rtc_once; right;
    [by apply s_worker|done].
Qed.

Lemma hstep_reach c c' : rtc hstep c c' → rtc sstep (system c) (system c').
Proof. induction 1 as [|c c1 c2 Hc _ IH]; [done|]. eapply rtc_trans; [by apply hstep_sstep|done]. Qed.

(** Nothing is left to do but for main to return. *)
Definition at_rest (c : closing) : Prop := ended c = false ∧ ∀ c', hstep c c' → ended c' = true.

(** A worker that has not returned can move, unless it is in a send. *)
Lemma worker_moves l c g i w :
  winv ids (mkS l c g) → l !! i = Some w → at_ w ≠ PExit →
  ∃ b c' g', wstep ids (mkS l c g) (mkS (<[i := b]> l) c' g') ∧ (at_ w = PWait → at_ b = PExit).
Proof.
  intros Hi Hw Hx. destruct w as [[] a]; simpl in *; try done;
    try (assert (∃ id, ids !! i = Some id) as [id Hid] by
           (apply lookup_lt_is_Some; rewrite <-(winv_len _ _ Hi); by eapply lookup_lt_Some)).
  - eexists _, _, _. split; [by eapply w_sub_fail|done].
  - eexists _, _, _. split; [by eapply w_gauge_up|done].
  - eexists _, _, _. split; [by eapply w_disconnect|done].
  - eexists _, _, _. split; [by eapply w_gauge_down|done].
  - destruct (getRetryDelay a 0) as [d|msg] eqn:Hd; eexists _, _, _;
      (split; [first [by eapply w_ctx_done|by eapply w_panic]|done]).
Qed.

Lemma closed_nf s E n :
  winv ids (workers s) → at_rest (mkC s E n false) →
  nf istep s ∧ Forall (λ w, at_ w = PExit) (ws (workers s)).
Proof.
  intros Hi [_ Hnf]. assert (nf istep s) as Hni.
  { intros [s' Hs]. by specialize (Hnf _ (h_channel _ _ E n Hs)). }
  split; [done|]. destruct (settled_nf cfg API bufferSize s Hni) as (_ & _ & Hsd).
  destruct s as [[l c g] sd q p st rv fd lg]. simpl in *. apply Forall_lookup. intros i w Hw.
  destruct (decide (at_ w = PExit)) as [|Hx]; [done|]. exfalso.
  destruct (worker_moves l c g i w Hi Hw Hx) as (b & c' & g' & Hs & Hb).
  refine (diff_false_true (Hnf _ (h_worker _ _ _ _ _ _ _ _ _ _ _ Hs _ _))).
  - intros j m Hj. by pose proof (Forall_lookup_1 _ _ _ _ Hsd Hj).
  - simpl. intros j a a' Ha Ha'. destruct (decide (i = j)) as [<-|Hne].
    + rewrite Hw in Ha. injection Ha as ->. rewrite list_lookup_insert_eq in Ha' by (by eapply lookup_lt_Some).
      injection Ha' as ->. by discriminate Hb.
    + rewrite list_lookup_insert_ne in Ha' by done. congruence.
Qed.

Lemma connected_exited l : Forall (λ w, at_ w = PExit) l → connected l = 0.
Proof.
  unfold connected. induction 1 as [|w l Hw _ IH]; [done|]. rewrite filter_cons_False; [done|].
  unfold counted. by rewrite Hw.
Qed.

(** C18: once the process is told to stop, the streaming strategy comes to
    rest, however the steps that are left interleave and for any finite number
    of results that the streams still deliver: every worker returns, even one
    that is blocked on a full channel, the counter of connected workers is
    back at 0 and no gauge shows a connection, and every result that a worker
    had received, before or after the signal, has been taken out of the
    channel.  The processor alone does not return: nobody closes the channel
    it ranges over.  But main does not wait for that: it can return in every
    state before, and the results lost then are those in the channel, at most
    as many as its buffer holds, the one being handled and one per worker. *)
Theorem shutdown_settles v s n :
  Z.of_nat (length ids) < two31 → NoDup ids → rtc sstep (start ids v) s →
  let c := mkC s (waiting (workers s)) n false in
  sn hstep c ∧
  (∀ c', rtc hstep c c' → at_rest c' →
    Forall (λ w, at_ w = PExit) (ws (workers (system c'))) ∧
    connectedWorkers (workers (system c')) = 0 ∧
    (∀ id, id ∈ ids → StreamConnectedGauge (workers (system c')) !! id ≠ Some 1) ∧
    (∀ i, by_worker i (recvd (system c')) = by_worker i (fed (system c'))) ∧
    (fed (system c')).*2 = (log (system c')).*1 ∧
    processor (system c') = Ranging) ∧
  (∀ s' E' n', rtc hstep c (mkC s' E' n' false) → hstep (mkC s' E' n' false) (mkC s' E' n' true)) ∧
  (∀ c', rtc hstep c c' →
    (∀ i, by_worker i (recvd (system c')) = by_worker i (fed (system c')) ++ in_send (system c') i) ∧
    (fed (system c')).*2 = (log (system c')).*1 ++ in_hand (processor (system c')) ++ resultCh (system c') ∧
    (length (resultCh (system c')) <= bufferSize)%nat).
Proof.
  intros Hl Hn Hs c. split; [apply hstep_sn|].
  assert (∀ c', rtc hstep c c' → sinv ids bufferSize (system c')) as Hinv.
  { intros c' Hc. eapply (sinv_reach cfg API); [by apply hstep_reach|]. eapply sinv_reach; [exact Hs|apply sinv_start]. }
  split; [|split; [by intros; apply h_exit|intros c' Hc; by destruct (Hinv c' Hc)]].
  intros [s' E' n' e'] Hc Hrest. pose proof (Hinv _ Hc) as Hi. simpl in *. assert (e' = false) as -> by apply Hrest.
  pose proof (winv_reach ids _ Hl Hn (sinv_workers _ _ _ Hi)) as Hw.
  destruct (closed_nf s' E' n' Hw Hrest) as [Hni Hx].
  destruct (settled_all cfg API ids bufferSize s' Hi Hni) as [Hf Hr]. split_and!; try done.
  - rewrite (winv_count _ _ Hw). by apply connected_exited.
  - intros id [i Hid]%list_elem_of_lookup_1.
    destruct (lookup_lt_is_Some_2 (ws (workers s')) i) as [w Hwi].
    { rewrite (winv_len _ _ Hw). by eapply lookup_lt_Some. }
    pose proof (winv_gauge _ _ Hw i id w Hn Hid Hwi) as Hg. unfold gauge_ok in Hg.
    by rewrite (Forall_lookup_1 _ _ _ _ Hx Hwi) in Hg.
  - by apply (settled_nf cfg API bufferSize s').
Qed.

End shutdown.

(** ** Witnesses *)

Module ShutdownW.
Import StreamW SystemW.
#[local] Existing Instances sAtlas sProm sPromLaws.

(** The signal comes while a worker is about to send, and one more result is
    still to come. *)
Lemma shutdown_settles_witness :
  let c := mkC sending_w (waiting connected_w) 1 false in
  let hstep := hstep cfg_w API_w ids_w 1 in
  sn hstep c ∧
  (∀ c', rtc hstep c c' → at_rest cfg_w API_w ids_w 1 c' →
    Forall (λ w, at_ w = PExit) (ws (workers (system c'))) ∧
    connectedWorkers (workers (system c')) = 0 ∧
    (∀ id, id ∈ ids_w → StreamConnectedGauge (workers (system c')) !! id ≠ Some 1) ∧
    (∀ i, by_worker i (recvd (system c')) = by_worker i (fed (system c'))) ∧
    (fed (system c')).*2 = (log (system c')).*1 ∧
    processor (system c') = Ranging) ∧
  (∀ s' E' n', rtc hstep c (mkC s' E' n' false) → hstep (mkC s' E' n' false) (mkC s' E' n' true)) ∧
  (∀ c', rtc hstep c c' →
    (∀ i, by_worker i (recvd (system c')) = by_worker i (fed (system c')) ++ in_send (system c') i) ∧
    (fed (system c')).*2 = (log (system c')).*1 ++ in_hand (processor (system c')) ++ resultCh (system c') ∧
    (length (resultCh (system c')) <= 1)%nat).
Proof.
  apply (shutdown_settles cfg_w API_w ids_w 1 None sending_w 1).
  - reflexivity.
  - by apply (bool_decide_unpack (NoDup ids_w)).
  - eapply rtc_trans; [apply start_reach|apply sending_reach].
Defined.

End ShutdownW.
