(* ===== verification/Metrics.v ===== *)
(** * Package atlas: metrics.go

    The gauge vectors of the exporter itself.  A vector is the values of its
    children by label values; [WithLabelValues] panics when there is not one
    label value per label. *)

From S2P Require Import Prelude GoInt GoFloat GoStrings Apis.
Open Scope Z_scope.

Record GaugeVec := mkVec {
  gv_Name : string;
  gv_Help : string;
  gv_labels : list string;
  gv_values : gmap (list string) float64
}.

Definition StreamConnectedGauge : GaugeVec :=
  mkVec "atlas_exporter_stream_connected"
    "Whether the websocket stream is connected (1) or not (0) for a measurement"
    ["measurement_id"] ∅.
Definition LastDataTimestampGauge : GaugeVec :=
  mkVec "atlas_exporter_last_data_timestamp"
    "Unix timestamp of when data was last received for a measurement" ["measurement_id"] ∅.
Definition BuildInfoGauge : GaugeVec :=
  mkVec "atlas_exporter_build_info"
    "Build info. Value is always 1 with labels: version, goversion, vcs_revision"
    ["version"; "goversion"; "vcs_revision"] ∅.

(** [buckets] stands for prometheus.DefBuckets. *)
Definition ScrapeBuildDuration {P : PromAPI} (buckets : list float64) : Outcome PromHist :=
  NewHistogram {|
    Namespace := ""; Subsystem := ""; Name := "atlas_exporter_scrape_build_duration_seconds";
    Buckets := buckets; Help := "Time to retrieve measurements and build metrics registry";
    ConstLabels := []
  |}.

(** [g.WithLabelValues(lvs...).Set(v)] *)
Definition Set_ (g : GaugeVec) (lvs : list string) (v : float64) : Outcome GaugeVec :=
  if Nat.eqb (length lvs) (length (gv_labels g))
  then Ret (mkVec (gv_Name g) (gv_Help g) (gv_labels g) (<[lvs := v]> (gv_values g)))
  else Panic "inconsistent label cardinality".

(** The loop over the build settings: the first revision that is not empty. *)
Definition vcs_revision (settings : option (list (string * string))) : string :=
  match settings with
  | None => "unknown"
  | Some ss =>
      match list_find (λ kv : string * string, kv.1 = "vcs.revision" ∧ kv.2 ≠ "") ss with
      | Some (_, (_, v)) => v
      | None => "unknown"
      end
  end.

(** [settings] is what debug.ReadBuildInfo returns, if it does. *)
Definition SetBuildInfo (g : GaugeVec) (version goVersion : string)
    (settings : option (list (string * string))) : Outcome GaugeVec :=
  Set_ g [version; goVersion; vcs_revision settings] (f64_of_int 1).

(** The revision label is never empty. *)
Lemma vcs_revision_nonempty settings : vcs_revision settings ≠ "".
Proof.
  destruct settings as [ss|]; [simpl|done].
  destruct (list_find _ ss) as [[i [k v]]|] eqn:E; [|done].
  by apply list_find_Some in E as (_ & [_ Hv] & _).
Qed.

(** Called once, SetBuildInfo leaves one child, with value 1. *)
Lemma SetBuildInfo_once version goVersion settings :
  ∃ g, SetBuildInfo BuildInfoGauge version goVersion settings = Ret g ∧
    gv_values g = {[ [version; goVersion; vcs_revision settings] := f64_of_int 1 ]}.
Proof. by eexists. Qed.
