(* ===== verification/Query.v ===== *)
(** * net/url: the query of a request

    [Query_Get raw key] is [r.URL.Query().Get(key)] for the raw query of the
    URL: the pairs between ampersands, of which those with a semicolon, or
    with a percent sign that two hexadecimal digits do not follow, are left
    out; the first value of the key, or the empty string. *)

From S2P Require Import Prelude GoInt GoStrings.
Open Scope Z_scope.

Definition one (c : ascii) : string := String c "".

(** url.QueryUnescape; [None] stands for its error. *)
Fixpoint QueryUnescape (s : string) : option string :=
  match s with
  | EmptyString => Some EmptyString
  | String c r =>
      if Ascii.eqb c "%" then
        match r with
        | String a (String b r') =>
            match from_hex a, from_hex b with
            | Some x, Some y => t ← QueryUnescape r'; Some (String (chr (16 * x + y)) t)
            | _, _ => None
            end
        | _ => None
        end
      else t ← QueryUnescape r; Some (String (if Ascii.eqb c "+" then " "%char else c) t)
  end.

(** strings.Cut at a character: what is before it, and after it if it is there. *)
Fixpoint cut_at (c : ascii) (s : string) : string * string :=
  match s with
  | EmptyString => (EmptyString, EmptyString)
  | String d r => if Ascii.eqb d c then (EmptyString, r) else let '(a, b) := cut_at c r in (String d a, b)
  end.

Definition contains (c : ascii) (s : string) : bool := negb (str_forallb (λ d, negb (Ascii.eqb d c)) s).

Definition query_pair (s : string) : option (string * string) :=
  if contains ";" s || bool_decide (s = "") then None
  else
    let '(k, v) := cut_at "=" s in
    k ← QueryUnescape k; v ← QueryUnescape v; Some (k, v).

Definition ParseQuery (raw : string) : list (string * string) := omap query_pair (Split raw "&").

Definition Query_Get (raw key : string) : string :=
  default "" (snd <$> (snd <$> list_find (λ kv : string * string, kv.1 = key) (ParseQuery raw))).

(** ** Reading back a value that was escaped *)

(** Letters, digits and hyphen, underscore, point and tilde stand for
    themselves; url.QueryEscape writes every other byte with a percent sign
    (a space as a plus sign, which is read back the same). *)
Definition unreserved (c : ascii) : bool :=
  let n := code c in
  ((48 <=? n) && (n <=? 57)) || ((65 <=? n) && (n <=? 90)) || ((97 <=? n) && (n <=? 122)) ||
  (n =? 45) || (n =? 95) || (n =? 46) || (n =? 126).

Fixpoint QueryEscape (s : string) : string :=
  match s with
  | EmptyString => EmptyString
  | String c r =>
      if unreserved c then String c (QueryEscape r)
      else if Ascii.eqb c " " then String "+" (QueryEscape r)
      else String "%" (String (hex_digit (code c / 16)) (String (hex_digit (code c mod 16)) (QueryEscape r)))
  end.

Lemma Unescape_Escape s : QueryUnescape (QueryEscape s) = Some s.
Proof.
  induction s as [|c s IH]; [done|]. cbn [QueryEscape].
  set (p := λ c : ascii, implb (unreserved c) (negb (Ascii.eqb c "%") && negb (Ascii.eqb c "+"))).
  by_ascii p c H. destruct (unreserved c).
  - cbn [implb] in H. rewrite andb_true_iff, !negb_true_iff in H. destruct H as [H1 H2].
    cbn [QueryUnescape]. by rewrite H1, IH, H2.
  - destruct (Ascii.eqb_spec c " ") as [->|_].
    + cbn [QueryUnescape]. by rewrite IH.
    + cbn [QueryUnescape]. change (Ascii.eqb "%" "%") with true. cbv iota.
      destruct (from_hex_digits c) as (-> & -> & Hc). by rewrite IH, Hc.
Qed.

(** The characters with a meaning in a query do not occur in escaped text. *)
Definition neutral (c : ascii) : bool :=
  negb (Ascii.eqb c "&") && negb (Ascii.eqb c ";") && negb (Ascii.eqb c "=").

Lemma Escape_neutral s : str_forallb neutral (QueryEscape s) = true.
Proof.
  induction s as [|c s IH]; [done|]. cbn [QueryEscape].
  set (p := λ c : ascii, implb (unreserved c) (neutral c) &&
    neutral (hex_digit (code c / 16)) && neutral (hex_digit (code c mod 16))).
  by_ascii p c H. rewrite !andb_true_iff in H. destruct H as [[H1 H2] H3].
  destruct (unreserved c); [|case_match]; cbn [str_forallb implb] in *; rewrite IH; [by rewrite H1|done|].
  by rewrite H2, H3.
Qed.

(** ** Splitting at one character *)

Definition free (c : ascii) (s : string) : bool := str_forallb (λ d, negb (Ascii.eqb d c)) s.

Lemma Split_one c s cur :
  free c s = true → Split_go (one c) 0 cur s = [cur +:+ s] ∧
  ∀ t, Split_go (one c) 0 cur (s +:+ String c t) = (cur +:+ s) :: Split_go (one c) 0 "" t.
Proof.
  revert cur. induction s as [|d s IH]; intros cur.
  - intros _. rewrite app_empty_r. split; [done|]. intros t. rewrite app_empty_l. cbn [Split_go].
    assert (HasPrefix (String c t) (one c) = true) as -> by (apply HasPrefix_spec; by exists t). done.
  - unfold free. cbn [str_forallb]. intros [Hd%negb_true_iff Hs]%andb_true_iff.
    assert (∀ t, HasPrefix (String d t) (one c) = false) as Hno.
    { intros t. apply not_true_is_false. intros [r Hr]%HasPrefix_spec. unfold one in Hr. rewrite app_cons in Hr.
      injection Hr as -> _. by rewrite Ascii.eqb_refl in Hd. }
    destruct (IH (cur +:+ String d "") Hs) as [IH1 IH2]. rewrite app_assoc_str, app_cons, app_empty_l in IH1, IH2.
    split; [|intros t; rewrite app_cons]; cbn [Split_go]; rewrite Hno; [done|apply IH2].
Qed.

Lemma Split_Join_one c segs :
  segs ≠ [] → forallb (free c) segs = true → Split (Join segs (one c)) (one c) = segs.
Proof.
  unfold Split. destruct segs as [|s segs]; [done|]. intros _. revert s.
  induction segs as [|s' segs IH]; intros s; cbn [forallb]; intros [Hs Hsegs]%andb_true_iff.
  - unfold Join. simpl. by apply (Split_one c s "").
  - change (Join (s :: s' :: segs) (one c)) with (s +:+ String c (Join (s' :: segs) (one c))).
    rewrite (proj2 (Split_one c s "" Hs)), IH by done. done.
Qed.

Lemma cut_at_app c a b : free c a = true → cut_at c (a +:+ String c b) = (a, b).
Proof.
  induction a as [|d a IH]; unfold free; cbn [str_forallb].
  - intros _. rewrite app_empty_l. cbn [cut_at]. by rewrite Ascii.eqb_refl.
  - intros [Hd%negb_true_iff Ha]%andb_true_iff. rewrite app_cons. cbn [cut_at]. by rewrite Hd, IH.
Qed.

Lemma query_pair_escaped k v :
  query_pair (QueryEscape k +:+ String "=" (QueryEscape v)) = Some (k, v).
Proof.
  pose proof (Escape_neutral k) as Hk. pose proof (Escape_neutral v) as Hv. unfold query_pair.
  assert (∀ s, str_forallb neutral s = true → free ";" s = true ∧ free "=" s = true) as Hn.
  { intros s Hs. split; revert Hs; apply str_forallb_impl; unfold neutral; intros c;
      rewrite !andb_true_iff; tauto. }
  assert (contains ";" (QueryEscape k +:+ String "=" (QueryEscape v)) = false) as ->.
  { unfold contains. rewrite str_forallb_app. cbn [str_forallb].
    destruct (Hn _ Hk) as [Hk' _]. destruct (Hn _ Hv) as [Hv' _]. unfold free in *. by rewrite Hk', Hv'. }
  rewrite bool_decide_eq_false_2 by (by destruct (QueryEscape k)). cbn [orb].
  rewrite cut_at_app by (by apply Hn). by rewrite !Unescape_Escape.
Qed.

Lemma list_find_app_skip {X} (Q : X → Prop) `{∀ x, Decision (Q x)} l1 l2 :
  Forall (λ x, ¬ Q x) l1 → (snd <$> list_find Q (l1 ++ l2)) = (snd <$> list_find Q l2).
Proof.
  induction 1 as [|x l Hx _ IH]; [done|]. simpl. rewrite decide_False by done.
  destruct (list_find Q (l ++ l2)) as [[]|], (list_find Q l2) as [[]|]; simplify_eq/=; done.
Qed.

(** A value that a client escapes and puts into the query is read back,
    whatever stands before and after it, as long as no earlier pair has its
    key. *)
Theorem Query_Get_escaped key v before after :
  forallb (free "&") (before ++ after) = true →
  Forall (λ s, ∀ kv, query_pair s = Some kv → kv.1 ≠ key) before →
  Query_Get (Join (before ++ (QueryEscape key +:+ String "=" (QueryEscape v)) :: after) (one "&")) key = v.
Proof.
  intros Hf Hb. rewrite forallb_app in Hf. apply andb_true_iff in Hf as [Hf1 Hf2].
  unfold Query_Get, ParseQuery. fold (one "&"). rewrite Split_Join_one.
  - rewrite omap_app. cbn [omap list_omap]. rewrite query_pair_escaped, list_find_app_skip.
    + simpl. by rewrite decide_True.
    + apply Forall_forall. intros kv (s & Hs & Hkv)%list_elem_of_omap. rewrite Forall_forall in Hb. by apply (Hb s Hs).
  - by destruct before.
  - rewrite forallb_app, Hf1. cbn [forallb]. rewrite Hf2, andb_true_r. unfold free.
    rewrite str_forallb_app. cbn [str_forallb].
    assert (∀ s, str_forallb neutral s = true → free "&" s = true) as Hn.
    { intros s. apply str_forallb_impl. unfold neutral. intros c. rewrite !andb_true_iff. tauto. }
    pose proof (Hn _ (Escape_neutral key)) as H1. pose proof (Hn _ (Escape_neutral v)) as H2.
    unfold free in *. by rewrite H1, H2.
Qed.

Example Query_ex1 : Query_Get "x=1&measurement_id=88%30+9&measurement_id=2" "measurement_id" = "880 9".
Proof. vm_compute. reflexivity. Qed.
Example Query_ex2 : (λ q, Query_Get q "measurement_id") <$>
  [""; "measurement_id"; "measurement_id=1;2"; "measurement_id=%zz"; "Measurement_id=1"] = ["";"";"";"";""].
Proof. vm_compute. reflexivity. Qed.

Module QueryW.
Lemma Query_Get_escaped_witness :
  Query_Get (Join ["verbose=1"; QueryEscape "measurement_id" +:+ String "=" (QueryEscape "a&b"); "x"] (one "&"))
    "measurement_id" = "a&b".
Proof.
  apply (Query_Get_escaped "measurement_id" "a&b" ["verbose=1"] ["x"]); [reflexivity|].
  repeat constructor. by intros kv [= <-].
Defined.
End QueryW.
