(* ===== verification/ServeMux.v ===== *)
(** * net/http: the patterns of a ServeMux

    [HandleFunc] registers a pattern as the Go library (1.22 and later) does:
    the pattern is parsed, a method, a host and the segments of a path, and is
    refused when it conflicts with one that is there, that is when both match
    some request and neither is more specific.  The library's index of
    patterns only leaves out such as cannot conflict.  Whether a wildcard name
    that is not in ASCII is an identifier is an argument. *)

From S2P Require Import Prelude GoInt GoStrings Query.
Open Scope Z_scope.

(** ** Parsing *)

Record segment := mkSeg { seg_s : string; wild : bool; multi : bool }.
Record pattern := mkPattern { pat_str : string; pat_method : string; pat_host : string; segments : list segment }.

Definition letter (c : ascii) : bool :=
  let n := code c in ((65 <=? n) && (n <=? 90)) || ((97 <=? n) && (n <=? 122)).
Definition digit (c : ascii) : bool := (48 <=? code c) && (code c <=? 57).
Definition blank (c : ascii) : bool := Ascii.eqb c " " || Ascii.eqb c "009".

(** The part before the first character with [p], and the rest from it on. *)
Fixpoint span (p : ascii → bool) (s : string) : string * string :=
  match s with
  | EmptyString => (EmptyString, EmptyString)
  | String c r => if p c then (EmptyString, s) else let '(a, b) := span p r in (String c a, b)
  end.

(** strings.TrimLeft(s, " \t") *)
Fixpoint trim_blanks (s : string) : string :=
  match s with
  | String c r => if blank c then trim_blanks r else s
  | EmptyString => EmptyString
  end.

(** The characters of a token, of which a method is made. *)
Definition token (c : ascii) : bool :=
  letter c || digit c ||
  bool_decide (code c ∈ [33; 35; 36; 37; 38; 39; 42; 43; 45; 46; 94; 95; 96; 124; 126]).
Definition validMethod (m : string) : bool := negb (bool_decide (m = "")) && str_forallb token m.

(** url.PathUnescape; [None] stands for its error. *)
Fixpoint PathUnescape (s : string) : option string :=
  match s with
  | EmptyString => Some EmptyString
  | String c r =>
      if Ascii.eqb c "%" then
        match r with
        | String a (String b r') =>
            match from_hex a, from_hex b with
            | Some x, Some y => t ← PathUnescape r'; Some (String (chr (16 * x + y)) t)
            | _, _ => None
            end
        | _ => None
        end
      else t ← PathUnescape r; Some (String c t)
  end.
Definition pathUnescape (s : string) : string := default s (PathUnescape s).

(** The path without empty segments and dots, and with its last slash. *)
Definition cleanPath (p : string) : string :=
  let segs := foldl (λ st x,
    if bool_decide (x = "") || bool_decide (x = ".") then st
    else if bool_decide (x = "..") then removelast st else st ++ [x]) [] (Split p "/") in
  let np := "/" +:+ Join segs "/" in
  if bool_decide (default "" (last (Split p "/")) = "") && negb (bool_decide (np = "/")) then np +:+ "/" else np.

(** [s] without the last character, and that character. *)
Fixpoint unsnoc (s : string) : option (string * ascii) :=
  match s with
  | EmptyString => None
  | String c EmptyString => Some (EmptyString, c)
  | String c r => match unsnoc r with Some (a, b) => Some (String c a, b) | None => None end
  end.

(** strings.CutSuffix(name, "...") *)
Fixpoint cut_dots (s : string) : string * bool :=
  if bool_decide (s = "...") then (EmptyString, true)
  else match s with
       | EmptyString => (EmptyString, false)
       | String c r => let '(a, b) := cut_dots r in (String c a, b)
       end.

Section mux.
Context (unicode_name : string → bool).

Definition isValidWildcardName (s : string) : bool :=
  if str_forallb (λ c, code c <? 128) s then
    match s with
    | EmptyString => false
    | String c r => (letter c || Ascii.eqb c "_") && str_forallb (λ c, letter c || Ascii.eqb c "_" || digit c) r
    end
  else unicode_name s.

(** The loop over the segments; an empty last one is the trailing slash. *)
Fixpoint parse_segments (seen : list string) (segs : list string) : GoResult (list segment) :=
  match segs with
  | [] => Ok []
  | seg :: rest =>
      if bool_decide (seg = "" ∧ rest = []) then Ok [mkSeg "" true true]
      else if free "{" seg then
        match parse_segments seen rest with
        | Ok l => Ok (mkSeg (pathUnescape seg) false false :: l)
        | Err e => Err e
        end
      else if negb (HasPrefix seg "{") then Err "bad wildcard segment (must start with '{')"
      else
        match unsnoc (TrimPrefix seg "{") with
        | None => Err "bad wildcard segment (must end with '}')"
        | Some (name, c) =>
            if negb (Ascii.eqb c "}") then Err "bad wildcard segment (must end with '}')"
            else if bool_decide (name = "$") then
              if bool_decide (rest = []) then Ok [mkSeg "/" false false] else Err "{$} not at end"
            else
              let '(name, multi) := cut_dots name in
              if multi && negb (bool_decide (rest = [])) then Err "{...} wildcard not at end"
              else if bool_decide (name = "") then Err "empty wildcard"
              else if negb (isValidWildcardName name) then Err ("bad wildcard name " +:+ name)
              else if bool_decide (name ∈ seen) then Err ("duplicate wildcard name " +:+ name)
              else
                match parse_segments (name :: seen) rest with
                | Ok l => Ok (mkSeg name true multi :: l)
                | Err e => Err e
                end
        end
  end.

Definition parsePattern (s : string) : GoResult pattern :=
  if bool_decide (s = "") then Err "empty pattern"
  else
    let '(before, after) := span blank s in
    let found := negb (bool_decide (after = "")) in
    let method := if found then before else "" in
    let rest := if found then trim_blanks after else s in
    if negb (bool_decide (method = "")) && negb (validMethod method) then Err ("invalid method " +:+ method)
    else
      let '(host, path) := span (Ascii.eqb "/") rest in
      if bool_decide (path = "") then Err "host/path missing /"
      else if negb (free "{" host) then Err "host contains '{' (missing initial '/'?)"
      else if negb (bool_decide (method = "")) && negb (bool_decide (method = "CONNECT")) &&
              negb (bool_decide (path = cleanPath path))
      then Err "non-CONNECT pattern with unclean path can never match"
      else
        match parse_segments [] (tail (Split path "/")) with
        | Ok l => Ok (mkPattern s method host l)
        | Err e => Err e
        end.

(** ** Conflicts *)

Inductive relationship := equivalent | moreGeneral | moreSpecific | disjoint | overlaps.
#[export] Instance relationship_eq_dec : EqDecision relationship.
Proof. solve_decision. Defined.

Definition inverseRelationship (r : relationship) : relationship :=
  match r with moreSpecific => moreGeneral | moreGeneral => moreSpecific | r => r end.

Definition combineRelationships (r1 r2 : relationship) : relationship :=
  match r1 with
  | equivalent => r2
  | disjoint => disjoint
  | overlaps => if bool_decide (r2 = disjoint) then disjoint else overlaps
  | moreGeneral | moreSpecific =>
      if bool_decide (r2 = equivalent) then r1
      else if bool_decide (r2 = inverseRelationship r1) then overlaps
      else r2
  end.

Definition compareMethods (p1 p2 : pattern) : relationship :=
  let m1 := pat_method p1 in
  let m2 := pat_method p2 in
  if bool_decide (m1 = m2) then equivalent
  else if bool_decide (m1 = "") then moreGeneral
  else if bool_decide (m2 = "") then moreSpecific
  else if bool_decide (m1 = "GET" ∧ m2 = "HEAD") then moreGeneral
  else if bool_decide (m2 = "GET" ∧ m1 = "HEAD") then moreSpecific
  else disjoint.

Definition compareSegments (s1 s2 : segment) : relationship :=
  if multi s1 && multi s2 then equivalent
  else if multi s1 then moreGeneral
  else if multi s2 then moreSpecific
  else if wild s1 && wild s2 then equivalent
  else if wild s1 then if bool_decide (seg_s s2 = "/") then disjoint else moreGeneral
  else if wild s2 then if bool_decide (seg_s s1 = "/") then disjoint else moreSpecific
  else if bool_decide (seg_s s1 = seg_s s2) then equivalent
  else disjoint.

(** The loop over corresponding segments; [m1] and [m2] say whether the
    patterns end in a multi wildcard. *)
Fixpoint compare_loop (m1 m2 : bool) (rel : relationship) (l1 l2 : list segment) : relationship :=
  match l1, l2 with
  | s1 :: l1', s2 :: l2' =>
      let rel := combineRelationships rel (compareSegments s1 s2) in
      if bool_decide (rel = disjoint) then disjoint else compare_loop m1 m2 rel l1' l2'
  | [], [] => rel
  | [], _ :: _ => if m1 then combineRelationships rel moreGeneral else disjoint
  | _ :: _, [] => if m2 then combineRelationships rel moreSpecific else disjoint
  end.

Definition ends_multi (l : list segment) : bool :=
  match last l with Some s => multi s | None => false end.

Definition comparePaths (l1 l2 : list segment) : relationship :=
  if negb (Nat.eqb (length l1) (length l2)) && negb (ends_multi l1) && negb (ends_multi l2) then disjoint
  else compare_loop (ends_multi l1) (ends_multi l2) equivalent l1 l2.

Definition comparePathsAndMethods (p1 p2 : pattern) : relationship :=
  let mrel := compareMethods p1 p2 in
  if bool_decide (mrel = disjoint) then disjoint
  else combineRelationships mrel (comparePaths (segments p1) (segments p2)).

Definition conflictsWith (p1 p2 : pattern) : bool :=
  if bool_decide (pat_host p1 = pat_host p2) then
    match comparePathsAndMethods p1 p2 with equivalent | overlaps => true | _ => false end
  else false.

(** ** Registration *)

Definition HandleFunc (mux : list pattern) (s : string) : Outcome (list pattern) :=
  match parsePattern s with
  | Err e => Panic ("parsing " +:+ s +:+ ": " +:+ e)
  | Ok p =>
      match list_find (λ q, conflictsWith p q = true) mux with
      | Some (_, q) => Panic ("pattern " +:+ s +:+ " conflicts with pattern " +:+ pat_str q)
      | None => Ret (mux ++ [p])
      end
  end.

End mux.

Example registered_twice u : ∃ e, (m ← HandleFunc u [] "/healthz"; HandleFunc u m "/%68ealthz") = Panic e.
Proof. eexists. vm_compute. reflexivity. Qed.
Example more_specific u : ∃ m, (m ← HandleFunc u [] "/"; HandleFunc u m "/{name}/{rest...}") = Ret m.
Proof. eexists. vm_compute. reflexivity. Qed.
Example below_a_method u : ∃ e, (m ← HandleFunc u [] "GET /debug/pprof/"; HandleFunc u m "/debug/pprof/x") = Panic e.
Proof. eexists. vm_compute. reflexivity. Qed.

(** ** Plain paths: no wildcards, escapes or blanks *)

Definition plain (c : ascii) : bool := negb (Ascii.eqb c "{" || Ascii.eqb c "%" || blank c).

Lemma span_none p s : str_forallb (λ c, negb (p c)) s = true → span p s = (s, "").
Proof.
  induction s as [|c s IH]; [done|]. simpl. rewrite andb_true_iff. intros [Hc%negb_true_iff Hs].
  by rewrite Hc, IH.
Qed.

Lemma PathUnescape_free s : free "%" s = true → PathUnescape s = Some s.
Proof.
  induction s as [|c s IH]; [done|]. unfold free. cbn [str_forallb]. intros [Hc%negb_true_iff Hs]%andb_true_iff.
  cbn [PathUnescape]. by rewrite Hc, IH.
Qed.

Lemma plain_free s c : plain c = false → str_forallb plain s = true → free c s = true.
Proof.
  intros Hc. unfold free. apply str_forallb_impl. intros d Hd.
  destruct (Ascii.eqb_spec d c) as [->|]; [|done]. congruence.
Qed.

(** The segments of a plain path. *)
Fixpoint plain_segments (segs : list string) : list segment :=
  match segs with
  | [] => []
  | seg :: rest =>
      if bool_decide (seg = "" ∧ rest = []) then [mkSeg "" true true]
      else mkSeg seg false false :: plain_segments rest
  end.

Lemma parse_plain u seen segs :
  forallb (str_forallb plain) segs = true → parse_segments u seen segs = Ok (plain_segments segs).
Proof.
  induction segs as [|seg rest IH]; [done|]. cbn [forallb]. intros [Hs Hr]%andb_true_iff.
  cbn [parse_segments plain_segments]. destruct (bool_decide_reflect (seg = "" ∧ rest = [])); [done|].
  rewrite (plain_free seg "{" eq_refl Hs), IH by done. unfold pathUnescape.
  by rewrite PathUnescape_free by (by apply plain_free).
Qed.

(** Every text is the join of its parts between the characters [c]. *)
Lemma Join_parts c s : ∃ segs, segs ≠ [] ∧ forallb (free c) segs = true ∧ s = Join segs (one c).
Proof.
  induction s as [|d s (segs & Hne & Hf & ->)]; [by exists [""]|].
  destruct (Ascii.eqb_spec d c) as [->|Hd].
  - exists ("" :: segs). split; [done|]. split; [done|]. by destruct segs.
  - destruct segs as [|x segs]; [done|]. exists (String d x :: segs). split; [done|].
    cbn [forallb] in *. apply andb_true_iff in Hf as [Hx Hs]. split.
    + apply andb_true_iff. split; [|done]. unfold free in *. cbn [str_forallb]. apply andb_true_iff.
      split; [|done]. apply negb_true_iff. by apply Ascii.eqb_neq.
    + by destruct segs.
Qed.

Lemma forallb_Join p c segs :
  str_forallb p (Join segs (one c)) = true → forallb (str_forallb p) segs = true.
Proof.
  induction segs as [|x [|y segs] IH]; [done| |]; intros H.
  - cbn [forallb]. by rewrite andb_true_r.
  - change (Join (x :: y :: segs) (one c)) with (x +:+ (one c +:+ Join (y :: segs) (one c))) in H.
    rewrite !str_forallb_app, !andb_true_iff in H. destruct H as (Hx & _ & Hr).
    apply andb_true_iff. split; [done|by apply IH].
Qed.

Definition path_of (segs : list string) : string := "/" +:+ Join segs "/".

Lemma Split_path segs : segs ≠ [] → forallb (free "/") segs = true → Split (path_of segs) "/" = "" :: segs.
Proof.
  intros Hne Hf. unfold path_of. replace ("/" +:+ Join segs "/") with (Join ("" :: segs) (one "/")) by (by destruct segs).
  by apply (Split_Join_one "/" ("" :: segs)).
Qed.

Lemma path_of_inj segs segs' :
  segs ≠ [] → segs' ≠ [] → forallb (free "/") segs = true → forallb (free "/") segs' = true →
  path_of segs = path_of segs' ↔ segs = segs'.
Proof.
  intros H1 H2 H3 H4. split; [|by intros ->]. intros E. apply (f_equal (λ s, Split s "/")) in E.
  rewrite !Split_path in E by done. by injection E.
Qed.

(** A path that begins with a slash, by its segments. *)
Lemma path_segments s :
  HasPrefix s "/" = true → ∃ segs, segs ≠ [] ∧ forallb (free "/") segs = true ∧ s = path_of segs.
Proof.
  intros [r ->]%HasPrefix_spec. destruct (Join_parts "/" r) as (segs & ? & ? & ->). by exists segs.
Qed.

Lemma parsePattern_plain u segs :
  segs ≠ [] → forallb (free "/") segs = true → str_forallb plain (path_of segs) = true →
  parsePattern u (path_of segs) = Ok (mkPattern (path_of segs) "" "" (plain_segments segs)).
Proof.
  intros Hne Hf Hp. pose proof (Split_path segs Hne Hf) as Hs. unfold parsePattern.
  rewrite span_none.
  2: { eapply str_forallb_impl; [|exact Hp]. unfold plain. intros c Hc. apply negb_true_iff in Hc.
       apply orb_false_iff in Hc as [_ ->]. done. }
  rewrite bool_decide_eq_false_2 by done. rewrite bool_decide_eq_true_2 by done. cbn [negb andb].
  rewrite bool_decide_eq_true_2 by done. cbn [negb andb].
  assert (span (Ascii.eqb "/") (path_of segs) = ("", path_of segs)) as -> by done.
  rewrite bool_decide_eq_false_2 by done. cbn [free str_forallb negb]. rewrite Hs. cbn [tail].
  rewrite parse_plain; [done|]. apply (forallb_Join plain "/"). unfold path_of in Hp.
  rewrite str_forallb_app in Hp. by apply andb_true_iff in Hp as [_ ?].
Qed.

Definition slash : segment := mkSeg "" true true.
Definition lit (s : string) : segment := mkSeg s false false.

(** What a pattern without a method has to do with another, by their paths. *)
Definition clash (r : relationship) : bool := match r with equivalent | overlaps => true | _ => false end.

Lemma conflicts_paths s1 s2 l1 l2 :
  conflictsWith (mkPattern s1 "" "" l1) (mkPattern s2 "" "" l2) = clash (comparePaths l1 l2).
Proof. done. Qed.

Lemma conflicts_get s1 s2 l1 l2 :
  conflictsWith (mkPattern s1 "" "" l1) (mkPattern s2 "GET" "" l2) =
    match comparePaths l1 l2 with moreSpecific | overlaps => true | _ => false end.
Proof. unfold conflictsWith, comparePathsAndMethods. simpl. by destruct (comparePaths l1 l2). Qed.

Lemma length_plain segs : length (plain_segments segs) = length segs.
Proof.
  induction segs as [|x segs IH]; [done|]. cbn [plain_segments].
  destruct (bool_decide_reflect (x = "" ∧ segs = [])) as [[-> ->]|]; [done|]. simpl. by rewrite IH.
Qed.

(** The root pattern takes everything, and conflicts with itself only. *)
Lemma clash_root segs :
  segs ≠ [] → clash (comparePaths (plain_segments segs) [slash]) = bool_decide (segs = [""]).
Proof.
  destruct segs as [|x xs]; [done|]. intros _. unfold comparePaths.
  change (ends_multi [slash]) with true. cbn [negb]. rewrite andb_false_r. cbn [plain_segments].
  destruct (bool_decide_reflect (x = "" ∧ xs = [])) as [[-> ->]|Hn]; [done|].
  rewrite bool_decide_eq_false_2 by (intros [= -> ->]; by apply Hn).
  cbn [compare_loop]. change (combineRelationships equivalent (compareSegments (mkSeg x false false) slash)) with moreSpecific.
  rewrite bool_decide_eq_false_2 by done. by destruct (plain_segments xs).
Qed.

(** A path of one segment conflicts with itself only. *)
Lemma clash_leaf h segs :
  h ≠ "" → segs ≠ [] → clash (comparePaths [lit h] (plain_segments segs)) = bool_decide (segs = [h]).
Proof.
  intros Hh. destruct segs as [|x xs]; [done|]. intros _. unfold comparePaths.
  cbn [plain_segments]. destruct (bool_decide_reflect (x = "" ∧ xs = [])) as [[-> ->]|Hn].
  { rewrite bool_decide_eq_false_2 by congruence. done. }
  assert (compareSegments (lit h) (mkSeg x false false) = if bool_decide (h = x) then equivalent else disjoint) as Hc by done.
  destruct xs as [|y ys].
  - simpl. rewrite Hc. destruct (bool_decide_reflect (h = x)) as [->|Hx].
    + by rewrite (bool_decide_eq_true_2 ([x] = [x])).
    + by rewrite (bool_decide_eq_false_2 ([x] = [h])) by congruence.
  - rewrite (bool_decide_eq_false_2 (x :: y :: ys = [h])) by congruence.
    change (ends_multi [lit h]) with false.
    destruct (negb _ && _ && _); [done|]. cbn [compare_loop]. rewrite Hc.
    pose proof (length_plain (y :: ys)) as Hl. destruct (plain_segments (y :: ys)); [done|].
    by destruct (bool_decide (h = x)).
Qed.

(** A profile of net/http/pprof, with a path that ends in a slash or not, is
    hidden by what is registered without a method below it. *)
Definition hides (r : relationship) : bool := match r with moreSpecific | overlaps => true | _ => false end.

Lemma lit_cmp x y : compareSegments (lit x) (lit y) = if bool_decide (x = y) then equivalent else disjoint.
Proof. done. Qed.

(** Against a path of two segments and a slash. *)
Lemma hides_slash a b segs :
  segs ≠ [] → a ≠ "" → b ≠ "" →
  hides (comparePaths (plain_segments segs) [lit a; lit b; slash]) =
    match segs with x :: y :: z :: zs => bool_decide (x = a ∧ y = b ∧ z :: zs ≠ [""]) | _ => false end.
Proof.
  intros Hne Ha Hb. unfold comparePaths. change (ends_multi [lit a; lit b; slash]) with true.
  cbn [negb]. rewrite andb_false_r. destruct segs as [|x [|y [|z zs]]]; [done|..]; cbn [plain_segments].
  - destruct (bool_decide (x = "" ∧ @nil string = [])); [done|]. cbn [compare_loop ends_multi last].
    change (mkSeg x false false) with (lit x). rewrite lit_cmp. by destruct (bool_decide (x = a)).
  - rewrite (bool_decide_eq_false_2 (x = "" ∧ _)) by (by intros [_ ?]).
    destruct (bool_decide (y = "" ∧ @nil string = [])); cbn [compare_loop ends_multi last];
      change (mkSeg x false false) with (lit x); rewrite lit_cmp; destruct (bool_decide (x = a)); try done.
    change (mkSeg y false false) with (lit y). cbn [combineRelationships]. rewrite lit_cmp. by destruct (bool_decide (y = b)).
  - rewrite (bool_decide_eq_false_2 (x = "" ∧ _)) by (by intros [_ ?]).
    rewrite (bool_decide_eq_false_2 (y = "" ∧ _)) by (by intros [_ ?]).
    generalize (ends_multi (mkSeg x false false :: mkSeg y false false :: (if bool_decide (z = "" ∧ zs = [])
      then [mkSeg "" true true] else mkSeg z false false :: plain_segments zs))). intros m1.
    cbn [compare_loop]. change (mkSeg x false false) with (lit x). change (mkSeg y false false) with (lit y).
    rewrite lit_cmp. destruct (bool_decide_reflect (x = a)) as [->|Hx]; cycle 1.
    { simpl. symmetry. apply bool_decide_eq_false_2. by intros [? _]. }
    cbn [combineRelationships]. rewrite (bool_decide_eq_false_2 (equivalent = disjoint)) by done.
    rewrite lit_cmp. destruct (bool_decide_reflect (y = b)) as [->|Hy]; cycle 1.
    { simpl. symmetry. apply bool_decide_eq_false_2. by intros (_ & ? & _). }
    cbn [combineRelationships]. rewrite (bool_decide_eq_false_2 (equivalent = disjoint)) by done.
    destruct (bool_decide_reflect (z = "" ∧ zs = [])) as [[-> ->]|Hz].
    + simpl. symmetry. apply bool_decide_eq_false_2. by intros (_ & _ & ?).
    + cbn [compare_loop]. change (mkSeg z false false) with (lit z).
      change (combineRelationships equivalent (compareSegments (lit z) slash)) with moreSpecific.
      rewrite (bool_decide_eq_false_2 (moreSpecific = disjoint)) by done.
      rewrite (bool_decide_eq_true_2 (a = a ∧ _)) by (split_and!; [done..|congruence || (intros [= -> ->]; by apply Hz)]).
      by destruct (plain_segments zs).
Qed.

(** Against a path of three segments: nothing plain is more specific. *)
Lemma hides_leaf a b c segs :
  segs ≠ [] → hides (comparePaths (plain_segments segs) [lit a; lit b; lit c]) = false.
Proof.
  intros Hne. unfold comparePaths. destruct (negb _ && _ && _); [done|].
  generalize (ends_multi (plain_segments segs)). intros m1. change (ends_multi [lit a; lit b; lit c]) with false.
  assert (∀ l rel segs, rel = equivalent ∨ rel = moreGeneral →
    hides (compare_loop m1 false rel (plain_segments segs) (lit <$> l)) = false) as H.
  { clear. induction l as [|x l IH]; intros rel segs Hr; destruct segs as [|y ys]; cbn [plain_segments fmap list_fmap].
    - by destruct Hr as [-> | ->].
    - destruct (bool_decide (y = "" ∧ ys = [])); done.
    - cbn [compare_loop]. destruct m1; [|done]. by destruct Hr as [-> | ->].
    - destruct (bool_decide (y = "" ∧ ys = [])); cbn [compare_loop].
      + change (compareSegments (mkSeg "" true true) (lit x)) with moreGeneral.
        assert (combineRelationships rel moreGeneral = moreGeneral) as -> by (by destruct Hr as [-> | ->]).
        rewrite bool_decide_eq_false_2 by done. destruct (lit <$> l); [done|]. cbn [compare_loop]. by destruct m1.
      + change (mkSeg y false false) with (lit y). rewrite lit_cmp. destruct (bool_decide (y = x)).
        * assert (combineRelationships rel equivalent = rel) as -> by (by destruct Hr as [-> | ->]).
          rewrite bool_decide_eq_false_2 by (by destruct Hr as [-> | ->]). by apply IH.
        * assert (combineRelationships rel disjoint = disjoint) as -> by (by destruct Hr as [-> | ->]). done. }
  apply (H [a; b; c]). by left.
Qed.

(** ** Paths that are no patterns *)

Lemma span_blank s : ∃ a b, span blank s = (a, b) ∧ s = a +:+ b ∧
  (b = "" ↔ str_forallb (λ c, negb (blank c)) s = true).
Proof.
  induction s as [|c s (a & b & E & Es & Hb)]; [by exists "", ""|]. cbn [span].
  destruct (blank c) eqn:Ec.
  - exists "", (String c s). split_and!; [done..|]. cbn [str_forallb]. by rewrite Ec.
  - rewrite E. exists (String c a), b. split; [done|]. split; [by rewrite app_cons, <-Es|].
    cbn [str_forallb]. by rewrite Ec.
Qed.

(** A blank makes what is before it a method, and a slash is no part of one. *)
Lemma parsePattern_blank u s :
  HasPrefix s "/" = true → str_forallb (λ c, negb (blank c)) s = false → ∃ e, parsePattern u s = Err e.
Proof.
  intros [r ->]%HasPrefix_spec Hb. destruct (span_blank ("/" +:+ r)) as (a & b & E & Es & Hn).
  assert (a ≠ "") as Ha.
  { intros ->. change ("/" +:+ r) with (String "/" r) in E. cbn [span] in E. change (blank "/") with false in E.
    by destruct (span blank r). }
  unfold parsePattern. rewrite E, bool_decide_eq_false_2 by done.
  rewrite (bool_decide_eq_false_2 (b = "")) by (rewrite Hn, Hb; done). cbn [negb].
  destruct a as [|c a]; [done|].
  rewrite app_cons in Es. injection Es as <- _. rewrite bool_decide_eq_false_2 by done. by eexists.
Qed.

Lemma unsnoc_free c s a d : unsnoc s = Some (a, d) → free c s = true → Ascii.eqb d c = false.
Proof.
  revert a. induction s as [|x s IH]; intros a; [done|]. unfold free. cbn [unsnoc str_forallb].
  destruct s as [|y s]; intros E [Hx%negb_true_iff Hs]%andb_true_iff; [by injection E as <- <-|].
  destruct (unsnoc (String y s)) as [[a' d']|]; [|done]. injection E as <- <-. by apply (IH a').
Qed.

Lemma parse_unclosed u seen segs :
  forallb (free "}") segs = true → forallb (free "{") segs = false → ∃ e, parse_segments u seen segs = Err e.
Proof.
  revert seen. induction segs as [|seg rest IH]; intros seen; [done|]. cbn [forallb].
  intros [Hs Hr]%andb_true_iff Hf. cbn [parse_segments].
  destruct (bool_decide_reflect (seg = "" ∧ rest = [])) as [[-> ->]|_]; [done|].
  destruct (free "{" seg) eqn:Ef.
  - destruct (IH seen Hr Hf) as [e ->]. by eexists.
  - destruct (HasPrefix seg "{") eqn:Ep; [|by eexists]. apply HasPrefix_spec in Ep as [r ->].
    rewrite TrimPrefix_app. cbn [negb]. destruct (unsnoc r) as [[name c]|] eqn:Eu; [|by eexists].
    rewrite (unsnoc_free "}" r name c Eu); [by eexists|]. unfold free in *. rewrite str_forallb_app in Hs.
    by apply andb_true_iff in Hs as [_ ?].
Qed.

Lemma parsePattern_unclosed u s :
  HasPrefix s "/" = true → free "}" s = true → free "{" s = false → ∃ e, parsePattern u s = Err e.
Proof.
  intros Hp Hc Ho. destruct (str_forallb (λ c, negb (blank c)) s) eqn:Hb; [|by apply parsePattern_blank].
  destruct (path_segments s Hp) as (segs & Hne & Hf & ->). unfold parsePattern.
  rewrite span_none, bool_decide_eq_false_2, bool_decide_eq_true_2 by done. cbn [negb andb].
  rewrite bool_decide_eq_true_2 by done. cbn [negb andb].
  assert (span (Ascii.eqb "/") (path_of segs) = ("", path_of segs)) as -> by done.
  rewrite bool_decide_eq_false_2 by done. cbn [free str_forallb negb]. rewrite Split_path by done. cbn [tail].
  destruct (parse_unclosed u [] segs) as [e ->]; [..|by eexists].
  - apply (forallb_Join _ "/"). unfold free, path_of in Hc. rewrite str_forallb_app in Hc. by apply andb_true_iff in Hc as [_ ?].
  - apply not_true_is_false. intros H. apply not_true_iff_false in Ho. apply Ho. unfold free, path_of.
    rewrite str_forallb_app. apply andb_true_iff. split; [done|]. clear -H.
    induction segs as [|x [|y segs] IH]; [done| |].
    + cbn [forallb] in H. by rewrite andb_true_r in H.
    + change (Join (x :: y :: segs) "/") with (x +:+ ("/" +:+ Join (y :: segs) "/")).
      apply andb_true_iff in H as [Hx H]. rewrite !str_forallb_app, (IH H). unfold free in Hx. by rewrite Hx.
Qed.
