(* ===== verification/Main.v ===== *)
(** * Package main: main.go, collector.go, helper.go

    The handlers, the collector over several measurements, the routes and the
    order of the start-up.  The two strategies are behind the interface
    [Strategy]; the HTTP mux is that of ServeMux; of the Prometheus
    registry the model keeps what was registered, in order. *)

From S2P Require Import Prelude GoInt GoFloat GoStrings Apis Samples Probe Config Measurement Exporting.
From S2P Require Ping Query ServeMux Metrics.
Open Scope Z_scope.

(** ** helper.go *)

Inductive Level := DebugLevel | ErrorLevel | FatalLevel | WarnLevel | InfoLevel.

Definition setLogLevel (l : string) : Level :=
  if bool_decide (l = "debug") then DebugLevel
  else if bool_decide (l = "error") then ErrorLevel
  else if bool_decide (l = "fatal") then FatalLevel
  else if bool_decide (l = "warn") then WarnLevel
  else InfoLevel.

Section main.
Context {A : AtlasAPI} {P : PromAPI}.

(** ** collector.go: a collector over measurements; [orders] and [clocks]
    give, for each, the order of its map and the times it reads. *)

Record collector := newCollector { measurements : list Measurement }.

Definition collector_Collect (c : collector) (run : list (list Z * (nat → Z))) : GoM World unit :=
  range_ (zip (measurements c) run) (λ '(m, (order, clock)), Collect m order clock).

Definition collector_Describe (c : collector) : list Desc :=
  concat (DescribeAll <$> measurements c).

(** ** The strategy interface

    What it answers within the deadline of the request's context. *)

Record Strategy := {
  MeasurementResults : list string → GoResult (list Measurement);
  IsHealthy : bool
}.

(** ** handleMetricsRequest *)

(** What a request's registry can hold. *)
Inductive registered :=
| ProcessCollector
| GoCollector
| StreamConnected
| LastDataTimestamp
| BuildInfo
| ScrapeDuration
| Measured (c : collector).

Inductive body :=
| NoBody
| Text (s : string)
| Exposition (reg : list registered).

Record Response := mkResponse { status : Z; content : body }.

(** The registrations of a request, in order. *)
Definition registrations (cfg : Config) (ms : list Measurement) : list registered :=
  (if Metrics_ProcessEnabled cfg then [ProcessCollector] else []) ++
  (if Metrics_GoEnabled cfg then [GoCollector] else []) ++
  [StreamConnected; LastDataTimestamp; BuildInfo; ScrapeDuration] ++
  (if 0 <? Z.of_nat (length ms) then [Measured (newCollector ms)] else []).

(** [reg.MustRegister] panics when the registry refuses a collector. *)
Context (refuses : list registered → registered → option string).

Fixpoint MustRegister (reg : list registered) (cs : list registered) : Outcome (list registered) :=
  match cs with
  | [] => Ret reg
  | c :: cs' =>
      match refuses reg c with
      | Some msg => Panic msg
      | None => MustRegister (reg ++ [c]) cs'
      end
  end.

(** What the registry asks of descriptions: those of one name agree in help
    and label names, no label is there twice, and the name is not in use.  The
    names of the process and Go collectors do not begin with atlas_. *)
Definition own_names : list string :=
  [Metrics.gv_Name Metrics.StreamConnectedGauge; Metrics.gv_Name Metrics.LastDataTimestampGauge;
   Metrics.gv_Name Metrics.BuildInfoGauge; "atlas_exporter_scrape_build_duration_seconds"].

Definition well_described (ds : list Desc) : Prop :=
  (∀ d d', d ∈ ds → d' ∈ ds → fqName d = fqName d' →
     help d = help d' ∧ variableLabels d = variableLabels d' ∧ (constLabels d).*1 = (constLabels d').*1) ∧
  ∀ d, d ∈ ds → NoDup (variableLabels d ++ (constLabels d).*1) ∧
    HasPrefix (fqName d) "atlas_" = true ∧ fqName d ∉ own_names.

(** The registry as documented: it takes the collectors of the client library
    and the exporter's own metrics, each once, and any collector with such
    descriptions. *)
Definition accepts : Prop :=
  ∀ reg c, c ∉ reg → (∀ coll, c = Measured coll → well_described (collector_Describe coll)) →
    refuses reg c = None.

(** The identifiers a request is about and the strategy that serves it: an
    explicit measurement_id is fetched by a new request strategy. *)
Definition request_ids (cfg : Config) (id : string) : list string :=
  if 0 <? str_len id then [id] else MeasurementIDs cfg.

Definition request_strategy (strategy fresh : Strategy) (id : string) : Strategy :=
  if 0 <? str_len id then fresh else strategy.

(** The state is the histogram ScrapeBuildDuration; [rawQuery] is the query of
    the request's URL, and [elapsed] the time since the request for the
    measurements began, in seconds. *)
Definition handleMetricsRequest (cfg : Config) (strategy fresh : Strategy) (rawQuery : string)
    (elapsed : float64) : GoM PromHist (GoResult Response) :=
  let id := Query.Query_Get rawQuery "measurement_id" in
  let ids := request_ids cfg id in
  let s := request_strategy strategy fresh id in
  if Z.of_nat (length ids) =? 0 then mret (Ok (mkResponse 200 NoBody))
  else
    match MeasurementResults s ids with
    | Err e => mret (Err e)
    | Ok ms =>
        reg ← lift (MustRegister [] (registrations cfg ms));
        modify (Observe elapsed) ;;
        mret (Ok (mkResponse 200 (Exposition reg)))
    end.

Definition errorHandler {S} (f : GoM S (GoResult Response)) : GoM S Response :=
  r ← f;
  match r with
  | Ok resp => mret resp
  | Err e => mret (mkResponse 500 (Text e))
  end.

Definition healthz : Response := mkResponse 200 (Text "ok
").

(** [strategy] is a nil interface before main has set it. *)
Definition readyz (strategy : option Strategy) : Response :=
  match strategy with
  | Some s => if IsHealthy s then mkResponse 200 (Text "ready
") else mkResponse 503 (Text "not ready
")
  | None => mkResponse 503 (Text "not ready
")
  end.

(** The index page; [dq] is a double quote. *)
Definition dq : string := String "034"%char "".

Definition index_page (version path host : string) : string :=
  "<html>
            <head><title>RIPE Atlas Exporter (Version " +:+ version +:+ ")</title></head>
            <body>
            <h1>RIPE Atlas Exporter</h1>
            <h2>Example</h2>
            <p>Metrics for measurement configured in configuration file:</p>
            <p><a href=" +:+ dq +:+ path +:+ dq +:+ ">" +:+ host +:+ path +:+ "</a></p>
            <p>Metrics for measurement with id 8809582:</p>
            <p><a href=" +:+ dq +:+ path +:+ "?measurement_id=8809582" +:+ dq +:+ ">" +:+ host +:+
  path +:+ "?measurement_id=8809582</a></p>
            <h2>More information</h2>
            <p><a href=" +:+ dq +:+ "https://github.com/rjocoleman/atlas_exporter" +:+ dq +:+
  ">github.com/rjocoleman/atlas_exporter</a></p>
            </body>
            </html>".

Definition printVersion (version : string) : list string :=
  ["atlas_exporter"; "Version: " +:+ version; "Author(s): Daniel Czerwonk, Robert Coleman";
   "Metric exporter for RIPE Atlas measurements";
   "This software uses Go bindings from the DNS-OARC project (https://github.com/DNS-OARC/ripeatlas)"].

(** ** Start-up *)

(** Whether a wildcard name outside ASCII is an identifier. *)
Context (unicode_name : string → bool).
Abbreviation HandleFunc := (ServeMux.HandleFunc unicode_name).

(** What importing net/http/pprof registers. *)
Definition pprof_paths : list string :=
  ["GET /debug/pprof/"; "GET /debug/pprof/cmdline"; "GET /debug/pprof/profile";
   "GET /debug/pprof/symbol"; "GET /debug/pprof/trace"].
Definition pprof : Outcome (list ServeMux.pattern) :=
  foldl (λ mux p, mux ← mux; HandleFunc mux p) (Ret []) pprof_paths.

(** The default mux when startServer begins: a new one without profiling. *)
Definition default_mux (cfg : Config) : Outcome (list ServeMux.pattern) :=
  if Profiling_Enabled cfg then pprof else Ret [].

(** How the wait at the end of startServer ends: the context is done, and
    Shutdown returns an error or not; or the listener returns. *)
Inductive wait_end :=
| CtxDone (shutdown : option string)
| ServeReturned (err : option string).

Definition ErrServerClosed : string := "http: Server closed".

Inductive action :=
| PrintVersion
| LogError
| Exit (code : Z)
| SetLogLevel (l : Level)
| SetBuildInfo
| StartStreaming (bufferSize : Z)
| UseRequests (workers : Z)
| Routes (mux : list string)
| InitCache (ttl cleanup : Z)
| ListenAndServe (tls : bool)
| Shutdown (deadline : Z)
| Fatal (err : string).

Definition after_wait (e : wait_end) : list action :=
  match e with
  | CtxDone None => [Shutdown (30 * Second)]
  | CtxDone (Some _) => [Shutdown (30 * Second); LogError]
  | ServeReturned None => []
  | ServeReturned (Some err) => if bool_decide (err = ErrServerClosed) then [] else [Fatal err]
  end.

(** The routes, then the cache, then the listener, then the wait. *)
Definition startServer (cfg : Config) (mux : list ServeMux.pattern) (e : wait_end) : Outcome (list action) :=
  mux ← HandleFunc mux "/";
  mux ← HandleFunc mux (Web_TelemetryPath cfg);
  mux ← HandleFunc mux "/healthz";
  mux ← HandleFunc mux "/readyz";
  Ret ([Routes (ServeMux.pat_str <$> mux); InitCache (Cache_TTL cfg) (Cache_Cleanup cfg); ListenAndServe (TLS_Enabled cfg)] ++
       after_wait e).

(** What main does, in order; a panic of startServer ends the process. *)
Definition main_actions (showVersion : bool) (load : GoResult Config) (e : wait_end) : Outcome (list action) :=
  if showVersion then Ret [PrintVersion; Exit 0]
  else
    match load with
    | Err _ => Ret [LogError; Exit 1]
    | Ok cfg =>
        let start := if Streaming_Enabled cfg then StartStreaming (Streaming_BufferSize cfg)
                     else UseRequests (Worker_Count cfg) in
        mux ← default_mux cfg;
        serve ← startServer cfg mux e;
        Ret ([SetLogLevel (setLogLevel (Log_Level cfg)); SetBuildInfo; start] ++ serve)
    end.

(** ** Lemmas *)

Lemma MustRegister_all reg cs :
  accepts → NoDup (reg ++ cs) →
  (∀ coll, Measured coll ∈ cs → well_described (collector_Describe coll)) →
  MustRegister reg cs = Ret (reg ++ cs).
Proof.
  intros H. revert reg. induction cs as [|c cs IH]; intros reg Hn Hw; simpl; [by rewrite app_nil_r|].
  rewrite H, IH.
  - by rewrite <-app_assoc.
  - by rewrite <-app_assoc.
  - intros coll Hc. apply Hw. by right.
  - intros Hc. apply NoDup_app in Hn as (_ & Hd & _). apply (Hd c Hc). left.
  - intros coll ->. apply Hw. left.
Qed.

Lemma registrations_all cfg ms :
  accepts → well_described (collector_Describe (newCollector ms)) →
  MustRegister [] (registrations cfg ms) = Ret (registrations cfg ms).
Proof.
  intros Ha Hw. rewrite MustRegister_all; [done|done|..].
  - unfold registrations. destruct (Metrics_ProcessEnabled cfg), (Metrics_GoEnabled cfg), (0 <? _);
      simpl; rewrite ?NoDup_cons, ?not_elem_of_cons; split_and?; try done;
      try apply not_elem_of_nil; apply NoDup_nil_2.
  - intros coll. unfold registrations.
    destruct (Metrics_ProcessEnabled cfg), (Metrics_GoEnabled cfg), (0 <? _);
      simpl; rewrite ?elem_of_cons, ?elem_of_nil; intros; destruct_or?; simplify_eq/=; done.
Qed.

(** *** The routes *)

Definition route (p : string) (segs : list string) : ServeMux.pattern :=
  ServeMux.mkPattern p "" "" (ServeMux.plain_segments segs).

Definition pprof_mux : list ServeMux.pattern :=
  (λ x, ServeMux.mkPattern ("GET /debug/pprof/" +:+ x) "GET" ""
          (ServeMux.plain_segments ["debug"; "pprof"; x])) <$> [""; "cmdline"; "profile"; "symbol"; "trace"].

Lemma default_mux_eq cfg : default_mux cfg = Ret (if Profiling_Enabled cfg then pprof_mux else []).
Proof. unfold default_mux. destruct (Profiling_Enabled cfg); [|done]. vm_compute. reflexivity. Qed.

Lemma HandleFunc_at mux s p :
  ServeMux.parsePattern unicode_name s = Ok p →
  if existsb (ServeMux.conflictsWith p) mux then ∃ msg, HandleFunc mux s = Panic msg
  else HandleFunc mux s = Ret (mux ++ [p]).
Proof.
  intros Hp. unfold ServeMux.HandleFunc. rewrite Hp. destruct (list_find _ mux) as [[i q]|] eqn:E.
  - apply list_find_Some in E as (Hi & Hq & _). apply list_elem_of_lookup_2 in Hi.
    rewrite (proj2 (existsb_exists _ _)) by (exists q; split; [by apply list_elem_of_In|done]). by eexists.
  - apply list_find_None in E. rewrite Forall_forall in E.
    destruct (existsb _ mux) eqn:Ex; [|done]. apply existsb_exists in Ex as (q & Hq%list_elem_of_In & Hc).
    by destruct (E q Hq).
Qed.

(** A path below the profiles, which are registered for GET only. *)
Definition below_pprof (segs : list string) : bool :=
  match segs with
  | x :: y :: z :: zs => bool_decide (x = "debug" ∧ y = "pprof" ∧ z :: zs ≠ [""])
  | _ => false
  end.

Definition first_routes (profiling : bool) : list ServeMux.pattern :=
  (if profiling then pprof_mux else []) ++ [route "/" [""]].

(** With which of them a plain telemetry path conflicts. *)
Lemma telemetry_conflicts profiling s segs :
  segs ≠ [] →
  existsb (ServeMux.conflictsWith (route s segs)) (first_routes profiling) =
    profiling && below_pprof segs || bool_decide (segs = [""]).
Proof.
  intros Hne. unfold first_routes. rewrite existsb_app. f_equal.
  - destruct profiling; [|done]. unfold pprof_mux, route. cbn [fmap list_fmap existsb].
    rewrite !ServeMux.conflicts_get. cbn [andb]. unfold below_pprof.
    rewrite <-(ServeMux.hides_slash "debug" "pprof" segs) by done.
    assert (∀ x, x ≠ "" → (match ServeMux.comparePaths (ServeMux.plain_segments segs)
      (ServeMux.plain_segments ["debug"; "pprof"; x]) with
      | ServeMux.moreSpecific | ServeMux.overlaps => true | _ => false end) = false) as Hno.
    { intros x Hx. etrans; [|by apply (ServeMux.hides_leaf "debug" "pprof" x segs)].
      cbn [ServeMux.plain_segments]. rewrite (bool_decide_eq_false_2 (x = "" ∧ _)) by naive_solver. done. }
    rewrite (Hno "cmdline"), (Hno "profile"), (Hno "symbol"), (Hno "trace") by done. by rewrite !orb_false_r.
  - cbn [existsb]. rewrite orb_false_r. unfold route. rewrite ServeMux.conflicts_paths.
    by apply ServeMux.clash_root.
Qed.

(** The routes of one segment conflict with the same path only. *)
Lemma leaf_conflicts h s segs :
  h ≠ "" → segs ≠ [] →
  ServeMux.conflictsWith (route ("/" +:+ h) [h]) (route s segs) = bool_decide (segs = [h]).
Proof.
  intros Hh Hne. unfold route. rewrite ServeMux.conflicts_paths. cbn [ServeMux.plain_segments].
  rewrite (bool_decide_eq_false_2 (h = "" ∧ _)) by naive_solver. by apply ServeMux.clash_leaf.
Qed.

Lemma leaf_first profiling h :
  h ∈ ["healthz"; "readyz"] →
  existsb (ServeMux.conflictsWith (route ("/" +:+ h) [h])) (first_routes profiling) = false ∧
  ServeMux.parsePattern unicode_name ("/" +:+ h) = Ok (route ("/" +:+ h) [h]).
Proof.
  rewrite !elem_of_cons. intros [->|[->|[]%not_elem_of_nil]]; destruct profiling; split; vm_compute; reflexivity.
Qed.

(** The paths that the other routes leave no room for. *)
Definition taken (profiling : bool) (segs : list string) : bool :=
  bool_decide (segs ∈ [[""]; ["healthz"]; ["readyz"]]) || profiling && below_pprof segs.

Lemma startServer_plain cfg segs e :
  Web_TelemetryPath cfg = ServeMux.path_of segs → segs ≠ [] → forallb (Query.free "/") segs = true →
  str_forallb ServeMux.plain (ServeMux.path_of segs) = true →
  let o := mux ← default_mux cfg; startServer cfg mux e in
  if taken (Profiling_Enabled cfg) segs then ∃ msg, o = Panic msg else ∃ acts, o = Ret acts.
Proof.
  intros Hpath Hne Hf Hp o. subst o. rewrite default_mux_eq. cbn [mbind Outcome_bind]. unfold startServer, taken.
  rewrite Hpath. set (pr := Profiling_Enabled cfg).
  assert (HandleFunc (if pr then pprof_mux else []) "/" = Ret (first_routes pr)) as ->
    by (destruct pr; vm_compute; reflexivity).
  cbn [mbind Outcome_bind]. set (p := route (ServeMux.path_of segs) segs).
  pose proof (HandleFunc_at (first_routes pr) _ p (ServeMux.parsePattern_plain _ segs Hne Hf Hp)) as H1.
  unfold p in H1 at 1. rewrite telemetry_conflicts in H1 by done.
  destruct (pr && below_pprof segs); cbn [orb] in H1;
    [rewrite orb_true_r; destruct H1 as [msg ->]; by eexists|rewrite orb_false_r].
  destruct (bool_decide_reflect (segs = [""])) as [->|Hroot].
  { rewrite bool_decide_eq_true_2 by left. destruct H1 as [msg ->]. by eexists. }
  rewrite H1. cbn [mbind Outcome_bind].
  destruct (leaf_first pr "healthz" ltac:(left)) as [Hh1 Hh2].
  pose proof (HandleFunc_at (first_routes pr ++ [p]) _ _ Hh2) as H2.
  rewrite existsb_app, Hh1 in H2. cbn [existsb orb] in H2. unfold p in H2 at 1. rewrite leaf_conflicts, orb_false_r in H2 by done.
  change ("/" +:+ "healthz") with "/healthz" in H2. destruct (bool_decide_reflect (segs = ["healthz"])) as [->|Hh].
  { destruct H2 as [msg ->]. rewrite bool_decide_eq_true_2 by set_solver. by eexists. }
  rewrite H2. cbn [mbind Outcome_bind]. destruct (leaf_first pr "readyz" ltac:(right; left)) as [Hr1 Hr2].
  pose proof (HandleFunc_at ((first_routes pr ++ [p]) ++ [route "/healthz" ["healthz"]]) _ _ Hr2) as H3.
  rewrite !existsb_app, Hr1 in H3. cbn [existsb orb] in H3. unfold p in H3 at 1.
  rewrite !leaf_conflicts, (bool_decide_eq_false_2 (["healthz"] = ["readyz"])), !orb_false_r in H3 by done.
  change ("/" +:+ "readyz") with "/readyz" in H3. destruct (bool_decide_reflect (segs = ["readyz"])) as [->|Hr].
  { destruct H3 as [msg ->]. rewrite bool_decide_eq_true_2 by set_solver. by eexists. }
  rewrite H3. cbn [mbind Outcome_bind]. rewrite bool_decide_eq_false_2 by set_solver. by eexists.
Qed.

(** Every path of a request. *)
Lemma handle_run cfg strategy fresh rawQuery elapsed h :
  accepts →
  let id := Query.Query_Get rawQuery "measurement_id" in
  (∀ ms, (if bool_decide (id = "") then MeasurementResults strategy (m_ID <$> Measurements cfg)
          else MeasurementResults fresh [id]) = Ok ms →
     well_described (collector_Describe (newCollector ms))) →
  errorHandler (handleMetricsRequest cfg strategy fresh rawQuery elapsed) h =
    if bool_decide (id = "" ∧ Measurements cfg = []) then (Ret (mkResponse 200 NoBody), h)
    else
      match (if bool_decide (id = "") then MeasurementResults strategy (m_ID <$> Measurements cfg)
             else MeasurementResults fresh [id]) with
      | Err e => (Ret (mkResponse 500 (Text e)), h)
      | Ok ms =>
          (Ret (mkResponse 200 (Exposition (registrations cfg ms))), Observe elapsed h)
      end.
Proof.
  intros Hr id. unfold errorHandler, handleMetricsRequest, request_ids, request_strategy, MeasurementIDs.
  fold id. clearbody id.
  assert (0 <? str_len id = negb (bool_decide (id = ""))) as -> by (by destruct id).
  unfold mbind, GoM_bind, lift. destruct (bool_decide_reflect (id = "")) as [->|Hid]; simpl; intros Hw.
  - destruct (Measurements cfg) as [|m ms] eqn:Em; simpl; [done|].
    rewrite ?bool_decide_eq_false_2 by naive_solver.
    destruct (MeasurementResults strategy _) as [rs|e]; [|done]. by rewrite registrations_all by (exact Hr || by apply Hw).
  - rewrite bool_decide_eq_false_2 by naive_solver.
    destruct (MeasurementResults fresh _) as [rs|e]; [|done]. by rewrite registrations_all by (exact Hr || by apply Hw).
Qed.

(** ** Properties *)

(** What a request for the metrics answers: nothing when no measurement
    is configured or named; status 500 with the strategy's error; otherwise
    the enabled process and Go collectors, the four metrics of the exporter
    itself and, if there are any, the measurements, after one observation of
    the build time.  A measurement_id in the query is always fetched alone
    and by the request strategy. *)
Theorem metrics_request_spec cfg strategy fresh rawQuery elapsed h :
  accepts →
  let id := Query.Query_Get rawQuery "measurement_id" in
  (∀ ms, (if bool_decide (id = "") then MeasurementResults strategy (m_ID <$> Measurements cfg)
          else MeasurementResults fresh [id]) = Ok ms →
     well_described (collector_Describe (newCollector ms))) →
  errorHandler (handleMetricsRequest cfg strategy fresh rawQuery elapsed) h =
    if bool_decide (id = "" ∧ Measurements cfg = []) then (Ret (mkResponse 200 NoBody), h)
    else
      match (if bool_decide (id = "") then MeasurementResults strategy (m_ID <$> Measurements cfg)
             else MeasurementResults fresh [id]) with
      | Err e => (Ret (mkResponse 500 (Text e)), h)
      | Ok ms =>
          (Ret (mkResponse 200 (Exposition (
             (if Metrics_ProcessEnabled cfg then [ProcessCollector] else []) ++
             (if Metrics_GoEnabled cfg then [GoCollector] else []) ++
             [StreamConnected; LastDataTimestamp; BuildInfo; ScrapeDuration] ++
             match ms with [] => [] | _ :: _ => [Measured (newCollector ms)] end))),
           Observe elapsed h)
      end.
Proof.
  intros Hr id Hw. rewrite handle_run by done. fold id. clear Hw. case_bool_decide; [done|].
  unfold registrations. by destruct (if bool_decide (id = "") then _ else _) as [[|]|].
Qed.

Lemma DescribeAll_in_collector c m : m ∈ measurements c → DescribeAll m ⊆ collector_Describe c.
Proof.
  intros Hm d Hd. apply elem_of_concat. exists (DescribeAll m). split; [done|].
  apply list_elem_of_fmap. eauto.
Qed.

(** Everything the collector of a request sends was described by it,
    whatever measurements of whatever types it is over. *)
Theorem collector_described `{!PromLaws} c run w :
  Forall (λ m, LawfulExporter (exporter m)) (measurements c) →
  ∃ ms, sent (collector_Collect c run w).2 = sent w ++ ms ∧
        Forall (λ m, metric_Desc m ∈ collector_Describe c) ms.
Proof.
  intros Hl. revert w. apply sends_only_range. intros [m [order clock]] Hin.
  assert (m ∈ measurements c) as Hm.
  { apply elem_of_zip_l in Hin. done. }
  eapply sends_only_mono; [by apply DescribeAll_in_collector|]. apply Collect_sends.
  rewrite Forall_forall in Hl. by apply Hl.
Qed.

(** The same in terms of the path. *)
Lemma taken_path profiling segs :
  segs ≠ [] → forallb (Query.free "/") segs = true →
  taken profiling segs =
    bool_decide (ServeMux.path_of segs ∈ ["/"; "/healthz"; "/readyz"] ∨
      profiling = true ∧ HasPrefix (ServeMux.path_of segs) "/debug/pprof/" = true ∧
        ServeMux.path_of segs ≠ "/debug/pprof/").
Proof.
  intros Hne Hf. unfold taken.
  assert (∀ l, l ≠ [] → forallb (Query.free "/") l = true → segs = l ↔ ServeMux.path_of segs = ServeMux.path_of l) as Hi
    by (intros; by rewrite ServeMux.path_of_inj).
  assert (below_pprof segs = true ↔ HasPrefix (ServeMux.path_of segs) "/debug/pprof/" = true ∧
    ServeMux.path_of segs ≠ "/debug/pprof/") as Hb.
  { rewrite HasPrefix_spec. split.
    - destruct segs as [|x [|y [|z zs]]]; try done. simpl. intros (-> & -> & Hz)%bool_decide_eq_true. split; [by eexists|].
      intros E. change "/debug/pprof/" with (ServeMux.path_of ["debug"; "pprof"; ""]) in E.
      apply (proj2 (Hi ["debug"; "pprof"; ""] ltac:(done) eq_refl)) in E. congruence.
    - intros [[r Hr] Hne']. destruct (ServeMux.Join_parts "/" r) as (l & Hl & Hlf & ->).
      destruct l as [|z zs]; [done|].
      assert (segs = "debug" :: "pprof" :: z :: zs) as ->.
      { apply Hi; [done|by cbn [forallb]|]. rewrite Hr. by destruct zs. }
      apply bool_decide_eq_true. split; [done|]. split; [done|]. by intros [= -> ->]. }
  apply eq_iff_eq_true. rewrite orb_true_iff, andb_true_iff, !bool_decide_eq_true, Hb, !elem_of_cons, elem_of_nil.
  rewrite (Hi [""]), (Hi ["healthz"]), (Hi ["readyz"]) by done.
  change (ServeMux.path_of [""]) with "/". change (ServeMux.path_of ["healthz"]) with "/healthz".
  change (ServeMux.path_of ["readyz"]) with "/readyz". clear. rewrite elem_of_nil. tauto.
Qed.

(** C32: whether the server starts.  From any configuration that Validate
    accepts, every telemetry path that begins with a slash gives another one
    that it accepts.  With a plain path, without blanks, braces and percent
    signs, the server starts unless the path is /, /healthz or /readyz, or,
    with profiling, below /debug/pprof/; with one of these, with a blank in the
    path, or with an opening brace that none closes, it panics. *)
Theorem startServer_routes cfg path e :
  Validate cfg (bucket_entries cfg) = None → HasPrefix path "/" = true →
  let cfg' := with_settings cfg path (Cache_Cleanup cfg) (Measurements cfg) in
  let o := mux ← default_mux cfg'; startServer cfg' mux e in
  Validate cfg' (bucket_entries cfg') = None ∧
  (str_forallb ServeMux.plain path = true →
     if bool_decide (path ∈ ["/"; "/healthz"; "/readyz"] ∨
          Profiling_Enabled cfg = true ∧ HasPrefix path "/debug/pprof/" = true ∧ path ≠ "/debug/pprof/")
     then ∃ msg, o = Panic msg else ∃ acts, o = Ret acts) ∧
  (str_forallb (λ c, negb (ServeMux.blank c)) path = false ∨
   Query.free "}" path = true ∧ Query.free "{" path = false → ∃ msg, o = Panic msg).
Proof.
  intros Hv Hp cfg' o. assert (0 <= Cache_Cleanup cfg) as Hc by (apply Validate_iff in Hv; [|done]; by apply Hv).
  split; [by apply Validate_with_settings|]. split.
  - intros Hpl. destruct (ServeMux.path_segments path Hp) as (segs & Hne & Hf & ->).
    rewrite <-taken_path by done. by apply (startServer_plain cfg' segs e).
  - intros Hbad. assert (∃ e, ServeMux.parsePattern unicode_name path = Err e) as [msg Hmsg].
    { destruct Hbad as [Hb|[Hc1 Ho]]; [by apply ServeMux.parsePattern_blank|by apply ServeMux.parsePattern_unclosed]. }
    subst o. rewrite default_mux_eq. cbn [mbind Outcome_bind]. unfold startServer.
    destruct (HandleFunc _ "/") as [mux|m]; cbn [mbind Outcome_bind]; [|by eexists].
    change (Web_TelemetryPath cfg') with path.
    assert (∃ m, HandleFunc mux path = Panic m) as [m ->] by (unfold ServeMux.HandleFunc; rewrite Hmsg; by eexists).
    by eexists.
Qed.

(** Main starts the streaming strategy, and with it the processor that
    reads the probe cache, before it creates that cache. *)
Theorem streaming_starts_before_cache cfg acts e :
  Streaming_Enabled cfg = true → main_actions false (Ok cfg) e = Ret acts →
  ∃ l1 l2 l3, acts = l1 ++ StartStreaming (Streaming_BufferSize cfg) :: l2 ++
    InitCache (Cache_TTL cfg) (Cache_Cleanup cfg) :: l3 ∧
    ∀ t c, InitCache t c ∉ l1 ++ l2.
Proof.
  intros Hs. unfold main_actions, startServer. rewrite Hs, default_mux_eq. cbn [mbind Outcome_bind].
  repeat (destruct (HandleFunc _ _) as [?|?]; cbn [mbind Outcome_bind]; [|done]).
  intros [= <-]. eexists [_; _], [_], (_ :: after_wait e). split; [reflexivity|]. intros t c. set_solver.
Qed.

End main.

(** ** Witnesses *)

Module MainW.
#[local] Existing Instances sAtlas sProm sPromLaws.

Definition strategy_w : Strategy :=
  {| MeasurementResults := λ _, Err "context deadline exceeded"; IsHealthy := true |}.
Definition hist_w : PromHist := {|
  hi_opts := {| Namespace := ""; Subsystem := ""; Name := "atlas_exporter_scrape_build_duration_seconds";
                Buckets := []; Help := ""; ConstLabels := [] |};
  hi_obs := [] |}.

(** A registry that looks at the names. *)
Definition refuses_w (reg : list registered) (c : registered) : option string :=
  match c with
  | Measured coll => if forallb (λ d, HasPrefix (fqName d) "atlas_") (collector_Describe coll) then None
                     else Some "name in use"
  | _ => None
  end.

Lemma accepts_w : accepts refuses_w.
Proof.
  intros reg c _ Hw. destruct c as [| | | | | |coll]; try done. simpl.
  destruct (Hw coll eq_refl) as [_ Hd]. assert (forallb (λ d, HasPrefix (fqName d) "atlas_") (collector_Describe coll) = true) as ->; [|done].
  apply forallb_forall. intros d Hin%list_elem_of_In. by apply Hd.
Qed.

Lemma metrics_request_spec_witness :
  errorHandler (handleMetricsRequest refuses_w defaultConfig strategy_w strategy_w "measurement_id=1001"
                  (f64_of_int 1)) hist_w =
    (Ret (mkResponse 500 (Text "context deadline exceeded")), hist_w).
Proof.
  apply (metrics_request_spec refuses_w defaultConfig strategy_w strategy_w "measurement_id=1001"
           (f64_of_int 1) hist_w).
  - apply accepts_w.
  - by intros ms.
Defined.

Definition ping_w : Measurement :=
  storeAll (NewMeasurement (Ping.pingExporter "1001") [])
    [(sPing 1 100 [f64_of_int 7], Some (mkProbe 1 1101 0 "NL" []))].
Definition collector_w : collector := newCollector [ping_w; ping_w].

Lemma collector_described_witness :
  ∃ ms, sent (collector_Collect collector_w [([1], λ _, 100); ([1], λ _, 101)] (mkWorld "" [])).2 =
          [] ++ ms ∧
        Forall (λ m, metric_Desc m ∈ collector_Describe collector_w) ms.
Proof.
  apply (collector_described collector_w [([1], λ _, 100); ([1], λ _, 101)] (mkWorld "" [])).
  repeat constructor; by apply Ping.pingExporter_lawful.
Defined.

(** The default path. *)
Lemma startServer_routes_witness :
  Validate defaultConfig (bucket_entries defaultConfig) = None ∧
  (str_forallb ServeMux.plain "/metrics" = true →
     ∃ acts, (mux ← default_mux (λ _, true) defaultConfig; startServer (λ _, true) defaultConfig mux (CtxDone None)) = Ret acts) ∧
  (str_forallb (λ c, negb (ServeMux.blank c)) "/metrics" = false ∨
   Query.free "}" "/metrics" = true ∧ Query.free "{" "/metrics" = false →
   ∃ msg, (mux ← default_mux (λ _, true) defaultConfig; startServer (λ _, true) defaultConfig mux (CtxDone None)) = Panic msg).
Proof. apply (startServer_routes (λ _, true) defaultConfig "/metrics" (CtxDone None)); reflexivity. Defined.

Definition actions_w : list action :=
  [SetLogLevel InfoLevel; SetBuildInfo; StartStreaming 100;
   Routes ["/"; "/metrics"; "/healthz"; "/readyz"]; InitCache (3600 * Second) (300 * Second);
   ListenAndServe false; Shutdown (30 * Second)].

Lemma streaming_starts_before_cache_witness :
  ∃ l1 l2 l3, actions_w = l1 ++ StartStreaming 100 :: l2 ++
    InitCache (3600 * Second) (300 * Second) :: l3 ∧ ∀ t c, InitCache t c ∉ l1 ++ l2.
Proof. by apply (streaming_starts_before_cache (λ _, true) defaultConfig actions_w (CtxDone None)). Defined.

End MainW.
