(* ===== verification/Exposition.v ===== *)
(** * The exposition of a scrape as a whole

    The Prometheus registry refuses two samples of one name with the same
    label values, and two descriptions of one name with other label names or
    help.  Here it is shown that the measurements of a scrape give it neither:
    the class [IdentifyingExporter] says that the samples of an export carry
    the measurement and the probe in their labels, the six packages discharge
    it, and the theorems follow for any collection of measurements. *)

From S2P Require Import Prelude GoInt GoFloat GoStrings GoParse Apis Samples Probe ProbeCache Config.
From S2P Require Import Measurement Exporting Helper EndToEnd.
From S2P Require Ping Traceroute Ntp Dns Http Sslcert Strategies Main.
Open Scope Z_scope.

Section series.
Context {A : AtlasAPI} {P : PromAPI}.

(** What makes a sample different from another for the registry: its name
    and the values of its labels, the constant ones included. *)
Definition series (m : Metric) : string * list (string * string) * list string :=
  (fqName (metric_Desc m), constLabels (metric_Desc m), metric_values m).

(** The measurement a sample is about, by its labels: the first variable label
    of the six packages' descriptions, the first constant one of their
    histograms. *)
Definition about (s : string * list (string * string) * list string) : option string :=
  match s.2 with
  | id :: _ => Some id
  | [] => snd <$> head s.1.2
  end.

(** A computation ends and appends to the channel metrics of which [Q] holds. *)
Definition emits (Q : list Metric → Prop) (f : GoM World unit) : Prop :=
  ∀ w, world_ok w → ∃ w' ms, f w = (Ret tt, w') ∧ world_ok w' ∧ sent w' = sent w ++ ms ∧ Q ms.

Lemma emits_mono (Q Q' : list Metric → Prop) f : (∀ ms, Q ms → Q' ms) → emits Q f → emits Q' f.
Proof.
  intros HQ Hf w Hw. destruct (Hf w Hw) as (w' & ms & E & Hw' & Hs & Hq).
  exists w', ms. split_and!; auto.
Qed.

Lemma emits_bind Q1 Q2 f g :
  emits Q1 f → emits Q2 g → emits (λ ms, ∃ a b, ms = a ++ b ∧ Q1 a ∧ Q2 b) (f ;; g).
Proof.
  intros Hf Hg w Hw. destruct (Hf w Hw) as (w1 & a & E1 & Hw1 & Hs1 & Ha).
  destruct (Hg w1 Hw1) as (w2 & b & E2 & Hw2 & Hs2 & Hb).
  exists w2, (a ++ b). erewrite bind_run by exact E1. split; [done|]. split; [done|].
  split; [by rewrite Hs2, Hs1, app_assoc|]. eauto.
Qed.

Lemma emits_range {B} (Q : B → list Metric → Prop) (l : list B) f :
  (∀ x, x ∈ l → emits (Q x) (f x)) →
  emits (λ ms, ∃ mss, ms = concat mss ∧ Forall2 Q l mss) (range_ l f).
Proof.
  induction l as [|x l IH]; intros Hf.
  - intros w Hw. exists w, []. rewrite app_nil_r. split_and!; try done. exists []. split; [done|constructor].
  - eapply emits_mono; [|apply emits_bind; [apply Hf; left|apply IH; intros y Hy; apply Hf; by right]].
    intros ms (a & b & -> & Ha & mss & -> & Hm). exists (a :: mss). split; [done|]. by constructor.
Qed.

(** A sent list is there once only, so two statements about it can be joined. *)
Lemma emits_and Q1 Q2 f : emits Q1 f → emits Q2 f → emits (λ ms, Q1 ms ∧ Q2 ms) f.
Proof.
  intros H1 H2 w Hw. destruct (H1 w Hw) as (w1 & a & E1 & Hw1 & Hs1 & Ha).
  destruct (H2 w Hw) as (w2 & b & E2 & _ & Hs2 & Hb). exists w1, a. rewrite E1 in E2. injection E2 as <-.
  rewrite Hs1 in Hs2. apply app_inv_head in Hs2 as <-. done.
Qed.

Lemma emits_sends Q ds f :
  emits Q f → sends_only ds f → emits (λ ms, Q ms ∧ Forall (λ m, metric_Desc m ∈ ds) ms) f.
Proof.
  intros H1 H2 w Hw. destruct (H1 w Hw) as (w1 & a & E1 & Hw1 & Hs1 & Ha).
  destruct (H2 w) as (b & Hs2 & Hb). exists w1, a. rewrite E1 in Hs2. simpl in Hs2.
  rewrite Hs1 in Hs2. apply app_inv_head in Hs2 as <-. done.
Qed.

(** All are different, and [T] holds of each. *)
Definition distinct (T : Metric → Prop) (ms : list Metric) : Prop := NoDup (series <$> ms) ∧ Forall T ms.

(** Loops whose turns are told apart by what [tag] reads in the samples. *)
Lemma distinct_concat {B K} (key : B → K) (tag : _ → K) (l : list B) mss :
  NoDup (key <$> l) → Forall2 (λ x, distinct (λ m, tag (series m) = key x)) l mss →
  NoDup (series <$> concat mss).
Proof.
  intros Hk Hm. change (series <$> concat mss) with (map series (concat mss)). rewrite concat_map.
  apply (NoDup_concat_tag key tag l); [done|]. apply Forall2_fmap_r.
  eapply Forall2_impl; [exact Hm|]. intros x ms [Hn Ht]. split; [done|]. by apply Forall_fmap.
Qed.

End series.

(** ** What exporters promise *)

Section identifying.
Context {A : AtlasAPI} {P : PromAPI}.

(** The labels measurement and probe of a sample. *)
Definition labelled (id : string) (prb : Z) (m : Metric) : Prop :=
  ∃ rest, metric_values m = id :: Itoa prb :: rest.

(** No two replies of an HTTP result have the same address, protocol version
    and method. *)
Definition replies_distinct (r : Result) : Prop :=
  NoDup ((λ h, (http_DstAddr h, http_Af h, http_Method h)) <$> HttpResults r).

(** The samples of one export differ from each other, and from those of
    exports for other probes and other measurements by their labels. *)
Class IdentifyingExporter (e : Exporter) (id : string) : Prop :=
  export_distinct r q :
    probe_labels_ok (Some q) = true → result_labels_ok r = true → replies_distinct r →
    emits (distinct (labelled id (ID q))) (Export e r (Some q)).

Context {L : PromLaws}.

Lemma series_gauges lvs samples :
  series <$> gauges lvs samples = (λ dv, (fqName dv.1, constLabels dv.1, lvs)) <$> samples.
Proof.
  unfold gauges. rewrite <-list_fmap_compose. apply list_fmap_ext. intros _ dv _. unfold series. simpl.
  by rewrite metric_desc_const, metric_values_const.
Qed.

Lemma gauges_distinct T lvs samples :
  NoDup ((λ dv : Desc * float64, fqName dv.1) <$> samples) →
  (∀ d v, T (const_metric d GaugeValue v lvs)) → distinct T (gauges lvs samples).
Proof.
  intros Hn HT. split.
  - rewrite series_gauges. apply (NoDup_fmap_1 (λ s : string * list (string * string) * list string, s.1.1)).
    by rewrite <-list_fmap_compose.
  - apply Forall_fmap, Forall_forall. intros [d v] _. apply HT.
Qed.

Lemma emits_gauges id prb f lvs samples fp :
  NoDup ((λ dv : Desc * float64, fqName dv.1) <$> samples) →
  (∃ rest, lvs = id :: Itoa prb :: rest) →
  ∀ w, world_ok w → str_forallb printable fp = true →
  f w = (Ret tt, mkWorld fp (sent w ++ gauges lvs samples)) →
  ∃ w' ms, f w = (Ret tt, w') ∧ world_ok w' ∧ sent w' = sent w ++ ms ∧ distinct (labelled id prb) ms.
Proof.
  intros Hn [rest ->] w Hw Hfp E. eexists _, (gauges _ samples). split; [exact E|].
  split; [exact Hfp|]. split; [done|]. apply gauges_distinct; [done|].
  intros d v. exists rest. by rewrite metric_values_const.
Qed.

End identifying.

(** The names of a list of samples, computed. *)
Ltac names_distinct :=
  simpl; rewrite ?BuildFQName_join by done; apply (bool_decide_unpack _); vm_compute; exact I.

(** The label values, from the definition of labelValues, and the first two. *)
Ltac label_list Hl :=
  cbn [mbind Outcome_bind deref] in Hl;
  repeat match type of Hl with
  | context [mbind _ ?o] => destruct o; cbn [mbind Outcome_bind] in Hl; [|discriminate Hl]
  end; injection Hl as <-.
Ltac label_heads Hl := label_list Hl; by eexists.

Section instances.
Context {A : AtlasAPI} {P : PromAPI} {L : PromLaws}.

#[export] Instance ping_identifying id (Hid : label_ok id = true) :
  IdentifyingExporter (Ping.pingExporter id) id.
Proof.
  intros r q Hp Hr _ w Hw. destruct (Ping.ping_Export_run id r (Some q) w Hid Hp Hr) as (lvs & Hl & E).
  eapply emits_gauges; [| |done|exact Hw|exact E].
  - unfold Ping.samples. case_match; names_distinct.
  - unfold Ping.labelValues in Hl. label_heads Hl.
Qed.

#[export] Instance traceroute_identifying id (Hid : label_ok id = true) :
  IdentifyingExporter (Traceroute.tracerouteExporter id) id.
Proof.
  intros r q Hp Hr _ w Hw.
  destruct (Traceroute.traceroute_Export_run id r (Some q) w Hid Hp Hr) as (lvs & Hl & E).
  eapply emits_gauges; [| |done|exact Hw|exact E].
  - unfold Traceroute.samples. destruct (Traceroute.processLastHop r). case_match; names_distinct.
  - unfold Traceroute.labelValues in Hl. label_heads Hl.
Qed.

#[export] Instance ntp_identifying id (Hid : label_ok id = true) :
  IdentifyingExporter (Ntp.ntpExporter id) id.
Proof.
  intros r q Hp Hr _ w Hw. destruct (Ntp.ntp_Export_run id r (Some q) w Hid Hp Hr) as (lvs & Hl & E).
  eapply emits_gauges; [| |done|exact Hw|exact E].
  - unfold Ntp.samples. names_distinct.
  - unfold Ntp.labelValues in Hl. label_heads Hl.
Qed.

#[export] Instance dns_identifying m (Hid : label_ok (Dns.id m) = true) :
  IdentifyingExporter (Dns.newExporter m) (Dns.id m).
Proof.
  intros r q Hp Hr _ w Hw. destruct (Dns.dns_Export_run m r (Some q) w Hid Hp Hr) as (lvs & Hl & E).
  eapply emits_gauges; [| |done|exact Hw|exact E].
  - unfold Dns.samples. repeat case_match; names_distinct.
  - unfold Dns.labelValues in Hl. label_heads Hl.
Qed.

#[export] Instance sslcert_identifying id (Hid : label_ok id = true) :
  IdentifyingExporter (Sslcert.sslCertExporter id) id.
Proof.
  intros r q Hp Hr _ w Hw. destruct (Sslcert.sslcert_Export_run id r (Some q) w Hid Hp Hr Hw) as (lvs & Hl & E).
  eapply emits_gauges; [| |done|apply (Sslcert.fp_label_printable r w Hw)|exact E].
  - unfold Sslcert.samples. destruct (SslcertAlert r), (f64_pos (Rt r)); names_distinct.
  - unfold Sslcert.labelValues in Hl. label_heads Hl.
Qed.

(** The labels that tell the replies of an HTTP result apart. *)
Definition reply_labels (s : string * list (string * string) * list string) :
  option string * option string * option string := (s.2 !! 2%nat, s.2 !! 4%nat, s.2 !! 6%nat).

Definition reply_key (h : HttpReply) : option string * option string * option string :=
  (Some (http_DstAddr h), Some (Itoa (http_Af h)), Some (http_Method h)).

Lemma NoDup_reply_key r : replies_distinct r → NoDup (reply_key <$> HttpResults r).
Proof.
  unfold replies_distinct. set (f := λ k : string * Z * string, (Some k.1.1, Some (Itoa k.1.2), Some k.2)).
  assert (Inj (=) (=) f) by (intros [[a b] c] [[a' b'] c'] [= -> Hb ->]; by apply (inj Itoa) in Hb as ->).
  intros Hd%(NoDup_fmap_2 f). by rewrite <-list_fmap_compose in Hd.
Qed.

Lemma reply_distinct id r q h :
  label_ok id = true → probe_labels_ok (Some q) = true → result_labels_ok r = true → h ∈ HttpResults r →
  distinct (λ m, labelled id (ID q) m ∧
    reply_labels (series m) = reply_key h)
    (Http.metrics_of id r (Some q) h).
Proof.
  intros Hid Hp Hr Hh. destruct (Http.http_labelValues_ok id r (Some q) h Hid Hp Hr Hh) as (lvs & Hl & _).
  unfold Http.metrics_of. rewrite Hl. unfold Http.labelValues in Hl.
  apply gauges_distinct; [unfold Http.samples; destruct (f64_pos (http_Rt h)); names_distinct|].
  intros d v. unfold labelled, reply_labels, series. rewrite metric_values_const.
  label_list Hl. split; [by eexists|done].
Qed.

#[export] Instance http_identifying id (Hid : label_ok id = true) :
  IdentifyingExporter (Http.httpExporter id) id.
Proof.
  intros r q Hp Hr Hd w Hw. eexists _, _. split; [by apply Http.http_Export_run|]. split; [done|].
  split; [done|]. unfold distinct.
  assert (Forall (λ h, distinct (λ m, labelled id (ID q) m ∧
    reply_labels (series m) = reply_key h)
    (Http.metrics_of id r (Some q) h)) (HttpResults r)) as Hall.
  { apply Forall_forall. intros h Hh. by apply reply_distinct. }
  split.
  - apply (distinct_concat reply_key reply_labels (HttpResults r)).
    + by apply NoDup_reply_key.
    + apply Forall2_fmap_r, Forall_Forall2_diag. eapply Forall_impl; [exact Hall|].
      intros h [Hn HT]. split; [done|]. eapply Forall_impl; [exact HT|]. by intros m [_ ?].
  - apply Forall_concat, Forall_fmap. eapply Forall_impl; [exact Hall|].
    intros h [_ HT]. eapply Forall_impl; [exact HT|]. by intros m [? _].
Qed.

End instances.

(** ** One measurement *)

Section collection.
Context {A : AtlasAPI} {P : PromAPI} {L : PromLaws}.

(** The description of a histogram with the measurement's name. *)
Definition names (k : string) (ds : list Desc) : Prop :=
  ∃ d, ds = [d] ∧ head (constLabels d) = Some ("measurement", k).

(** The exporter and the histogram, if there is one, carry the measurement's
    name. *)
Record identified (m : Measurement) (k : string) : Prop := {
  id_exporter : IdentifyingExporter (exporter m) k;
  id_histograms : Forall (λ h, names k (hist_Describe (Hist h))) (histograms m);
  id_one : (length (histograms m) <= 1)%nat
}.

(** A result with the probe it came from, both with valid labels. *)
Definition own_pair (mp : Result * option Probe) : Prop :=
  result_labels_ok mp.1 = true ∧ replies_distinct mp.1 ∧
  ∃ q, mp.2 = Some q ∧ ID q = PrbId mp.1 ∧ probe_labels_ok (Some q) = true.

Lemma emits_ext Q f g : (∀ w, f w = g w) → emits Q g → emits Q f.
Proof. intros Hfg Hg w Hw. rewrite Hfg. by apply Hg. Qed.

(** The results of a collection: told apart by the label probe. *)
Lemma emits_results r k order clock :
  IdentifyingExporter (exporter r) k → wf r → order ≡ₚ (map_to_list (latest r)).*1 →
  (∀ p v, latest r !! p = Some v → own_pair (v, probe_of r v)) →
  emits (distinct (λ m, ∃ prb, labelled k prb m))
    (range_ (exported r order clock) (λ iv, Export (exporter r) iv.2 (probe_of r iv.2))).
Proof.
  intros He Hwf Ho Hs. eapply emits_mono;
    [|apply (emits_range (λ iv : nat * Result, distinct (labelled k (PrbId iv.2))))].
  - intros ms (mss & -> & Hm). split.
    + apply (distinct_concat (λ iv : nat * Result, Some (Itoa (PrbId iv.2))) (λ s, s.2 !! 1%nat)
               (exported r order clock)).
      * pose proof (NoDup_exported r order clock Hwf Ho) as Hn.
        apply (NoDup_fmap_2 (λ p, Some (Itoa p))) in Hn. by rewrite <-!list_fmap_compose in Hn.
      * eapply Forall2_impl; [exact Hm|]. intros iv ms [Hn Hl]. split; [done|].
        eapply Forall_impl; [exact Hl|]. intros m [rest E]. unfold series. simpl. by rewrite E.
    + apply Forall_concat, Forall_forall. intros ms [i Hi]%list_elem_of_lookup.
      destruct (Forall2_lookup_r _ _ _ _ _ Hm Hi) as (iv & _ & _ & Hl).
      eapply Forall_impl; [exact Hl|]. by eexists.
  - intros [i v] [_ Hin%elem_of_imap_pair]%list_elem_of_filter.
    apply (elem_of_snapshot r order) in Hin; [|done..]. simpl.
    destruct (Hs _ _ Hin) as (Hr & Hd & q & Hq & Hid & Hp). simpl in Hq. rewrite Hq. simpl in Hid.
    rewrite <-Hid. by apply He.
Qed.

Lemma emits_histograms r k :
  Forall (λ h, names k (hist_Describe (Hist h))) (histograms r) →
  (length (histograms r) <= 1)%nat →
  emits (distinct (λ m, metric_values m = [] ∧ about (series m) = Some k))
    (range_ (histograms r) (λ h, range_ (hist_Collect (Hist h)) send)).
Proof.
  intros Hh Hone. destruct (histograms r) as [|h [|]] eqn:E; simpl in Hone; [..|lia].
  { intros w Hw. exists w, []. rewrite app_nil_r. split_and!; try done. split; constructor. }
  apply Forall_cons in Hh as [(d & Hd & Hk) _].
  destruct (hist_collect_one (Hist h)) as (m & Hm & Hv). rewrite <-E.
  assert (metric_Desc m = d) as Hmd.
  { apply list_elem_of_singleton. rewrite <-Hd. apply hist_collect_described. rewrite Hm. left. }
  intros w Hw. exists (mkWorld (certFingerprint w) (sent w ++ [m])), [m]. split_and!; try done.
  - rewrite E. cbn [range_]. by rewrite Hm.
  - split; [apply NoDup_singleton|]. apply Forall_singleton. split; [done|].
    unfold about, series. simpl. by rewrite Hv, Hmd, Hk.
Qed.

(** The results of one state of the object and the histograms of another. *)
Lemma CollectWith_distinct r r' k order clock :
  identified r k → identified r' k → wf r → order ≡ₚ (map_to_list (latest r)).*1 →
  (∀ p v, latest r !! p = Some v → own_pair (v, probe_of r v)) →
  emits (distinct (λ m, about (series m) = Some k)) (CollectWith r r' order clock).
Proof.
  intros [He _ _] [_ Hh Hone] Hwf Ho Hs.
  eapply emits_mono; [|eapply emits_ext; [|apply emits_bind;
    [apply (emits_results r k order clock He Hwf Ho Hs)|apply (emits_histograms r' k Hh Hone)]]].
  - intros ms (a & b & -> & [Hna Hla] & [Hnb Hlb]). split.
    + rewrite fmap_app. apply NoDup_app. split; [done|]. split; [|done].
      intros s (m & -> & Hm)%list_elem_of_fmap (m' & Es & Hm')%list_elem_of_fmap.
      rewrite Forall_forall in Hla, Hlb. destruct (Hla m Hm) as (prb & rest & E).
      destruct (Hlb m' Hm') as [E' _]. apply (f_equal snd) in Es. unfold series in Es. simpl in Es. congruence.
    + apply Forall_app. split.
      * eapply Forall_impl; [exact Hla|]. intros m (prb & rest & E). unfold about, series. simpl. by rewrite E.
      * eapply Forall_impl; [exact Hlb|]. by intros m [_ ?].
  - intros w. unfold CollectWith, exported, mbind, GoM_bind. by rewrite Collect_loop.
Qed.

Lemma Collect_distinct r k order clock :
  identified r k → wf r → order ≡ₚ (map_to_list (latest r)).*1 →
  (∀ p v, latest r !! p = Some v → own_pair (v, probe_of r v)) →
  emits (distinct (λ m, about (series m) = Some k)) (Collect r order clock).
Proof. intros Hi. by apply CollectWith_distinct. Qed.

End collection.

(** ** The measurements of a scrape *)

Section scrapes.
Context {A : AtlasAPI} {P : PromAPI} {L : PromLaws}.

(** The histogram of a package carries the measurement in its first constant
    label. *)
Lemma hist_named o h p id rest :
  ConstLabels o = ("measurement", id) :: rest → NewHistogram o = Ret h →
  Forall (λ h, names id (hist_Describe (Hist h))) [mkHistogram h p].
Proof.
  intros Hc Hn. apply Forall_singleton. eexists. split; [by apply NewHistogram_describe|]. simpl. by rewrite Hc.
Qed.

(** The options of the packages' histograms. *)
Definition rtt_opts (sub what id v : string) (b : list float64) : HistogramOpts := {|
  Namespace := "atlas"; Subsystem := sub; Name := "rtt_hist"; Buckets := b;
  Help := "Histogram of round trip times over all " +:+ what +:+ " requests";
  ConstLabels := [("measurement", id); ("ip_version", v)] |}.

(** The six cases of a new measurement. *)
Lemma measurementForType_cases (Q : Exporter → list Histogram → Prop) t id v cfg m :
  (∀ b h, NewHistogram (rtt_opts "ping" "ICMP" id v b) = Ret h →
     Q (Ping.pingExporter id) [mkHistogram h Ping.ProcessResult]) →
  (∀ b h, NewHistogram (rtt_opts "traceroute" "traceroute" id v b) = Ret h →
     Q (Traceroute.tracerouteExporter id) [mkHistogram h Traceroute.ProcessResult]) →
  Q (Ntp.ntpExporter id) [] →
  (∀ b h, NewHistogram (rtt_opts "dns" "DNS" id v b) = Ret h →
     Q (Dns.newExporter {| Dns.id := id; Dns.nsidEnabled := DNS_NSIDEnabled cfg |}) [mkHistogram h Dns.ProcessResult]) →
  (∀ b h, NewHistogram (rtt_opts "http" "HTTP" id v b) = Ret h →
     Q (Http.httpExporter id) [mkHistogram h Http.ProcessResult]) →
  Q (Sslcert.sslCertExporter id) [] →
  measurementForType t id v cfg = Ret (Ok m) → Q (exporter m) (histograms m).
Proof.
  intros Qp Qt Qn Qd Qh Qs. unfold measurementForType, ok.
  unfold Ping.NewMeasurement, Traceroute.NewMeasurement, Ntp.NewMeasurement, Dns.NewMeasurement,
      Http.NewMeasurement, Sslcert.NewMeasurement, Ping.newRttHistogram,
      Traceroute.newRttHistogram, Dns.newRttHistogram, Http.newRttHistogram.
  repeat case_bool_decide; try (intros [=]; done);
    try match goal with |- context [NewHistogram ?o] => destruct (NewHistogram o) as [h|] eqn:E; [|done] end;
    cbn [mbind Outcome_bind]; intros [= <-];
    destruct (FilterInvalidResults cfg), (0 <? MaxResultAge cfg);
    first [exact Qn|exact Qs|by eapply Qp|by eapply Qt|by eapply Qd|by eapply Qh].
Qed.

(** The round trip times in a result, for the types with a histogram: those of
    the replies, of the answer, or, for a traceroute whose last hop has a reply
    of the destination, of the last reply of that hop. *)
Definition rtt_times (t : string) (r : Result) : list float64 :=
  if bool_decide (t = "ping") then ping_Rtt <$> PingResults r
  else if bool_decide (t = "http") then http_Rt <$> HttpResults r
  else if bool_decide (t = "dns") then match DnsResult r with Some d => [dns_Rt d] | None => [] end
  else if bool_decide (t = "traceroute") then
    let replies := default [] (Replies <$> last (TracerouteResults r)) in
    if existsb (λ rep, bool_decide (From_ rep = DstAddr r)) replies
    then [default f64_zero (hop_Rtt <$> last replies)] else []
  else [].

Lemma traceroute_rtt_times r : traceroute_times r = rtt_times "traceroute" r.
Proof.
  unfold traceroute_times, rtt_times. rewrite Traceroute.processLastHop_eq. simpl.
  destruct (last (TracerouteResults r)) as [hop|]; [|done]. simpl.
  destruct (existsb _ _); [|done]. by destruct (last (Replies hop)).
Qed.

Lemma NewHistogram_empty o h :
  NewHistogram o = Ret h → "le" ∉ (ConstLabels o).*1 → observations h = [].
Proof.
  intros Hh Hle. destruct (increasing (Buckets o)) eqn:E.
  - destruct (NewHistogram_ok o E Hle) as (h' & Hh' & Ho). congruence.
  - destruct (NewHistogram_bad o E) as [msg Hp]. congruence.
Qed.

(** The histogram of a type observes these times of a result. *)
Lemma measurementForType_histogram t id v cfg m :
  measurementForType t id v cfg = Ret (Ok m) →
  if bool_decide (t ∈ ["ping"; "traceroute"; "dns"; "http"])
  then ∃ h, histograms m = [h] ∧ LawfulHistogram h (rtt_times t) ∧ observations (Hist h) = []
  else histograms m = [].
Proof.
  unfold measurementForType, ok.
  unfold Ping.NewMeasurement, Traceroute.NewMeasurement, Ntp.NewMeasurement, Dns.NewMeasurement,
      Http.NewMeasurement, Sslcert.NewMeasurement, Ping.newRttHistogram,
      Traceroute.newRttHistogram, Dns.newRttHistogram, Http.newRttHistogram.
  destruct (bool_decide_reflect (t = "ping")) as [->|]; [|destruct (bool_decide_reflect (t = "traceroute")) as [->|];
    [|destruct (bool_decide_reflect (t = "ntp")) as [->|]; [|destruct (bool_decide_reflect (t = "dns")) as [->|];
    [|destruct (bool_decide_reflect (t = "http")) as [->|]; [|destruct (bool_decide_reflect (t = "sslcert")) as [->|]]]]]];
    try match goal with |- context [NewHistogram ?o] => destruct (NewHistogram o) as [h|] eqn:E; [|done] end;
    cbn [mbind Outcome_bind]; intros [= <-];
    destruct (FilterInvalidResults cfg), (0 <? MaxResultAge cfg); simpl; try done;
    (eexists; split; [done|]; split; [|eapply NewHistogram_empty; [exact E|simpl; set_solver]]).
  all: try (apply ping_histogram); try (apply dns_histogram); try (apply http_histogram).
  all: destruct (traceroute_histogram h) as [H1 H2]; split; [|done]; intros r x; rewrite H1, traceroute_rtt_times; done.
Qed.

(** C25: in each of the four packages with a histogram, that histogram has
    observed, after any results were added to a new measurement, exactly the
    positive round trip times of the accepted results, in the order they were
    added; the other two packages have none. *)
Theorem histograms_observe_accepted t id v cfg mes0 l mes :
  measurementForType t id v cfg = Ret (Ok mes0) → AddAll mes0 l = Ret mes →
  if bool_decide (t ∈ ["ping"; "traceroute"; "dns"; "http"])
  then ∃ h, histograms mes = [h] ∧
    observations (Hist h) = filter (λ x, f64_pos x = true) (concat (rtt_times t <$> (filter (accepted mes0) l).*1))
  else histograms mes = [].
Proof.
  intros Hm Hall. pose proof (measurementForType_histogram t id v cfg mes0 Hm) as Hh.
  case_bool_decide; [|by rewrite (AddAll_storeAll _ _ _ Hall), storeAll_histograms, Hh].
  destruct Hh as (h & E & Hl & Ho).
  destruct (AddAll_observes mes0 l mes 0 h (rtt_times t) Hall) as (h' & Hh' & Hobs); [by rewrite E|done|].
  exists h'. rewrite Hobs, Ho. split; [|done].
  assert (length (histograms mes) = 1%nat) as Hlen
    by (by rewrite (AddAll_storeAll _ _ _ Hall), storeAll_histograms, length_fmap, E).
  destruct (histograms mes) as [|? [|]]; by simplify_eq/=.
Qed.

Lemma measurementForType_identified t id v cfg m :
  label_ok id = true → measurementForType t id v cfg = Ret (Ok m) → identified m id.
Proof.
  intros Hid Hm.
  enough (IdentifyingExporter (exporter m) id ∧ Forall (λ h, names id (hist_Describe (Hist h))) (histograms m) ∧
          (length (histograms m) <= 1)%nat) as (? & ? & ?) by (by split).
  pattern (exporter m), (histograms m).
  eapply measurementForType_cases; [..|exact Hm];
    first [intros b h E; split; [|split; [eapply hist_named; [|exact E]; reflexivity|simpl; lia]]
          |split; [|split; [constructor|simpl; lia]]].
  - by apply ping_identifying.
  - by apply traceroute_identifying.
  - by apply ntp_identifying.
  - by apply (dns_identifying {| Dns.id := id; Dns.nsidEnabled := DNS_NSIDEnabled cfg |}).
  - by apply http_identifying.
  - by apply sslcert_identifying.
Qed.

(** Processing a result does not change what a lawful histogram describes. *)
Lemma processed_describe h times l :
  LawfulHistogram h times →
  hist_Describe (Hist (foldl (λ h mp, ProcessResult h mp.1) h (l : list (Result * option Probe)))) =
    hist_Describe (Hist h).
Proof.
  revert h. induction l as [|[m p] l IH]; intros h Hh; [done|]. simpl.
  rewrite IH by (by apply lawful_ProcessResult). simpl. apply process_describe.
Qed.

Definition lawful_histograms (m : Measurement) : Prop :=
  Forall (λ h, ∃ times, LawfulHistogram h times) (histograms m).

Lemma fresh_lawful cfg r : fresh_measurement cfg r → lawful_histograms r.
Proof.
  intros (_ & _ & _ & _ & _ & Hh). eapply Forall_impl; [exact Hh|]. by intros h [_ ?].
Qed.

Lemma described_storeAll r l :
  lawful_histograms r →
  ((λ h, hist_Describe (Hist h)) <$> histograms (storeAll r l)) =
    ((λ h, hist_Describe (Hist h)) <$> histograms r).
Proof.
  intros Hh. rewrite storeAll_histograms, <-list_fmap_compose.
  apply list_fmap_ext. intros i h Hi. apply (Forall_lookup_1 _ _ _ _ Hh) in Hi as [times Ht].
  simpl. by apply (processed_describe h times).
Qed.

Lemma identified_storeAll cfg r l k : fresh_measurement cfg r → identified r k → identified (storeAll r l) k.
Proof.
  intros Hf [He Hh Hone]. pose proof (described_storeAll r l (fresh_lawful cfg r Hf)) as Hd. split.
  - by destruct (storeAll_fields r l) as (-> & _).
  - apply (Forall_fmap (λ h, hist_Describe (Hist h)) (names k)).
    rewrite Hd. by apply Forall_fmap.
  - apply (f_equal length) in Hd. rewrite !length_fmap in Hd. lia.
Qed.

(** What the strategies make: the object of [id], of a supported type, after
    some results. *)
Definition made (cfg : Config) (l : list (Result * option Probe)) (id : string) (m : Measurement) : Prop :=
  ∃ t v mes0, measurementForType t id v cfg = Ret (Ok mes0) ∧ AddAll mes0 l = Ret m.

Lemma made_identified cfg l id m :
  label_ok id = true → buckets_increasing cfg → made cfg l id m → Forall own_pair l →
  identified m id ∧ wf m ∧ ∀ p r, latest m !! p = Some r → own_pair (r, probe_of m r).
Proof.
  intros Hid Hb (t & v & mes0 & Hm & Hall) Hl.
  pose proof (Strategies.measurementForType_fresh t id v cfg mes0 Hid Hb Hm) as Hf.
  pose proof Hf as [Hem _]. pose proof (AddAll_fields _ _ _ Hem Hall) as [Hwf _].
  apply AddAll_storeAll in Hall as ->. split; [|split; [done|]].
  - eapply identified_storeAll; [done|]. by eapply measurementForType_identified.
  - intros p r Hr. eapply stored_storeAll; [done| |exact Hr].
    apply Forall_forall. intros mp [_ Hmp]%list_elem_of_filter. rewrite Forall_forall in Hl. by apply Hl.
Qed.

Lemma made_distinct cfg l id m order clock :
  label_ok id = true → buckets_increasing cfg → made cfg l id m → Forall own_pair l →
  order ≡ₚ (map_to_list (latest m)).*1 →
  emits (distinct (λ x, about (series x) = Some id)) (Collect m order clock).
Proof.
  intros Hid Hb Hmade Hl Ho. destruct (made_identified cfg l id m Hid Hb Hmade Hl) as (Hi & Hwf & Hs).
  by apply Collect_distinct.
Qed.

(** Conditions on what comes from outside: every document that is served carries
    the identifier it was asked for (an error document does not), has no or at
    least two coordinates (Latitude panics on one) and label values that the
    Prometheus client accepts. *)
Definition good_API (API : Z → Probe → Prop) : Prop :=
  ∀ x p, API x p → ID p = x ∧ probe_labels_ok (Some p) = true.

(** A result with label values that the client accepts and no two replies that
    the labels do not tell apart. *)
Definition good_result (r : Result) : Prop := result_labels_ok r = true ∧ replies_distinct r.

(** The object of [id] holds results with the probes they name. *)
Definition owned (cfg : Config) (id : string) (m : Measurement) : Prop :=
  label_ok id = true ∧ ∃ l, made cfg l id m ∧ Forall own_pair l.

(** The map orders in which the objects are visited. *)
Definition visits (ms : list Measurement) (run : list (list Z * (nat → Z))) : Prop :=
  Forall2 (λ m (oc : list Z * (nat → Z)), oc.1 ≡ₚ (map_to_list (latest m)).*1) ms run.

Lemma visits_keys ms run : (λ m, (map_to_list (latest m)).*1) <$> ms = run.*1 → visits ms run.
Proof.
  revert run. induction ms as [|m ms IH]; intros [|oc run] E; try done; constructor; rewrite !fmap_cons in E;
    injection E as E1 E2; [by rewrite E1|by apply IH].
Qed.

Lemma emits_collector cfg ids ms run :
  buckets_increasing cfg → Forall2 (owned cfg) ids ms → visits ms run →
  emits (λ xs, ∃ xss, xs = concat xss ∧ Forall2 (λ id, distinct (λ x, about (series x) = Some id)) ids xss)
    (Main.collector_Collect (Main.newCollector ms) run).
Proof.
  intros Hb Hm. revert run. unfold Main.collector_Collect. cbn [Main.measurements].
  induction Hm as [|id m ids ms (Hid & l & Hmade & Hl) Hm IH]; intros run Hrun;
    unfold visits in Hrun; apply Forall2_cons_inv_l in Hrun || apply Forall2_nil_inv_l in Hrun as ->.
  - intros w Hw. exists w, []. rewrite app_nil_r. split_and!; try done. exists []. split; [done|constructor].
  - destruct Hrun as ([order clock] & run' & Ho & Hrun & ->). simpl zip.
    eapply emits_mono; [|apply emits_bind; [by eapply made_distinct|by apply IH]].
    intros xs (a & b & -> & Ha & xss & -> & Hx). exists (a :: xss). split; [done|]. by constructor.
Qed.

(** No sample of a scrape repeats another: when the measurements have
    different identifiers and every result came with the probe it names, the
    collector of a scrape ends, and no two samples it sends, histograms
    included, agree in name and label values, whatever types the measurements
    have and whatever results they hold. *)
Lemma collector_distinct cfg ids ms run w :
  NoDup ids → buckets_increasing cfg → Forall2 (owned cfg) ids ms → visits ms run → world_ok w →
  ∃ w' xs, Main.collector_Collect (Main.newCollector ms) run w = (Ret tt, w') ∧
    sent w' = sent w ++ xs ∧ NoDup (series <$> xs).
Proof.
  intros Hn Hb Hm Hrun Hw.
  destruct (emits_collector cfg ids ms run Hb Hm Hrun w Hw) as (w' & xs & E & _ & Hs & xss & -> & Hx).
  exists w', (concat xss). split; [done|]. split; [done|].
  apply (distinct_concat Some about ids); [|done]. by apply (NoDup_fmap_2 Some).
Qed.

(** ** A measurement that is listed twice *)

(** The sample of a histogram. *)
Definition hist_series (h : Histogram) : string * list (string * string) * list string :=
  match hist_Describe (Hist h) with
  | d :: _ => (fqName d, constLabels d, [])
  | [] => ("", [], [])
  end.

Lemma hist_series_sent h x m :
  names x (hist_Describe (Hist h)) → hist_Collect (Hist h) = [m] → metric_values m = [] → series m = hist_series h.
Proof.
  intros (d & Hd & _) Hm Hv. unfold series, hist_series. rewrite Hv, Hd.
  assert (metric_Desc m = d) as ->; [|done].
  apply list_elem_of_singleton. rewrite <-Hd. apply hist_collect_described. rewrite Hm. left.
Qed.

Lemma emits_hist_series r k :
  Forall (λ h, names k (hist_Describe (Hist h))) (histograms r) →
  emits (λ xs, ∀ h, h ∈ histograms r → hist_series h ∈ series <$> xs)
    (range_ (histograms r) (λ h, range_ (hist_Collect (Hist h)) send)).
Proof.
  intros Hh. eapply emits_mono; [|apply (emits_range (λ h xs, hist_series h ∈ series <$> xs))].
  - intros xs (xss & -> & Hx) h [i Hi]%list_elem_of_lookup.
    destruct (Forall2_lookup_l _ _ _ _ _ Hx Hi) as (ys & Hy & Hin).
    apply list_elem_of_fmap in Hin as (m & -> & Hm). apply list_elem_of_fmap_2, elem_of_concat.
    exists ys. eauto using list_elem_of_lookup_2.
  - intros h Hin. rewrite Forall_forall in Hh. destruct (hist_collect_one (Hist h)) as (m & Hm & Hv).
    intros w Hw. exists (mkWorld (certFingerprint w) (sent w ++ [m])), [m]. rewrite Hm. split_and!; try done.
    rewrite <-(hist_series_sent h k m) by eauto. left.
Qed.

Lemma Collect_hist_series cfg id m order clock :
  buckets_increasing cfg → owned cfg id m → order ≡ₚ (map_to_list (latest m)).*1 →
  emits (λ xs, ∀ h, h ∈ histograms m → hist_series h ∈ series <$> xs) (Collect m order clock).
Proof.
  intros Hb (Hid & l & Hmade & Hl) Ho. destruct (made_identified cfg l id m Hid Hb Hmade Hl) as ([He Hh Hone] & Hwf & Hs).
  eapply emits_mono; [|eapply emits_ext; [|apply emits_bind;
    [apply (emits_results m id order clock He Hwf Ho Hs)|apply (emits_hist_series m id Hh)]]].
  - intros ms (a & b & -> & _ & Hbs) h Hin. rewrite fmap_app. apply elem_of_app. right. by apply Hbs.
  - intros w. unfold Collect, CollectWith, exported, mbind, GoM_bind. by rewrite Collect_loop.
Qed.

(** An object that is collected twice sends the sample of its histogram twice. *)
Lemma collected_twice cfg ids ms run w i j m h :
  Forall2 (owned cfg) ids ms → buckets_increasing cfg → visits ms run → world_ok w →
  ms !! i = Some m → ms !! j = Some m → i ≠ j → h ∈ histograms m →
  ∃ w' xs, Main.collector_Collect (Main.newCollector ms) run w = (Ret tt, w') ∧
    sent w' = sent w ++ xs ∧
    ∃ p q, p ≠ q ∧ (series <$> xs) !! p = Some (hist_series h) ∧ (series <$> xs) !! q = Some (hist_series h).
Proof.
  intros Hown Hb Hrun Hw Hi Hj Hij Hh. unfold Main.collector_Collect. cbn [Main.measurements].
  set (Q := λ (mr : Measurement * (list Z * (nat → Z))) (xs : list Metric),
              ∀ h, h ∈ histograms mr.1 → hist_series h ∈ series <$> xs).
  assert (length run = length ms) as Hlen by (symmetry; by eapply Forall2_length).
  destruct (emits_range Q (zip ms run) (λ '(m, (order, clock)), Collect m order clock)) with (w := w)
    as (w' & xs & E & _ & Hs & xss & -> & Hx); [|done|].
  - intros [m' [order clock]] [n Hn]%list_elem_of_lookup. apply lookup_zip_Some in Hn as [Hm' Hr'].
    destruct (Forall2_lookup_r _ _ _ _ _ Hown Hm') as (id & _ & Ho).
    pose proof (Forall2_lookup_lr _ _ _ _ _ _ Hrun Hm' Hr') as Hord. by eapply Collect_hist_series.
  - exists w', (concat xss). split; [done|]. split; [done|].
    change (series <$> concat xss) with (map series (concat xss)). rewrite concat_map.
    assert (∀ n, ms !! n = Some m → ∃ ys, map series <$> xss !! n = Some ys ∧ hist_series h ∈ ys) as Hat.
    { intros n Hmn. destruct (lookup_lt_is_Some_2 run n) as [oc Hoc]; [rewrite Hlen; by eapply lookup_lt_Some|].
      destruct (Forall2_lookup_l _ _ _ n (m, oc) Hx) as (ys & -> & Hys); [by apply lookup_zip_Some|].
      eexists. split; [done|]. by apply Hys. }
    destruct (Hat i Hi) as (a & Ha & Hina), (Hat j Hj) as (b & Hb' & Hinb).
    eapply concat_twice; [exact Hij|by rewrite list_lookup_fmap..|exact Hina|exact Hinb].
Qed.

End scrapes.

(** ** Descriptions *)

Section descriptions.
Context {A : AtlasAPI} {P : PromAPI} {L : PromLaws}.

(** What descriptions of one name must have in common. *)
Definition dimensions (d : Desc) : string * list string * list string :=
  (help d, variableLabels d, (constLabels d).*1).

(** The names in use, with their dimensions: the descriptions of the six
    packages and of the four histograms. *)
Definition hist_entry (sub what : string) : string * (string * list string * list string) :=
  (BuildFQName "atlas" sub "rtt_hist",
   ("Histogram of round trip times over all " +:+ what +:+ " requests", [], ["measurement"; "ip_version"])).

Definition catalogue : list (string * (string * list string * list string)) :=
  ((λ d, (fqName d, dimensions d)) <$> Ping.Describe ++ Traceroute.Describe ++ Ntp.Describe ++
     Dns.Describe ++ Http.Describe ++ Sslcert.Describe) ++
  [hist_entry "ping" "ICMP"; hist_entry "traceroute" "traceroute"; hist_entry "dns" "DNS"; hist_entry "http" "HTTP"].

Lemma catalogue_names : NoDup (catalogue.*1 ++ Main.own_names).
Proof. unfold catalogue, hist_entry. names_distinct. Qed.

(** Every name begins with atlas_, and no label is there twice. *)
Lemma catalogue_entries :
  Forall (λ e : string * (string * list string * list string),
    HasPrefix e.1 "atlas_" = true ∧ NoDup (e.2.1.2 ++ e.2.2)) catalogue.
Proof. unfold catalogue, hist_entry. names_distinct. Qed.

Lemma catalogue_functional n x y : (n, x) ∈ catalogue → (n, y) ∈ catalogue → x = y.
Proof.
  pose proof catalogue_names as [Hn _]%NoDup_app. intros Hx Hy.
  apply list_elem_of_lookup in Hx as [i Hi], Hy as [j Hj].
  assert (i = j) as ->; [|congruence].
  apply (NoDup_lookup _ i j n Hn); by rewrite list_lookup_fmap, ?Hi, ?Hj.
Qed.

(** The descriptions of a measurement. *)
Lemma measurementForType_catalogue t id v cfg m :
  measurementForType t id v cfg = Ret (Ok m) →
  Forall (λ d, (fqName d, dimensions d) ∈ catalogue) (DescribeAll m).
Proof.
  intros Hm. unfold DescribeAll. pattern (exporter m), (histograms m).
  set (listed := λ d, (fqName d, dimensions d) ∈ catalogue).
  assert (Forall listed (Ping.Describe ++ Traceroute.Describe ++ Ntp.Describe ++ Dns.Describe ++ Http.Describe ++
    Sslcert.Describe)) as Hc.
  { apply Forall_forall. intros d Hd. apply elem_of_app. left.
    by apply (list_elem_of_fmap_2 (λ d, (fqName d, dimensions d))). }
  rewrite !Forall_app in Hc. destruct Hc as (Hp & Ht & Hn & Hd & Hh & Hs).
  assert (∀ sub what b h,
    bool_decide ((sub, what) ∈ [("ping", "ICMP"); ("traceroute", "traceroute"); ("dns", "DNS"); ("http", "HTTP")]) = true →
    NewHistogram (rtt_opts sub what id v b) = Ret h → Forall listed (hist_Describe h ++ [])) as Hhist.
  { intros sub what b h Hin%bool_decide_eq_true E. rewrite (NewHistogram_describe _ _ E). apply Forall_singleton.
    apply elem_of_app. right. by apply (list_elem_of_fmap_2 (λ sw : string * string, hist_entry sw.1 sw.2)) in Hin. }
  eapply measurementForType_cases; [..|exact Hm]; intros; apply Forall_app; split.
  - exact Hp.
  - by eapply (Hhist "ping" "ICMP").
  - exact Ht.
  - by eapply (Hhist "traceroute" "traceroute").
  - exact Hn.
  - constructor.
  - exact Hd.
  - by eapply (Hhist "dns" "DNS").
  - exact Hh.
  - by eapply (Hhist "http" "HTTP").
  - exact Hs.
  - constructor.
Qed.

(** The objects that the strategies hand to the collector. *)
Definition some_made (cfg : Config) (m : Measurement) : Prop :=
  ∃ id l, label_ok id = true ∧ made cfg l id m.

Lemma made_well_described cfg ms :
  buckets_increasing cfg → Forall (some_made cfg) ms →
  Main.well_described (Main.collector_Describe (Main.newCollector ms)).
Proof.
  intros Hb Hms.
  assert (∀ d, d ∈ Main.collector_Describe (Main.newCollector ms) → (fqName d, dimensions d) ∈ catalogue) as Hds.
  { intros d (l & Hd & (m & -> & Hm)%list_elem_of_fmap)%elem_of_concat.
    rewrite Forall_forall in Hms. destruct (Hms m Hm) as (id & l & Hid & t & v & mes0 & Hmt & Hall).
    pose proof (Strategies.measurementForType_fresh t id v cfg mes0 Hid Hb Hmt) as Hf.
    pose proof (measurementForType_catalogue _ _ _ _ _ Hmt) as Hcat. rewrite Forall_forall in Hcat. apply Hcat.
    apply AddAll_storeAll in Hall as ->. unfold DescribeAll in Hd |- *.
    rewrite described_storeAll in Hd by (by eapply fresh_lawful). by destruct (storeAll_fields mes0 (filter (accepted mes0) l)) as (<- & _). }
  split.
  - intros d d' Hd Hd' E. apply Hds in Hd, Hd'. rewrite E in Hd.
    by injection (catalogue_functional _ _ _ Hd Hd') as -> -> ->.
  - intros d Hd%Hds. pose proof catalogue_entries as He. rewrite Forall_forall in He.
    destruct (He _ Hd) as [Hp Hn]. split; [done|]. split; [done|].
    pose proof catalogue_names as (_ & Hout & _)%NoDup_app. apply Hout.
    apply list_elem_of_fmap. by exists (fqName d, dimensions d).
Qed.

(** C23: the descriptions of a scrape are of one kind per name: whatever
    measurements of whatever types a collector is over, and whatever results
    they have taken, two of its descriptions with the same name agree in help
    and label names, no label is there twice, and no name is that of another
    metric of the process, so that the registry can refuse none. *)
Theorem descriptions_consistent cfg ms :
  buckets_increasing cfg → Forall (some_made cfg) ms →
  let ds := Main.collector_Describe (Main.newCollector ms) in
  (∀ d d', d ∈ ds → d' ∈ ds → fqName d = fqName d' →
     help d = help d' ∧ variableLabels d = variableLabels d' ∧ (constLabels d).*1 = (constLabels d').*1) ∧
  ∀ d, d ∈ ds → NoDup (variableLabels d ++ (constLabels d).*1) ∧
    HasPrefix (fqName d) "atlas_" = true ∧ fqName d ∉ Main.own_names.
Proof. intros Hb Hms ds. by apply (made_well_described cfg ms). Qed.

End descriptions.

(** ** Witnesses *)

Module ExpositionW.
#[local] Existing Instances sAtlas sProm sPromLaws.

(** A new measurement of a type. *)
Definition new_w (t : string) : Measurement :=
  match measurementForType t "1001" "4" defaultConfig with
  | Ret (Ok m) => m
  | _ => Measurement.NewMeasurement (Ping.pingExporter "") []
  end.

Lemma new_made t : t ∈ supported → made defaultConfig [] "1001" (new_w t).
Proof.
  intros Ht. exists t, "4", (new_w t). split; [|done]. unfold new_w.
  destruct (measurementForType_ok t "1001" "4" defaultConfig Ht) as (m & -> & _); [done|repeat constructor|done].
Qed.

Definition six_w : list Measurement := new_w <$> supported.

Lemma descriptions_consistent_witness :
  let ds := Main.collector_Describe (Main.newCollector six_w) in
  (∀ d d', d ∈ ds → d' ∈ ds → fqName d = fqName d' →
     help d = help d' ∧ variableLabels d = variableLabels d' ∧ (constLabels d).*1 = (constLabels d').*1) ∧
  ∀ d, d ∈ ds → NoDup (variableLabels d ++ (constLabels d).*1) ∧
    HasPrefix (fqName d) "atlas_" = true ∧ fqName d ∉ Main.own_names.
Proof.
  apply (descriptions_consistent defaultConfig six_w).
  - repeat constructor.
  - apply Forall_fmap, Forall_forall. intros t Ht. exists "1001", []. split; [done|]. by apply new_made.
Defined.

(** Of the three results with times, the last is rejected. *)
Definition observed_w : Measurement :=
  match AddAll (new_w "ping") ExportingW.added_w with Ret m => m | Panic _ => new_w "ping" end.

Lemma histograms_observe_accepted_witness :
  ∃ h, histograms observed_w = [h] ∧
    observations (Hist h) = filter (λ x, f64_pos x = true)
      (concat (rtt_times "ping" <$> (filter (accepted (new_w "ping")) ExportingW.added_w).*1)).
Proof.
  apply (histograms_observe_accepted "ping" "1001" "4" defaultConfig (new_w "ping") ExportingW.added_w observed_w);
    reflexivity.
Defined.

Example histogram_w : hi_obs <$> (Hist <$> histograms observed_w) = [[f64_of_int 7; f64_of_int 9]].
Proof. vm_compute. reflexivity. Qed.

End ExpositionW.
