(* ===== verification/Scrape.v ===== *)
(** * A scrape, from the streams to the answer

    The handler of package main over the streaming strategy, behind the
    interface [Strategy]. *)

From S2P Require Import Prelude GoInt GoFloat GoStrings Apis Samples Probe ProbeCache Config.
From S2P Require Import Measurement Exporting Helper StreamWorker StreamStrategy EndToEnd StreamSystem Exposition.
From S2P Require Query Main.
Open Scope Z_scope.

Section scrape.
Context {A : AtlasAPI} {P : PromAPI}.

(** The streaming strategy as a [Strategy]: the pointers that its
    MeasurementResults returns, read at the time of the collection. *)
Definition streaming_Strategy (cfg : Config) (s : streamingStrategy) (connected now : Z) : Main.Strategy := {|
  Main.MeasurementResults := λ ids, Ok (omap (λ p, heap s !! p) (MeasurementResults s ids));
  Main.IsHealthy := IsHealthy cfg s connected now
|}.

Lemma streaming_objects s ids :
  omap (λ p, heap s !! p) (MeasurementResults s ids) = omap (object s) ids.
Proof.
  unfold MeasurementResults. induction ids as [|k ids IH]; [done|]. cbn [omap list_omap].
  unfold object at 1. destruct (measurements s !! k) as [p|]; cbn [omap list_omap mbind option_bind]; [|exact IH].
  destruct (heap s !! p); [f_equal|]; exact IH.
Qed.

(** The object of a measurement is made of some of its results. *)
Lemma own_made cfg k l mes :
  Forall (λ mp : Result * option Probe, Itoa (MsmId mp.1) = k) l →
  own_all cfg None l = Ret (Some mes) → ∃ l' z, l' ⊆ l ∧ made cfg l' k mes ∧ k = Itoa z.
Proof.
  intros Hk. induction Hk as [|[m p] l Hm Hk IH]; intros Ho; [done|]. cbn [own_all] in Ho.
  unfold own_add in Ho. cbn [fst snd] in Ho, Hm. cbv beta iota in Ho. rewrite Hm in Ho.
  destruct (measurementForType _ _ _ _) as [[mes0|e]|e] eqn:Emt; cbn [mbind Outcome_bind] in Ho; [..|done].
  - exists ((m, p) :: l), (MsmId m). split; [done|]. split; [|done]. exists (MsmType m), (Itoa (Af m)), mes0. split; [done|].
    cbn [AddAll]. destruct (Add mes0 m p) as [mes1|]; cbn [mbind Outcome_bind] in Ho |- *; [|done].
    rewrite own_all_some in Ho. destruct (AddAll mes1 l); simplify_eq/=. done.
  - destruct (IH Ho) as (l' & z & Hl' & Hmade). exists l', z. split; [set_solver|done].
Qed.

(** Once the cache is there, whatever is under a name was made of results for
    that name. *)
Lemma streaming_made `{!PromLaws} cfg API ids bufferSize s0 s k mes :
  buckets_increasing cfg →
  rtc (sstep cfg API ids bufferSize) (start ids None) s0 → log s0 = [] → is_Some (vars (strategy s0)) →
  rtc (sstep cfg API ids bufferSize) s0 s → object (strategy s) k = Some mes →
  ∃ ops l z, Forall2 (λ x op, ∃ e, x.2 = Handled e ∧ looked_up API e x.1 op) (log s) ops ∧
    l ⊆ concat (zip_with found (log s).*1 ops) ∧ made cfg l k mes ∧ k = Itoa z.
Proof.
  intros Hb Hs0 Hlog0 Hv Hs Ho.
  destruct (ready_untouched API s0 (untouched_reach cfg API ids bufferSize s0 Hs0) Hlog0 Hv) as (Hp & Hready & Hnone).
  destruct (handled_reach _ _ _ _ _ s Hb Hs Hp Hready) as (_ & _ & new & ops & Hlog & Hnew & Hobj).
  rewrite Hlog0 in Hlog. simpl in Hlog. subst new. specialize (Hobj k). rewrite Hnone, Ho in Hobj.
  apply (own_made cfg k) in Hobj as (l & z & Hl & Hmade & Hz); [|apply Forall_filter_self].
  exists ops, l, z. split; [done|]. split; [|done].
  intros mp [_ Hmp]%Hl%list_elem_of_filter. done.
Qed.

Lemma streaming_described `{!PromLaws} cfg API ids bufferSize s0 s ks :
  buckets_increasing cfg →
  rtc (sstep cfg API ids bufferSize) (start ids None) s0 → log s0 = [] → is_Some (vars (strategy s0)) →
  rtc (sstep cfg API ids bufferSize) s0 s →
  Main.well_described (Main.collector_Describe (Main.newCollector (omap (object (strategy s)) ks))).
Proof.
  intros Hb Hs0 Hlog0 Hv Hs. apply (made_well_described cfg); [done|].
  apply Forall_forall. intros mes (k & _ & Ho)%list_elem_of_omap.
  destruct (streaming_made cfg API ids bufferSize s0 s k mes) as (ops & l & z & _ & _ & Hm & ->); [done..|].
  exists (Itoa z), l. split; [apply label_ok_printable, Itoa_printable|done].
Qed.

(** C1: the whole way of a result in streaming mode.  When the streams are
    quiet and the parts have come to rest, a request for the metrics without a
    measurement_id is answered with status 200 and a registry over the objects
    of the configured measurements that have one, in the order of the
    configuration.  Collecting the object of a measurement exports, once each
    and with a document that the API gave for its probe, the last accepted
    result of every probe among all the results that the workers received for
    it, in the order in which they entered the channel, if it is not older
    than max_result_age.
    Left out are only the results whose probe could not be retrieved.  The
    cache must have been set up before the first result was handled, the
    bucket bounds be strictly increasing, as the Prometheus client wants them,
    and max_result_age be a number of whole seconds. *)
Theorem streaming_scrape `{!PromLaws} refuses cfg API ids bufferSize s0 s fresh connected now rawQuery elapsed h
    a t0 t1 clock :
  Main.accepts refuses → buckets_increasing cfg → MaxResultAge cfg = a * Second → 0 <= a < 2 ^ 34 →
  0 <= t0 → t1 < 2 ^ 62 → (∀ i, t0 <= clock i <= t1) →
  Query.Query_Get rawQuery "measurement_id" = "" → Measurements cfg ≠ [] →
  rtc (sstep cfg API ids bufferSize) (start ids None) s0 → log s0 = [] → is_Some (vars (strategy s0)) →
  rtc (sstep cfg API ids bufferSize) s0 s → nf (istep cfg API bufferSize) s →
  ∃ ops ms,
    Forall2 (λ x op, ∃ e, x.2 = Handled e ∧ looked_up API e x.1 op) (log s) ops ∧
    (log s).*1 = (fed s).*2 ∧ (∀ i, by_worker i (fed s) = by_worker i (recvd s)) ∧
    Main.errorHandler (Main.handleMetricsRequest refuses cfg
      (streaming_Strategy cfg (strategy s) connected now) fresh rawQuery elapsed) h =
      (Ret (Main.mkResponse 200 (Main.Exposition (Main.registrations cfg ms))), Observe elapsed h) ∧
    ms = omap (object (strategy s)) (m_ID <$> Measurements cfg) ∧
    let l := concat (zip_with found (fed s).*2 ops) in
    ∀ k m p rest, k ∈ m_ID <$> Measurements cfg → results_of k l = (m, p) :: rest → MsmType m ∈ supported →
      ∃ mes0 mes, mes ∈ ms ∧ object (strategy s) k = Some mes ∧
        measurementForType (MsmType m) k (Itoa (Af m)) cfg = Ret (Ok mes0) ∧
        exposes mes0 mes (results_of k l) a t0 t1 clock.
Proof.
  intros Href Hb Hage Ha H0 H1 Hc Hq Hms Hs0 Hlog0 Hv Hs Hnf.
  destruct (system_exposes cfg API ids bufferSize s0 s a t0 t1 clock) as (ops & Hops & Hlog & Hr & Hk); [done..|].
  exists ops, (omap (object (strategy s)) (m_ID <$> Measurements cfg)).
  split; [done|]. split; [done|]. split; [done|]. split; [|split; [done|]].
  - rewrite Main.handle_run; [|done|]; rewrite Hq.
    + rewrite bool_decide_eq_false_2 by naive_solver.
      rewrite bool_decide_eq_true_2 by done. simpl. by rewrite streaming_objects.
    + rewrite bool_decide_eq_true_2 by done. intros ms'. simpl. rewrite streaming_objects. intros [= <-].
      by eapply streaming_described.
  - intros l k m p rest Hin Hl Ht.
    destruct (Hk k m p rest Hl Ht) as (ptr & mes0 & mes & Hm & Hptr & Hheap & Hex).
    assert (object (strategy s) k = Some mes) as Ho.
    { unfold MeasurementResults in Hptr. simpl in Hptr. unfold object.
      destruct (measurements (strategy s) !! k); simplify_eq/=. done. }
    exists mes0, mes. split; [|done]. apply list_elem_of_omap. by exists k.
Qed.

(** ** No sample twice *)

Lemma found_own API (lg : list (Result * fate)) ops :
  good_API API → Forall (λ x, good_result x.1) lg →
  Forall2 (λ x op, ∃ e, x.2 = Handled e ∧ looked_up API e x.1 op) lg ops →
  Forall own_pair (concat (zip_with found lg.*1 ops)).
Proof.
  intros Hapi Hlg Hops. induction Hops as [|x op lg ops (e & _ & Hop) Hops IH]; [constructor|].
  apply Forall_cons in Hlg as [[Hl Hd] Hlg]. rewrite fmap_cons. simpl. apply Forall_app. split; [|by apply IH].
  destruct op as [p|]; simpl; [|constructor]. apply Forall_singleton. destruct (Hapi _ _ Hop) as [Hid Hp].
  split; [done|]. split; [done|]. by exists p.
Qed.

(** Whatever is under a name was made of results for that name. *)
Lemma streaming_owned `{!PromLaws} cfg API ids bufferSize s0 s k mes :
  buckets_increasing cfg → good_API API →
  rtc (sstep cfg API ids bufferSize) (start ids None) s0 → log s0 = [] → is_Some (vars (strategy s0)) →
  rtc (sstep cfg API ids bufferSize) s0 s → Forall (λ x, good_result x.1) (log s) →
  object (strategy s) k = Some mes → owned cfg k mes.
Proof.
  intros Hb Hapi Hs0 Hlog0 Hv Hs Hgood Ho.
  destruct (streaming_made cfg API ids bufferSize s0 s k mes) as (ops & l & z & Hops & Hl & Hm & ->); [done..|].
  pose proof (found_own API (log s) ops Hapi Hgood Hops) as Hown.
  split; [apply label_ok_printable, Itoa_printable|]. exists l. split; [done|].
  rewrite Forall_forall in *. intros mp Hmp%Hl. by apply Hown.
Qed.

(** In streaming mode, with different identifiers in the configuration, no
    two samples of a scrape agree in name and label values, so that the
    registry refuses none, and the collection ends without a panic: at any
    time after the cache was set up, whatever results of whatever types were
    handled and in whatever order the maps are visited. *)
Theorem streaming_samples_unique `{!PromLaws} cfg API ids bufferSize s0 s run w :
  buckets_increasing cfg → good_API API → NoDup (m_ID <$> Measurements cfg) →
  rtc (sstep cfg API ids bufferSize) (start ids None) s0 → log s0 = [] → is_Some (vars (strategy s0)) →
  rtc (sstep cfg API ids bufferSize) s0 s → Forall (λ x, good_result x.1) (log s) →
  let ms := omap (object (strategy s)) (m_ID <$> Measurements cfg) in
  visits ms run → world_ok w →
  ∃ w' xs, Main.collector_Collect (Main.newCollector ms) run w = (Ret tt, w') ∧
    sent w' = sent w ++ xs ∧ NoDup (series <$> xs).
Proof.
  intros Hb Hapi Hn Hs0 Hlog0 Hv Hs Hgood ms Hrun Hw.
  eapply collector_distinct; [|done|apply Forall2_omap|done|done]; [by apply NoDup_filter|].
  intros k mes. by eapply streaming_owned.
Qed.

(** C31: an identifier may be listed twice: Validate does not look at the
    measurements, and accepts any list of them in a configuration that it
    accepts.  With a repeated identifier its object is collected twice, and
    whatever it holds, every scrape sends the sample of its histogram two
    times, of which the registry refuses one.  (As in C7 the documents of the
    probes carry their identifiers and the labels are valid, without which
    the collection may not get that far.) *)
Theorem duplicate_id_repeats `{!PromLaws} cfg API ids bufferSize ms l1 l2 l3 k :
  Validate cfg (bucket_entries cfg) = None → buckets_increasing cfg → good_API API →
  m_ID <$> ms = l1 ++ k :: l2 ++ k :: l3 →
  let cfg' := with_settings cfg (Web_TelemetryPath cfg) (Cache_Cleanup cfg) ms in
  Validate cfg' (bucket_entries cfg') = None ∧
  ∀ s0 s run w m h,
    rtc (sstep cfg' API ids bufferSize) (start ids None) s0 → log s0 = [] → is_Some (vars (strategy s0)) →
    rtc (sstep cfg' API ids bufferSize) s0 s → Forall (λ x, good_result x.1) (log s) →
    object (strategy s) k = Some m → h ∈ histograms m →
    let objects := omap (object (strategy s)) (m_ID <$> Measurements cfg') in
    visits objects run → world_ok w →
    ∃ w' xs, Main.collector_Collect (Main.newCollector objects) run w = (Ret tt, w') ∧
      sent w' = sent w ++ xs ∧
      ∃ p q, p ≠ q ∧ (series <$> xs) !! p = Some (hist_series h) ∧ (series <$> xs) !! q = Some (hist_series h).
Proof.
  intros Hval Hb Hapi Hids cfg'. split.
  { apply Validate_iff in Hval as Hvc; [|done]. apply Validate_with_settings; [done|apply HasPrefix_spec, Hvc|apply Hvc]. }
  intros s0 s run w m h Hs0 Hlog0 Hv Hs Hgood Ho Hh objects Hrun Hw.
  assert (objects = omap (object (strategy s)) l1 ++ m :: omap (object (strategy s)) l2 ++ m :: omap (object (strategy s)) l3) as Ems.
  { subst objects. change (Measurements cfg') with ms. rewrite Hids, omap_app. f_equal. simpl. rewrite Ho. f_equal.
    rewrite omap_app. f_equal. simpl. by rewrite Ho. }
  set (n1 := length (omap (object (strategy s)) l1)). set (n2 := length (omap (object (strategy s)) l2)).
  eapply (collected_twice cfg' _ objects run w n1 (n1 + S n2)%nat m h); [apply Forall2_omap|done|done|done|..|lia|done].
  - intros k' mes. by eapply streaming_owned.
  - rewrite Ems. apply list_lookup_middle. done.
  - rewrite Ems, lookup_app_r by lia. replace (n1 + S n2 - _)%nat with (S n2) by lia.
    simpl. by apply list_lookup_middle.
Qed.

(** C40: the readiness endpoint over the streaming strategy answers 200 exactly
    when a worker is connected and, if health.max_data_age is set, some result
    was handled at most that long ago; otherwise 503. *)
Theorem readyz_streaming cfg s connected now :
  0 <= lastDataTime s < 2 ^ 33 → 0 <= now < 2 ^ 62 → Health_MaxDataAge cfg < two63 - 1 →
  Main.status (Main.readyz (Some (streaming_Strategy cfg s connected now))) =
    if bool_decide (0 < connected ∧ (0 < Health_MaxDataAge cfg →
         lastDataTime s ≠ 0 ∧ now - lastDataTime s * Second <= Health_MaxDataAge cfg))
    then 200 else 503.
Proof.
  intros Hl Hn Hm. pose proof (IsHealthy_iff cfg s connected now Hl Hn Hm) as Hi. simpl.
  case_bool_decide as Hd.
  - by rewrite (proj2 Hi Hd).
  - destruct (IsHealthy cfg s connected now); [|done]. by destruct Hd; apply Hi.
Qed.

End scrape.

(** ** Witnesses *)

Module ScrapeW.
Import StreamW SystemW.
#[local] Existing Instances sAtlas sProm sPromLaws.

Definition hist_w : PromHist := {|
  hi_opts := {| Namespace := ""; Subsystem := ""; Name := "atlas_exporter_scrape_build_duration_seconds";
                Buckets := []; Help := ""; ConstLabels := [] |};
  hi_obs := [] |}.

Definition fresh_w : Main.Strategy := {| Main.MeasurementResults := λ _, Ok []; Main.IsHealthy := true |}.

Lemma streaming_scrape_witness :
  ∃ ops ms,
    Forall2 (λ x op, ∃ e, x.2 = Handled e ∧ looked_up API_w e x.1 op) (log final_w) ops ∧
    [first_w] = [first_w] ∧ (∀ i, by_worker i (fed final_w) = by_worker i (recvd final_w)) ∧
    Main.errorHandler (Main.handleMetricsRequest Main.MainW.refuses_w cfg_w
      (streaming_Strategy cfg_w handled_w 1 100) fresh_w "verbose=1" (f64_of_int 1)) hist_w =
      (Ret (Main.mkResponse 200 (Main.Exposition (Main.registrations cfg_w ms))), Observe (f64_of_int 1) hist_w) ∧
    ms = omap (object handled_w) ["1001"; "5001"] ∧
    let l := concat (zip_with found [first_w] ops) in
    ∀ k m p rest, k ∈ ["1001"; "5001"] → results_of k l = (m, p) :: rest → MsmType m ∈ supported →
      ∃ mes0 mes, mes ∈ ms ∧ object handled_w k = Some mes ∧
        measurementForType (MsmType m) k (Itoa (Af m)) cfg_w = Ret (Ok mes0) ∧
        exposes mes0 mes (results_of k l) 0 100 200 (λ _, 150).
Proof.
  apply (streaming_scrape Main.MainW.refuses_w cfg_w API_w ids_w 1 start_w final_w fresh_w 1 100 "verbose=1" (f64_of_int 1) hist_w
           0 100 200 (λ _, 150)).
  - apply Main.MainW.accepts_w.
  - repeat constructor.
  - reflexivity.
  - lia.
  - lia.
  - lia.
  - intros i. lia.
  - reflexivity.
  - done.
  - apply start_reach.
  - reflexivity.
  - by eexists.
  - apply final_sreach, handled_run.
  - apply (at_rest cfg_w API_w 1 _ 1).
Defined.

Lemma streaming_samples_unique_witness :
  ∃ w' xs, Main.collector_Collect (Main.newCollector (omap (object handled_w) ["1001"; "5001"]))
      [([1], λ _, 150)] (mkWorld "" []) = (Ret tt, w') ∧
    sent w' = [] ++ xs ∧ NoDup (series <$> xs).
Proof.
  apply (streaming_samples_unique cfg_w API_w ids_w 1 start_w final_w [([1], λ _, 150)] (mkWorld "" [])).
  - repeat constructor.
  - by intros x p [-> ->].
  - apply (bool_decide_unpack _). vm_compute. exact I.
  - apply start_reach.
  - reflexivity.
  - by eexists.
  - apply final_sreach, handled_run.
  - by repeat constructor.
  - apply visits_keys. vm_compute. reflexivity.
  - done.
Defined.

(** The same identifier twice. *)
Definition measurements_w : list MeasurementCfg := [{| m_ID := "1001" |}; {| m_ID := "1001" |}].
Definition twice_w : Config :=
  with_settings cfg_w (Web_TelemetryPath cfg_w) (Cache_Cleanup cfg_w) measurements_w.

Definition state_twice_w : streamingStrategy :=
  (processMeasurementResult twice_w env_w first_w (strategy start_w)).2.

Lemma twice_run : processMeasurementResult twice_w env_w first_w (strategy start_w) = (Ret tt, state_twice_w).
Proof.
  rewrite (surjective_pairing (processMeasurementResult _ _ _ _)). unfold state_twice_w.
  assert ((processMeasurementResult twice_w env_w first_w (strategy start_w)).1 = Ret tt) as ->; [|done].
  vm_compute. reflexivity.
Qed.

Lemma duplicate_id_repeats_witness :
  Validate twice_w (bucket_entries twice_w) = None ∧
  ∃ m h, object state_twice_w "1001" = Some m ∧ h ∈ histograms m ∧
    ∃ w' xs, Main.collector_Collect (Main.newCollector (omap (object state_twice_w) ["1001"; "1001"]))
        [([1], λ _, 150); ([1], λ _, 150)] (mkWorld "" []) = (Ret tt, w') ∧
      sent w' = [] ++ xs ∧
      ∃ p q, p ≠ q ∧ (series <$> xs) !! p = Some (hist_series h) ∧ (series <$> xs) !! q = Some (hist_series h).
Proof.
  destruct (duplicate_id_repeats cfg_w API_w ids_w 1 measurements_w [] [] [] "1001") as [Hv Hrep].
  - reflexivity.
  - repeat constructor.
  - by intros x p [-> ->].
  - reflexivity.
  - split; [exact Hv|].
    assert (length ∘ histograms <$> object state_twice_w "1001" = Some 1%nat) as Hl by (vm_compute; reflexivity).
    destruct (object state_twice_w "1001") as [m|] eqn:Em; [|discriminate].
    destruct (histograms m) as [|h hs] eqn:Eh; [simpl in Hl; rewrite Eh in Hl; discriminate|].
    exists m, h. rewrite Eh. split; [done|]. split; [left|].
    apply (Hrep start_w (final_of state_twice_w) [([1], λ _, 150); ([1], λ _, 150)] (mkWorld "" []) m h).
    + apply start_reach.
    + reflexivity.
    + by eexists.
    + apply final_sreach, twice_run.
    + by repeat constructor.
    + exact Em.
    + rewrite Eh. left.
    + apply visits_keys. vm_compute. reflexivity.
    + done.
Defined.

Lemma readyz_streaming_witness :
  Main.status (Main.readyz (Some (streaming_Strategy cfg_w ready_state 1 (100 * Second)))) = 200.
Proof.
  apply (readyz_streaming cfg_w ready_state 1 (100 * Second)); unfold Second, two63; simpl; lia.
Defined.

End ScrapeW.
