(* ===== verification/LiveScrape.v ===== *)
(** * A scrape while the streams go on

    MeasurementResults of the streaming strategy hands out pointers, and the
    collector follows them one after the other, long after the lock of the
    strategy was released: the processor adds results in the meantime.  Here
    the states of the system in which each object is copied and its histograms
    are read are arguments, any states that come one after the other. *)

From S2P Require Import Prelude GoInt GoFloat GoStrings Apis Samples Probe ProbeCache Config.
From S2P Require Import Measurement Exporting Helper StreamWorker StreamStrategy EndToEnd StreamSystem Exposition Scrape.
From S2P Require Strategies Main.
Open Scope Z_scope.

(** ** How an object changes *)

Section growth.
Context {A : AtlasAPI} {P : PromAPI}.

(** What a later state of an object has in common with an earlier one: nothing
    that was announced changes, no probe disappears, and the histograms go on
    counting where they were. *)
Record grows (m m' : Measurement) : Prop := {
  grows_exporter : exporter m' = exporter m;
  grows_age : maxResultAge m' = maxResultAge m;
  grows_described : DescribeAll m' = DescribeAll m;
  grows_probes : dom (latest m) ⊆ dom (latest m');
  grows_observed : Forall2 (λ h h', observations (Hist h) `prefix_of` observations (Hist h'))
                     (histograms m) (histograms m')
}.

Lemma storeAll_described m l :
  lawful_histograms m → DescribeAll (storeAll m l) = DescribeAll m.
Proof.
  intros Hh. unfold DescribeAll. destruct (storeAll_fields m l) as (-> & _). by rewrite described_storeAll.
Qed.

Lemma lawful_storeAll m l : lawful_histograms m → lawful_histograms (storeAll m l).
Proof.
  unfold lawful_histograms. intros Hh. rewrite storeAll_histograms. apply Forall_fmap.
  eapply Forall_impl; [exact Hh|]. intros h [times Ht]. exists times. simpl. revert h Ht.
  induction l as [|mp l IH]; intros h Ht; [done|]. by apply IH, lawful_ProcessResult.
Qed.

Lemma storeAll_grows m l : lawful_histograms m → grows m (storeAll m l).
Proof.
  intros Hh. destruct (storeAll_fields m l) as (He & _ & Ha). split; [done|done|by apply storeAll_described|..].
  - intros k [v Hv]%elem_of_dom. apply elem_of_dom. destruct (storeAll_lookup m l k) as [-> _].
    destruct (last _); by eexists.
  - rewrite storeAll_histograms. apply Forall2_fmap_r, Forall_Forall2_diag.
    eapply Forall_impl; [exact Hh|]. intros h [times Ht]. simpl.
    rewrite (processed_observations h times) by done.
    by apply prefix_app_r.
Qed.

Lemma made_lawful `{!PromLaws} cfg l k m :
  label_ok k = true → buckets_increasing cfg → made cfg l k m →
  LawfulExporter (exporter m) ∧ lawful_histograms m.
Proof.
  intros Hk Hb (t & v & mes0 & Hm & ->%AddAll_storeAll).
  pose proof (Strategies.measurementForType_fresh t k v cfg mes0 Hk Hb Hm) as Hf. split.
  - destruct (storeAll_fields mes0 (filter (accepted mes0) l)) as (-> & _). apply Hf.
  - by eapply lawful_storeAll, fresh_lawful.
Qed.

(** ** Pointers *)

Lemma AddAt_measurements p m probe s : measurements (AddAt p m probe s).2 = measurements s.
Proof.
  unfold AddAt, mbind, GoM_bind, get, lift, modify. destruct (heap s !! p) as [mes|]; [|done]. simpl.
  by destruct (Add mes m probe).
Qed.

(** An addition never moves an object. *)
Lemma add_pointer cfg m probe s k p :
  measurements s !! k = Some p → measurements (add cfg m probe s).2 !! k = Some p.
Proof.
  intros Hk. unfold add, mbind at 1, GoM_bind, get.
  destruct (measurements s !! Itoa (MsmId m)) as [q|] eqn:E; [by rewrite AddAt_measurements|].
  unfold mbind, GoM_bind, lift, modify. destruct (measurementForType _ _ _ _) as [[mes|e]|e]; try done.
  rewrite AddAt_measurements. simpl. rewrite lookup_insert_ne; [done|]. intros <-. congruence.
Qed.

Lemma process_pointer cfg e r s k p :
  measurements s !! k = Some p → measurements (processMeasurementResult cfg e r s).2 !! k = Some p.
Proof.
  intros Hk. unfold processMeasurementResult, mbind, GoM_bind, modify, on_vars.
  destruct (probeForID _ _ _ _ _) as [[[q|err]|err] v]; try done. by apply add_pointer.
Qed.

End growth.

(** ** A scrape in progress *)

Section live.
Context {A : AtlasAPI} {P : PromAPI}.
Context (cfg : Config) (API : Z → Probe → Prop) (ids : list string) (bufferSize : nat).

Abbreviation sstep := (sstep cfg API ids bufferSize).

(** The turn of the collector for one pointer: the states of the system when
    the results and probes are copied and when the histograms are read, the
    order of the map and the times read. *)
Record turn := mkTurn { ptr : nat; copied : sys; read : sys; visited : list Z; clock : nat → Z }.

Definition live_Collect (run : list turn) : GoM World unit :=
  range_ run (λ t,
    m ← lift (deref (heap (strategy (copied t)) !! ptr t));
    m' ← lift (deref (heap (strategy (read t)) !! ptr t));
    CollectWith m m' (visited t) (clock t)).

(** The turns for the pointers [ptrs], from state [s] on. *)
Inductive turns : sys → list nat → list turn → Prop :=
| turns_nil s : turns s [] []
| turns_cons s p ptrs a b order clk run :
    rtc sstep s a → rtc sstep a b →
    (∀ m, heap (strategy a) !! p = Some m → order ≡ₚ (map_to_list (latest m)).*1) →
    turns b ptrs run → turns s (p :: ptrs) (mkTurn p a b order clk :: run).

(** *** What the steps of the system keep *)

Lemma sstep_pointer s s' k p :
  sstep s s' → measurements (strategy s) !! k = Some p → measurements (strategy s') !! k = Some p.
Proof.
  intros [Hs|Hs] Hk; destruct Hs as [| | |w sd q r st st' rv fd lg e _ E|w sd q r st st' rv fd lg e msg _ E| | |] || destruct Hs;
    try done; simpl in *; rewrite <-(f_equal snd E : (processMeasurementResult cfg e r st).2 = st');
    by apply process_pointer.
Qed.

Lemma reach_pointer s s' k p :
  rtc sstep s s' → measurements (strategy s) !! k = Some p → measurements (strategy s') !! k = Some p.
Proof. induction 1; eauto using sstep_pointer. Qed.

Lemma sstep_log s s' : sstep s s' → log s `prefix_of` log s'.
Proof. intros [Hs|Hs]; destruct Hs; simpl; first [done|by apply prefix_app_r]. Qed.

Lemma reach_log s s' : rtc sstep s s' → log s `prefix_of` log s'.
Proof. induction 1 as [|s s1 s2 Hs _ IH]; [done|]. etrans; [by apply sstep_log|done]. Qed.

(** The system since the cache was set up, before a result was handled. *)
Definition warm (s0 : sys) : Prop :=
  rtc sstep (start ids None) s0 ∧ log s0 = [] ∧ is_Some (vars (strategy s0)).

Lemma object_grows `{!PromLaws} s0 s1 s2 k p :
  buckets_increasing cfg → warm s0 → rtc sstep s0 s1 → rtc sstep s1 s2 →
  measurements (strategy s1) !! k = Some p →
  ∃ m m', heap (strategy s1) !! p = Some m ∧ heap (strategy s2) !! p = Some m' ∧
    object (strategy s1) k = Some m ∧ object (strategy s2) k = Some m' ∧
    LawfulExporter (exporter m) ∧ grows m m'.
Proof.
  intros Hb (Hs0 & Hlog0 & Hv) H1 H2 Hk.
  destruct (ready_untouched API s0 (untouched_reach cfg API ids bufferSize s0 Hs0) Hlog0 Hv) as (Hp & Hready & _).
  destruct (handled_reach _ _ _ _ _ s1 Hb H1 Hp Hready) as (Hp1 & Hr1 & _).
  destruct (handled_reach _ _ _ _ _ s2 Hb H2 Hp1 Hr1) as (_ & _ & new & ops & _ & _ & Hobj). specialize (Hobj k).
  destruct Hr1 as [[Ha _] _ _]. destruct (lookup_lt_is_Some_2 _ p (Ha k p Hk)) as [m Hm].
  assert (object (strategy s1) k = Some m) as Ho by (unfold object; by rewrite Hk). rewrite Ho, own_all_some in Hobj.
  destruct (AddAll m _) as [m'|] eqn:Em; cbn [mbind Outcome_bind] in Hobj; [|done]. injection Hobj as Ho'.
  exists m, m'. pose proof (reach_pointer s1 s2 k p H2 Hk) as Hk'. symmetry in Ho'.
  split; [done|]. split; [unfold object in Ho'; by rewrite Hk' in Ho'|]. do 2 (split; [done|]).
  destruct (streaming_made cfg API ids bufferSize s0 s1 k m) as (ops1 & l & z & _ & _ & Hmade & ->); [done..|].
  destruct (made_lawful cfg l (Itoa z) m) as [He Hh]; [apply label_ok_printable, Itoa_printable|done..|].
  split; [done|]. apply AddAll_storeAll in Em as ->. by apply storeAll_grows.
Qed.

(** C19: in streaming mode the object of a measurement is never replaced: a
    pointer that was once handed out stays the one of its measurement, and
    what it points to only grows.  The descriptions stay as announced, no
    probe that was exported disappears except by its age, and the observations
    of a histogram are continued, so that its counters never fall back between
    two scrapes.  The cache was set up before the first result, and the bucket
    bounds are strictly increasing. *)
Theorem streaming_monotone `{!PromLaws} s0 s1 s2 k p :
  buckets_increasing cfg → warm s0 → rtc sstep s0 s1 → rtc sstep s1 s2 →
  MeasurementResults (strategy s1) [k] = [p] →
  MeasurementResults (strategy s2) [k] = [p] ∧
  ∃ m m', heap (strategy s1) !! p = Some m ∧ heap (strategy s2) !! p = Some m' ∧
    DescribeAll m' = DescribeAll m ∧ dom (latest m) ⊆ dom (latest m') ∧
    Forall2 (λ h h', observations (Hist h) `prefix_of` observations (Hist h')) (histograms m) (histograms m').
Proof.
  intros Hb H0 H1 H2 Hk.
  assert (measurements (strategy s1) !! k = Some p) as Hk1.
  { unfold MeasurementResults in Hk. simpl in Hk. by destruct (measurements (strategy s1) !! k); simplify_eq/=. }
  split; [unfold MeasurementResults; simpl; by rewrite (reach_pointer s1 s2 k p H2 Hk1)|].
  destruct (object_grows s0 s1 s2 k p Hb H0 H1 H2 Hk1) as (m & m' & Hm & Hm' & _ & _ & _ & Hg).
  exists m, m'. destruct Hg. done.
Qed.

(** *** The samples *)

(** One turn, for the measurement [k] that announced [ds]. *)
Lemma turn_emits `{!PromLaws} s0 s k p m a b order clk :
  buckets_increasing cfg → good_API API → warm s0 → rtc sstep s0 s →
  measurements (strategy s) !! k = Some p → heap (strategy s) !! p = Some m →
  rtc sstep s a → rtc sstep a b → Forall (λ x, good_result x.1) (log b) →
  (∀ m, heap (strategy a) !! p = Some m → order ≡ₚ (map_to_list (latest m)).*1) →
  emits (λ xs, distinct (λ x, about (series x) = Some k) xs ∧ Forall (λ x, metric_Desc x ∈ DescribeAll m) xs)
    (m ← lift (deref (heap (strategy a) !! p)); m' ← lift (deref (heap (strategy b) !! p)); CollectWith m m' order clk).
Proof.
  intros Hb Hapi H0 Hs Hk Hm Ha Hab Hgood Ho.
  destruct (object_grows s0 s a k p Hb H0 Hs Ha Hk) as (m0 & ma & Hm0 & Hma & _ & Hoa & He & Hga).
  rewrite Hm in Hm0. injection Hm0 as <-.
  destruct (object_grows s0 a b k p) as (m1 & mb & Hm1 & Hmb & _ & Hob & Hea & Hgb);
    [done|done|by etrans|done|by eapply reach_pointer|].
  rewrite Hma in Hm1. injection Hm1 as <-. pose proof H0 as (Hs0 & Hl0 & Hv).
  assert (Forall (λ x, good_result x.1) (log a)) as Hgooda by (destruct (reach_log a b Hab) as [l E]; rewrite E in Hgood; by apply Forall_app in Hgood as [? _]).
  destruct (streaming_owned cfg API ids bufferSize s0 a k ma) as (Hid & la & Hmade & Hla); [done..|by etrans|done|done|].
  destruct (streaming_owned cfg API ids bufferSize s0 b k mb) as (_ & lb & Hmadeb & Hlb); [done..|etrans; [done|by etrans]|done|done|].
  destruct (made_identified cfg la k ma) as (Hia & Hwf & Hown); [done..|].
  destruct (made_identified cfg lb k mb) as (Hib & _); [done..|].
  rewrite Hma, Hmb. eapply emits_ext; [intros w; reflexivity|].
  apply emits_sends; [by apply CollectWith_distinct; [..|apply Ho|]|].
  eapply sends_only_mono; [|by apply CollectWith_sends].
  rewrite <-(grows_described _ _ Hga). pose proof (grows_described _ _ Hgb) as E. unfold DescribeAll in E at 1.
  rewrite (grows_exporter _ _ Hgb) in E. by rewrite E.
Qed.

(** The pointers of [ks] in a state, and what their objects announced. *)
Definition held (s : sys) (announced : string → list Desc) (k : string) (p : nat) : Prop :=
  measurements (strategy s) !! k = Some p ∧
  ∃ m, heap (strategy s) !! p = Some m ∧ DescribeAll m = announced k.

Lemma held_later `{!PromLaws} s0 s s' D k p :
  buckets_increasing cfg → warm s0 → rtc sstep s0 s → rtc sstep s s' → held s D k p → held s' D k p.
Proof.
  intros Hb H0 Hs Hs' (Hk & m & Hm & Hd). split; [by eapply reach_pointer|].
  destruct (object_grows s0 s s' k p Hb H0 Hs Hs' Hk) as (m0 & m' & Hm0 & Hm' & _ & _ & _ & Hg).
  exists m'. split; [done|]. rewrite Hm in Hm0. injection Hm0 as <-. by rewrite (grows_described _ _ Hg).
Qed.

Lemma emits_live `{!PromLaws} s0 s D ks ptrs run :
  buckets_increasing cfg → good_API API → warm s0 → rtc sstep s0 s →
  Forall2 (held s D) ks ptrs → turns s ptrs run →
  Forall (λ t, Forall (λ x, good_result x.1) (log (read t))) run →
  emits (λ xs, ∃ xss, xs = concat xss ∧
      Forall2 (λ k ys, distinct (λ x, about (series x) = Some k) ys ∧ Forall (λ x, metric_Desc x ∈ D k) ys) ks xss)
    (live_Collect run).
Proof.
  intros Hb Hapi H0 Hs Hh Ht. revert ks Hs Hh. induction Ht as [s|s p ptrs a b order clk run Ha Hab Ho _ IH];
    intros ks Hs Hh Hgood.
  - apply Forall2_nil_inv_r in Hh as ->. intros w Hw. exists w, []. rewrite app_nil_r. split_and!; try done.
    exists []. split; [done|constructor].
  - apply Forall2_cons_inv_r in Hh as (k & ks' & Hk & Hh & ->). apply Forall_cons in Hgood as [Hg Hgood].
    assert (rtc sstep s b) as Hsb by (by etrans). pose proof Hk as (Hp & m & Hm & Hd).
    eapply emits_mono; [|apply emits_bind;
      [by apply (turn_emits s0 s k p m a b order clk)|apply (IH ks'); [by etrans| |done]]].
    + intros xs (x & y & -> & [Hx1 Hx2] & xss & -> & Hxss). exists (x :: xss). split; [done|].
      constructor; [|done]. by rewrite <-Hd.
    + eapply Forall2_impl; [exact Hh|]. intros k' p'. by eapply held_later.
Qed.

(** C7: a scrape in streaming mode is sound while results keep coming: from
    the moment the pointers are handed out, with each object copied and its
    histograms read in whatever later states of the system, the collection
    finds every object, ends without a panic, sends no two samples that agree
    in name and label values, and nothing that the objects did not announce
    when they were registered, for all measurement types together.  The
    conditions: the configured identifiers differ and the bucket bounds are
    strictly increasing; the cache was set up before the first result; every
    document the API serves carries the identifier it was asked for, has no
    or at least two coordinates and label values that are UTF-8, and so have
    the results; and no two replies of an HTTP result agree in address,
    protocol version and method. *)
Theorem live_scrape `{!PromLaws} s0 s1 run w :
  buckets_increasing cfg → good_API API → NoDup (m_ID <$> Measurements cfg) →
  warm s0 → rtc sstep s0 s1 →
  let ptrs := MeasurementResults (strategy s1) (m_ID <$> Measurements cfg) in
  turns s1 ptrs run → Forall (λ t, Forall (λ x, good_result x.1) (log (read t))) run → world_ok w →
  ∃ w' xs, live_Collect run w = (Ret tt, w') ∧ sent w' = sent w ++ xs ∧ NoDup (series <$> xs) ∧
    let c := Main.newCollector (omap (λ p, heap (strategy s1) !! p) ptrs) in
    Forall (λ x, metric_Desc x ∈ Main.collector_Describe c) xs.
Proof.
  intros Hb Hapi Hn H0 H1 ptrs Ht Hgood Hw.
  set (D := λ k, default [] (DescribeAll <$> object (strategy s1) k)).
  set (ks := filter (λ k, is_Some (measurements (strategy s1) !! k)) (m_ID <$> Measurements cfg)).
  assert (Forall2 (held s1 D) ks ptrs) as Hh.
  { apply Forall2_omap. intros k p Hk. split; [done|].
    destruct (object_grows s0 s1 s1 k p Hb H0 H1 (rtc_refl _ _) Hk) as (m & _ & Hm & _ & Ho & _).
    exists m. split; [done|]. unfold D. by rewrite Ho. }
  destruct (emits_live s0 s1 D ks ptrs run Hb Hapi H0 H1 Hh Ht Hgood w Hw) as (w' & xs & E & _ & Hs & xss & -> & Hx).
  exists w', (concat xss). do 2 (split; [done|]). split.
  - apply (distinct_concat Some about ks); [by apply (NoDup_fmap_2 Some), NoDup_filter|].
    eapply Forall2_impl; [exact Hx|]. by intros k ys [? _].
  - apply Forall_concat, Forall_forall. intros ys [i Hi]%list_elem_of_lookup.
    destruct (Forall2_lookup_r _ _ _ _ _ Hx Hi) as (k & Hki & _ & Hys).
    destruct (Forall2_lookup_l _ _ _ _ _ Hh Hki) as (p & Hp & _ & m & Hm & Hd). rewrite <-Hd in Hys.
    eapply Forall_impl; [exact Hys|]. intros x Hin. apply elem_of_concat. exists (DescribeAll m).
    split; [done|]. apply list_elem_of_fmap_2, list_elem_of_omap. eauto using list_elem_of_lookup_2.
Qed.

End live.

(** ** Witnesses *)

Module LiveW.
Import StreamW SystemW.
#[local] Existing Instances sAtlas sProm sPromLaws.

Lemma warm_w : warm cfg_w API_w ids_w 1 start_w.
Proof. split; [apply start_reach|]. split; [done|]. by eexists. Qed.

(** The object of the first result, when it has been handled and later. *)
Lemma streaming_monotone_witness :
  MeasurementResults (strategy final_w) ["1001"] = [0%nat] ∧
  ∃ m m', heap (strategy final_w) !! 0%nat = Some m ∧ heap (strategy final_w) !! 0%nat = Some m' ∧
    DescribeAll m' = DescribeAll m ∧ dom (latest m) ⊆ dom (latest m') ∧
    Forall2 (λ h h', observations (Hist h) `prefix_of` observations (Hist h')) (histograms m) (histograms m').
Proof.
  apply (streaming_monotone cfg_w API_w ids_w 1 start_w final_w final_w "1001" 0).
  - repeat constructor.
  - apply warm_w.
  - apply final_sreach, handled_run.
  - apply rtc_refl.
  - vm_compute. reflexivity.
Defined.

Definition run_w : list turn := [mkTurn 0 final_w final_w [1] (λ _, 150)].

Lemma live_scrape_witness :
  ∃ w' xs, live_Collect run_w (mkWorld "" []) = (Ret tt, w') ∧ sent w' = [] ++ xs ∧ NoDup (series <$> xs) ∧
    let c := Main.newCollector (omap (λ p, heap (strategy final_w) !! p)
               (MeasurementResults (strategy final_w) (m_ID <$> Measurements cfg_w))) in
    Forall (λ x, metric_Desc x ∈ Main.collector_Describe c) xs.
Proof.
  apply (live_scrape cfg_w API_w ids_w 1 start_w final_w run_w (mkWorld "" [])).
  - repeat constructor.
  - by intros x p [-> ->].
  - apply (bool_decide_unpack _). vm_compute. exact I.
  - apply warm_w.
  - apply final_sreach, handled_run.
  - replace (MeasurementResults (strategy final_w) (m_ID <$> Measurements cfg_w)) with [0%nat] by (vm_compute; reflexivity).
    constructor; [apply rtc_refl|apply rtc_refl| |constructor].
    intros m Hm. enough ((λ m, (map_to_list (latest m)).*1) <$> heap (strategy final_w) !! 0%nat = Some [1]) as E
      by (rewrite Hm in E; apply (f_equal (default [])) in E; symmetry; by apply (reflexive_eq (R := Permutation))).
    vm_compute. reflexivity.
  - by repeat constructor.
  - done.
Defined.

End LiveW.
