(* ===== verification/RequestScrape.v ===== *)
(** * A scrape by request, from the Atlas API to the answer

    The handler of package main over the request strategy: every scrape when
    streaming is off, and those with a measurement_id always.  The lookups of
    the probes are those of Lookups. *)

From S2P Require Import Prelude GoInt GoFloat GoStrings Json Apis Samples Probe ProbeCache Config.
From S2P Require Import Measurement Exporting Helper EndToEnd Strategies Exposition.
From S2P Require Lookups ProbesForResults RequestStrategy Query Main.
Open Scope Z_scope.

Section request_scrape.
Context {A : AtlasAPI} {P : PromAPI}.

(** [ctx.Err()] when the timeout is over *)
Definition deadline : string := "context deadline exceeded".

(** What MeasurementResults may return. *)
Definition request_answers (s : requestStrategy) (fetch : Z → GoResult Probe → Prop) (ids : list string)
    (r : GoResult (list Measurement)) : Prop :=
  ∃ st, rtc (RequestStrategy.fstep (produces s fetch) ids) (RequestStrategy.launch ids) st ∧
    match RequestStrategy.main st with
    | RequestStrategy.RRun _ => False
    | RequestStrategy.RRet res => r = Ok res
    | RequestStrategy.RCancelled => r = Err deadline
    end.


(** ** Lemmas *)


(** The values of a list of options, with the elements they belong to. *)
Lemma Forall2_omap_id {B C} (Q : B → option C → Prop) (R : B → C → Prop) l outs :
  Forall2 Q l outs → (∀ x y, x ∈ l → Q x (Some y) → R x y) →
  ∃ l', l' `sublist_of` l ∧ Forall2 R l' (omap (λ o, o) outs).
Proof.
  intros H. induction H as [|x o l outs Hx Hl IH]; intros HR; [by exists []; split|].
  destruct IH as (l' & Hs & Hf); [intros; apply HR; [by right|done]|].
  destruct o as [y|]; simpl.
  - exists (x :: l'). split; [by constructor|]. constructor; [apply HR; [left|done]|done].
  - exists l'. split; [by constructor|done].
Qed.

(** The measurements of an answer belong to identifiers of the request. *)
Lemma answers_outs s fetch ids ms :
  request_answers s fetch ids (Ok ms) →
  ∃ outs, Forall2 (produces s fetch) ids outs ∧ ms ≡ₚ omap (λ o, o) outs.
Proof.
  intros (st & Hst & Hmain).
  destruct (RequestStrategy.main st) as [res|res|] eqn:Em; [done| |done]. injection Hmain as ->.
  by apply (RequestStrategy.MeasurementResults_outs _ ids st res Hst Em).
Qed.


(** The measurements of an answer, each with its identifier. *)
Lemma produced_owned `{!PromLaws} s API ttl tc id mes :
  (0 < workers s)%nat → good_API API → label_ok id = true →
  (∀ rs r, atlasser s id = Ok rs → r ∈ rs → good_result r) →
  produces s (Lookups.outcome API ttl tc) id (Some mes) → owned (cfg s) id mes.
Proof.
  intros Hn Hapi Hlab Hres (pfr & Hpfr & E). symmetry in E.
  apply getMeasurementForID_some in E as (first & rs & ps & mes0 & Ha & -> & Hp & Hm & Hall).
  split; [done|]. exists (paired ps (first :: rs)).
  split; [by exists (MsmType first), (Itoa (Af first)), mes0|].
  apply Forall_fmap, Forall_forall. intros r Hr. destruct (Hres _ r Ha Hr) as [Hl Hd].
  destruct (outcome_probes _ _ _ ps Hn ltac:(intros x p _ Hx%Lookups.outcome_from; by apply Hapi) (Hpfr _ Ha) r Hr) as (p & Ep & Hx%Lookups.outcome_from).
  destruct (Hapi _ _ Hx) as [Hid Hok]. split; [done|]. split; [done|]. by exists p.
Qed.

(** ** Properties *)


(** C24: a scrape by request with different identifiers sends no two samples
    that agree in name and label values, and its collection ends without a
    panic, in whatever order the goroutines delivered their measurements.  The
    conditions are those of the live scrape: at least one worker, strictly
    increasing bucket bounds, identifiers and results with valid label values,
    no two replies of an HTTP result that agree in address, version and
    method, and documents that carry the identifier they were asked for and
    have no or at least two coordinates; without them samples can agree, or
    an export panic. *)
Theorem request_samples_unique `{!PromLaws} s API ttl tc ids ms run w :
  (0 < workers s)%nat → good_API API → buckets_increasing (cfg s) →
  NoDup ids → Forall (λ id, label_ok id = true) ids →
  (∀ id rs r, id ∈ ids → atlasser s id = Ok rs → r ∈ rs → good_result r) →
  request_answers s (Lookups.outcome API ttl tc) ids (Ok ms) →
  visits ms run → world_ok w →
  ∃ w' xs, Main.collector_Collect (Main.newCollector ms) run w = (Ret tt, w') ∧
    sent w' = sent w ++ xs ∧ NoDup (series <$> xs).
Proof.
  intros Hn Hapi Hb Hnd Hlab Hres (outs & Houts & Hperm)%answers_outs Hrun Hw.
  destruct (Forall2_omap_id _ (owned (cfg s)) ids outs Houts) as (ids' & Hsub & Hown).
  { intros id mes Hid Hp. rewrite Forall_forall in Hlab. eapply produced_owned; eauto. }
  apply Forall2_flip in Hown. symmetry in Hperm.
  destruct (Permutation_Forall2 Hperm Hown) as (ids'' & Hids & Hown'). apply Forall2_flip in Hown'.
  eapply collector_distinct; [|done|exact Hown'|done|done].
  rewrite <-Hids. by eapply sublist_NoDup.
Qed.

End request_scrape.

(** ** Witnesses *)

Module RequestScrapeW.
#[local] Existing Instances sAtlas sProm sPromLaws.
Import StrategiesW ProbesForResults.ProbesW.

(** The API knows probe 1 only. *)
Definition body_w : string := json_text "{'id':1,'asn_v4':1101,'country_code':'NL'}".
Definition client_w : HttpClient := λ u, if bool_decide (u = url +:+ "1") then Ok (Ok body_w) else Err "not found".
Definition API_w (id : Z) (p : Probe) : Prop := id = 1 ∧ p = prb 1.

Lemma request_serves_w : serves API_w client_w.
Proof.
  intros id p. unfold Get, client_w. case_bool_decide as Hu; [|done].
  apply (inj _) in Hu. change "1" with (Itoa 1) in Hu. apply (inj Itoa) in Hu as ->.
  intros H. vm_compute in H. by injection H as <-.
Qed.

Lemma outcome_w : Lookups.outcome API_w 60 0 1 (Ok (prb 1)).
Proof.
  eexists _, 0%nat, 0. split.
  - eapply rtc_l; [apply Lookups.l_call with (id := 1)|].
    eapply rtc_l; [by apply (Lookups.l_miss _ _ _ _ _ _ _ 0%nat 1 None)|].
    eapply rtc_l; [apply (Lookups.l_answer _ _ _ _ _ _ _ 0%nat 1 client_w (prb 1));
      [done|apply request_serves_w|vm_compute; reflexivity]|].
    eapply rtc_l; [by apply (Lookups.l_add _ _ _ _ _ _ _ 0%nat 1 (prb 1))|]. apply rtc_refl.
  - done.
Qed.



Lemma answers_w : request_answers request_w (Lookups.outcome API_w 60 0) ["1001"] (Ok [mes_w]).
Proof. exists returned_w. split; [apply returned_any, outcome_w|done]. Qed.


Lemma request_samples_unique_witness :
  ∃ w' xs, Main.collector_Collect (Main.newCollector [mes_w]) [([1], λ _, 150)] (mkWorld "" []) = (Ret tt, w') ∧
    sent w' = [] ++ xs ∧ NoDup (series <$> xs).
Proof.
  apply (request_samples_unique request_w API_w 60 0 ["1001"] [mes_w] [([1], λ _, 150)] (mkWorld "" [])).
  - apply Nat.lt_0_1.
  - by intros x p [-> ->].
  - repeat constructor.
  - apply NoDup_singleton.
  - by repeat constructor.
  - intros id rs r _ [= <-]. unfold rest_w. rewrite !elem_of_cons. intros [->|[->|[]%not_elem_of_nil]]; by repeat constructor.
  - apply answers_w.
  - apply visits_keys. vm_compute. reflexivity.
  - done.
Defined.

End RequestScrapeW.
